(* ===== verification/_CoqProject ===== *)
-Q . S2P
Prelude.v
CppString.v
State.v
Types.v
Utils.v
Uevent.v
PartitionTable.v
Json.v
Voldata.v
VoldataFacts.v
VoldataSpec.v
VoldataRefine.v
BlockInfo.v
World.v
Adapters.v
DmQuery.v
Events.v
DmMount.v
DmPartition.v
DmOptical.v
SysfsReader.v
Bootstrap.v
Provider.v
Paths.v
Safety.v
SafetyDm.v
SafetyMount.v
SafetyPart.v
SafetyBoot.v
SafetyProv.v
VoldataStore.v
Seq.v
Scenario.v
Service.v
MountFacts.v
AccessFacts.v
QueryFacts.v
PartFacts.v
Parcel.v
Marshal.v
MarshalFacts.v
DaemonProxy.v
ProxyFacts.v
BootFacts.v
FormatFacts.v
RemoveFacts.v
PartOps.v
JsErrors.v
Client.v
ClientFacts.v
Taihe.v
TaiheFacts.v
JsKit.v
JsKitFacts.v
DfsService.v
DfsFacts.v
WaitFacts.v
Dfx.v
HiAudit.v
AuditFacts.v
Radar.v
RadarFacts.v
FormatAuth.v
EndToEnd.v
