(* ===== verification/Prelude.v ===== *)
(** * The disk manager of OpenHarmony: verification library

    The program is a system service that owns the external disks of a device. Kernel
    events reach it through storage_daemon; it creates device nodes, reads partition
    tables, keeps the tables of disks and volumes, mounts, formats, partitions and burns
    on request, and publishes every change. Applications reach it through a client
    library and the kits of two languages. The files follow this path from the kernel
    to the application. A comment [@src file first-last symbol] in front of a
    definition names the lines under [src/] it translates.

    ** Parts

    - Text and ids: [Utils] (utils/src/disk_manager_utils.cpp), [Uevent]
      (disk/uevent_env_parser.cpp), [PartitionTable] (disk/partition_table_parser.cpp);
      [CppString] is the part of [std::string] and [strtol] they use.
    - Data: [Types] (interfaces/innerkits: the classes as records, the error codes as an
      enumeration with its values); [Json] (values of the JSON library), [BlockInfo]
      (db/block_info_table.cpp).
    - The uuid store: [Voldata] (db/voldata_uuid_store.cpp): its map, its two files and
      the writes that replace them. The rest of the service sees it through the class
      [PathStore] of [World] with the laws [PathStoreLaws] of [Safety], which
      [VoldataStore] discharges.
    - The service: [World] (its shared members, the requests that leave the process, the
      connection to storage_daemon of adapter/storage_daemon_adapter.cpp), [Adapters]
      (the optional libraries), [DmQuery], [DmMount], [DmPartition], [DmOptical]
      (disk/disk_manager.cpp), [Events] (notification/common_event_publisher.cpp),
      [SysfsReader] (disk/sysfs_reader.cpp), [Bootstrap] (disk/uevent_bootstrap.cpp,
      disk/disk_config.cpp), [Provider] (ipc/disk_manager_provider.cpp,
      utils/src/ipc_caller_auth.cpp), [FormatAuth] (its callback of the account service).
    - Reports: [Dfx] (dfx/disk_manager_dfx_types.cpp), [HiAudit] (dfx/hi_audit.cpp),
      [Radar] (dfx/disk_manager_radar.cpp, include/dfx/disk_manager_dfx.h), on a state of
      their own: the file system of the log and the events written.
    - The wire: [Parcel] (the class of the platform's parcels and its laws), [Marshal]
      (Marshalling and Unmarshalling of the innerkits' types), [DaemonProxy]
      (adapter/storage_daemon_proxy.cpp).
    - The application's side: [Client] (innerkits/src/disk_manager_client.cpp),
      [JsErrors] (the errors of the kits and their permission tests), [Taihe] (the ArkTS
      kit), [JsKit] (the N-API kit, volumemanager_n_exporter.cpp), [DfsService] (the
      module's functions about distributed files, napi_module_dfs_*.cpp).
    - The whole: [EndToEnd] puts applications, kits, client library and service together.
      The class [SaMgr] that [Client] uses for the proxy is discharged there by
      the methods of [Provider]; [serve] says which method answers which call.

    ** State, effects and interleaving

    A member function is a function from the state to its result and the new state
    ([State]). A handler of the service works on a [World]: the shared members
    ([Shared]: the disk and volume tables, the partition tables and waits, the snapshot,
    the block infos, the connection, the provider's flags), the uuid store, the state of
    the environment and the trace of everything sent. The environment (class [Env])
    answers requests as it likes. Between two critical sections, and while a request is
    answered, other threads of the service run: [yield lk] lets the environment change
    every shared member whose lock is not in [lk]. Errors are values: the codes of the
    C++ functions, [option] where a pointer may be null.

    ** Theorems

    - [Utils], [Uevent], [PartitionTable], [PartFacts], [BlockInfo], [BootFacts]: what
      the validators accept, parsers against printers, bounds of parsed numbers, device
      numbers and ids, the acceptance of new partitions, the difference of two tables.
    - [VoldataFacts]: the store's invariant over every sequence of operations, crash
      atomicity of a save, the save and load round trip, each operation on each branch.
    - [VoldataSpec], [VoldataRefine]: the store's contract as an abstract machine over
      uuids and slots; the code implements it over calls, crashes inside calls and
      restarts, provided its two files can be read (writes may fail); a path that was
      answered stays, that of slot 1 excepted. A crash stops the process between two
      changes of the disk; what a loss of power does to changes that were not
      synchronised is not modelled.
    - [Safety], [SafetyDm], [SafetyMount], [SafetyPart], [SafetyBoot], [SafetyProv],
      [Service]: rely and guarantee. [spec m Q] says that [m] keeps the invariant [WInv]
      under every interleaving whose other threads keep it ([Rely]); each operation is
      shown to do so, and [Service] concludes for every reachable world that the
      requests to the root daemon are safe and that the tables are well formed. [Paths]
      says what a safe path is, by components: below which directory a mount goes, which
      device a request names.
    - [Seq], [MountFacts], [FormatFacts], [RemoveFacts], [QueryFacts], [AccessFacts]:
      functional behaviour of the operations when no other thread interferes
      ([Sequential]), on every branch, with what is sent; permissions and consent.
    - [PartOps]: the four operations that rewrite a disk against a decision function on
      the tables: which error, or which request, when no other thread interferes; and a run
      in which another thread mounts between the two.
    - [WaitFacts]: a partition wait under every interleaving, and a machine of waiting and
      notifying threads on the condition variable: a notification reaches the thread that
      waits.
    - [MarshalFacts], [ProxyFacts]: what arrives of an object that is sent, limits on
      what a peer can make the service read; the proxy refines the requests of [World].
    - [ClientFacts], [JsErrors], [TaiheFacts], [JsKitFacts]: a call of the client is one call of the
      service or a reported refusal, which calls start the service and what the others answer
      when it does not run; the connection's invariant; no error is dropped or
      invented between the client and the application; burn options end to end.
    - [FormatAuth]: which report of the account service decides about the consent.
    - [AuditFacts], [RadarFacts]: bounds of the audit log, what a rotation removes; an
      operation is reported once at its start and once at its end; diagnoses.
    - [EndToEnd]: a call of the JavaScript kit from its arguments to the service and back;
      what it means for the volume that [mount] resolves; safety of the system of any
      number of applications and the service, by simulation in the steps of [Service].
    - [DfsFacts]: the table of listeners against the daemon's registrations.
    - [Scenario] holds the environment in which the theorems are run on examples.

    ** Bounds and fuel

    Integers are [Z]; the wraps of the C++ types are written out ([u32], [i64], ...).
    Loops that are not structural have fuel: the path searches of [Utils] the length of
    the path plus one ([dotdot_slash_loop_spec]), the search for a free uuid the number
    of volumes plus one ([QueryFacts.DedupFsUuid_total]), the search for a slot the
    number of slots ([VoldataFacts.find_slot_spec]), the walk up sysfs the length of the
    path plus one ([SysfsReader.walk_up_fuel]). The number of wake-ups of a partition wait
    is the environment's.

    ** Not modelled

    Logging. The branches of [CDC_STORAGE] (a second configuration file, more mount flags,
    events for one user); [EDM_ADAPTER_ENABLE] is taken as set, [PC_MANAGER] is a parameter, and what
    [HMDFS_FILE_MANAGER] adds to the exports of the N-API kit is [DfsService]'s. Where the operations open and finish the scope of their reports: a report
    changes neither state nor answers, so [Radar] proves what holds of every use of a
    scope. Failing allocations, except where the client tests for them. The idle timer's
    thread and the death recipients of the service are library code: their events are
    steps of [Service]. The registration of the JavaScript module and the second list of
    its exports (volumemanager_napi.cpp), and the life time of a listener of
    [DfsService]. Getters are the projections of the records. In [EndToEnd] the calls of
    applications run one after the other; what other threads do meanwhile is [Env]'s.
    Generated code (the proxy and stub of IDiskManager.idl), N-API and other processes
    are parameters. *)
From stdpp Require Export base tactics list gmap strings pretty sorting fin_maps.
From Stdlib Require Export ZArith Lia Ascii String.

#[global] Set Default Goal Selector "!".
#[global] Unset Printing Records.
#[export] Set Warnings "-notation-overridden".

Open Scope string_scope.
Open Scope list_scope.

#[global] Arguments String.append !_ _ / : simpl nomatch.
#[global] Arguments String.length !_ / : simpl nomatch.

(** ** Notations

    [x =? y] style tests on strings are written with [decide], which computes;
    [str_eqb] is the boolean form used inside conditions. *)
Declare Scope dm_scope.
Delimit Scope dm_scope with dm.
Open Scope dm_scope.

Definition str_eqb (a b : string) : bool := bool_decide (a = b).
Infix "=s" := str_eqb (at level 70, no associativity) : dm_scope.
Notation "a <>s b" := (negb (str_eqb a b)) (at level 70, no associativity) : dm_scope.

Definition str_empty (s : string) : bool := match s with EmptyString => true | _ => false end.

Lemma str_eqb_spec a b : reflect (a = b) (str_eqb a b).
Proof. unfold str_eqb. apply bool_decide_reflect. Qed.

Lemma str_eqb_true a b : str_eqb a b = true <-> a = b.
Proof. unfold str_eqb. apply bool_decide_eq_true. Qed.

Lemma str_eqb_false a b : str_eqb a b = false <-> a <> b.
Proof. unfold str_eqb. apply bool_decide_eq_false. Qed.

Lemma str_eqb_refl a : str_eqb a a = true.
Proof. by apply str_eqb_true. Qed.

Lemma str_empty_true s : str_empty s = true <-> s = "".
Proof. destruct s; simpl; split; congruence. Qed.

Lemma str_empty_false s : str_empty s = false <-> s <> "".
Proof. destruct s; simpl; split; congruence. Qed.

(** ** Automation

    [bsimp] turns boolean tests of the code, in hypotheses and in the goal, into
    the propositions they decide. *)
Create Rewrite HintDb bool_tests.
Create Rewrite HintDb dm.
#[export] Hint Rewrite andb_true_iff orb_true_iff andb_false_iff orb_false_iff
  negb_true_iff negb_false_iff str_eqb_true str_eqb_false str_empty_true str_empty_false
  Z.eqb_eq Z.eqb_neq Z.ltb_lt Z.ltb_ge Z.leb_le Z.leb_gt
  Nat.eqb_eq Nat.eqb_neq Nat.ltb_lt Nat.ltb_ge Nat.leb_le Nat.leb_gt
  N.eqb_eq N.eqb_neq N.ltb_lt N.ltb_ge N.leb_le N.leb_gt : bool_tests.

Ltac bsimp :=
  autorewrite with bool_tests in *;
  repeat match goal with
         | H : _ /\ _ |- _ => destruct H
         | H : ?x = ?x |- _ => clear H
         end.

(** The head of an application. *)
Ltac head_of t := lazymatch t with ?f _ => head_of f | _ => t end.

(** Case analysis on the innermost test of the goal or of a hypothesis. *)
Ltac case_test :=
  match goal with
  | |- context [if ?b then _ else _] =>
      lazymatch b with
      | context [if _ then _ else _] => fail
      | _ => destruct b eqn:?
      end
  | |- context [match ?o with Some _ => _ | None => _ end] =>
      lazymatch o with
      | context [match _ with Some _ => _ | None => _ end] => fail
      | _ => destruct o eqn:?
      end
  end.

Ltac case_test_in H :=
  match type of H with
  | context [if ?b then _ else _] => destruct b eqn:?
  | context [match ?o with Some _ => _ | None => _ end] => destruct o eqn:?
  end.

(** ** Machine integers

    The service is built for LP64 targets: [unsigned long], [size_t] and
    [uint64_t] have 64 bits. Integers are kept in [Z] and wrapped explicitly. *)
Open Scope Z_scope.

Definition INT32_MIN : Z := -2147483648.
Definition INT32_MAX : Z := 2147483647.
Definition UINT32_MAX : Z := 4294967295.
Definition INT64_MIN : Z := -9223372036854775808.
Definition INT64_MAX : Z := 9223372036854775807.
Definition UINT64_MAX : Z := 18446744073709551615.

Definition u32 (z : Z) : Z := z mod 4294967296.
Definition u64 (z : Z) : Z := z mod 18446744073709551616.
(** Conversion to a signed type: two's complement. *)
Definition i32 (z : Z) : Z := (z + 2147483648) mod 4294967296 - 2147483648.
Definition i64 (z : Z) : Z := (z + 9223372036854775808) mod 18446744073709551616 - 9223372036854775808.

Definition in_i32 (z : Z) : Prop := INT32_MIN <= z <= INT32_MAX.
Definition in_u32 (z : Z) : Prop := 0 <= z <= UINT32_MAX.
Definition in_i64 (z : Z) : Prop := INT64_MIN <= z <= INT64_MAX.
Definition in_u64 (z : Z) : Prop := 0 <= z <= UINT64_MAX.

Ltac unfold_ints := unfold in_i32, in_u32, in_i64, in_u64, INT32_MIN, INT32_MAX, UINT32_MAX,
  INT64_MIN, INT64_MAX, UINT64_MAX in *.

Lemma u32_id z : in_u32 z -> u32 z = z.
Proof. unfold u32; unfold_ints; intros; apply Z.mod_small; lia. Qed.
Lemma u64_id z : in_u64 z -> u64 z = z.
Proof. unfold u64; unfold_ints; intros; apply Z.mod_small; lia. Qed.
Lemma i32_id z : in_i32 z -> i32 z = z.
Proof. unfold i32; unfold_ints; intros; rewrite Z.mod_small; lia. Qed.
Lemma i64_id z : in_i64 z -> i64 z = z.
Proof. unfold i64; unfold_ints; intros; rewrite Z.mod_small; lia. Qed.
Lemma u32_range z : in_u32 (u32 z).
Proof. unfold u32; unfold_ints; pose proof (Z.mod_pos_bound z 4294967296); lia. Qed.
Lemma i32_range z : in_i32 (i32 z).
Proof. unfold i32; unfold_ints. pose proof (Z.mod_pos_bound (z + 2147483648) 4294967296); lia. Qed.

(** ** Ordered iteration over [std::map<std::string, _>]

    A [std::map] keyed by [std::string] iterates in the byte order of its keys.
    The state is kept in a [gmap]; [sorted_entries] lists it in that order. *)
Fixpoint str_leb (a b : string) : bool :=
  match a, b with
  | EmptyString, _ => true
  | String _ _, EmptyString => false
  | String c a', String d b' =>
      if (N_of_ascii c <? N_of_ascii d)%N then true
      else if (N_of_ascii c =? N_of_ascii d)%N then str_leb a' b' else false
  end.

Definition str_le (a b : string) : Prop := str_leb a b = true.
#[export] Instance str_le_dec a b : Decision (str_le a b).
Proof. unfold str_le. apply _. Defined.

Lemma str_leb_refl a : str_leb a a = true.
Proof. induction a as [|c a IH]; simpl; [done|]. by rewrite N.ltb_irrefl, N.eqb_refl. Qed.

Lemma str_leb_trans a b c : str_leb a b = true -> str_leb b c = true -> str_leb a c = true.
Proof.
  revert b c; induction a as [|x a IH]; intros [|y b] [|z c]; simpl; try done.
  repeat (case_match; bsimp; subst; try done; try lia); eauto.
Qed.

Lemma str_leb_total a b : str_leb a b = true \/ str_leb b a = true.
Proof.
  revert b; induction a as [|x a IH]; intros [|y b]; simpl; auto.
  repeat (case_match; bsimp; subst; auto; try lia).
Qed.

Lemma str_leb_antisym a b : str_leb a b = true -> str_leb b a = true -> a = b.
Proof.
  revert b; induction a as [|x a IH]; intros [|y b]; simpl; try done.
  repeat (case_match; bsimp; subst; try done; try lia).
  intros. f_equal; [|by apply IH].
  rewrite <- (ascii_N_embedding x), <- (ascii_N_embedding y). congruence.
Qed.

Definition entry_le {V} (x y : string * V) : Prop := str_le x.1 y.1.
#[export] Instance entry_le_dec {V} (x y : string * V) : Decision (entry_le x y).
Proof. unfold entry_le. apply _. Defined.
#[export] Instance entry_le_total {V} : Total (@entry_le V).
Proof. intros x y. apply str_leb_total. Qed.
#[export] Instance entry_le_trans {V} : Transitive (@entry_le V).
Proof. intros x y z. apply str_leb_trans. Qed.

Definition sorted_entries {V} (m : gmap string V) : list (string * V) :=
  merge_sort entry_le (map_to_list m).

Lemma sorted_entries_perm {V} (m : gmap string V) : sorted_entries m ≡ₚ map_to_list m.
Proof. apply merge_sort_Permutation. Qed.

Lemma elem_of_sorted_entries {V} (m : gmap string V) k v :
  (k, v) ∈ sorted_entries m <-> m !! k = Some v.
Proof. rewrite sorted_entries_perm. apply elem_of_map_to_list. Qed.

Lemma sorted_entries_sorted {V} (m : gmap string V) : StronglySorted entry_le (sorted_entries m).
Proof. apply (StronglySorted_merge_sort entry_le). Qed.

Lemma sorted_entries_NoDup {V} (m : gmap string V) : NoDup ((sorted_entries m).*1).
Proof. rewrite sorted_entries_perm. apply NoDup_fst_map_to_list. Qed.

#[export] Hint Rewrite @elem_of_sorted_entries : dm.

(** ** Lists *)
Section lists.
Context {A B : Type}.

(** [std::find_if] *)
Fixpoint find_if (p : A -> bool) (l : list A) : option A :=
  match l with
  | [] => None
  | x :: l' => if p x then Some x else find_if p l'
  end.

Lemma find_if_Some p l x : find_if p l = Some x -> x ∈ l /\ p x = true.
Proof.
  induction l as [|y l IH]; simpl; [done|]. case_match.
  - intros [= ->]. split; [set_solver|done].
  - intros [? ?]%IH. split; [set_solver|done].
Qed.

Lemma find_if_None p l : find_if p l = None <-> forall x, x ∈ l -> p x = false.
Proof.
  induction l as [|y l IH]; simpl; [split; [intros; set_solver|done]|]. split.
  - case_match; [done|]. intros Hn x [->|]%elem_of_cons; [done|]. by apply IH.
  - intros Hl. rewrite (Hl y) by set_solver. apply IH. intros. apply Hl. set_solver.
Qed.

Lemma existsb_elem_of (p : A -> bool) l : existsb p l = true <-> exists x, x ∈ l /\ p x = true.
Proof. rewrite existsb_exists. by setoid_rewrite <- list_elem_of_In. Qed.

Lemma existsb_false (p : A -> bool) l : existsb p l = false <-> forall x, x ∈ l -> p x = false.
Proof.
  rewrite <- not_true_iff_false, existsb_elem_of. split.
  - intros Hn x Hx. destruct (p x) eqn:?; [|done]. exfalso; eauto.
  - intros Hl (x & Hx & Hp). rewrite Hl in Hp; done.
Qed.
End lists.
