(* ===== verification/CppString.v ===== *)
(** * The part of [std::string], [<cctype>] and [<cstdlib>] the service uses

    Strings are Rocq [string]s (sequences of bytes). The searches return
    [None] for [std::string::npos]. *)
From S2P Require Import Prelude.

(** ** Characters (the "C" locale) *)
Definition char_code (c : ascii) : N := N_of_ascii c.
Definition NL : ascii := Ascii.ascii_of_N 10.
Definition TAB : ascii := Ascii.ascii_of_N 9.
Definition CR : ascii := Ascii.ascii_of_N 13.
Definition NUL : ascii := Ascii.ascii_of_N 0.
Definition SLASH : ascii := "/"%char.
Definition BACKSLASH : ascii := Ascii.ascii_of_N 92.

Definition char_eqb (a b : ascii) : bool := bool_decide (a = b).
Lemma char_eqb_true a b : char_eqb a b = true <-> a = b.
Proof. apply bool_decide_eq_true. Qed.
Lemma char_eqb_false a b : char_eqb a b = false <-> a <> b.
Proof. apply bool_decide_eq_false. Qed.
#[export] Hint Rewrite char_eqb_true char_eqb_false : bool_tests.

Definition is_digit (c : ascii) : bool := ((48 <=? char_code c) && (char_code c <=? 57))%N.
Definition is_upper (c : ascii) : bool := ((65 <=? char_code c) && (char_code c <=? 90))%N.
(** [isspace]: space, \t, \n, \v, \f, \r *)
Definition is_space (c : ascii) : bool :=
  (char_code c =? 32)%N || ((9 <=? char_code c) && (char_code c <=? 13))%N.
Definition tolower (c : ascii) : ascii :=
  if is_upper c then Ascii.ascii_of_N (char_code c + 32) else c.

(** ** Strings *)
Fixpoint smap (f : ascii -> ascii) (s : string) : string :=
  match s with EmptyString => EmptyString | String c s' => String (f c) (smap f s') end.
Definition to_lower (s : string) : string := smap tolower s.

Fixpoint sdrop (n : nat) (s : string) : string :=
  match n, s with
  | O, _ => s
  | S n', EmptyString => EmptyString
  | S n', String _ s' => sdrop n' s'
  end.
Fixpoint stake (n : nat) (s : string) : string :=
  match n, s with
  | O, _ => EmptyString
  | S n', EmptyString => EmptyString
  | S n', String c s' => String c (stake n' s')
  end.
(** [s.substr(pos, len)] for [pos <= s.size()]. *)
Definition substr (pos len : nat) (s : string) : string := stake len (sdrop pos s).

Fixpoint starts_with (p s : string) : bool :=
  match p, s with
  | EmptyString, _ => true
  | String c p', String d s' => char_eqb c d && starts_with p' s'
  | _, EmptyString => false
  end.

(** [s.find(pat)] *)
Fixpoint sfind (pat s : string) : option nat :=
  if starts_with pat s then Some O
  else match s with EmptyString => None | String _ s' => S <$> sfind pat s' end.
(** [s.find(pat, pos)] *)
Definition sfind_from (pat : string) (pos : nat) (s : string) : option nat :=
  if (pos <=? String.length s)%nat then Nat.add pos <$> sfind pat (sdrop pos s) else None.
Definition contains (pat s : string) : bool := match sfind pat s with Some _ => true | None => false end.

(** [s.rfind(pat)] *)
Fixpoint srfind (pat s : string) : option nat :=
  match s with
  | EmptyString => if starts_with pat s then Some O else None
  | String _ s' =>
      match srfind pat s' with
      | Some i => Some (S i)
      | None => if starts_with pat s then Some O else None
      end
  end.

Definition schar (c : ascii) : string := String c EmptyString.
Fixpoint sforall (p : ascii -> bool) (s : string) : bool :=
  match s with EmptyString => true | String c s' => p c && sforall p s' end.
Fixpoint stake_while (p : ascii -> bool) (s : string) : string :=
  match s with String c s' => if p c then String c (stake_while p s') else EmptyString | _ => EmptyString end.
(** A pointer to the characters: the text ends at the first NUL. *)
Definition c_str (s : string) : string := stake_while (fun c => negb (char_eqb c NUL)) s.
Fixpoint sdrop_while (p : ascii -> bool) (s : string) : string :=
  match s with String c s' => if p c then sdrop_while p s' else s | _ => EmptyString end.
Fixpoint srev_append (s acc : string) : string :=
  match s with EmptyString => acc | String c s' => srev_append s' (String c acc) end.
Definition srev (s : string) : string := srev_append s "".
Definition rtrim (p : ascii -> bool) (s : string) : string := srev (sdrop_while p (srev s)).

(** ** Lines: [while (std::getline(ss, line))] over the whole text *)
Fixpoint split_char (c : ascii) (s : string) : list string :=
  match s with
  | EmptyString => [""]
  | String d s' =>
      if char_eqb d c then "" :: split_char c s'
      else match split_char c s' with
           | [] => [schar d]
           | l :: ls => String d l :: ls
           end
  end.
(** A trailing empty segment is not a line. *)
Fixpoint drop_last_empty (l : list string) : list string :=
  match l with
  | [] => []
  | [x] => if str_empty x then [] else [x]
  | x :: l' => x :: drop_last_empty l'
  end.
Definition getlines (s : string) : list string := drop_last_empty (split_char NL s).

(** ** [while (iss >> tok)]: maximal runs of non-space characters *)
Fixpoint tokens_aux (s cur : string) : list string :=
  match s with
  | EmptyString => if str_empty cur then [] else [srev cur]
  | String c s' =>
      if is_space c then (if str_empty cur then tokens_aux s' "" else srev cur :: tokens_aux s' "")
      else tokens_aux s' (String c cur)
  end.
Definition tokens (s : string) : list string := tokens_aux s "".

(** ** Numbers *)
Definition digit_val (c : ascii) : Z := Z.of_N (char_code c) - 48.
(** Value of a leading run of decimal digits, saturation handled by the callers. *)
Fixpoint dec_val (acc : Z) (s : string) : Z :=
  match s with String c s' => dec_val (10 * acc + digit_val c) s' | EmptyString => acc end.

Definition is_hex (c : ascii) : bool :=
  is_digit c || ((65 <=? char_code c) && (char_code c <=? 70))%N
             || ((97 <=? char_code c) && (char_code c <=? 102))%N.
Definition hex_val (c : ascii) : Z :=
  let n := Z.of_N (char_code c) in
  if is_digit c then n - 48 else if (n <=? 70)%Z then n - 55 else n - 87.
Fixpoint hex_val_str (acc : Z) (s : string) : Z :=
  match s with String c s' => hex_val_str (16 * acc + hex_val c) s' | EmptyString => acc end.

(** What [strtol]-family functions see: sign, digits consumed, rest.
    [None] when no conversion is performed ([endptr == str]). *)
Record Conv := { conv_neg : bool; conv_mag : Z; conv_rest : string }.

Definition split_sign (s : string) : bool * string :=
  match s with
  | String c s' => if char_eqb c "-" then (true, s') else if char_eqb c "+" then (false, s') else (false, s)
  | EmptyString => (false, s)
  end.

Definition conv10 (s : string) : option Conv :=
  let (neg, t) := split_sign (sdrop_while is_space s) in
  let ds := stake_while is_digit t in
  if str_empty ds then None
  else Some {| conv_neg := neg; conv_mag := dec_val 0 ds; conv_rest := sdrop_while is_digit t |}.

Definition hex_prefix_ok (t : string) : bool :=
  match t with
  | String a (String b (String c _)) => char_eqb a "0" && (char_eqb b "x" || char_eqb b "X") && is_hex c
  | _ => false
  end.

Definition conv16 (s : string) : option Conv :=
  let (neg, t) := split_sign (sdrop_while is_space s) in
  let t := if hex_prefix_ok t then sdrop 2 t else t in
  let ds := stake_while is_hex t in
  if str_empty ds then None
  else Some {| conv_neg := neg; conv_mag := hex_val_str 0 ds; conv_rest := sdrop_while is_hex t |}.

(** [strtoul]: out of range gives [ULONG_MAX]; a minus sign negates modulo 2^64. *)
Definition conv_ulong (o : option Conv) : Z :=
  match o with
  | None => 0
  | Some c => if UINT64_MAX <? conv_mag c then UINT64_MAX
              else if conv_neg c then u64 (- conv_mag c) else conv_mag c
  end.
Definition strtoul10 (s : string) : Z := conv_ulong (conv10 s).
Definition strtoul16 (s : string) : Z := conv_ulong (conv16 s).

(** [strtoll]/[strtol]: [None] no conversion, else the saturated value, whether
    [errno] is [ERANGE], and the rest. *)
Definition conv_signed (o : option Conv) : option (Z * bool * string) :=
  match o with
  | None => None
  | Some c =>
      let v := if conv_neg c then - conv_mag c else conv_mag c in
      if INT64_MAX <? v then Some (INT64_MAX, true, conv_rest c)
      else if v <? INT64_MIN then Some (INT64_MIN, true, conv_rest c)
      else Some (v, false, conv_rest c)
  end.
Definition strtoll10 (s : string) := conv_signed (conv10 s).

(** [std::to_string] of an unsigned and of a signed value. *)
Definition to_string (z : Z) : string := pretty z.

(** * Facts *)

(** ** Concatenation and length *)
Lemma sapp_nil_r s : s +:+ "" = s.
Proof. induction s; simpl; congruence. Qed.
Lemma sapp_assoc a b c : a +:+ (b +:+ c) = (a +:+ b) +:+ c.
Proof. induction a; simpl; congruence. Qed.
Lemma sapp_cons c s : String c s = schar c +:+ s.
Proof. done. Qed.
Lemma slen_app a b : String.length (a +:+ b) = (String.length a + String.length b)%nat.
Proof. induction a; simpl; lia. Qed.
Lemma sapp_eq_nil a b : a +:+ b = "" <-> a = "" /\ b = "".
Proof. destruct a; simpl; split; [by eauto|by intros [_ ->]|done|by intros [? ?]]. Qed.
#[export] Instance sapp_inj_r a : Inj (=) (=) (fun b => a +:+ b).
Proof. intros x y. induction a; simpl; [done|]. intros [= H]. auto. Qed.
Lemma sapp_inj_l a b c : a +:+ c = b +:+ c -> a = b.
Proof.
  revert b. induction a as [|x a IH]; intros [|y b]; simpl; [done| | |].
  - intros H%(f_equal String.length). simpl in H. rewrite slen_app in H. lia.
  - intros H%(f_equal String.length). simpl in H. rewrite slen_app in H. lia.
  - intros [= -> ?]. f_equal. auto.
Qed.

Create Rewrite HintDb cpp.
#[export] Hint Rewrite sapp_nil_r slen_app : cpp.

Lemma sdrop_app a b : sdrop (String.length a) (a +:+ b) = b.
Proof. induction a; simpl; [by destruct b|done]. Qed.
Lemma stake_app a b : stake (String.length a) (a +:+ b) = a.
Proof. induction a; simpl; [by destruct b|congruence]. Qed.
Lemma stake_sdrop n s : stake n s +:+ sdrop n s = s.
Proof. revert s; induction n; intros [|c s]; simpl; [done..|]. f_equal. auto. Qed.
Lemma sdrop_length n s : String.length (sdrop n s) = (String.length s - n)%nat.
Proof. revert s; induction n; intros [|c s]; simpl; auto. Qed.
Lemma stake_length n s : (n <= String.length s)%nat -> String.length (stake n s) = n.
Proof. revert s; induction n; intros [|c s]; simpl; [lia..|]. intros. rewrite IHn; lia. Qed.
Lemma stake_all n s : (String.length s <= n)%nat -> stake n s = s.
Proof. revert s; induction n; intros [|c s]; simpl; [done|lia|done|]. intros. rewrite IHn; [done|lia]. Qed.
Lemma sdrop_sdrop n m s : sdrop n (sdrop m s) = sdrop (m + n) s.
Proof. revert s; induction m; intros [|c s]; simpl; [done..| |done]. by destruct n. Qed.

(** ** Prefixes and searches *)
Lemma starts_with_spec p s : starts_with p s = true <-> exists t, s = p +:+ t.
Proof.
  revert s; induction p as [|c p IH]; intros [|d s]; simpl.
  - split; eauto.
  - split; eauto.
  - split; [done|]. by intros [t ?].
  - rewrite andb_true_iff, char_eqb_true, IH. split.
    + intros [-> [t ->]]. eauto.
    + intros [t [= -> ->]]. eauto.
Qed.
Lemma starts_with_app p s : starts_with p (p +:+ s) = true.
Proof. apply starts_with_spec. eauto. Qed.

(** [find] returns the leftmost occurrence. *)
Lemma sfind_Some pat s i :
  sfind pat s = Some i ->
  exists a b, s = a +:+ pat +:+ b /\ String.length a = i.
Proof.
  revert i; induction s as [|c s IH]; intros i; simpl; case_match eqn:Hp; try done.
  - intros [= <-]. apply starts_with_spec in Hp as [t Ht]. exists "", t. done.
  - intros [= <-]. apply starts_with_spec in Hp as [t Ht]. exists "", t. done.
  - destruct (sfind pat s) as [j|]; simpl; [|done]. intros [= <-].
    destruct (IH j eq_refl) as (a & b & -> & <-). exists (String c a), b. done.
Qed.

Lemma sfind_None pat s : sfind pat s = None <-> ~ exists a b, s = a +:+ pat +:+ b.
Proof.
  split.
  - intros Hn (a & b & ->). revert Hn. induction a as [|c a IH]; simpl.
    + destruct (pat +:+ b) as [|d t] eqn:E; simpl; rewrite <- E, starts_with_app; done.
    + case_match; [done|]. destruct (sfind pat (a +:+ pat +:+ b)); simpl; [done|auto].
  - intros Hn. destruct (sfind pat s) as [i|] eqn:Hs; [|done].
    apply sfind_Some in Hs as (a & b & -> & _). exfalso. eauto.
Qed.

Lemma contains_spec pat s : contains pat s = true <-> exists a b, s = a +:+ pat +:+ b.
Proof.
  unfold contains. destruct (sfind pat s) as [i|] eqn:Hs; split; try done.
  - intros _. apply sfind_Some in Hs as (a & b & -> & _). eauto.
  - intros H. by apply sfind_None in Hs.
Qed.

Lemma sfind_app_le pat a b i :
  sfind pat (a +:+ pat +:+ b) = Some i -> (i <= String.length a)%nat.
Proof.
  revert i; induction a as [|c a IH]; intros i; simpl.
  - destruct (pat +:+ b) as [|d t] eqn:E; simpl; rewrite <- E, starts_with_app; intros [= <-]; done.
  - case_match; [intros [= <-]; lia|]. destruct (sfind pat (a +:+ pat +:+ b)) as [j|]; simpl; [|done].
    intros [= <-]. specialize (IH j eq_refl). lia.
Qed.

Lemma sfind_prefix pat s : sfind pat s = Some O <-> exists t, s = pat +:+ t.
Proof.
  rewrite <- starts_with_spec. destruct s as [|c s]; simpl; case_match; try done.
  destruct (sfind pat s); simpl; done.
Qed.

Lemma srfind_Some pat s i :
  srfind pat s = Some i -> exists a b, s = a +:+ pat +:+ b /\ String.length a = i.
Proof.
  revert i; induction s as [|c s IH]; intros i; simpl.
  - case_match eqn:Hp; [|done]. intros [= <-]. apply starts_with_spec in Hp as [t Ht]. by exists "", t.
  - destruct (srfind pat s) as [j|].
    + intros [= <-]. destruct (IH j eq_refl) as (a & b & -> & <-). by exists (String c a), b.
    + case_match eqn:Hp; [|done]. intros [= <-]. apply starts_with_spec in Hp as [t Ht]. by exists "", t.
Qed.

Lemma srfind_None pat s : srfind pat s = None <-> ~ exists a b, s = a +:+ pat +:+ b.
Proof.
  split.
  - intros Hn (a & b & ->). revert Hn. induction a as [|c a IH]; simpl.
    + destruct (pat +:+ b) as [|d t] eqn:E; simpl; rewrite <- E, starts_with_app; [done|].
      by destruct (srfind pat t).
    + destruct (srfind pat (a +:+ pat +:+ b)); [done|]. by intros _; apply IH.
  - intros Hn. destruct (srfind pat s) as [i|] eqn:Hs; [|done].
    apply srfind_Some in Hs as (a & b & -> & _). exfalso. eauto.
Qed.

(** [rfind] returns the rightmost occurrence: what follows it has no later one. *)
Lemma srfind_last pat a b i :
  srfind pat (a +:+ pat +:+ b) = Some i -> (String.length a <= i)%nat.
Proof.
  revert i; induction a as [|c a IH]; intros i; simpl; [lia|].
  destruct (srfind pat (a +:+ pat +:+ b)) as [j|] eqn:Hj.
  - intros [= <-]. specialize (IH j eq_refl). lia.
  - exfalso. by apply (proj1 (srfind_None _ _) Hj); eauto.
Qed.

(** ** Character classes *)
Lemma sforall_app p a b : sforall p (a +:+ b) = sforall p a && sforall p b.
Proof. induction a; simpl; [done|]. rewrite IHa. by rewrite andb_assoc. Qed.

Lemma sforall_impl (p q : ascii -> bool) s :
  (forall c, p c = true -> q c = true) -> sforall p s = true -> sforall q s = true.
Proof. intros Hpq. induction s; simpl; [done|]. rewrite !andb_true_iff. intuition. Qed.

Lemma stake_while_all p s t : sforall p s = true -> stake_while p t = "" -> stake_while p (s +:+ t) = s.
Proof. induction s; simpl; [done|]. intros [-> ?]%andb_true_iff ?. f_equal. auto. Qed.
Lemma sdrop_while_all p s t : sforall p s = true -> stake_while p t = "" -> sdrop_while p (s +:+ t) = t.
Proof.
  induction s; simpl.
  - intros _. destruct t; simpl; [done|]. by case_match.
  - intros [-> ?]%andb_true_iff ?. auto.
Qed.
Lemma sforall_stake_while p s : sforall p (stake_while p s) = true.
Proof. induction s as [|c s IH]; simpl; [done|]. case_match eqn:E; simpl; [|done]. by rewrite E, IH. Qed.

(** ** Splitting into lines *)
Lemma split_char_cons_eq c s : split_char c (String c s) = "" :: split_char c s.
Proof. simpl. unfold char_eqb. by rewrite bool_decide_eq_true_2. Qed.

Lemma split_char_nonempty c s : split_char c s <> [].
Proof. destruct s; simpl; [done|]. repeat case_match; done. Qed.

Definition no_char (c : ascii) (s : string) : bool := sforall (fun d => negb (char_eqb d c)) s.

Lemma split_char_app c a s :
  no_char c a = true -> split_char c (a +:+ String c s) = a :: split_char c s.
Proof.
  unfold no_char. induction a as [|d a IH]; simpl.
  - intros _. by rewrite (proj2 (char_eqb_true c c) eq_refl).
  - intros [Hd Ha]%andb_true_iff. apply negb_true_iff in Hd. rewrite Hd, IH; done.
Qed.

Lemma split_char_none c a : no_char c a = true -> split_char c a = [a].
Proof.
  unfold no_char. induction a as [|d a IH]; simpl; [done|].
  intros [Hd Ha]%andb_true_iff. apply negb_true_iff in Hd. rewrite Hd, IH; done.
Qed.

Lemma split_char_no c s x : x ∈ split_char c s -> no_char c x = true.
Proof.
  revert x. induction s as [|d s IH]; intros x; simpl.
  - by intros ->%list_elem_of_singleton.
  - destruct (char_eqb d c) eqn:E.
    + intros [->|?]%elem_of_cons; [done|auto].
    + destruct (split_char c s) as [|l ls] eqn:Hs; [by apply split_char_nonempty in Hs|].
      intros [->|?]%elem_of_cons; [|apply IH; set_solver].
      unfold no_char. simpl. rewrite E. simpl. apply (IH l). set_solver.
Qed.

(** Lines joined with newlines are split back into the same lines. *)
Fixpoint unlines (ls : list string) : string :=
  match ls with [] => "" | l :: ls' => l +:+ String NL (unlines ls') end.

Lemma drop_last_empty_snoc l : drop_last_empty (l ++ [""]) = l.
Proof.
  induction l as [|x l IH]; simpl; [done|].
  destruct (l ++ [""]) eqn:E; [by destruct l|]. by rewrite <- E in *; rewrite IH.
Qed.

Lemma split_unlines ls : Forall (fun l => no_char NL l = true) ls -> split_char NL (unlines ls) = ls ++ [""].
Proof.
  induction 1 as [|l ls Hl _ IH]; simpl; [done|]. rewrite split_char_app; [|done]. by rewrite IH.
Qed.

Lemma getlines_unlines ls : Forall (fun l => no_char NL l = true) ls -> getlines (unlines ls) = ls.
Proof. intros H. unfold getlines. rewrite split_unlines; [|done]. by apply drop_last_empty_snoc. Qed.

(** ** Decimal printing and reading *)
Lemma digit_val_pretty n : (n < 10)%N -> digit_val (pretty_N_char n) = Z.of_N n.
Proof.
  intros Hn. assert (Hin : N.to_nat n ∈ seq 0 10) by (apply elem_of_seq; lia).
  rewrite <- (N2Nat.id n). revert Hin. generalize (N.to_nat n). intros k Hin. simpl in Hin.
  repeat (apply elem_of_cons in Hin as [->|Hin]; [reflexivity|]). by apply elem_of_nil in Hin.
Qed.
Lemma is_digit_pretty n : is_digit (pretty_N_char n) = true.
Proof. unfold pretty_N_char. by repeat case_match. Qed.

Lemma pretty_N_go_ind (P : N -> string -> string -> Prop) :
  (forall s, P 0%N s s) ->
  (forall x s r, (0 < x)%N -> P (x / 10)%N (String (pretty_N_char (x mod 10)) s) r -> P x s r) ->
  forall x s, P x s (pretty_N_go x s).
Proof.
  intros H0 Hs x. induction (N.lt_wf_0 x) as [x _ IH]. intros s.
  destruct (decide (x = 0)%N) as [->|]; [rewrite pretty_N_go_0; apply H0|].
  rewrite pretty_N_go_step by lia. apply Hs; [lia|]. apply IH. apply N.div_lt; lia.
Qed.

Lemma dec_val_pretty_go x s : dec_val 0 (pretty_N_go x s) = dec_val (Z.of_N x) s.
Proof.
  apply (pretty_N_go_ind (fun x s r => dec_val 0 r = dec_val (Z.of_N x) s)); clear; [done|].
  intros x s r Hx ->. simpl. rewrite digit_val_pretty by (apply N.mod_lt; lia). f_equal.
  rewrite N2Z.inj_div, N2Z.inj_mod. pose proof (Z.div_mod (Z.of_N x) (Z.of_N 10)). lia.
Qed.

Lemma pretty_go_digits x s : sforall is_digit s = true -> sforall is_digit (pretty_N_go x s) = true.
Proof.
  revert x s. apply (pretty_N_go_ind (fun x s r => sforall is_digit s = true -> sforall is_digit r = true)); [done|].
  intros x s r _ IH Hs. apply IH. simpl. by rewrite is_digit_pretty.
Qed.

Lemma pretty_go_nonempty x s : (s <> "" \/ x <> 0%N) -> pretty_N_go x s <> "".
Proof.
  revert x s. apply (pretty_N_go_ind (fun x s r => (s <> "" \/ x <> 0%N) -> r <> "")); [naive_solver|].
  intros x s r _ IH _. apply IH. by left.
Qed.

Lemma to_string_pos p : to_string (Z.pos p) = pretty_N_go (N.pos p) "".
Proof. done. Qed.
Lemma to_string_digits z : 0 <= z -> sforall is_digit (to_string z) = true.
Proof.
  intros. destruct z as [|p|p]; [done| |lia]. rewrite to_string_pos. by apply pretty_go_digits.
Qed.
Lemma to_string_nonempty z : 0 <= z -> to_string z <> "".
Proof.
  intros. destruct z as [|p|p]; [done| |lia]. rewrite to_string_pos. apply pretty_go_nonempty. by right.
Qed.
Lemma dec_val_to_string z : 0 <= z -> dec_val 0 (to_string z) = z.
Proof.
  intros. destruct z as [|p|p]; [done| |lia]. rewrite to_string_pos. by rewrite dec_val_pretty_go.
Qed.
#[export] Instance to_string_inj : Inj (=) (=) to_string.
Proof. unfold to_string. apply _. Qed.

Lemma digit_not_space c : is_digit c = true -> is_space c = false.
Proof. unfold is_digit, is_space. rewrite andb_true_iff, orb_false_iff, andb_false_iff. bsimp. lia. Qed.
Lemma digit_not_sign c : is_digit c = true -> char_eqb c "-" = false /\ char_eqb c "+" = false.
Proof. unfold is_digit. intros H. bsimp. split; intros ->; simpl in *; lia. Qed.

Lemma conv10_digits ds t :
  sforall is_digit ds = true -> ds <> "" -> stake_while is_digit t = "" ->
  conv10 (ds +:+ t) = Some {| conv_neg := false; conv_mag := dec_val 0 ds; conv_rest := t |}.
Proof.
  intros Hd Hne Ht. unfold conv10. destruct ds as [|c ds]; [done|]. simpl in Hd. bsimp.
  pose proof (digit_not_space _ ltac:(eassumption)) as Hsp.
  pose proof (digit_not_sign _ ltac:(eassumption)) as [Hm Hp].
  simpl sdrop_while at 1. rewrite Hsp. simpl split_sign. rewrite Hm, Hp.
  assert (Hall : sforall is_digit (String c ds) = true) by (simpl; by apply andb_true_iff).
  change (String c (ds +:+ t)) with (String c ds +:+ t).
  rewrite stake_while_all, sdrop_while_all by done. done.
Qed.

(** [strtoul(std::to_string(z))] gives [z] back, whatever non-digit follows. *)
Lemma strtoul10_to_string z t :
  in_u64 z -> stake_while is_digit t = "" -> strtoul10 (to_string z +:+ t) = z.
Proof.
  unfold in_u64. intros Hz Ht. unfold strtoul10.
  rewrite conv10_digits; [|by apply to_string_digits; lia|by apply to_string_nonempty; lia|done].
  simpl. rewrite dec_val_to_string by lia. unfold_ints. case_match eqn:E; bsimp; lia.
Qed.

Lemma strtoll10_to_string z :
  0 <= z <= INT64_MAX -> strtoll10 (to_string z) = Some (z, false, "").
Proof.
  intros Hz. unfold strtoll10. rewrite <- (sapp_nil_r (to_string z)).
  rewrite conv10_digits; [|by apply to_string_digits; lia|by apply to_string_nonempty; lia|done].
  simpl. rewrite dec_val_to_string by lia. unfold_ints.
  destruct (Z.ltb_spec 9223372036854775807 z); [lia|].
  destruct (Z.ltb_spec z (-9223372036854775808)); [lia|done].
Qed.

Lemma strtoul10_range s : in_u64 (strtoul10 s).
Proof.
  unfold strtoul10, conv_ulong. destruct (conv10 s) as [c|] eqn:E; unfold_ints; [|lia].
  case_match; bsimp; [lia|]. case_match.
  - unfold u64. pose proof (Z.mod_pos_bound (- conv_mag c) 18446744073709551616). lia.
  - assert (0 <= conv_mag c); [|lia].
    unfold conv10 in E. destruct (split_sign _) as [neg t]. case_match; [done|]. injection E as <-. simpl.
    assert (Hg : forall acc d, sforall is_digit d = true -> 0 <= acc -> 0 <= dec_val acc d).
    { intros acc d; revert acc; induction d as [|x d IH]; simpl; [done|]. intros acc [Hx Hd]%andb_true_iff ?.
      apply IH; [done|]. unfold is_digit, digit_val in *. bsimp. lia. }
    apply Hg; [apply sforall_stake_while|lia].
Qed.
