(* ===== verification/State.v ===== *)
(** * The state monad of the stateful components

    A C++ member function that reads and writes the state of its object is a
    function from the state to its result and the new state. [wp m Q s] says
    that [m] run from [s] ends with a result and a state satisfying [Q]; every
    [m] is a total function, so this is total correctness. *)
From S2P Require Import Prelude.

Definition State (S A : Type) : Type := S -> A * S.

Definition sret {S A} (a : A) : State S A := fun s => (a, s).
Definition sbind {S A B} (m : State S A) (f : A -> State S B) : State S B :=
  fun s => let (a, s') := m s in f a s'.
Definition sget {S A} (f : S -> A) : State S A := fun s => (f s, s).
Definition smodify {S} (f : S -> S) : State S unit := fun s => (tt, f s).

Declare Scope state_scope.
Delimit Scope state_scope with st.
Notation "'let!' x ':=' m 'in' k" := (sbind m (fun x => k))
  (at level 200, x pattern, m at level 100, k at level 200, right associativity) : state_scope.
Notation "'do!' m 'in' k" := (sbind m (fun _ => k))
  (at level 200, m at level 100, k at level 200, right associativity) : state_scope.
Notation "'when!' b 'then' m" := (if b then m else sret tt)
  (at level 200, m at level 100) : state_scope.
Open Scope state_scope.

(** [for (auto &x : l) body] *)
Fixpoint sfor {S A} (l : list A) (body : A -> State S unit) : State S unit :=
  match l with
  | [] => sret tt
  | x :: l' => do! body x in sfor l' body
  end.

(** [for (...) { ... return r; ... }]: the body may leave the loop with a result. *)
Fixpoint sfor_until {S A R} (l : list A) (body : A -> State S (option R)) : State S (option R) :=
  match l with
  | [] => sret None
  | x :: l' => let! r := body x in
               match r with Some _ => sret r | None => sfor_until l' body end
  end.

(** Running a computation on a part of a larger state. *)
Definition szoom {S T A} (get : S -> T) (put : T -> S -> S) (m : State T A) : State S A :=
  fun s => let (a, t) := m (get s) in (a, put t s).

(** A computation that starts with [m], when the run of [m] is known. *)
Lemma sbind_run {S A B} (m : State S A) (f : A -> State S B) s a s' : m s = (a, s') -> sbind m f s = f a s'.
Proof. unfold sbind. by intros ->. Qed.

(** ** Weakest preconditions *)
Definition wp {S A} (m : State S A) (Q : A -> S -> Prop) (s : S) : Prop := Q (m s).1 (m s).2.

Section wp.
Context {S : Type}.

Lemma wp_run {A} (m : State S A) Q s a s' : m s = (a, s') -> wp m Q s -> Q a s'.
Proof. unfold wp. by intros ->. Qed.
Lemma wp_ret {A} (a : A) Q (s : S) : Q a s -> wp (sret a) Q s.
Proof. done. Qed.
Lemma wp_bind {A B} (m : State S A) (f : A -> State S B) Q s :
  wp m (fun a => wp (f a) Q) s -> wp (sbind m f) Q s.
Proof. unfold wp, sbind. by destruct (m s). Qed.
Lemma wp_get {A} (f : S -> A) Q (s : S) : Q (f s) s -> wp (sget f) Q s.
Proof. done. Qed.
Lemma wp_modify (f : S -> S) Q (s : S) : Q tt (f s) -> wp (smodify f) Q s.
Proof. done. Qed.
Lemma wp_mono {A} (m : State S A) (P Q : A -> S -> Prop) s :
  (forall a s', P a s' -> Q a s') -> wp m P s -> wp m Q s.
Proof. unfold wp. auto. Qed.
Lemma wp_and {A} (m : State S A) (P Q : A -> S -> Prop) s :
  wp m P s -> wp m Q s -> wp m (fun a s' => P a s' /\ Q a s') s.
Proof. unfold wp. auto. Qed.
Lemma wp_for {A} (l : list A) (body : A -> State S unit) (I : S -> Prop) s :
  I s -> (forall x s, x ∈ l -> I s -> wp (body x) (fun _ => I) s) -> wp (sfor l body) (fun _ => I) s.
Proof.
  revert s; induction l as [|x l IH]; intros s Hs Hb; [done|]. simpl. apply wp_bind.
  eapply wp_mono; [|apply Hb; [set_solver|done]]. intros [] s' Hs'. apply IH; [done|]. intros. apply Hb; [set_solver|done].
Qed.
End wp.

(** ** Relations a computation keeps between its initial and final state

    [Keeps R m] for a preorder [R]: closed under every construct of the monad,
    so the frame and invariant facts of a handler follow from those of the
    calls it makes. *)
Definition Keeps {S A} (R : S -> S -> Prop) (m : State S A) : Prop := forall s, R s (m s).2.

Section keeps.
Context {S : Type} (R : S -> S -> Prop) `{!PreOrder R}.

Lemma Keeps_ret {A} (a : A) : Keeps R (sret a).
Proof. intros s. reflexivity. Qed.
Lemma Keeps_get {A} (f : S -> A) : Keeps R (sget f).
Proof. intros s. reflexivity. Qed.
Lemma Keeps_bind {A B} (m : State S A) (f : A -> State S B) :
  Keeps R m -> (forall a, Keeps R (f a)) -> Keeps R (sbind m f).
Proof.
  intros Hm Hf s. unfold sbind. specialize (Hm s). destruct (m s) as [a s']. simpl in *.
  etransitivity; [exact Hm|apply Hf].
Qed.
Lemma Keeps_modify (f : S -> S) : (forall s, R s (f s)) -> Keeps R (smodify f).
Proof. intros H s. apply H. Qed.
Lemma Keeps_if {A} (b : bool) (m n : State S A) : Keeps R m -> Keeps R n -> Keeps R (if b then m else n).
Proof. by destruct b. Qed.
Lemma Keeps_for {A} (l : list A) (body : A -> State S unit) :
  (forall x, x ∈ l -> Keeps R (body x)) -> Keeps R (sfor l body).
Proof.
  intros H. induction l as [|x l IH]; [apply Keeps_ret|]. simpl.
  apply Keeps_bind; [apply H; set_solver|]. intros []. apply IH. intros. apply H. set_solver.
Qed.
Lemma Keeps_for_until {A B} (l : list A) (body : A -> State S (option B)) :
  (forall x, x ∈ l -> Keeps R (body x)) -> Keeps R (sfor_until l body).
Proof.
  intros H. induction l as [|x l IH]; [apply Keeps_ret|]. simpl.
  apply Keeps_bind; [apply H; set_solver|]. intros [r|]; [apply Keeps_ret|]. apply IH. intros. apply H. set_solver.
Qed.
Lemma Keeps_run {A} (m : State S A) s a s' : Keeps R m -> m s = (a, s') -> R s s'.
Proof. intros H E. specialize (H s). by rewrite E in H. Qed.
End keeps.

Create HintDb keeps.
#[export] Hint Resolve Keeps_ret Keeps_get : keeps.

Create Rewrite HintDb state.

(** [wp_step] runs one construct. *)
Ltac wp_step :=
  lazymatch goal with
  | |- wp (sret _) _ _ => apply wp_ret
  | |- wp (sbind _ _) _ _ => apply wp_bind
  | |- wp (sget _) _ _ => apply wp_get
  | |- wp (smodify _) _ _ => apply wp_modify
  | |- wp (if ?b then _ else _) _ _ => destruct b eqn:?
  | |- wp (match ?o with Some _ => _ | None => _ end) _ _ => destruct o eqn:?
  | |- wp (let '_ := ?p in _) _ _ => destruct p eqn:?
  end.

(** [keeps_tac] decomposes a handler for [Keeps]; what remains are the calls the
    hint database does not know. *)
Ltac keeps_step :=
  lazymatch goal with
  | |- Keeps _ (sbind _ _) => apply Keeps_bind; [apply _| |intro]
  | |- Keeps _ (sret _) => apply Keeps_ret; apply _
  | |- Keeps _ (sget _) => apply Keeps_get; apply _
  | |- Keeps _ (if ?b then _ else _) => destruct b
  | |- Keeps _ (match ?x with _ => _ end) => destruct x
  | |- Keeps _ (sfor _ _) => apply Keeps_for; [apply _|intros]
  | |- Keeps _ (sfor_until _ _) => apply Keeps_for_until; [apply _|intros]
  | |- Keeps _ (let _ := _ in _) => cbv zeta
  end.
Ltac keeps_tac := repeat (keeps_step || (progress cbv zeta) || solve [auto with keeps]).
