(* ===== verification/Types.v ===== *)
(** * Data of the service: error codes, enumerations and the innerkit classes

    Every C++ class is a record with the class's members; the setters are the
    class's setters. A comment [@src file first-last symbol] names the lines a
    definition translates, relative to the repository root. *)
From S2P Require Import Prelude CppString.

(** ** Error codes: [common/include/disk_manager_errno.h] and the volume codes of
    [disk_manager_napi_errno.h] *)
(* @src common/include/disk_manager_errno.h 28-95 DiskManagerErrNo *)
Inductive DiskManagerErrNo : Set :=
  | E_OK
  | DISK_MGR_ERR
  | E_SA_IS_NULLPTR
  | E_REMOTE_IS_NULLPTR
  | E_SERVICE_IS_NULLPTR
  | E_DEATH_RECIPIENT_IS_NULLPTR
  | E_DISK_NOT_FOUND
  | E_VOLUME_NOT_FOUND
  | E_UEVENT_PARSE_FAILED
  | E_DAEMON_IPC_FAILED
  | E_DISK_HAS_EXIST
  | E_DESTROY_DEVICE_NODE
  | E_STORAGE_VALID_NODE
  | E_SA_IS_UNLOADING
  | E_PERMISSION_DENIED
  | E_PARAMS_INVALID
  | E_NON_EXIST
  | E_NOT_SUPPORT
  | E_SYS_APP_PERMISSION_DENIED
  | E_STATVFS
  | E_OTHER_MOUNT
  | E_VOL_STATE
  | E_NO_CHILD
  | E_GET_PARTITION_ERROR
  | E_CREATE_PARTITION_NOT_SUPPORT
  | E_CREATE_PARTITION_TIMEOUT
  | E_CREATE_PARTITION_ERROR
  | E_DELETE_PARTITION_NOT_SUPPORT
  | E_DELETE_PARTITION_TIMEOUT
  | E_DELETE_PARTITION_ERROR
  | E_GET_PARTITION_TIMEOUT
  | E_SET_USABLE_SECTOR_ERROR
  | E_FORMAT_PARTITION_NOT_SUPPORT
  | E_FORMAT_PARTITION_TIMEOUT
  | E_FORMAT_PARTITION_ERROR
  | E_QUERY_VOLUME_IN_USE_ERROR
  | E_EMPTY_DISC
  | E_ISO_WRITE_FAILED
  | E_ERASE_FAILED
  | E_EJECT_FAILED
  | E_BURN_FAILED
  | E_BURN_NOSPC
  | E_BIND_LOOP_DEV_FAILED
  | E_CREATE_DM_CRYPT_VOLUME_FAILED
  | E_DESTROY_DM_CRYPT_VOLUME_FAILED
  | E_UNBIND_LOOP_DEV_FAILED
  | E_MOUNT_VOL_BY_PATH_FAILED
  | E_UMOUNT_VOL_BY_PATH_FAILED
  | E_BUSY
  | E_VOL_NEED_FIX
  | E_VOL_FIX_FAILED
  | E_VOL_MOUNT_ERR
  | E_VOL_UMOUNT_ERR
  | E_UMOUNT_BUSY.

(** The value the [int32_t] return types carry; [ERR_OK] is 0 too. *)
Definition errno (e : DiskManagerErrNo) : Z :=
  match e with
  | E_OK => 0
  | DISK_MGR_ERR => (-1)
  | E_SA_IS_NULLPTR => 10
  | E_REMOTE_IS_NULLPTR => 11
  | E_SERVICE_IS_NULLPTR => 12
  | E_DEATH_RECIPIENT_IS_NULLPTR => 13
  | E_DISK_NOT_FOUND => 20
  | E_VOLUME_NOT_FOUND => 21
  | E_UEVENT_PARSE_FAILED => 22
  | E_DAEMON_IPC_FAILED => 23
  | E_DISK_HAS_EXIST => 24
  | E_DESTROY_DEVICE_NODE => 25
  | E_STORAGE_VALID_NODE => 26
  | E_SA_IS_UNLOADING => 27
  | E_PERMISSION_DENIED => 13600001
  | E_PARAMS_INVALID => 13600002
  | E_NON_EXIST => 13600004
  | E_NOT_SUPPORT => 13600007
  | E_SYS_APP_PERMISSION_DENIED => 13600025
  | E_STATVFS => 13601204
  | E_OTHER_MOUNT => 13601715
  | E_VOL_STATE => 13601701
  | E_NO_CHILD => 13601705
  | E_GET_PARTITION_ERROR => 13601739
  | E_CREATE_PARTITION_NOT_SUPPORT => 13601740
  | E_CREATE_PARTITION_TIMEOUT => 13601741
  | E_CREATE_PARTITION_ERROR => 13601742
  | E_DELETE_PARTITION_NOT_SUPPORT => 13601743
  | E_DELETE_PARTITION_TIMEOUT => 13601744
  | E_DELETE_PARTITION_ERROR => 13601745
  | E_GET_PARTITION_TIMEOUT => 13601746
  | E_SET_USABLE_SECTOR_ERROR => 13601747
  | E_FORMAT_PARTITION_NOT_SUPPORT => 13601748
  | E_FORMAT_PARTITION_TIMEOUT => 13601749
  | E_FORMAT_PARTITION_ERROR => 13601750
  | E_QUERY_VOLUME_IN_USE_ERROR => 13601751
  | E_EMPTY_DISC => 13601801
  | E_ISO_WRITE_FAILED => 13601802
  | E_ERASE_FAILED => 13601803
  | E_EJECT_FAILED => 13601804
  | E_BURN_FAILED => 13601805
  | E_BURN_NOSPC => 13601806
  | E_BIND_LOOP_DEV_FAILED => 13601901
  | E_CREATE_DM_CRYPT_VOLUME_FAILED => 13601902
  | E_DESTROY_DM_CRYPT_VOLUME_FAILED => 13601903
  | E_UNBIND_LOOP_DEV_FAILED => 13601904
  | E_MOUNT_VOL_BY_PATH_FAILED => 13601905
  | E_UMOUNT_VOL_BY_PATH_FAILED => 13601906
  | E_BUSY => 13601907
  | E_VOL_NEED_FIX => 13601730
  | E_VOL_FIX_FAILED => 13601731
  | E_VOL_MOUNT_ERR => 13601702
  | E_VOL_UMOUNT_ERR => 13601703
  | E_UMOUNT_BUSY => 13601704
  end.
Coercion errno : DiskManagerErrNo >-> Z.
Definition ERR_OK : Z := 0.


(** ** Enumerations *)
(* @src interfaces/innerkits/include/disk.h 28-36 DiskType *)
Inductive DiskType : Set := SD_FLAG | USB_FLAG | CD_FLAG | DATA_DISK_SSD | DATA_DISK_HDD | DVR_USB | DISK_TYPE_UNKNOWN.
Definition DiskType_val (d : DiskType) : Z :=
  match d with
  | SD_FLAG => 1 | USB_FLAG => 2 | CD_FLAG => 3 | DATA_DISK_SSD => 4 | DATA_DISK_HDD => 5
  | DVR_USB => 6 | DISK_TYPE_UNKNOWN => 255
  end.
Coercion DiskType_val : DiskType >-> Z.

(* @src interfaces/innerkits/include/disk.h 38-43 CdromState *)
Inductive CdromState : Set := NO_DISC | EMPTY_DISC | NON_EMPTY_DISC | QUERY_FAILED.
#[export] Instance CdromState_eq_dec : EqDecision CdromState.
Proof. solve_decision. Defined.
Definition CdromState_val (c : CdromState) : Z :=
  match c with NO_DISC => 0 | EMPTY_DISC => 1 | NON_EMPTY_DISC => 2 | QUERY_FAILED => 3 end.

(* @src interfaces/innerkits/include/volume_core.h 23-26 VolumeType *)
Inductive VolumeType : Set := EMULATED | EXTERNAL.
Definition VolumeType_val (t : VolumeType) : Z := match t with EMULATED => 1 | EXTERNAL => 2 end.
Coercion VolumeType_val : VolumeType >-> Z.

(* @src interfaces/innerkits/include/volume_core.h 27-46 VolumeState *)
Inductive VolumeState : Set :=
  UNMOUNTED | CHECKING | MOUNTED | EJECTING | REMOVED | BAD_REMOVAL | DAMAGED | FUSE_REMOVED
| DAMAGED_MOUNTED | ENCRYPTING | ENCRYPTED_AND_LOCKED | ENCRYPTED_AND_UNLOCKED | DECRYPTING
| REPAIR_FINISH_FAIL | REPAIR_FINISH_SUCCESS | FORMAT_FINISH_FAIL | REPAIR_START | REPAIRING.
Definition VolumeState_val (s : VolumeState) : Z :=
  match s with
  | UNMOUNTED => 0 | CHECKING => 1 | MOUNTED => 2 | EJECTING => 3 | REMOVED => 4 | BAD_REMOVAL => 5
  | DAMAGED => 6 | FUSE_REMOVED => 7 | DAMAGED_MOUNTED => 8 | ENCRYPTING => 9
  | ENCRYPTED_AND_LOCKED => 10 | ENCRYPTED_AND_UNLOCKED => 11 | DECRYPTING => 12
  | REPAIR_FINISH_FAIL => 13 | REPAIR_FINISH_SUCCESS => 14 | FORMAT_FINISH_FAIL => 15
  | REPAIR_START => 16 | REPAIRING => 17
  end.
Coercion VolumeState_val : VolumeState >-> Z.
#[export] Instance VolumeState_eq_dec : EqDecision VolumeState.
Proof. solve_decision. Defined.
#[export] Instance VolumeState_val_inj : Inj (=) (=) VolumeState_val.
Proof. by intros [] []. Qed.

(* @src interfaces/innerkits/include/volume_core.h 51-56 AbnormalReason *)
Inductive AbnormalReason : Set :=
  PARTITION_TABLE_READ_FAILED | METADATA_READ_FAILED | FSTYPE_UNSUPPORTED | MOUNT_FAILED.
Definition AbnormalReason_val (r : AbnormalReason) : Z :=
  match r with
  | PARTITION_TABLE_READ_FAILED => 1 | METADATA_READ_FAILED => 2 | FSTYPE_UNSUPPORTED => 3 | MOUNT_FAILED => 4
  end.
Coercion AbnormalReason_val : AbnormalReason >-> Z.

(* @src interfaces/innerkits/include/volume_external.h 25-37 FsType *)
Inductive FsType : Set := UNDEFINED | NTFS | EXFAT | VFAT | HMFS | F2FS | MTP | UDF | ISO9660 | PTP | EXT4.
Definition FsType_val (f : FsType) : Z :=
  match f with
  | UNDEFINED => -1 | NTFS => 0 | EXFAT => 1 | VFAT => 2 | HMFS => 3 | F2FS => 4 | MTP => 5
  | UDF => 6 | ISO9660 => 7 | PTP => 8 | EXT4 => 9
  end.
Coercion FsType_val : FsType >-> Z.

(** [FS_TYPE_MAP], in the order of its keys. *)
(* @src interfaces/innerkits/include/volume_external.h 39-50 FS_TYPE_MAP *)
Definition FS_TYPE_MAP : list (Z * string) :=
  [(FsType_val NTFS, "ntfs"); (FsType_val EXFAT, "exfat"); (FsType_val VFAT, "vfat");
   (FsType_val HMFS, "hmfs"); (FsType_val F2FS, "f2fs"); (FsType_val MTP, "mtp");
   (FsType_val UDF, "udf"); (FsType_val ISO9660, "iso9660"); (FsType_val PTP, "ptp");
   (FsType_val EXT4, "ext4")].

(** ** [interfaces/innerkits]: disks, volumes, partitions and parameters *)

(** Class [Disk]. *)
(* @src interfaces/innerkits/include/disk.h 45-117 Disk *)
Record Disk : Type := mkDisk {
  disk_diskId : string;
  disk_sizeBytes : Z;
  disk_diskType : Z;
  disk_removable : bool;
  disk_volumeIds : list string;
  disk_extraInfo : string;
  disk_cdromState : CdromState;
  disk_isUsbBus : bool;
  disk_sysPath : string;
  disk_devName : string;
  disk_vendor : string;
  disk_partitionType : string;
  disk_vendorId : Z;
  disk_productId : Z;
  disk_serialNumber : string;
  disk_busnum : Z;
  disk_devAddress : Z;
}.
#[export] Instance Disk_eq_dec : EqDecision Disk.
Proof. solve_decision. Defined.
(** Member initialisers of the default constructor. *)
Definition Disk_default : Disk :=
  mkDisk "" 0 DISK_TYPE_UNKNOWN true [] "" NO_DISC false "" "" "" "" 0 0 "" 0 0.
(* @src interfaces/innerkits/src/disk.cpp 96-99 Disk::SetSizeBytes *)
Definition Disk_SetSizeBytes (x : Z) (o : Disk) : Disk :=
  mkDisk (disk_diskId o) x (disk_diskType o) (disk_removable o) (disk_volumeIds o) (disk_extraInfo o) (disk_cdromState o) (disk_isUsbBus o) (disk_sysPath o) (disk_devName o) (disk_vendor o) (disk_partitionType o) (disk_vendorId o) (disk_productId o) (disk_serialNumber o) (disk_busnum o) (disk_devAddress o).
(* @src interfaces/innerkits/src/disk.cpp 122-130 Disk::SetVolumeIds *)
Definition Disk_SetVolumeIds (x : list string) (o : Disk) : Disk :=
  mkDisk (disk_diskId o) (disk_sizeBytes o) (disk_diskType o) (disk_removable o) x (disk_extraInfo o) (disk_cdromState o) (disk_isUsbBus o) (disk_sysPath o) (disk_devName o) (disk_vendor o) (disk_partitionType o) (disk_vendorId o) (disk_productId o) (disk_serialNumber o) (disk_busnum o) (disk_devAddress o).
(* @src interfaces/innerkits/src/disk.cpp 137-140 Disk::SetExtraInfo *)
Definition Disk_SetExtraInfo (x : string) (o : Disk) : Disk :=
  mkDisk (disk_diskId o) (disk_sizeBytes o) (disk_diskType o) (disk_removable o) (disk_volumeIds o) x (disk_cdromState o) (disk_isUsbBus o) (disk_sysPath o) (disk_devName o) (disk_vendor o) (disk_partitionType o) (disk_vendorId o) (disk_productId o) (disk_serialNumber o) (disk_busnum o) (disk_devAddress o).
(* @src interfaces/innerkits/src/disk.cpp 157-160 Disk::SetVendor *)
Definition Disk_SetVendor (x : string) (o : Disk) : Disk :=
  mkDisk (disk_diskId o) (disk_sizeBytes o) (disk_diskType o) (disk_removable o) (disk_volumeIds o) (disk_extraInfo o) (disk_cdromState o) (disk_isUsbBus o) (disk_sysPath o) (disk_devName o) x (disk_partitionType o) (disk_vendorId o) (disk_productId o) (disk_serialNumber o) (disk_busnum o) (disk_devAddress o).
(* @src interfaces/innerkits/src/disk.cpp 167-170 Disk::SetVendorId *)
Definition Disk_SetVendorId (x : Z) (o : Disk) : Disk :=
  mkDisk (disk_diskId o) (disk_sizeBytes o) (disk_diskType o) (disk_removable o) (disk_volumeIds o) (disk_extraInfo o) (disk_cdromState o) (disk_isUsbBus o) (disk_sysPath o) (disk_devName o) (disk_vendor o) (disk_partitionType o) x (disk_productId o) (disk_serialNumber o) (disk_busnum o) (disk_devAddress o).
(* @src interfaces/innerkits/src/disk.cpp 177-180 Disk::SetProductId *)
Definition Disk_SetProductId (x : Z) (o : Disk) : Disk :=
  mkDisk (disk_diskId o) (disk_sizeBytes o) (disk_diskType o) (disk_removable o) (disk_volumeIds o) (disk_extraInfo o) (disk_cdromState o) (disk_isUsbBus o) (disk_sysPath o) (disk_devName o) (disk_vendor o) (disk_partitionType o) (disk_vendorId o) x (disk_serialNumber o) (disk_busnum o) (disk_devAddress o).
(* @src interfaces/innerkits/src/disk.cpp 187-190 Disk::SetSerialNumber *)
Definition Disk_SetSerialNumber (x : string) (o : Disk) : Disk :=
  mkDisk (disk_diskId o) (disk_sizeBytes o) (disk_diskType o) (disk_removable o) (disk_volumeIds o) (disk_extraInfo o) (disk_cdromState o) (disk_isUsbBus o) (disk_sysPath o) (disk_devName o) (disk_vendor o) (disk_partitionType o) (disk_vendorId o) (disk_productId o) x (disk_busnum o) (disk_devAddress o).
(* @src interfaces/innerkits/src/disk.cpp 197-200 Disk::SetBusnum *)
Definition Disk_SetBusnum (x : Z) (o : Disk) : Disk :=
  mkDisk (disk_diskId o) (disk_sizeBytes o) (disk_diskType o) (disk_removable o) (disk_volumeIds o) (disk_extraInfo o) (disk_cdromState o) (disk_isUsbBus o) (disk_sysPath o) (disk_devName o) (disk_vendor o) (disk_partitionType o) (disk_vendorId o) (disk_productId o) (disk_serialNumber o) x (disk_devAddress o).
(* @src interfaces/innerkits/src/disk.cpp 207-210 Disk::SetDevAddress *)
Definition Disk_SetDevAddress (x : Z) (o : Disk) : Disk :=
  mkDisk (disk_diskId o) (disk_sizeBytes o) (disk_diskType o) (disk_removable o) (disk_volumeIds o) (disk_extraInfo o) (disk_cdromState o) (disk_isUsbBus o) (disk_sysPath o) (disk_devName o) (disk_vendor o) (disk_partitionType o) (disk_vendorId o) (disk_productId o) (disk_serialNumber o) (disk_busnum o) x.
(* @src interfaces/innerkits/src/disk.cpp 222-225 Disk::SetCdromState *)
Definition Disk_SetCdromState (x : CdromState) (o : Disk) : Disk :=
  mkDisk (disk_diskId o) (disk_sizeBytes o) (disk_diskType o) (disk_removable o) (disk_volumeIds o) (disk_extraInfo o) x (disk_isUsbBus o) (disk_sysPath o) (disk_devName o) (disk_vendor o) (disk_partitionType o) (disk_vendorId o) (disk_productId o) (disk_serialNumber o) (disk_busnum o) (disk_devAddress o).
(* @src interfaces/innerkits/src/disk.cpp 227-230 Disk::SetPartitionType *)
Definition Disk_SetPartitionType (x : string) (o : Disk) : Disk :=
  mkDisk (disk_diskId o) (disk_sizeBytes o) (disk_diskType o) (disk_removable o) (disk_volumeIds o) (disk_extraInfo o) (disk_cdromState o) (disk_isUsbBus o) (disk_sysPath o) (disk_devName o) (disk_vendor o) x (disk_vendorId o) (disk_productId o) (disk_serialNumber o) (disk_busnum o) (disk_devAddress o).
(* @src interfaces/innerkits/src/disk.cpp 242-245 Disk::SetUsbBus *)
Definition Disk_SetUsbBus (x : bool) (o : Disk) : Disk :=
  mkDisk (disk_diskId o) (disk_sizeBytes o) (disk_diskType o) (disk_removable o) (disk_volumeIds o) (disk_extraInfo o) (disk_cdromState o) x (disk_sysPath o) (disk_devName o) (disk_vendor o) (disk_partitionType o) (disk_vendorId o) (disk_productId o) (disk_serialNumber o) (disk_busnum o) (disk_devAddress o).

(** Assignments to private members inside the class. *)
Definition Disk_put_diskType (x : Z) (o : Disk) : Disk :=
  mkDisk (disk_diskId o) (disk_sizeBytes o) x (disk_removable o) (disk_volumeIds o) (disk_extraInfo o) (disk_cdromState o) (disk_isUsbBus o) (disk_sysPath o) (disk_devName o) (disk_vendor o) (disk_partitionType o) (disk_vendorId o) (disk_productId o) (disk_serialNumber o) (disk_busnum o) (disk_devAddress o).
Definition Disk_put_removable (x : bool) (o : Disk) : Disk :=
  mkDisk (disk_diskId o) (disk_sizeBytes o) (disk_diskType o) x (disk_volumeIds o) (disk_extraInfo o) (disk_cdromState o) (disk_isUsbBus o) (disk_sysPath o) (disk_devName o) (disk_vendor o) (disk_partitionType o) (disk_vendorId o) (disk_productId o) (disk_serialNumber o) (disk_busnum o) (disk_devAddress o).

(** Class [VolumeCore]. *)
(* @src interfaces/innerkits/include/volume_core.h 86-118 VolumeCore *)
Record VolumeCore : Type := mkVolumeCore {
  core_id : string;
  core_type : Z;
  core_diskId : string;
  core_state : Z;
  core_errorFlag : bool;
  core_fsType : string;
  core_extraInfo : string;
}.
#[export] Instance VolumeCore_eq_dec : EqDecision VolumeCore.
Proof. solve_decision. Defined.
(** Member initialisers of the default constructor. *)
Definition VolumeCore_default : VolumeCore :=
  mkVolumeCore "" 0 "" UNMOUNTED false "" "".
(* @src interfaces/innerkits/src/volume_core.cpp 55-58 VolumeCore::SetState *)
Definition Core_SetState (x : Z) (o : VolumeCore) : VolumeCore :=
  mkVolumeCore (core_id o) (core_type o) (core_diskId o) x (core_errorFlag o) (core_fsType o) (core_extraInfo o).
(* @src interfaces/innerkits/src/volume_core.cpp 85-88 VolumeCore::SetExtraInfo *)
Definition Core_SetExtraInfo (x : string) (o : VolumeCore) : VolumeCore :=
  mkVolumeCore (core_id o) (core_type o) (core_diskId o) (core_state o) (core_errorFlag o) (core_fsType o) x.

(** The constructors. *)
(* @src interfaces/innerkits/src/volume_core.cpp 25-38 VolumeCore::VolumeCore *)
Definition VolumeCore_new (id : string) (type : Z) (diskId : string) (state : Z) : VolumeCore :=
  mkVolumeCore id type diskId state false "" "".
(* @src interfaces/innerkits/src/volume_core.cpp 40-53 VolumeCore::VolumeCore *)
Definition VolumeCore_full (id : string) (type : Z) (diskId : string) (state : Z) (fsType extraInfo : string)
  : VolumeCore := mkVolumeCore id type diskId state false fsType extraInfo.

(** Class [VolumeInfoStr]. *)
(* @src interfaces/innerkits/include/volume_core.h 58-84 VolumeInfoStr *)
Record VolumeInfoStr : Type := mkVolumeInfoStr {
  vis_volumeId : string;
  vis_fsTypeStr : string;
  vis_fsUuid : string;
  vis_path : string;
  vis_description : string;
  vis_isDamaged : bool;
}.
#[export] Instance VolumeInfoStr_eq_dec : EqDecision VolumeInfoStr.
Proof. solve_decision. Defined.
(** Member initialisers of the default constructor. *)
Definition VolumeInfoStr_default : VolumeInfoStr :=
  mkVolumeInfoStr "" "" "" "" "" false.

(** Class [VolumeExternal : VolumeCore]. *)
(* @src interfaces/innerkits/include/volume_external.h 52-111 VolumeExternal *)
Record VolumeExternal : Type := mkVolumeExternal {
  vol_core : VolumeCore;
  vol_fsType : Z;
  vol_flags : Z;
  vol_fsUuid : string;
  vol_path : string;
  vol_description : string;
  vol_isUserData : bool;
  vol_umountResult : string;
  vol_partitionNum : Z;
  vol_freeSize : Z;
  vol_mountFlag : bool;
  vol_loopPath : string;
  vol_mapperPath : string;
  vol_offset : Z;
  vol_sizeLimit : Z;
}.
#[export] Instance VolumeExternal_eq_dec : EqDecision VolumeExternal.
Proof. solve_decision. Defined.
(** Member initialisers of the default constructor. *)
Definition VolumeExternal_default : VolumeExternal :=
  mkVolumeExternal VolumeCore_default UNDEFINED DISK_TYPE_UNKNOWN "" "" "" false "" 0 0 false "" "" 0 0.
(* @src interfaces/innerkits/src/volume_external.cpp 29-32 VolumeExternal::SetFlags *)
Definition Vol_SetFlags (x : Z) (o : VolumeExternal) : VolumeExternal :=
  mkVolumeExternal (vol_core o) (vol_fsType o) x (vol_fsUuid o) (vol_path o) (vol_description o) (vol_isUserData o) (vol_umountResult o) (vol_partitionNum o) (vol_freeSize o) (vol_mountFlag o) (vol_loopPath o) (vol_mapperPath o) (vol_offset o) (vol_sizeLimit o).
(* @src interfaces/innerkits/src/volume_external.cpp 34-37 VolumeExternal::SetFsType *)
Definition Vol_SetFsType (x : Z) (o : VolumeExternal) : VolumeExternal :=
  mkVolumeExternal (vol_core o) x (vol_flags o) (vol_fsUuid o) (vol_path o) (vol_description o) (vol_isUserData o) (vol_umountResult o) (vol_partitionNum o) (vol_freeSize o) (vol_mountFlag o) (vol_loopPath o) (vol_mapperPath o) (vol_offset o) (vol_sizeLimit o).
(* @src interfaces/innerkits/src/volume_external.cpp 39-42 VolumeExternal::SetFsUuid *)
Definition Vol_SetFsUuid (x : string) (o : VolumeExternal) : VolumeExternal :=
  mkVolumeExternal (vol_core o) (vol_fsType o) (vol_flags o) x (vol_path o) (vol_description o) (vol_isUserData o) (vol_umountResult o) (vol_partitionNum o) (vol_freeSize o) (vol_mountFlag o) (vol_loopPath o) (vol_mapperPath o) (vol_offset o) (vol_sizeLimit o).
(* @src interfaces/innerkits/src/volume_external.cpp 44-47 VolumeExternal::SetPath *)
Definition Vol_SetPath (x : string) (o : VolumeExternal) : VolumeExternal :=
  mkVolumeExternal (vol_core o) (vol_fsType o) (vol_flags o) (vol_fsUuid o) x (vol_description o) (vol_isUserData o) (vol_umountResult o) (vol_partitionNum o) (vol_freeSize o) (vol_mountFlag o) (vol_loopPath o) (vol_mapperPath o) (vol_offset o) (vol_sizeLimit o).
(* @src interfaces/innerkits/src/volume_external.cpp 49-52 VolumeExternal::SetDescription *)
Definition Vol_SetDescription (x : string) (o : VolumeExternal) : VolumeExternal :=
  mkVolumeExternal (vol_core o) (vol_fsType o) (vol_flags o) (vol_fsUuid o) (vol_path o) x (vol_isUserData o) (vol_umountResult o) (vol_partitionNum o) (vol_freeSize o) (vol_mountFlag o) (vol_loopPath o) (vol_mapperPath o) (vol_offset o) (vol_sizeLimit o).
(* @src interfaces/innerkits/src/volume_external.cpp 54-57 VolumeExternal::SetUserData *)
Definition Vol_SetUserData (x : bool) (o : VolumeExternal) : VolumeExternal :=
  mkVolumeExternal (vol_core o) (vol_fsType o) (vol_flags o) (vol_fsUuid o) (vol_path o) (vol_description o) x (vol_umountResult o) (vol_partitionNum o) (vol_freeSize o) (vol_mountFlag o) (vol_loopPath o) (vol_mapperPath o) (vol_offset o) (vol_sizeLimit o).
(* @src interfaces/innerkits/src/volume_external.cpp 69-72 VolumeExternal::SetFreeSize *)
Definition Vol_SetFreeSize (x : Z) (o : VolumeExternal) : VolumeExternal :=
  mkVolumeExternal (vol_core o) (vol_fsType o) (vol_flags o) (vol_fsUuid o) (vol_path o) (vol_description o) (vol_isUserData o) (vol_umountResult o) (vol_partitionNum o) x (vol_mountFlag o) (vol_loopPath o) (vol_mapperPath o) (vol_offset o) (vol_sizeLimit o).
(* @src interfaces/innerkits/src/volume_external.cpp 125-128 VolumeExternal::SetUmountResult *)
Definition Vol_SetUmountResult (x : string) (o : VolumeExternal) : VolumeExternal :=
  mkVolumeExternal (vol_core o) (vol_fsType o) (vol_flags o) (vol_fsUuid o) (vol_path o) (vol_description o) (vol_isUserData o) x (vol_partitionNum o) (vol_freeSize o) (vol_mountFlag o) (vol_loopPath o) (vol_mapperPath o) (vol_offset o) (vol_sizeLimit o).
(* @src interfaces/innerkits/src/volume_external.cpp 140-143 VolumeExternal::SetPartitionNum *)
Definition Vol_SetPartitionNum (x : Z) (o : VolumeExternal) : VolumeExternal :=
  mkVolumeExternal (vol_core o) (vol_fsType o) (vol_flags o) (vol_fsUuid o) (vol_path o) (vol_description o) (vol_isUserData o) (vol_umountResult o) x (vol_freeSize o) (vol_mountFlag o) (vol_loopPath o) (vol_mapperPath o) (vol_offset o) (vol_sizeLimit o).
(* @src interfaces/innerkits/src/volume_external.cpp 150-153 VolumeExternal::SetLoopPath *)
Definition Vol_SetLoopPath (x : string) (o : VolumeExternal) : VolumeExternal :=
  mkVolumeExternal (vol_core o) (vol_fsType o) (vol_flags o) (vol_fsUuid o) (vol_path o) (vol_description o) (vol_isUserData o) (vol_umountResult o) (vol_partitionNum o) (vol_freeSize o) (vol_mountFlag o) x (vol_mapperPath o) (vol_offset o) (vol_sizeLimit o).
(* @src interfaces/innerkits/src/volume_external.cpp 160-163 VolumeExternal::SetMapperPath *)
Definition Vol_SetMapperPath (x : string) (o : VolumeExternal) : VolumeExternal :=
  mkVolumeExternal (vol_core o) (vol_fsType o) (vol_flags o) (vol_fsUuid o) (vol_path o) (vol_description o) (vol_isUserData o) (vol_umountResult o) (vol_partitionNum o) (vol_freeSize o) (vol_mountFlag o) (vol_loopPath o) x (vol_offset o) (vol_sizeLimit o).
(* @src interfaces/innerkits/src/volume_external.cpp 170-173 VolumeExternal::SetMountFlag *)
Definition Vol_SetMountFlag (x : bool) (o : VolumeExternal) : VolumeExternal :=
  mkVolumeExternal (vol_core o) (vol_fsType o) (vol_flags o) (vol_fsUuid o) (vol_path o) (vol_description o) (vol_isUserData o) (vol_umountResult o) (vol_partitionNum o) (vol_freeSize o) x (vol_loopPath o) (vol_mapperPath o) (vol_offset o) (vol_sizeLimit o).
(* @src interfaces/innerkits/src/volume_external.cpp 180-183 VolumeExternal::SetOffset *)
Definition Vol_SetOffset (x : Z) (o : VolumeExternal) : VolumeExternal :=
  mkVolumeExternal (vol_core o) (vol_fsType o) (vol_flags o) (vol_fsUuid o) (vol_path o) (vol_description o) (vol_isUserData o) (vol_umountResult o) (vol_partitionNum o) (vol_freeSize o) (vol_mountFlag o) (vol_loopPath o) (vol_mapperPath o) x (vol_sizeLimit o).
(* @src interfaces/innerkits/src/volume_external.cpp 190-193 VolumeExternal::SetSizeLimit *)
Definition Vol_SetSizeLimit (x : Z) (o : VolumeExternal) : VolumeExternal :=
  mkVolumeExternal (vol_core o) (vol_fsType o) (vol_flags o) (vol_fsUuid o) (vol_path o) (vol_description o) (vol_isUserData o) (vol_umountResult o) (vol_partitionNum o) (vol_freeSize o) (vol_mountFlag o) (vol_loopPath o) (vol_mapperPath o) (vol_offset o) x.

(** Members inherited from [VolumeCore]. *)
Definition Vol_put_core (c : VolumeCore) (o : VolumeExternal) : VolumeExternal :=
  mkVolumeExternal c (vol_fsType o) (vol_flags o) (vol_fsUuid o) (vol_path o) (vol_description o) (vol_isUserData o) (vol_umountResult o) (vol_partitionNum o) (vol_freeSize o) (vol_mountFlag o) (vol_loopPath o) (vol_mapperPath o) (vol_offset o) (vol_sizeLimit o).
Definition Vol_SetState (x : Z) (o : VolumeExternal) : VolumeExternal :=
  Vol_put_core (Core_SetState x (vol_core o)) o.
Definition Vol_SetExtraInfo (x : string) (o : VolumeExternal) : VolumeExternal :=
  Vol_put_core (Core_SetExtraInfo x (vol_core o)) o.
(* @src interfaces/innerkits/src/volume_core.cpp 60-63 VolumeCore::GetId *)
Definition vol_id (o : VolumeExternal) : string := core_id (vol_core o).
(* @src interfaces/innerkits/src/volume_core.cpp 70-73 VolumeCore::GetDiskId *)
Definition vol_diskId (o : VolumeExternal) : string := core_diskId (vol_core o).
(* @src interfaces/innerkits/src/volume_core.cpp 75-78 VolumeCore::GetState *)
Definition vol_state (o : VolumeExternal) : Z := core_state (vol_core o).
(* @src interfaces/innerkits/src/volume_core.cpp 90-93 VolumeCore::GetExtraInfo *)
Definition vol_extraInfo (o : VolumeExternal) : string := core_extraInfo (vol_core o).

(** [VolumeExternal(VolumeCore vc)]: the error flag is not copied. *)
(* @src interfaces/innerkits/src/volume_external.cpp 23-27 VolumeExternal::VolumeExternal *)
Definition VolumeExternal_of_core (vc : VolumeCore) : VolumeExternal :=
  Vol_put_core (VolumeCore_full (core_id vc) (core_type vc) (core_diskId vc) (core_state vc)
                                (core_fsType vc) (core_extraInfo vc)) VolumeExternal_default.

(* @src interfaces/innerkits/src/volume_external.cpp 84-91 VolumeExternal::GetFsTypeString *)
Definition GetFsTypeString (o : VolumeExternal) : string :=
  match find_if (fun kv => kv.1 =? vol_fsType o) FS_TYPE_MAP with
  | None => "undefined"
  | Some kv => kv.2
  end.

(* @src interfaces/innerkits/src/volume_external.cpp 108-118 VolumeExternal::GetFsTypeByStr *)
Definition GetFsTypeByStr (fsTypeStr : string) : Z :=
  match find_if (fun kv => kv.2 =s fsTypeStr) FS_TYPE_MAP with
  | Some kv => kv.1
  | None => -1
  end.

(** Class [PartitionInfo]. *)
(* @src interfaces/innerkits/include/partition_types.h 32-65 PartitionInfo *)
Record PartitionInfo : Type := mkPartitionInfo {
  pi_partitionNum : Z;
  pi_diskId : string;
  pi_startSector : Z;
  pi_endSector : Z;
  pi_sizeBytes : Z;
  pi_fsType : string;
}.
#[export] Instance PartitionInfo_eq_dec : EqDecision PartitionInfo.
Proof. solve_decision. Defined.
(** Member initialisers of the default constructor. *)
Definition PartitionInfo_default : PartitionInfo :=
  mkPartitionInfo 0 "" 0 0 0 "".
(* @src interfaces/innerkits/src/partition_types.cpp 26-39 PartitionInfo::PartitionInfo *)
Definition PartitionInfo_new (partitionNum : Z) (diskId : string) (startSector endSector sizeBytes : Z) (fsType : string) : PartitionInfo :=
  mkPartitionInfo partitionNum diskId startSector endSector sizeBytes fsType.
(* @src interfaces/innerkits/src/partition_types.cpp 56-59 PartitionInfo::SetDiskId *)
Definition PI_SetDiskId (x : string) (o : PartitionInfo) : PartitionInfo :=
  mkPartitionInfo (pi_partitionNum o) x (pi_startSector o) (pi_endSector o) (pi_sizeBytes o) (pi_fsType o).
(* @src interfaces/innerkits/src/partition_types.cpp 46-49 PartitionInfo::SetPartitionNum *)
Definition PI_SetPartitionNum (x : Z) (o : PartitionInfo) : PartitionInfo :=
  mkPartitionInfo x (pi_diskId o) (pi_startSector o) (pi_endSector o) (pi_sizeBytes o) (pi_fsType o).
(* @src interfaces/innerkits/src/partition_types.cpp 66-69 PartitionInfo::SetStartSector *)
Definition PI_SetStartSector (x : Z) (o : PartitionInfo) : PartitionInfo :=
  mkPartitionInfo (pi_partitionNum o) (pi_diskId o) x (pi_endSector o) (pi_sizeBytes o) (pi_fsType o).
(* @src interfaces/innerkits/src/partition_types.cpp 76-79 PartitionInfo::SetEndSector *)
Definition PI_SetEndSector (x : Z) (o : PartitionInfo) : PartitionInfo :=
  mkPartitionInfo (pi_partitionNum o) (pi_diskId o) (pi_startSector o) x (pi_sizeBytes o) (pi_fsType o).
(* @src interfaces/innerkits/src/partition_types.cpp 86-89 PartitionInfo::SetSizeBytes *)
Definition PI_SetSizeBytes (x : Z) (o : PartitionInfo) : PartitionInfo :=
  mkPartitionInfo (pi_partitionNum o) (pi_diskId o) (pi_startSector o) (pi_endSector o) x (pi_fsType o).
(* @src interfaces/innerkits/src/partition_types.cpp 96-99 PartitionInfo::SetFsType *)
Definition PI_SetFsType (x : string) (o : PartitionInfo) : PartitionInfo :=
  mkPartitionInfo (pi_partitionNum o) (pi_diskId o) (pi_startSector o) (pi_endSector o) (pi_sizeBytes o) x.

(** Class [PartitionTableInfo]. *)
(* @src interfaces/innerkits/include/partition_types.h 71-107 PartitionTableInfo *)
Record PartitionTableInfo : Type := mkPartitionTableInfo {
  pti_diskId : string;
  pti_tableType : string;
  pti_partitionCount : Z;
  pti_totalSector : Z;
  pti_sectorSize : Z;
  pti_alignSector : Z;
  pti_lastUsableSector : Z;
  pti_partitions : list PartitionInfo;
}.
#[export] Instance PartitionTableInfo_eq_dec : EqDecision PartitionTableInfo.
Proof. solve_decision. Defined.
(** Member initialisers of the default constructor. *)
Definition PartitionTableInfo_default : PartitionTableInfo :=
  mkPartitionTableInfo "" "" 0 0 512 2048 0 [].
(* @src interfaces/innerkits/src/partition_types.cpp 154-157 PartitionTableInfo::SetDiskId *)
Definition PTI_SetDiskId (x : string) (o : PartitionTableInfo) : PartitionTableInfo :=
  mkPartitionTableInfo x (pti_tableType o) (pti_partitionCount o) (pti_totalSector o) (pti_sectorSize o) (pti_alignSector o) (pti_lastUsableSector o) (pti_partitions o).
(* @src interfaces/innerkits/src/partition_types.cpp 164-167 PartitionTableInfo::SetTableType *)
Definition PTI_SetTableType (x : string) (o : PartitionTableInfo) : PartitionTableInfo :=
  mkPartitionTableInfo (pti_diskId o) x (pti_partitionCount o) (pti_totalSector o) (pti_sectorSize o) (pti_alignSector o) (pti_lastUsableSector o) (pti_partitions o).
(* @src interfaces/innerkits/src/partition_types.cpp 174-177 PartitionTableInfo::SetPartitionCount *)
Definition PTI_SetPartitionCount (x : Z) (o : PartitionTableInfo) : PartitionTableInfo :=
  mkPartitionTableInfo (pti_diskId o) (pti_tableType o) x (pti_totalSector o) (pti_sectorSize o) (pti_alignSector o) (pti_lastUsableSector o) (pti_partitions o).
(* @src interfaces/innerkits/src/partition_types.cpp 184-187 PartitionTableInfo::SetTotalSector *)
Definition PTI_SetTotalSector (x : Z) (o : PartitionTableInfo) : PartitionTableInfo :=
  mkPartitionTableInfo (pti_diskId o) (pti_tableType o) (pti_partitionCount o) x (pti_sectorSize o) (pti_alignSector o) (pti_lastUsableSector o) (pti_partitions o).
(* @src interfaces/innerkits/src/partition_types.cpp 194-197 PartitionTableInfo::SetSectorSize *)
Definition PTI_SetSectorSize (x : Z) (o : PartitionTableInfo) : PartitionTableInfo :=
  mkPartitionTableInfo (pti_diskId o) (pti_tableType o) (pti_partitionCount o) (pti_totalSector o) x (pti_alignSector o) (pti_lastUsableSector o) (pti_partitions o).
(* @src interfaces/innerkits/src/partition_types.cpp 204-207 PartitionTableInfo::SetAlignSector *)
Definition PTI_SetAlignSector (x : Z) (o : PartitionTableInfo) : PartitionTableInfo :=
  mkPartitionTableInfo (pti_diskId o) (pti_tableType o) (pti_partitionCount o) (pti_totalSector o) (pti_sectorSize o) x (pti_lastUsableSector o) (pti_partitions o).
(* @src interfaces/innerkits/src/partition_types.cpp 214-222 PartitionTableInfo::SetPartitions *)
Definition PTI_SetPartitions (x : list PartitionInfo) (o : PartitionTableInfo) : PartitionTableInfo :=
  mkPartitionTableInfo (pti_diskId o) (pti_tableType o) (pti_partitionCount o) (pti_totalSector o) (pti_sectorSize o) (pti_alignSector o) (pti_lastUsableSector o) x.
(* @src interfaces/innerkits/src/partition_types.cpp 229-232 PartitionTableInfo::SetLastUsableSector *)
Definition PTI_SetLastUsableSector (x : Z) (o : PartitionTableInfo) : PartitionTableInfo :=
  mkPartitionTableInfo (pti_diskId o) (pti_tableType o) (pti_partitionCount o) (pti_totalSector o) (pti_sectorSize o) (pti_alignSector o) x (pti_partitions o).

(** Class [PartitionParams]. *)
(* @src interfaces/innerkits/include/partition_types.h 113-135 PartitionParams *)
Record PartitionParams : Type := mkPartitionParams {
  pp_partitionNum : Z;
  pp_startSector : Z;
  pp_endSector : Z;
  pp_typeCode : string;
}.
#[export] Instance PartitionParams_eq_dec : EqDecision PartitionParams.
Proof. solve_decision. Defined.
(** Member initialisers of the default constructor. *)
Definition PartitionParams_default : PartitionParams :=
  mkPartitionParams 0 0 0 "".
(* @src interfaces/innerkits/src/partition_types.cpp 310-312 PartitionParams::PartitionParams *)
Definition PartitionParams_new (partitionNum startSector endSector : Z) (typeCode : string) : PartitionParams :=
  mkPartitionParams partitionNum startSector endSector typeCode.
(* @src interfaces/innerkits/src/partition_types.cpp 319-322 PartitionParams::SetPartitionNum *)
Definition PP_SetPartitionNum (x : Z) (o : PartitionParams) : PartitionParams :=
  mkPartitionParams x (pp_startSector o) (pp_endSector o) (pp_typeCode o).
(* @src interfaces/innerkits/src/partition_types.cpp 329-332 PartitionParams::SetStartSector *)
Definition PP_SetStartSector (x : Z) (o : PartitionParams) : PartitionParams :=
  mkPartitionParams (pp_partitionNum o) x (pp_endSector o) (pp_typeCode o).
(* @src interfaces/innerkits/src/partition_types.cpp 339-342 PartitionParams::SetEndSector *)
Definition PP_SetEndSector (x : Z) (o : PartitionParams) : PartitionParams :=
  mkPartitionParams (pp_partitionNum o) (pp_startSector o) x (pp_typeCode o).
(* @src interfaces/innerkits/src/partition_types.cpp 349-352 PartitionParams::SetTypeCode *)
Definition PP_SetTypeCode (x : string) (o : PartitionParams) : PartitionParams :=
  mkPartitionParams (pp_partitionNum o) (pp_startSector o) (pp_endSector o) x.

(** Class [FormatParams]. *)
(* @src interfaces/innerkits/include/partition_types.h 141-160 FormatParams *)
Record FormatParams : Type := mkFormatParams {
  fp_fsType : string;
  fp_quickFormat : bool;
  fp_volumeName : string;
}.
#[export] Instance FormatParams_eq_dec : EqDecision FormatParams.
Proof. solve_decision. Defined.
(** Member initialisers of the default constructor. *)
Definition FormatParams_default : FormatParams :=
  mkFormatParams "" true "".
(* @src interfaces/innerkits/src/partition_types.cpp 390-391 FormatParams::FormatParams *)
Definition FormatParams_new (fsType : string) (quickFormat : bool) (volumeName : string) : FormatParams :=
  mkFormatParams fsType quickFormat volumeName.
(* @src interfaces/innerkits/src/partition_types.cpp 398-401 FormatParams::SetFsType *)
Definition FP_SetFsType (x : string) (o : FormatParams) : FormatParams :=
  mkFormatParams x (fp_quickFormat o) (fp_volumeName o).
(* @src interfaces/innerkits/src/partition_types.cpp 408-411 FormatParams::SetQuickFormat *)
Definition FP_SetQuickFormat (x : bool) (o : FormatParams) : FormatParams :=
  mkFormatParams (fp_fsType o) x (fp_volumeName o).
(* @src interfaces/innerkits/src/partition_types.cpp 418-421 FormatParams::SetVolumeName *)
Definition FP_SetVolumeName (x : string) (o : FormatParams) : FormatParams :=
  mkFormatParams (fp_fsType o) (fp_quickFormat o) x.

(** Class [MountParam]. *)
(* @src interfaces/innerkits/include/mount_param.h 27-44 MountParam *)
Record MountParam : Type := mkMountParam {
  mp_readOnly : bool;
  mp_fromEdmMount : bool;
}.
#[export] Instance MountParam_eq_dec : EqDecision MountParam.
Proof. solve_decision. Defined.
(** Member initialisers of the default constructor. *)
Definition MountParam_default : MountParam :=
  mkMountParam false false.
(* @src interfaces/innerkits/src/mount_param.cpp 21-21 MountParam::MountParam *)
Definition MountParam_new (readOnly : bool) : MountParam :=
  mkMountParam readOnly false.
(* @src interfaces/innerkits/src/mount_param.cpp 28-31 MountParam::SetReadOnly *)
Definition MP_SetReadOnly (x : bool) (o : MountParam) : MountParam :=
  mkMountParam x (mp_fromEdmMount o).
(* @src interfaces/innerkits/src/mount_param.cpp 38-41 MountParam::SetFromEdmMount *)
Definition MP_SetFromEdmMount (x : bool) (o : MountParam) : MountParam :=
  mkMountParam (mp_readOnly o) x.

(** Class [CryptParam]. *)
(* @src interfaces/innerkits/include/crypt_param.h 27-50 CryptParam *)
Record CryptParam : Type := mkCryptParam {
  cp_type : string;
  cp_cipher : string;
  cp_keySize : Z;
  cp_keyFile : string;
}.
#[export] Instance CryptParam_eq_dec : EqDecision CryptParam.
Proof. solve_decision. Defined.
(** Member initialisers of the default constructor. *)
Definition CryptParam_default : CryptParam :=
  mkCryptParam "" "" 0 "".
(* @src interfaces/innerkits/src/crypt_param.cpp 24-26 CryptParam::CryptParam *)
Definition CryptParam_new (type cipher : string) (keySize : Z) (keyFile : string) : CryptParam :=
  mkCryptParam type cipher keySize keyFile.
(* @src interfaces/innerkits/src/crypt_param.cpp 33-36 CryptParam::SetType *)
Definition CP_SetType (x : string) (o : CryptParam) : CryptParam :=
  mkCryptParam x (cp_cipher o) (cp_keySize o) (cp_keyFile o).
(* @src interfaces/innerkits/src/crypt_param.cpp 43-46 CryptParam::SetCipher *)
Definition CP_SetCipher (x : string) (o : CryptParam) : CryptParam :=
  mkCryptParam (cp_type o) x (cp_keySize o) (cp_keyFile o).
(* @src interfaces/innerkits/src/crypt_param.cpp 53-56 CryptParam::SetKeySize *)
Definition CP_SetKeySize (x : Z) (o : CryptParam) : CryptParam :=
  mkCryptParam (cp_type o) (cp_cipher o) x (cp_keyFile o).
(* @src interfaces/innerkits/src/crypt_param.cpp 63-66 CryptParam::SetKeyFile *)
Definition CP_SetKeyFile (x : string) (o : CryptParam) : CryptParam :=
  mkCryptParam (cp_type o) (cp_cipher o) (cp_keySize o) x.

(** Class [ExternalDiskInfo]. *)
(* @src interfaces/innerkits/include/external_disk_info.h 33-62 ExternalDiskInfo *)
Record ExternalDiskInfo : Type := mkExternalDiskInfo {
  edi_diskId : string;
  edi_diskType : Z;
  edi_volumeIds : list string;
  edi_vendorId : Z;
  edi_productId : Z;
}.
#[export] Instance ExternalDiskInfo_eq_dec : EqDecision ExternalDiskInfo.
Proof. solve_decision. Defined.
(** Member initialisers of the default constructor. *)
Definition ExternalDiskInfo_default : ExternalDiskInfo :=
  mkExternalDiskInfo "" 0 [] 0 0.

(** Class [ExternalVolumeInfo]. *)
(* @src interfaces/innerkits/include/external_volume_info.h 32-77 ExternalVolumeInfo *)
Record ExternalVolumeInfo : Type := mkExternalVolumeInfo {
  evi_volumeId : string;
  evi_uuid : string;
  evi_diskId : string;
  evi_description : string;
  evi_state : Z;
  evi_totalSize : Z;
  evi_freeSize : Z;
  evi_path : string;
  evi_fsType : string;
}.
#[export] Instance ExternalVolumeInfo_eq_dec : EqDecision ExternalVolumeInfo.
Proof. solve_decision. Defined.
(** Member initialisers of the default constructor. *)
Definition ExternalVolumeInfo_default : ExternalVolumeInfo :=
  mkExternalVolumeInfo "" "" "" "" 0 0 0 "" "".

(** Struct [PartitionRecord]. *)
(* @src services/disk_manager/include/disk/storage_spec_models.h 76-84 PartitionRecord *)
Record PartitionRecord : Type := mkPartitionRecord {
  pr_diskId : string;
  pr_partitionNumber : Z;
  pr_startSector : Z;
  pr_endSector : Z;
  pr_sizeBytes : Z;
  pr_partitionType : string;
  pr_fsTypeRaw : string;
}.
#[export] Instance PartitionRecord_eq_dec : EqDecision PartitionRecord.
Proof. solve_decision. Defined.
(** Member initialisers of the default constructor. *)
Definition PartitionRecord_default : PartitionRecord :=
  mkPartitionRecord "" 0 0 0 0 "" "".

(** ** Classification of a disk: [interfaces/innerkits/src/disk.cpp] *)
(* @src interfaces/innerkits/src/disk.cpp 24-27 IsInternalDataDiskType *)
Definition IsInternalDataDiskType (diskType : Z) : bool :=
  (diskType =? DATA_DISK_SSD) || (diskType =? DATA_DISK_HDD).

(* @src interfaces/innerkits/src/disk.cpp 29-32 SysPathHasOpticalBlock *)
Definition SysPathHasOpticalBlock (p : string) : bool := contains "/block/sr" p.
(* @src interfaces/innerkits/src/disk.cpp 34-37 SysPathHasNvme *)
Definition SysPathHasNvme (p : string) : bool := contains "/nvme" p.
(* @src interfaces/innerkits/src/disk.cpp 39-42 SysPathHasDirectSata *)
Definition SysPathHasDirectSata (p : string) : bool := contains "/ata/" p || contains ".sata/" p.
(* @src interfaces/innerkits/src/disk.cpp 44-61 SysPathHasUsbTopology *)
Definition SysPathHasUsbTopology (p : string) : bool :=
  if contains "/usb" p || contains "usbhost" p then true
  else if contains "/hiusb/" p || contains "platform/hiusb" p then true
  else if contains ".ehci" p || contains "/ehci" p || contains "ehci/" p then true
  else if contains "xhci" p || contains ".dwc3" p || contains "/dwc3/" p then true
  else false.
(* @src interfaces/innerkits/src/disk.cpp 63-67 SysPathHasMmcHost *)
Definition SysPathHasMmcHost (p : string) : bool :=
  contains "mmc_host" p || contains "dwmmc" p || contains "hi_mci" p || contains "dw_mmc" p.

(* @src interfaces/innerkits/src/disk.cpp 247-250 Disk::IsInternalDataDisk *)
Definition IsInternalDataDisk (d : Disk) : bool := IsInternalDataDiskType (disk_diskType d).
(* @src interfaces/innerkits/src/disk.cpp 252-255 Disk::UpdateRemovableFromDiskType *)
Definition UpdateRemovableFromDiskType (d : Disk) : Disk :=
  Disk_put_removable (if IsInternalDataDiskType (disk_diskType d) then false else true) d.
(* @src interfaces/innerkits/src/disk.cpp 106-110 Disk::SetDiskType *)
Definition Disk_SetDiskType (t : Z) (d : Disk) : Disk := UpdateRemovableFromDiskType (Disk_put_diskType t d).
(* @src interfaces/innerkits/src/disk.cpp 70-84 Disk::Disk *)
Definition Disk_new (diskId : string) (sizeBytes : Z) (devName : string) (diskType : Z) : Disk :=
  let d := Disk_default in
  UpdateRemovableFromDiskType
    (mkDisk diskId sizeBytes diskType (disk_removable d) (disk_volumeIds d) (disk_extraInfo d)
            (disk_cdromState d) (disk_isUsbBus d) ("/dev/block/" +:+ devName) devName (disk_vendor d)
            (disk_partitionType d) (disk_vendorId d) (disk_productId d) (disk_serialNumber d)
            (disk_busnum d) (disk_devAddress d)).

(** The [classifiedType] of the first part of [RefreshClassificationFromSysfs]. *)
Definition ClassifyFromSysfs (diskType : Z) (isUsbBus : bool) (p : string) (rotational : Z) : DiskType :=
  if (diskType =? CD_FLAG) || SysPathHasOpticalBlock p then CD_FLAG
  else if SysPathHasNvme p || (SysPathHasDirectSata p && (rotational =? 0)) then DATA_DISK_SSD
  else if SysPathHasDirectSata p then DATA_DISK_HDD
  else if isUsbBus then USB_FLAG
  else if SysPathHasMmcHost p then SD_FLAG
  else DISK_TYPE_UNKNOWN.

(* @src interfaces/innerkits/src/disk.cpp 257-296 Disk::RefreshClassificationFromSysfs *)
Definition RefreshClassificationFromSysfs (sysfsPath : string) (rotational : Z) (d : Disk) : Disk :=
  if disk_diskType d =? DVR_USB then UpdateRemovableFromDiskType d
  else
    let p := sysfsPath in
    let '(d, classifiedType) :=
      if negb (str_empty p) then
        let d := Disk_SetUsbBus (SysPathHasUsbTopology p) d in
        (d, DiskType_val (ClassifyFromSysfs (disk_diskType d) (disk_isUsbBus d) p rotational))
      else (d, DiskType_val DISK_TYPE_UNKNOWN) in
    let classifiedType :=
      if classifiedType =? DISK_TYPE_UNKNOWN then
        if (disk_diskType d =? SD_FLAG) || (disk_diskType d =? USB_FLAG) || (disk_diskType d =? CD_FLAG)
        then disk_diskType d else DiskType_val DISK_TYPE_UNKNOWN
      else classifiedType in
    UpdateRemovableFromDiskType (Disk_put_diskType classifiedType d).
