(* ===== verification/Utils.v ===== *)
(** * [utils/src/disk_manager_utils.cpp]: validation of identifiers and paths

    The checks every entry point runs on the strings it receives: path
    traversal, the shape of disk and volume ids, uuids, and the anonymised form
    of a string in the logs. *)
From S2P Require Import Prelude CppString.

(* @src utils/src/disk_manager_utils.cpp 23-31 INT32_MIN_ID_LENGTH *)
Definition INT32_MIN_ID_LENGTH : nat := 3.
Definition INT32_SHORT_ID_LENGTH : nat := 20.
Definition INT32_PLAINTEXT_LENGTH : nat := 4.
Definition PATH_INVALID_FLAG1 : string := "../".
Definition PATH_INVALID_FLAG2 : string := "/..".
Definition PATH_INVALID_FLAG_LEN : nat := 3.
Definition DOUBLE_DOT_LEN : nat := 2.
(* @src utils/src/disk_manager_utils.cpp 32-38 ID_SEG_MIN_DIGITS *)
Definition ID_SEG_MIN_DIGITS : nat := 1.
Definition ID_SEG_MAX_DIGITS : nat := 4.
Definition VOL_PREFIX_LEN : nat := 4.
Definition DISK_PREFIX_LEN : nat := 5.
Definition UUID_MAX_LEN : nat := 128.
Definition UUID_DEDUP_SUFFIX_MAX_DIGITS : nat := 4.
Definition UUID_SEQ_SEPARATOR : string := "_".

(* @src utils/src/disk_manager_utils.cpp 82-102 GetAnonyString *)
Definition GetAnonyString (value : string) : string :=
  let tmpStr := "******" in
  let strLen := String.length value in
  if (strLen <? INT32_MIN_ID_LENGTH)%nat then tmpStr
  else if (strLen <=? INT32_SHORT_ID_LENGTH)%nat then
    stake 1 value +:+ tmpStr +:+ sdrop (strLen - 1) value
  else
    stake INT32_PLAINTEXT_LENGTH value +:+ tmpStr +:+ sdrop (strLen - INT32_PLAINTEXT_LENGTH) value.

(** [s[i]] *)
Definition char_at (i : nat) (s : string) (c : ascii) : bool :=
  match String.get i s with Some d => char_eqb d c | None => false end.

(** The first loop of [IsFilePathInvalid]: [pos] is the current occurrence of
    ["../"]; each turn moves [pos] forward by at least [PATH_INVALID_FLAG_LEN]. *)
(* @src utils/src/disk_manager_utils.cpp 110-117 IsFilePathInvalid *)
Fixpoint dotdot_slash_loop (fuel : nat) (filePath : string) (pos : option nat) : bool :=
  match fuel, pos with
  | S fuel', Some pos =>
      if (pos =? 0)%nat || char_at (pos - 1) filePath SLASH then true
      else dotdot_slash_loop fuel' filePath (sfind_from PATH_INVALID_FLAG1 (pos + PATH_INVALID_FLAG_LEN) filePath)
  | _, _ => false
  end.

(** The second loop: occurrences of a backslash. *)
(* @src utils/src/disk_manager_utils.cpp 124-131 IsFilePathInvalid *)
Fixpoint dotdot_backslash_loop (fuel : nat) (filePath : string) (pos : option nat) : bool :=
  match fuel, pos with
  | S fuel', Some pos =>
      if (DOUBLE_DOT_LEN <=? pos)%nat && char_at (pos - 1) filePath "." && char_at (pos - DOUBLE_DOT_LEN) filePath "."
      then true
      else dotdot_backslash_loop fuel' filePath (sfind_from (schar BACKSLASH) (pos + 1) filePath)
  | _, _ => false
  end.

(* @src utils/src/disk_manager_utils.cpp 66-79 URL_ENCODED_SLASH_LOW *)
Definition urlTraversalPatterns : list string :=
  ["%2f"; "%2F"; "%5c"; "%5C"; "%2e"; "%2E"; "%252e"; "%252E"; "%252f"; "%252F"; "%255c"; "%255C"].
Definition NULL_BYTE_STR : string := "%00".

(* @src utils/src/disk_manager_utils.cpp 104-154 IsFilePathInvalid *)
Definition IsFilePathInvalid (filePath : string) : bool :=
  let fuel := S (String.length filePath) in
  if str_empty filePath then true
  else if dotdot_slash_loop fuel filePath (sfind PATH_INVALID_FLAG1 filePath) then true
  else if match srfind PATH_INVALID_FLAG2 filePath with
          | Some pos => (String.length filePath - pos =? PATH_INVALID_FLAG_LEN)%nat
          | None => false
          end then true
  else if dotdot_backslash_loop fuel filePath (sfind (schar BACKSLASH) filePath) then true
  else if existsb (fun pattern => contains pattern filePath) urlTraversalPatterns then true
  else if contains NULL_BYTE_STR filePath || contains (schar NUL) filePath then true
  else false.

(* @src utils/src/disk_manager_utils.cpp 156-170 IsPureDigitsInRange *)
Definition IsPureDigitsInRange (s : string) (minLen maxLen : nat) : bool :=
  if (String.length s <? minLen)%nat || (maxLen <? String.length s)%nat then false
  else if negb (sforall is_digit s) then false
  else true.

(* @src utils/src/disk_manager_utils.cpp 172-183 IsMountPathValid *)
Definition IsMountPathValid (mountPath : string) : bool :=
  if IsFilePathInvalid mountPath then false
  else if negb (starts_with "/mnt/data" mountPath) then false
  else true.

(** The part [IsVolumeIdValid] and [IsDiskIdValid] share: after the prefix, two
    segments of 1 to 4 digits separated by the only dash. *)
Definition two_digit_segments (prefixLen : nat) (id : string) : bool :=
  match sfind_from "-" prefixLen id with
  | None => false
  | Some firstDash =>
      match sfind_from "-" (firstDash + 1) id with
      | Some _ => false
      | None =>
          let seg1 := substr prefixLen (firstDash - prefixLen) id in
          let seg2 := sdrop (firstDash + 1) id in
          if negb (IsPureDigitsInRange seg1 ID_SEG_MIN_DIGITS ID_SEG_MAX_DIGITS)
             || negb (IsPureDigitsInRange seg2 ID_SEG_MIN_DIGITS ID_SEG_MAX_DIGITS)
          then false else true
      end
  end.

(* @src utils/src/disk_manager_utils.cpp 185-220 IsVolumeIdValid *)
Definition IsVolumeIdValid (volumeId : string) : bool :=
  if IsFilePathInvalid volumeId then false
  else if starts_with "mtp-" volumeId || starts_with "ptp-" volumeId then true
  else if starts_with "vol-crypt-" volumeId then true
  else if negb (starts_with "vol-" volumeId) then false
  else two_digit_segments VOL_PREFIX_LEN volumeId.

(* @src utils/src/disk_manager_utils.cpp 222-249 IsDiskIdValid *)
Definition IsDiskIdValid (diskId : string) : bool :=
  if IsFilePathInvalid diskId then false
  else if negb (starts_with "disk-" diskId) then false
  else two_digit_segments DISK_PREFIX_LEN diskId.

(* @src utils/src/disk_manager_utils.cpp 251-273 IsUuidValid *)
Definition IsUuidValid (uuid : string) : bool :=
  if IsFilePathInvalid uuid then false
  else match srfind UUID_SEQ_SEPARATOR uuid with
       | Some sep =>
           let base := stake sep uuid in
           let suffix := sdrop (sep + 1) uuid in
           if IsPureDigitsInRange suffix 1 UUID_DEDUP_SUFFIX_MAX_DIGITS
              && (String.length base <=? UUID_MAX_LEN)%nat then true
           else false
       | None => if (UUID_MAX_LEN <? String.length uuid)%nat then false else true
       end.

(** ** [GenerateRandomUuid]

    [std::hash<std::string>] is implementation-defined; the two 64-bit draws of
    the generator it seeds are an argument. *)
(* @src utils/src/disk_manager_utils.cpp 40-64 UUID_BYTES *)
Definition UUID_FIELD_LENGTHS : list nat := [4; 2; 2; 2; 6]%nat.
Definition HEX_CHARS (n : Z) : ascii :=
  default "0"%char (String.get (Z.to_nat n) "0123456789abcdef").
Definition hex_byte (b : Z) : string :=
  String (HEX_CHARS (Z.shiftr b 4)) (schar (HEX_CHARS (Z.land b 15))).

Definition uint64_bytes (a : Z) : list Z :=
  map (fun i => Z.land (Z.shiftr a (Z.of_nat i * 8)) 255) (seq 0 8).

Fixpoint uuid_fields (fields : list nat) (buf : list Z) : string :=
  match fields with
  | [] => ""
  | n :: rest =>
      foldr (fun b s => hex_byte b +:+ s)
            (match rest with [] => "" | _ => "-" +:+ uuid_fields rest (drop n buf) end)
            (take n buf)
  end.

(* @src utils/src/disk_manager_utils.cpp 275-303 GenerateRandomUuid *)
Definition GenerateRandomUuid (draws : string -> Z * Z) (diskId : string) : string :=
  let (a, b) := draws diskId in
  let buf := uint64_bytes a ++ uint64_bytes b in
  let buf := alter (fun x => Z.lor (Z.land x 15) 64) 6%nat buf in
  let buf := alter (fun x => Z.lor (Z.land x 63) 128) 8%nat buf in
  uuid_fields UUID_FIELD_LENGTHS buf.

(** * Lemmas *)

Lemma get_app_r a b i : String.get (String.length a + i) (a +:+ b) = String.get i b.
Proof. induction a; simpl; auto. Qed.
Lemma char_at_spec i s c : char_at i s c = true <-> exists a b, s = a +:+ String c b /\ String.length a = i.
Proof.
  unfold char_at. revert i; induction s as [|d s IH]; intros i; simpl.
  - split; [done|]. intros ([|? ?] & b & ? & ?); done.
  - destruct i as [|i]; simpl.
    + rewrite char_eqb_true. split.
      * intros ->. by exists "", s.
      * intros ([|? ?] & b & ? & ?); simpl in *; congruence.
    + rewrite IH. split.
      * intros (a & b & -> & <-). by exists (String d a), b.
      * intros ([|x a] & b & ? & Hl); simpl in *; [done|]. simplify_eq. eauto.
Qed.

Lemma app_split_le (a b c d : string) :
  a +:+ b = c +:+ d -> (String.length a <= String.length c)%nat -> exists e, c = a +:+ e /\ b = e +:+ d.
Proof.
  revert c; induction a as [|x a IH]; intros c; simpl; [intros ->; eauto|].
  destruct c as [|y c]; simpl; [lia|]. intros [= -> H] Hl.
  destruct (IH c H) as (e & -> & ->); [lia|]. eauto.
Qed.
Lemma app_split_len (a b c d : string) :
  a +:+ b = c +:+ d -> String.length a = String.length c -> a = c /\ b = d.
Proof.
  intros H Hl. destruct (app_split_le a b c d H) as (e & -> & ->); [lia|].
  rewrite slen_app in Hl. destruct e; simpl in *; [by rewrite sapp_nil_r|lia].
Qed.

(** [sfind_from] returns the leftmost occurrence at or after [pos]. *)
Lemma sfind_from_Some pat pos s i :
  sfind_from pat pos s = Some i ->
  (pos <= i)%nat /\ exists a b, s = a +:+ pat +:+ b /\ String.length a = i.
Proof.
  unfold sfind_from. case_match eqn:Hl; bsimp; [|done].
  destruct (sfind pat (sdrop pos s)) as [j|] eqn:Hf; simpl; [|done]. intros [= <-].
  apply sfind_Some in Hf as (a & b & Hs & <-). split; [lia|].
  exists (stake pos s +:+ a), b. rewrite slen_app, stake_length by done. split; [|done].
  rewrite <- sapp_assoc, <- Hs. by rewrite stake_sdrop.
Qed.
Lemma sfind_from_leftmost pat pos s a b :
  s = a +:+ pat +:+ b -> (pos <= String.length a)%nat ->
  exists i, sfind_from pat pos s = Some i /\ (i <= String.length a)%nat.
Proof.
  intros -> Hp. unfold sfind_from. rewrite (proj2 (Nat.leb_le _ _)) by (rewrite slen_app; lia).
  assert (Hd : sdrop pos (a +:+ pat +:+ b) = sdrop pos a +:+ pat +:+ b).
  { rewrite <- (stake_sdrop pos a) at 1. rewrite <- sapp_assoc.
    replace pos with (String.length (stake pos a)) at 1 by (by apply stake_length).
    apply sdrop_app. }
  rewrite Hd. destruct (sfind pat (sdrop pos a +:+ pat +:+ b)) as [j|] eqn:Hf; simpl.
  - apply sfind_app_le in Hf. rewrite sdrop_length in Hf. eexists; split; [done|]. lia.
  - exfalso. apply sfind_None in Hf. apply Hf. eauto.
Qed.
Lemma sfind_is_from pat s : sfind pat s = sfind_from pat 0 s.
Proof. unfold sfind_from. simpl. by destruct (sfind pat s). Qed.

(** ** The two search loops visit every relevant occurrence

    The fuel is the length of the path plus one; each turn of a loop advances
    by at least one character, so it is never exhausted. *)


Lemma dotdot_slash_loop_spec fuel p start :
  (String.length p - start < fuel)%nat ->
  dotdot_slash_loop fuel p (sfind_from PATH_INVALID_FLAG1 start p) = true <->
  exists a b, p = a +:+ PATH_INVALID_FLAG1 +:+ b /\ (start <= String.length a)%nat /\
              (a = "" \/ char_at (String.length a - 1) p SLASH = true).
Proof.
  revert start; induction fuel as [|fuel IH]; intros start Hf; [lia|]. simpl.
  destruct (sfind_from PATH_INVALID_FLAG1 start p) as [i|] eqn:Hs.
  2:{ split; [done|]. intros (a & b & Hp & Hle & _).
      destruct (sfind_from_leftmost PATH_INVALID_FLAG1 start p a b Hp Hle) as (i & Hi & _). congruence. }
  pose proof (sfind_from_Some _ _ _ _ Hs) as (Hle & a0 & b0 & Hp0 & Ha0).
  assert (Hlen : (String.length p = i + 3 + String.length b0)%nat).
  { rewrite Hp0, !slen_app, Ha0. simpl. lia. }
  case_match eqn:Ht; bsimp.
  - split; [intros _|done]. exists a0, b0. split; [done|]. split; [lia|].
    destruct a0; [by left|right]. destruct Ht as [Ht|Ht]; [|by rewrite Ha0]. subst i. simpl in Ht. lia.
  - change PATH_INVALID_FLAG_LEN with 3%nat. rewrite IH by lia. split.
    + intros (a & b & Hp & Hl & Ht'). exists a, b. split; [done|]. split; [lia|done].
    + intros (a & b & Hp & Hl & Ht'). exists a, b. split; [done|]. split; [|done].
      destruct (sfind_from_leftmost PATH_INVALID_FLAG1 start p a b Hp Hl) as (i' & Hi & Hia).
      assert (i' = i) as -> by congruence.
      assert (Hg : forall k c, String.get k (PATH_INVALID_FLAG1 +:+ b) = Some c ->
                               String.get (String.length a + k) p = Some c).
      { intros k c Hk. by rewrite Hp, get_app_r. }
      assert (Hg0 : forall k c, String.get k (PATH_INVALID_FLAG1 +:+ b0) = Some c ->
                               String.get (i + k) p = Some c).
      { intros k c Hk. by rewrite Hp0, <- Ha0, get_app_r. }
      specialize (Hg0 2%nat SLASH eq_refl).
      pose proof (Hg 0%nat "."%char eq_refl) as Hg1. pose proof (Hg 1%nat "."%char eq_refl) as Hg2.
      assert (Hne : (String.length a <> i)%nat).
      { intros He. destruct Ht' as [->|Ht']; [simpl in He; lia|]. rewrite He in Ht'. congruence. }
      assert ((String.length a <> i + 1)%nat).
      { intros He. rewrite He in Hg2. replace (i + 1 + 1)%nat with (i + 2)%nat in Hg2 by lia. unfold SLASH in *. congruence. }
      assert ((String.length a <> i + 2)%nat).
      { intros He. rewrite He in Hg1. replace (i + 2 + 0)%nat with (i + 2)%nat in Hg1 by lia. unfold SLASH in *. congruence. }
      lia.
Qed.

Lemma dotdot_backslash_loop_spec fuel p start :
  (String.length p - start < fuel)%nat ->
  dotdot_backslash_loop fuel p (sfind_from (schar BACKSLASH) start p) = true <->
  exists a b, p = a +:+ schar BACKSLASH +:+ b /\ (start <= String.length a)%nat /\
              (2 <= String.length a)%nat /\ char_at (String.length a - 1) p "." = true /\
              char_at (String.length a - 2) p "." = true.
Proof.
  revert start; induction fuel as [|fuel IH]; intros start Hf; [lia|]. cbn [dotdot_backslash_loop].
  destruct (sfind_from (schar BACKSLASH) start p) as [i|] eqn:Hs.
  2:{ split; [done|]. intros (a & b & Hp & Hle & _).
      destruct (sfind_from_leftmost _ start p a b Hp Hle) as (i & Hi & _). congruence. }
  pose proof (sfind_from_Some _ _ _ _ Hs) as (Hle & a0 & b0 & Hp0 & Ha0).
  assert (Hlen : (String.length p = i + 1 + String.length b0)%nat).
  { rewrite Hp0, !slen_app, Ha0. simpl. lia. }
  change DOUBLE_DOT_LEN with 2%nat.
  destruct ((2 <=? i)%nat && char_at (i - 1) p "." && char_at (i - 2) p ".") eqn:Ht.
  - split; [intros _|done]. apply andb_true_iff in Ht as [[Ht1 Ht2]%andb_true_iff Ht3].
    apply Nat.leb_le in Ht1. exists a0, b0. subst i. auto.
  - rewrite IH by lia. split.
    + intros (a & b & Hp & Hl & Ht'). exists a, b. split; [done|]. split; [lia|done].
    + intros (a & b & Hp & Hl & Ht1 & Ht2 & Ht3). exists a, b. split; [done|]. split; [|done].
      destruct (sfind_from_leftmost _ start p a b Hp Hl) as (i' & Hi & Hia).
      assert (i' = i) as -> by congruence.
      assert ((String.length a <> i)%nat); [|lia]. intros He. rewrite He in *.
      rewrite Ht2, Ht3, (proj2 (Nat.leb_le _ _)) in Ht by done. done.
Qed.

(** A component-level reading of the occurrences the loops look for. *)
Lemma before_char_inv p a b c :
  p = a +:+ b -> a <> "" -> char_at (String.length a - 1) p c = true ->
  exists a', a = a' +:+ schar c.
Proof.
  intros -> Hne (x & y & Hxy & Hx)%char_at_spec.
  assert (Hl : (String.length (x +:+ schar c) = String.length a)%nat).
  { rewrite slen_app. simpl. destruct a; [done|]. simpl in *. lia. }
  exists x. change (String c y) with (schar c +:+ y) in Hxy. rewrite sapp_assoc in Hxy.
  by apply app_split_len in Hxy as [-> _].
Qed.
Lemma char_at_before a c b : char_at (String.length (a +:+ schar c) - 1) (a +:+ schar c +:+ b) c = true.
Proof. apply char_at_spec. exists a, b. split; [done|]. rewrite slen_app. simpl. lia. Qed.

(** Segments of a string: what [split_char] returns. *)
Definition seg_start (c : ascii) (a : string) : Prop := a = "" \/ exists a', a = a' +:+ schar c.
Definition seg_end (c : ascii) (b : string) : Prop := b = "" \/ exists b', b = String c b'.

Lemma elem_of_split_char_2 c a x b :
  no_char c x = true -> seg_start c a -> seg_end c b -> x ∈ split_char c (a +:+ x +:+ b).
Proof.
  intros Hx Ha Hb.
  assert (H0 : x ∈ split_char c (x +:+ b)).
  { destruct Hb as [->|[b' ->]].
    - rewrite sapp_nil_r, split_char_none by done. set_solver.
    - rewrite split_char_app by done. set_solver. }
  destruct Ha as [->|[a' ->]]; [done|]. rewrite <- sapp_assoc. simpl.
  induction a' as [|d a' IH]; simpl.
  - unfold char_eqb. rewrite bool_decide_eq_true_2 by done. set_solver.
  - destruct (char_eqb d c) eqn:Hd; [set_solver|].
    assert (Hn : exists u v w, split_char c (a' +:+ String c (x +:+ b)) = u :: v :: w /\ x ∈ v :: w).
    { clear IH. induction a' as [|e a' IH]; simpl.
      - unfold char_eqb. rewrite bool_decide_eq_true_2 by done.
        destruct (split_char c (x +:+ b)) as [|v w]; [set_solver|]. eauto 6.
      - destruct IH as (u & v & w & -> & Hin). destruct (char_eqb e c); [|eauto 6].
        do 3 eexists. split; [done|]. set_solver. }
    destruct Hn as (u & v & w & -> & Hin). set_solver.
Qed.

Lemma elem_of_split_char_1 c s x :
  x ∈ split_char c s -> exists a b, s = a +:+ x +:+ b /\ seg_start c a /\ seg_end c b.
Proof.
  assert (Hg : forall s, (exists x0 b0, head (split_char c s) = Some x0 /\ s = x0 +:+ b0 /\ seg_end c b0) /\
     forall x, x ∈ tail (split_char c s) ->
       exists a b, s = a +:+ x +:+ b /\ (exists a', a = a' +:+ schar c) /\ seg_end c b).
  { clear s x. induction s as [|d s [(x0 & b0 & Hh & Hs & Hb0) IH]]; simpl.
    - split; [exists "", ""; unfold seg_end; auto|set_solver].
    - destruct (char_eqb d c) eqn:Hd; simpl.
      + apply char_eqb_true in Hd as ->. split; [exists "", (String c s); unfold seg_end; eauto|].
        intros x Hx. destruct (split_char c s) as [|y l]; simpl in *; [set_solver|].
        injection Hh as ->. apply elem_of_cons in Hx as [->|Hx].
        * exists (schar c), b0. simpl. rewrite <- Hs. split; [done|]. split; [by exists ""|done].
        * destruct (IH x Hx) as (a & b & -> & [a' ->] & ?). exists (String c (a' +:+ schar c)), b.
          split; [done|]. split; [by exists (String c a')|done].
      + destruct (split_char c s) as [|y l]; simpl in *; [done|]. injection Hh as ->. split.
        * exists (String d x0), b0. simpl. by rewrite <- Hs.
        * intros x Hx. destruct (IH x Hx) as (a & b & -> & [a' ->] & ?).
          exists (String d (a' +:+ schar c)), b. split; [done|]. split; [by exists (String d a')|done]. }
  intros Hx. destruct (Hg s) as [(x0 & b0 & Hh & Hs & Hb0) Htl].
  destruct (split_char c s) as [|y l]; simpl in *; [done|]. injection Hh as ->.
  apply elem_of_cons in Hx as [->|Hx].
  - exists "", b0. unfold seg_start. auto.
  - destruct (Htl x Hx) as (a & b & -> & ? & ?). exists a, b. unfold seg_start. auto.
Qed.

Lemma elem_of_split_char c s x :
  x ∈ split_char c s <->
  no_char c x = true /\ exists a b, s = a +:+ x +:+ b /\ seg_start c a /\ seg_end c b.
Proof.
  split.
  - intros Hx. split; [by eapply split_char_no|by apply elem_of_split_char_1].
  - intros (Hn & a & b & -> & Ha & Hb). by apply elem_of_split_char_2.
Qed.

(** The components of a path. *)
Definition components (p : string) : list string := split_char SLASH p.

Lemma dotdot_slash_test p :
  dotdot_slash_loop (S (String.length p)) p (sfind PATH_INVALID_FLAG1 p) = true <->
  exists a b, p = a +:+ "../" +:+ b /\ seg_start SLASH a.
Proof.
  rewrite sfind_is_from, dotdot_slash_loop_spec by lia. split.
  - intros (a & b & Hp & _ & Ha). exists a, b. split; [done|]. destruct Ha as [->|Ha]; [by left|].
    destruct (decide (a = "")) as [->|Hne]; [by left|]. right. by eapply before_char_inv.
  - intros (a & b & -> & Ha). exists a, b. split; [done|]. split; [lia|].
    destruct Ha as [->|[a' ->]]; [by left|right]. rewrite <- sapp_assoc. apply char_at_before.
Qed.

Lemma tail_test p :
  match srfind PATH_INVALID_FLAG2 p with
  | Some pos => (String.length p - pos =? PATH_INVALID_FLAG_LEN)%nat
  | None => false
  end = true <-> exists a, p = a +:+ "/..".
Proof.
  split.
  - destruct (srfind _ p) as [pos|] eqn:Hs; [|done]. apply srfind_Some in Hs as (a & b & -> & <-).
    intros Hl%Nat.eqb_eq. rewrite !slen_app in Hl. simpl in Hl. unfold PATH_INVALID_FLAG_LEN in Hl.
    exists a. destruct b; [done|]. simpl in Hl. lia.
  - intros [a ->]. destruct (srfind _ _) as [pos|] eqn:Hs.
    + pose proof (srfind_last PATH_INVALID_FLAG2 a "" pos Hs).
      apply srfind_Some in Hs as (a' & b & Heq & <-). apply (f_equal String.length) in Heq.
      rewrite !slen_app in Heq. simpl in Heq. apply Nat.eqb_eq.
      rewrite slen_app. unfold PATH_INVALID_FLAG_LEN. simpl. lia.
    + exfalso. apply (proj1 (srfind_None _ _) Hs). by exists a, "".
Qed.

Lemma dotdot_backslash_test p :
  dotdot_backslash_loop (S (String.length p)) p (sfind (schar BACKSLASH) p) = true <->
  contains (".." +:+ schar BACKSLASH) p = true.
Proof.
  rewrite sfind_is_from, dotdot_backslash_loop_spec, contains_spec by lia. split.
  - intros (a & b & Hp & _ & Hl & H1 & H2).
    apply (before_char_inv _ _ _ _ Hp) in H1 as [a1 ->]; [|by destruct a; [simpl in Hl; lia|]].
    assert (Hl1 : (String.length (a1 +:+ schar ".") - 2 = String.length a1 - 1)%nat)
      by (rewrite slen_app; simpl; lia).
    rewrite Hl1 in H2. rewrite <- sapp_assoc in Hp.
    apply (before_char_inv _ _ _ _ Hp) in H2 as [a2 ->].
    + exists a2, b. rewrite Hp, <- !sapp_assoc. done.
    + intros ->. simpl in *. lia.
  - intros (a & b & ->). exists (a +:+ ".."), b. rewrite <- !sapp_assoc. split; [done|]. split; [lia|].
    rewrite !slen_app. simpl String.length. split; [lia|]. split.
    + apply char_at_spec. exists (a +:+ "."), (String BACKSLASH b). rewrite <- sapp_assoc, slen_app. split; [done|simpl; lia].
    + apply char_at_spec. exists a, (String "." (String BACKSLASH b)). split; [done|lia].
Qed.

(** The components ["../"] at the front, ["/../"] and ["/.."] of the tests. *)
Lemma dotdot_component_cases p :
  ".." ∈ components p <->
  p = ".." \/ (exists a b, p = a +:+ "../" +:+ b /\ seg_start SLASH a) \/ (exists a, p = a +:+ "/..").
Proof.
  unfold components. rewrite elem_of_split_char. split.
  - intros [_ (a & b & -> & Ha & [->|[b' ->]])].
    + destruct Ha as [->|[a' ->]]; [by left|]. right; right. exists a'. by rewrite <- sapp_assoc.
    + right; left. exists a, b'. done.
  - intros [->|[(a & b & -> & Ha)|[a ->]]]; (split; [done|]).
    + exists "", "". unfold seg_start, seg_end. auto.
    + exists a, (String SLASH b). split; [done|]. split; [done|]. right. eauto.
    + exists (a +:+ "/"), "". rewrite <- sapp_assoc. split; [done|]. split; [right; by exists a|by left].
Qed.

Lemma IsFilePathInvalid_iff p :
  IsFilePathInvalid p = false <->
  p <> "" /\ (".." ∈ components p -> p = "..") /\ contains (".." +:+ schar BACKSLASH) p = false /\
  (forall pattern, pattern ∈ urlTraversalPatterns -> contains pattern p = false) /\
  contains NULL_BYTE_STR p = false /\ contains (schar NUL) p = false.
Proof.
  unfold IsFilePathInvalid.
  destruct (str_empty p) eqn:He; bsimp; [naive_solver|].
  assert (Hne : p <> "") by done.
  destruct (dotdot_slash_loop _ _ _) eqn:H1.
  { apply dotdot_slash_test in H1. split; [done|]. intros (_ & Hc & _). exfalso.
    assert (p = "..") as -> by (apply Hc, dotdot_component_cases; auto).
    destruct H1 as (a & b & Hab & _). apply (f_equal String.length) in Hab. rewrite !slen_app in Hab. simpl in Hab. lia. }
  destruct (match srfind _ _ with Some _ => _ | None => _ end) eqn:H2.
  { apply tail_test in H2. split; [done|]. intros (_ & Hc & _). exfalso.
    assert (p = "..") as -> by (apply Hc, dotdot_component_cases; auto).
    destruct H2 as (a & Hab). apply (f_equal String.length) in Hab. rewrite slen_app in Hab. simpl in Hab. lia. }
  assert (Hdd : ".." ∈ components p -> p = "..").
  { rewrite dotdot_component_cases, <- dotdot_slash_test, <- tail_test. rewrite H1, H2. naive_solver. }
  destruct (dotdot_backslash_loop _ _ _) eqn:H3.
  { apply dotdot_backslash_test in H3. rewrite H3. naive_solver. }
  assert (Hbs : contains (".." +:+ schar BACKSLASH) p = false).
  { apply not_true_iff_false. rewrite <- dotdot_backslash_test. congruence. }
  destruct (existsb _ _) eqn:H4.
  { apply existsb_elem_of in H4 as (x & Hx & Hp). split; [done|]. intros (_ & _ & _ & Hn & _).
    rewrite Hn in Hp; done. }
  rewrite existsb_false in H4.
  destruct (contains NULL_BYTE_STR p) eqn:H5; simpl; [naive_solver|].
  destruct (contains (schar NUL) p) eqn:H6; naive_solver.
Qed.

(** * Properties *)

(** A path that begins with [/mnt/data], by its components. *)
Lemma components_cons s x y l : components s = x :: y :: l -> exists s', s = x +:+ "/" +:+ s' /\ components s' = y :: l.
Proof.
  unfold components. revert x. induction s as [|d s IH]; intros x; cbn; [done|]. destruct (char_eqb d SLASH) eqn:Hd.
  - apply char_eqb_true in Hd as ->. intros [= <- Hs]. by exists s.
  - destruct (split_char SLASH s) as [|z l'] eqn:Hs; [done|]. intros [= <- ->]. destruct (IH z eq_refl) as (s' & -> & Hs'). by exists s'.
Qed.
Lemma components_head s x l : components s = x :: l -> starts_with x s = true.
Proof.
  destruct l as [|y l].
  - unfold components. revert x. induction s as [|d s IH]; intros x; cbn; [by intros [= <-]|].
    destruct (char_eqb d SLASH); [intros [= <- Hs]; by apply split_char_nonempty in Hs|].
    destruct (split_char SLASH s) as [|z l'] eqn:Hs; [by apply split_char_nonempty in Hs|]. intros [= <- ->]. cbn. rewrite IH by done.
    by rewrite (proj2 (char_eqb_true d d)).
  - intros (s' & -> & _)%components_cons. apply starts_with_app.
Qed.
Lemma data_prefix_components p :
  starts_with "/mnt/data" p = true <-> exists x rest, components p = "" :: "mnt" :: ("data" +:+ x) :: rest.
Proof.
  rewrite starts_with_spec. split.
  - intros [t ->]. unfold components. destruct (split_char SLASH t) as [|x rest] eqn:Ht; [by apply split_char_nonempty in Ht|].
    exists x, rest. cbn. by rewrite Ht.
  - intros (x & rest & (s1 & -> & (s2 & -> & H)%components_cons)%components_cons).
    apply components_head, starts_with_spec in H as [t ->]. exists (x +:+ t). by rewrite <- sapp_assoc.
Qed.

(** C31: IsFilePathInvalid against a component-wise reference: a path passes exactly
    when it is not empty, has no [".."] component (the lone path [".."] apart,
    which the search patterns miss), and contains no ["..\"], no url-encoded
    separator or dot and no NUL. The two search loops terminate within the fuel. *)
Theorem IsFilePathInvalid_spec p :
  IsFilePathInvalid p = false <->
  p <> "" /\ (".." ∈ components p -> p = "..") /\ contains (".." +:+ schar BACKSLASH) p = false /\
  (forall pattern, pattern ∈ urlTraversalPatterns -> contains pattern p = false) /\
  contains NULL_BYTE_STR p = false /\ contains (schar NUL) p = false.
Proof. apply IsFilePathInvalid_iff. Qed.

(** C32: Exactly which mount paths the service accepts: the absolute ones with [mnt] as first
    component and a second one that begins with the letters [data], without a [".."] component,
    ["..\"], a url-encoded traversal or a NUL. They never climb out of that directory; but the
    second component need not be [data]: a path in [/mnt/database] is accepted too. *)
Theorem IsMountPathValid_iff p :
  IsMountPathValid p = true <->
  (exists x rest, components p = "" :: "mnt" :: ("data" +:+ x) :: rest) /\ ~ (".." ∈ components p) /\
  contains (".." +:+ schar BACKSLASH) p = false /\
  (forall pattern, pattern ∈ urlTraversalPatterns -> contains pattern p = false) /\
  contains NULL_BYTE_STR p = false /\ contains (schar NUL) p = false.
Proof.
  rewrite <- data_prefix_components. unfold IsMountPathValid.
  destruct (IsFilePathInvalid p) eqn:H.
  - split; [done|]. intros (Hs & Hd & H'). assert (Hf : IsFilePathInvalid p = false); [|congruence].
    apply IsFilePathInvalid_iff. split; [by intros ->|]. split; [by intros []%Hd|exact H'].
  - apply IsFilePathInvalid_iff in H as (Hne & Hd & H'). destruct (starts_with "/mnt/data" p) eqn:Hs; cbn [negb]; [|naive_solver].
    split; [|done]. intros _. split; [done|]. split; [|done]. intros Hin. by rewrite (Hd Hin) in Hs.
Qed.
(** The prefix is not a directory: a sibling of [/mnt/data] passes. *)
Example IsMountPathValid_sibling :
  IsMountPathValid "/mnt/data/external/AB12" = true /\ IsMountPathValid "/mnt/database/x" = true /\
  IsMountPathValid "/mnt/data/../x" = false.
Proof. vm_compute. done. Qed.

(** The lone component ".." passes the uuid check: the tests look for "../" and
    "/.." only. *)
Theorem IsUuidValid_accepts_dotdot : IsUuidValid ".." = true.
Proof. reflexivity. Qed.

(** ** Shape of the ids *)
Lemma IsPureDigitsInRange_spec s lo hi :
  IsPureDigitsInRange s lo hi = true <->
  (lo <= String.length s <= hi)%nat /\ sforall is_digit s = true.
Proof.
  unfold IsPureDigitsInRange. destruct (String.length s <? lo)%nat eqn:H1; simpl; bsimp; [split; [done|lia]|].
  destruct (hi <? String.length s)%nat eqn:H2; bsimp; [split; [done|lia]|].
  destruct (sforall is_digit s); simpl; split; auto; try lia.
Qed.

(** [disk-<a>-<b>] and [vol-<a>-<b>] with one to four digits in each place. *)
Definition digit_seg (s : string) : Prop := (1 <= String.length s <= 4)%nat /\ sforall is_digit s = true.

Lemma digits_no_char s c : is_digit c = false -> sforall is_digit s = true -> no_char c s = true.
Proof.
  intros Hc. apply sforall_impl. intros d Hd. apply negb_true_iff, char_eqb_false. congruence.
Qed.

Lemma sfind_from_app pre pos s pat :
  pos = String.length pre -> sfind_from pat pos (pre +:+ s) = Nat.add pos <$> sfind pat s.
Proof.
  intros ->. unfold sfind_from. rewrite sdrop_app. rewrite (proj2 (Nat.leb_le _ _)); [done|].
  rewrite slen_app. lia.
Qed.
Lemma sfind_schar_None c s : sfind (schar c) s = None <-> no_char c s = true.
Proof.
  rewrite sfind_None. split.
  - intros Hn. apply Is_true_true, Is_true_true. unfold no_char.
    induction s as [|d s IH]; simpl; [done|]. apply andb_true_iff. split.
    + apply negb_true_iff, char_eqb_false. intros ->. apply Hn. by exists "", s.
    + apply IH. intros (a & b & ->). apply Hn. by exists (String d a), b.
  - intros Hn (a & b & ->). unfold no_char in Hn. rewrite sforall_app in Hn. simpl in Hn. bsimp. done.
Qed.
Lemma sfind_schar_app c a b : no_char c a = true -> sfind (schar c) (a +:+ String c b) = Some (String.length a).
Proof.
  unfold no_char. induction a as [|d a IH]; simpl.
  - intros _. unfold char_eqb. rewrite bool_decide_eq_true_2 by done. by destruct b.
  - rewrite andb_true_iff. intros [Hd Ha]. rewrite (IH Ha).
    assert (char_eqb c d = false) as -> by (bsimp; congruence). done.
Qed.

(** A string with a single separator splits at it in one way. *)
Lemma single_sep_unique c a b a' b' :
  a +:+ String c b = a' +:+ String c b' -> no_char c a' = true -> no_char c b' = true -> a = a' /\ b = b'.
Proof.
  unfold no_char. revert a'; induction a as [|d a IH]; intros [|d' a']; simpl; intros Heq Ha Hb.
  - by injection Heq.
  - injection Heq as -> H. bsimp. done.
  - injection Heq as -> <-. rewrite sforall_app in Hb. simpl in Hb. bsimp. done.
  - injection Heq as -> H. apply andb_true_iff in Ha as [_ Ha]. destruct (IH a' H Ha Hb) as [-> ->]. done.
Qed.

Lemma two_digit_segments_spec pre s :
  two_digit_segments (String.length pre) (pre +:+ s) = true <->
  exists a b, s = a +:+ "-" +:+ b /\ digit_seg a /\ digit_seg b.
Proof.
  assert (Hun : forall a b a' b', a +:+ "-" +:+ b = a' +:+ "-" +:+ b' -> digit_seg a' -> digit_seg b' -> a = a' /\ b = b').
  { intros a b a' b' H [_ Ha] [_ Hb]. by apply (single_sep_unique "-"); [|apply digits_no_char..]. }
  unfold two_digit_segments. rewrite sfind_from_app by done.
  destruct (sfind "-" s) as [j|] eqn:Hs; simpl fmap.
  2:{ split; [done|]. intros (a & b & -> & _ & _). exfalso. apply (proj1 (sfind_None _ _) Hs). eauto. }
  apply sfind_Some in Hs as (a & b & -> & <-).
  set (p := String.length pre).
  assert (E1 : pre +:+ a +:+ "-" +:+ b = (pre +:+ a +:+ "-") +:+ b) by (by rewrite <- !sapp_assoc).
  assert (El : (p + String.length a + 1 = String.length (pre +:+ a +:+ "-"))%nat)
    by (rewrite !slen_app; simpl; lia).
  rewrite E1, sfind_from_app, <- E1 by done.
  assert (Ed : sdrop (p + String.length a + 1) (pre +:+ a +:+ "-" +:+ b) = b) by (rewrite El, E1; apply sdrop_app).
  assert (Es : substr p (p + String.length a - p) (pre +:+ a +:+ "-" +:+ b) = a).
  { unfold substr. replace (p + String.length a - p)%nat with (String.length a) by lia.
    unfold p. rewrite sdrop_app. apply stake_app. }
  cbv beta iota. rewrite Ed, Es.
  change ID_SEG_MIN_DIGITS with 1%nat. change ID_SEG_MAX_DIGITS with 4%nat.
  destruct (sfind "-" b) as [k|] eqn:Hb; simpl fmap.
  - split; [done|]. intros (a' & b' & Hab & Ha' & Hb').
    destruct (Hun _ _ _ _ Hab Ha' Hb') as [-> ->]. destruct Hb' as [_ Hb'].
    apply (digits_no_char _ "-"%char), (sfind_schar_None "-"%char) in Hb'; [|done].
    exfalso. unfold schar in Hb'. congruence.
  - split.
    + intros H. exists a, b. split; [done|]. unfold digit_seg.
      rewrite <- !IsPureDigitsInRange_spec. by repeat case_match; bsimp.
    + intros (a' & b' & Hab & Ha' & Hb'). destruct (Hun _ _ _ _ Hab Ha' Hb') as [-> ->].
      unfold digit_seg in *. rewrite <- !IsPureDigitsInRange_spec in Ha', Hb'. by rewrite Ha', Hb'.
Qed.

Lemma digit_seg_no_bad s : digit_seg s -> forall c, is_digit c = false -> no_char c s = true.
Proof. intros [_ H] c Hc. by apply digits_no_char. Qed.

Lemma contains_schar c s : contains (schar c) s = negb (no_char c s).
Proof.
  unfold contains. destruct (sfind (schar c) s) eqn:E; symmetry.
  - apply negb_true_iff, not_true_iff_false. rewrite <- sfind_schar_None. congruence.
  - apply negb_false_iff. by apply sfind_schar_None.
Qed.

(** A pattern holding a character the text lacks does not occur in it. *)
Lemma contains_no_char c pat s : no_char c s = true -> no_char c pat = false -> contains pat s = false.
Proof.
  intros Hs Hp. apply not_true_iff_false. rewrite contains_spec. intros (a & b & ->).
  unfold no_char in *. rewrite !sforall_app in Hs. bsimp. congruence.
Qed.

(** Text without a dot, backslash, percent sign or NUL is never refused. *)
Lemma IsFilePathInvalid_plain p :
  p <> "" -> no_char "." p = true -> no_char BACKSLASH p = true -> no_char "%" p = true -> no_char NUL p = true ->
  IsFilePathInvalid p = false.
Proof.
  intros Hne Hd Hb Hp H0. apply IsFilePathInvalid_iff. split; [done|]. split.
  { intros Hin. apply elem_of_split_char in Hin as (_ & a & b & -> & _ & _).
    unfold no_char in Hd. rewrite !sforall_app in Hd. simpl in Hd. bsimp. done. }
  split; [by apply (contains_no_char BACKSLASH)|]. split.
  { intros pat Hpat. apply (contains_no_char "%"); [done|]. unfold urlTraversalPatterns in Hpat.
    repeat (apply elem_of_cons in Hpat as [->|Hpat]; [reflexivity|]). by apply elem_of_nil in Hpat. }
  split; [by apply (contains_no_char "%")|]. by rewrite contains_schar, H0.
Qed.

Lemma no_char_id c pre a b :
  is_digit c = false -> no_char c pre = true -> no_char c "-" = true -> digit_seg a -> digit_seg b ->
  no_char c (pre +:+ a +:+ "-" +:+ b) = true.
Proof.
  intros Hc Hp Hd Ha Hb. unfold no_char in *. rewrite !sforall_app, Hp, Hd.
  pose proof (digit_seg_no_bad a Ha c Hc) as Ha'. pose proof (digit_seg_no_bad b Hb c Hc) as Hb'.
  unfold no_char in *. by rewrite Ha', Hb'.
Qed.

(** A disk id is accepted exactly when it is [disk-<a>-<b>] with one to four
    decimal digits in each place. *)
Theorem IsDiskIdValid_spec id :
  IsDiskIdValid id = true <->
  exists a b, id = "disk-" +:+ a +:+ "-" +:+ b /\ digit_seg a /\ digit_seg b.
Proof.
  unfold IsDiskIdValid. split.
  - destruct (IsFilePathInvalid id); [done|]. destruct (starts_with "disk-" id) eqn:Hs; [|done].
    simpl negb. cbv iota. apply starts_with_spec in Hs as [s ->].
    change DISK_PREFIX_LEN with (String.length "disk-"). rewrite two_digit_segments_spec.
    intros (a & b & -> & Ha & Hb). eauto.
  - intros (a & b & -> & Ha & Hb). rewrite IsFilePathInvalid_plain, starts_with_app; [|done|by apply no_char_id..].
    change DISK_PREFIX_LEN with (String.length "disk-"). apply two_digit_segments_spec. eauto.
Qed.

(** An accepted volume id is an MTP/PTP id, a crypt volume id, or
    [vol-<a>-<b>]; the converse holds for the last form. *)
Theorem IsVolumeIdValid_spec id :
  IsVolumeIdValid id = true <->
  IsFilePathInvalid id = false /\
  (starts_with "mtp-" id = true \/ starts_with "ptp-" id = true \/ starts_with "vol-crypt-" id = true \/
   exists a b, id = "vol-" +:+ a +:+ "-" +:+ b /\ digit_seg a /\ digit_seg b).
Proof.
  unfold IsVolumeIdValid. destruct (IsFilePathInvalid id); [naive_solver|].
  destruct (starts_with "mtp-" id); [naive_solver|]. destruct (starts_with "ptp-" id); [naive_solver|]. simpl orb.
  destruct (starts_with "vol-crypt-" id); [naive_solver|].
  destruct (starts_with "vol-" id) eqn:Hs.
  - apply starts_with_spec in Hs as [s ->]. simpl negb. cbv iota.
    change VOL_PREFIX_LEN with (String.length "vol-"). rewrite two_digit_segments_spec. split.
    + intros (a & b & -> & Ha & Hb). split; [done|]. do 3 right. eauto.
    + intros (_ & [?|[?|[?|(a & b & Heq & Ha & Hb)]]]); try done.
      exists a, b. split; [|done]. by injection Heq.
  - split; [done|]. intros (_ & [?|[?|[?|(a & b & -> & Ha & Hb)]]]); done.
Qed.

(** [GenerateRandomUuid] always gives a text of 36 characters, whatever the
    generator draws. *)
Lemma uuid_fields_length fields buf :
  (sum_list fields <= List.length buf)%nat ->
  String.length (uuid_fields fields buf) = (2 * sum_list fields + (List.length fields - 1))%nat.
Proof.
  assert (Hf : forall bs t, String.length (foldr (fun b s => hex_byte b +:+ s) t bs)
                       = (2 * List.length bs + String.length t)%nat).
  { intros bs t. induction bs as [|b bs IH]; cbn [foldr List.length]; [done|]. rewrite slen_app, IH. simpl. lia. }
  revert buf; induction fields as [|n fields IH]; intros buf Hl; [done|]. cbn [uuid_fields].
  rewrite Hf, length_take. simpl in Hl |- *. destruct fields as [|m fields]; [simpl in *; lia|].
  cbn [String.length String.append]. rewrite IH by (rewrite length_drop; lia). simpl. lia.
Qed.

Theorem GenerateRandomUuid_length draws diskId :
  String.length (GenerateRandomUuid draws diskId) = 36%nat.
Proof.
  unfold GenerateRandomUuid. destruct (draws diskId) as [a b].
  rewrite uuid_fields_length; [done|]. rewrite !length_alter, length_app. vm_compute. lia.
Qed.
