(* ===== verification/Uevent.v ===== *)
(** * [services/disk_manager/src/disk/uevent_env_parser.cpp]

    The text of a kernel uevent (lines [KEY=value]) to the record the bootstrap
    works on. Keys are dispatched on a 32-bit FNV-1a hash. *)
From S2P Require Import Prelude CppString.

(* @src services/disk_manager/include/disk/uevent_env_parser.h 25-38 UeventEnv *)
Record UeventEnv : Type := mkUeventEnv {
  ue_action : string;
  ue_subsystem : string;
  ue_devType : string;
  ue_major : Z;
  ue_minor : Z;
  ue_devPath : string;
  ue_sysPath : string;
  ue_devName : string;
  ue_ejectRequest : bool;
}.
#[export] Instance UeventEnv_eq_dec : EqDecision UeventEnv.
Proof. solve_decision. Defined.
Definition UeventEnv_default : UeventEnv := mkUeventEnv "" "" "" 0 0 "" "" "" false.

(** One turn of the loop of [KeyHash]; the multiplication wraps at 32 bits. *)
(* @src services/disk_manager/src/disk/uevent_env_parser.cpp 31-39 KeyHash *)
Fixpoint KeyHash_from (h : Z) (sv : string) : Z :=
  match sv with
  | EmptyString => h
  | String c sv' => KeyHash_from (u32 (Z.lxor h (Z.of_N (char_code c)) * 16777619)) sv'
  end.
Definition KeyHash (sv : string) : Z := KeyHash_from 2166136261 sv.

(* @src services/disk_manager/src/disk/uevent_env_parser.cpp 48-51 UeventEnv::IsBlockDiskEvent *)
Definition IsBlockDiskEvent (e : UeventEnv) : bool := (ue_subsystem e =s "block") && (ue_devType e =s "disk").

(* @src services/disk_manager/src/disk/uevent_env_parser.cpp 60-94 ApplyEnvValue *)
Definition ApplyEnvValue (out : UeventEnv) (keyHash : Z) (val : string) : UeventEnv :=
  let '(mkUeventEnv action subsystem devType major minor devPath sysPath devName ejectRequest) := out in
  if keyHash =? KeyHash "action" then
    mkUeventEnv (to_lower val) subsystem devType major minor devPath sysPath devName ejectRequest
  else if keyHash =? KeyHash "subsystem" then
    mkUeventEnv action (to_lower val) devType major minor devPath sysPath devName ejectRequest
  else if keyHash =? KeyHash "devtype" then
    mkUeventEnv action subsystem (to_lower val) major minor devPath sysPath devName ejectRequest
  else if keyHash =? KeyHash "major" then
    mkUeventEnv action subsystem devType (u32 (strtoul10 val)) minor devPath sysPath devName ejectRequest
  else if keyHash =? KeyHash "minor" then
    mkUeventEnv action subsystem devType major (u32 (strtoul10 val)) devPath sysPath devName ejectRequest
  else if keyHash =? KeyHash "devpath" then
    mkUeventEnv action subsystem devType major minor val ("/sys" +:+ val) devName ejectRequest
  else if keyHash =? KeyHash "devname" then
    mkUeventEnv action subsystem devType major minor devPath sysPath val ejectRequest
  else if keyHash =? KeyHash "disk_eject_request" then
    mkUeventEnv action subsystem devType major minor devPath sysPath devName (val =s "1")
  else out.

(** The body of the [getline] loop. *)
Definition ApplyLine (out : UeventEnv) (line : string) : UeventEnv :=
  match sfind "=" line with
  | None => out
  | Some pos => ApplyEnvValue out (KeyHash (to_lower (stake pos line))) (sdrop (pos + 1) line)
  end.

(** Returns the parsed record and the boolean result. *)
(* @src services/disk_manager/src/disk/uevent_env_parser.cpp 98-117 UeventEnvParser::Parse *)
Definition Uevent_Parse (raw : string) : UeventEnv * bool :=
  let out := fold_left ApplyLine (getlines raw) UeventEnv_default in
  if str_empty (ue_action out) || str_empty (ue_subsystem out) || str_empty (ue_devType out)
  then (out, false) else (out, true).

(** ** The form storage_daemon sends: one [KEY=value] line per entry. *)
Definition render_line (kv : string * string) : string := kv.1 +:+ "=" +:+ kv.2.
Definition render (kvs : list (string * string)) : string := unlines (map render_line kvs).

Definition env_lines (e : UeventEnv) : list (string * string) :=
  [("ACTION", ue_action e); ("SUBSYSTEM", ue_subsystem e); ("DEVTYPE", ue_devType e);
   ("MAJOR", to_string (ue_major e)); ("MINOR", to_string (ue_minor e));
   ("DEVPATH", ue_devPath e); ("DEVNAME", ue_devName e);
   ("DISK_EJECT_REQUEST", if ue_ejectRequest e then "1" else "0")].

(** What one [KEY=value] pair sets, the key compared as text. *)
Definition apply_pair (out : UeventEnv) (kv : string * string) : UeventEnv :=
  ApplyEnvValue out (KeyHash (to_lower kv.1)) kv.2.

Lemma ApplyLine_render out kv : no_char "=" kv.1 = true -> ApplyLine out (render_line kv) = apply_pair out kv.
Proof.
  intros Hk. unfold ApplyLine, render_line, apply_pair. destruct kv as [k v]. simpl fst in *. simpl snd.
  assert (Hf : sfind "=" (k +:+ "=" +:+ v) = Some (String.length k)).
  { clear -Hk. unfold no_char in Hk. induction k as [|d k IH]; simpl; [by destruct v|].
    simpl in Hk. apply andb_true_iff in Hk as [Hd Hk]. simpl in IH. rewrite (IH Hk).
    assert (char_eqb "=" d = false) as ->; [|done]. bsimp. congruence. }
  rewrite Hf, stake_app. f_equal. rewrite sapp_assoc. rewrite <- (sdrop_app (k +:+ "=") v) at 2.
  rewrite slen_app. done.
Qed.

(** Parsing rendered pairs folds them over the default record, in order. *)
Lemma getlines_render kvs :
  Forall (fun kv => no_char "=" kv.1 = true /\ no_char NL (render_line kv) = true) kvs ->
  fold_left ApplyLine (getlines (render kvs)) UeventEnv_default = fold_left apply_pair kvs UeventEnv_default.
Proof.
  intros H. unfold render. rewrite getlines_unlines.
  - generalize UeventEnv_default. induction H as [|kv kvs [Hk _] _ IH]; intros out; simpl; [done|].
    rewrite ApplyLine_render by done. apply IH.
  - apply Forall_map. eapply Forall_impl; [exact H|]. by intros kv [_ ?].
Qed.

Lemma Uevent_Parse_eq raw :
  Uevent_Parse raw =
  let out := fold_left ApplyLine (getlines raw) UeventEnv_default in
  (out, negb (str_empty (ue_action out) || str_empty (ue_subsystem out) || str_empty (ue_devType out))).
Proof. unfold Uevent_Parse. cbv zeta. by case_match. Qed.

(** A well-formed event: lower-case classification words, no line break in a
    value, 32-bit device numbers. *)
Definition env_ok (e : UeventEnv) : Prop :=
  to_lower (ue_action e) = ue_action e /\ to_lower (ue_subsystem e) = ue_subsystem e /\
  to_lower (ue_devType e) = ue_devType e /\ in_u32 (ue_major e) /\ in_u32 (ue_minor e) /\
  ue_sysPath e = "/sys" +:+ ue_devPath e /\
  Forall (fun kv => no_char NL kv.2 = true) (env_lines e).

Lemma strtoul10_print z : in_u32 z -> u32 (strtoul10 (to_string z)) = z.
Proof.
  intros Hz. rewrite <- (sapp_nil_r (to_string z)), strtoul10_to_string; [by apply u32_id| |done].
  unfold_ints. lia.
Qed.

(** The key of every rendered line selects the field it names: the eight hashes
    the switch uses are pairwise different. *)
Lemma apply_pair_cases out v :
  apply_pair out ("ACTION", v) = mkUeventEnv (to_lower v) (ue_subsystem out) (ue_devType out) (ue_major out) (ue_minor out) (ue_devPath out) (ue_sysPath out) (ue_devName out) (ue_ejectRequest out) /\
  apply_pair out ("SUBSYSTEM", v) = mkUeventEnv (ue_action out) (to_lower v) (ue_devType out) (ue_major out) (ue_minor out) (ue_devPath out) (ue_sysPath out) (ue_devName out) (ue_ejectRequest out) /\
  apply_pair out ("DEVTYPE", v) = mkUeventEnv (ue_action out) (ue_subsystem out) (to_lower v) (ue_major out) (ue_minor out) (ue_devPath out) (ue_sysPath out) (ue_devName out) (ue_ejectRequest out) /\
  apply_pair out ("MAJOR", v) = mkUeventEnv (ue_action out) (ue_subsystem out) (ue_devType out) (u32 (strtoul10 v)) (ue_minor out) (ue_devPath out) (ue_sysPath out) (ue_devName out) (ue_ejectRequest out) /\
  apply_pair out ("MINOR", v) = mkUeventEnv (ue_action out) (ue_subsystem out) (ue_devType out) (ue_major out) (u32 (strtoul10 v)) (ue_devPath out) (ue_sysPath out) (ue_devName out) (ue_ejectRequest out) /\
  apply_pair out ("DEVPATH", v) = mkUeventEnv (ue_action out) (ue_subsystem out) (ue_devType out) (ue_major out) (ue_minor out) v ("/sys" +:+ v) (ue_devName out) (ue_ejectRequest out) /\
  apply_pair out ("DEVNAME", v) = mkUeventEnv (ue_action out) (ue_subsystem out) (ue_devType out) (ue_major out) (ue_minor out) (ue_devPath out) (ue_sysPath out) v (ue_ejectRequest out) /\
  apply_pair out ("DISK_EJECT_REQUEST", v) = mkUeventEnv (ue_action out) (ue_subsystem out) (ue_devType out) (ue_major out) (ue_minor out) (ue_devPath out) (ue_sysPath out) (ue_devName out) (v =s "1").
Proof. destruct out. repeat split; reflexivity. Qed.

(** C30: Round trip: parsing the lines of an event gives the event back, and the
    result says whether its three classification words are present. *)
Theorem Uevent_Parse_render e :
  env_ok e ->
  Uevent_Parse (render (env_lines e)) =
  (e, negb (str_empty (ue_action e) || str_empty (ue_subsystem e) || str_empty (ue_devType e))).
Proof.
  intros (Ha & Hs & Ht & Hma & Hmi & Hp & Hnl). rewrite Uevent_Parse_eq. cbv zeta.
  rewrite getlines_render.
  - unfold env_lines. cbn [fold_left].
    repeat (match goal with
            | |- context [apply_pair ?o (?k, ?v)] =>
                let H := fresh in pose proof (apply_pair_cases o v) as H;
                destruct H as (H1 & H2 & H3 & H4 & H5 & H6 & H7 & H8);
                first [rewrite H1|rewrite H2|rewrite H3|rewrite H4|rewrite H5|rewrite H6|rewrite H7|rewrite H8];
                clear H1 H2 H3 H4 H5 H6 H7 H8
            end; cbn [ue_action ue_subsystem ue_devType ue_major ue_minor ue_devPath ue_sysPath ue_devName ue_ejectRequest]).
    rewrite Ha, Hs, Ht, <- Hp, !strtoul10_print by done.
    assert (((if ue_ejectRequest e then "1" else "0") =s "1") = ue_ejectRequest e) as -> by (by destruct (ue_ejectRequest e)).
    by destruct e.
  - unfold env_lines in *. rewrite !Forall_cons in Hnl. rewrite !Forall_cons.
    unfold render_line, no_char in *. cbn [fst snd] in *. rewrite !sforall_app. intuition; by apply andb_true_iff.
Qed.
Definition env_example : UeventEnv :=
  mkUeventEnv "add" "block" "disk" 8 16 "/devices/usb1/block/sda" "/sys/devices/usb1/block/sda" "sda" false.
Lemma Uevent_Parse_render_witness :
  env_ok env_example /\ Uevent_Parse (render (env_lines env_example)) = (env_example, true).
Proof.
  assert (H : env_ok env_example).
  { split_and!; try reflexivity; try (unfold_ints; simpl; lia). unfold env_lines. repeat constructor. }
  split; [exact H|]. exact (Uevent_Parse_render env_example H).
Defined.

(** The switch compares hashes only: a key that is none of the eight names can
    have the hash of one and set its field. *)
Theorem KeyHash_collision :
  "celurhe" <> "action" /\ KeyHash "celurhe" = KeyHash "action" /\
  ue_action (Uevent_Parse ("ACTION=add" +:+ schar NL +:+ "CELURHE=remove")).1 = "remove".
Proof. split_and!; [done|vm_compute; reflexivity..]. Qed.

(** Values the parser stores are machine integers, and the sysfs path follows
    the device path. *)
Theorem Uevent_Parse_ranges raw :
  let e := (Uevent_Parse raw).1 in
  in_u32 (ue_major e) /\ in_u32 (ue_minor e) /\
  (ue_sysPath e = "/sys" +:+ ue_devPath e \/ ue_sysPath e = "" /\ ue_devPath e = "").
Proof.
  cbv zeta. rewrite Uevent_Parse_eq. cbn [fst].
  assert (Hg : forall ls e,
    in_u32 (ue_major e) /\ in_u32 (ue_minor e) /\
    (ue_sysPath e = "/sys" +:+ ue_devPath e \/ ue_sysPath e = "" /\ ue_devPath e = "") ->
    let e := fold_left ApplyLine ls e in
    in_u32 (ue_major e) /\ in_u32 (ue_minor e) /\
    (ue_sysPath e = "/sys" +:+ ue_devPath e \/ ue_sysPath e = "" /\ ue_devPath e = "")).
  { induction ls as [|l ls IH]; intros e He; [done|]. simpl. apply IH. clear IH.
    unfold ApplyLine. destruct (sfind "=" l) as [pos|]; [|done]. destruct e; unfold ApplyEnvValue.
    simpl in He. pose proof (u32_range (strtoul10 (sdrop (pos + 1) l))).
    repeat (case_match; [simpl; intuition|]). done. }
  apply Hg. simpl. unfold_ints. split_and!; [lia..|by right].
Qed.
