(* ===== verification/PartitionTable.v ===== *)
(** * [services/disk_manager/src/disk/partition_table_parser.cpp]

    The text [sgdisk --ohos-dump] prints for a disk to the list of its
    partitions. *)
From S2P Require Import Prelude CppString Types.

(* @src services/disk_manager/src/disk/partition_table_parser.cpp 39-46 SplitSpace *)
Definition SplitSpace (line : string) : list string := tokens line.

Definition is_blank (c : ascii) : bool := char_eqb c " " || char_eqb c TAB || char_eqb c CR.

(* @src services/disk_manager/src/disk/partition_table_parser.cpp 50-61 PartitionTableParser::Trim *)
Definition Trim (s : string) : string := rtrim is_blank (sdrop_while is_blank s).

(* @src services/disk_manager/src/disk/partition_table_parser.cpp 63-82 PartitionTableParser::IsMbrTypeSupportedForVolume *)
Definition IsMbrTypeSupportedForVolume (mbrTypeHex : string) : bool :=
  let h := if starts_with "0x" mbrTypeHex || starts_with "0X" mbrTypeHex then sdrop 2 mbrTypeHex else mbrTypeHex in
  let v := strtoul16 h in
  (v =? 6) || (v =? 7) || (v =? 11) || (v =? 12) || (v =? 14) || (v =? 27) || (v =? 131).

(** State of the loop: [table], [tableTypeOut] and [partsOut]. [table] and
    [tableTypeOut] are always assigned together. *)
Record DumpState : Type := mkDumpState {
  ds_table : string;
  ds_tableTypeOut : string;
  ds_partsOut : list PartitionRecord;
}.

Definition rec_of (diskId : string) (partNum : Z) (partitionType fsTypeRaw : string) : PartitionRecord :=
  mkPartitionRecord diskId partNum 0 0 0 partitionType fsTypeRaw.

(** The loop's body, after [line = Trim(line)]. *)
(* @src services/disk_manager/src/disk/partition_table_parser.cpp 94-133 PartitionTableParser::ParseSgdiskDump *)
Definition dump_line (diskId : string) (st : DumpState) (line : string) : DumpState :=
  let line := Trim line in
  if str_empty line then st
  else
    match SplitSpace line with
    | [] => st
    | t0 :: args =>
        match args with
        | t1 :: _ =>
            if t0 =s "DISK" then
              let table := to_lower t1 in mkDumpState table table (ds_partsOut st)
            else if t0 <>s "PART" then st
            else
              let partNum := u32 (strtoul10 t1) in
              if partNum <? 1 then st
              else
                let push r := mkDumpState (ds_table st) (ds_tableTypeOut st) (ds_partsOut st ++ [r]) in
                match args with
                | _ :: t2 :: _ =>
                    if ds_table st =s "mbr" then
                      if negb (IsMbrTypeSupportedForVolume t2) then st
                      else push (rec_of diskId partNum "mbr" t2)
                    else if ds_table st =s "gpt" then push (rec_of diskId partNum "gpt" "")
                    else st
                | _ => if ds_table st =s "gpt" then push (rec_of diskId partNum "gpt" "") else st
                end
        | [] => st
        end
    end.

(** Result: success, the table type and the partitions. *)
(* @src services/disk_manager/src/disk/partition_table_parser.cpp 84-137 PartitionTableParser::ParseSgdiskDump *)
Definition ParseSgdiskDump (rawDump diskId : string) : bool * string * list PartitionRecord :=
  let st := fold_left (dump_line diskId) (getlines rawDump) (mkDumpState "" "" []) in
  (negb (str_empty (ds_tableTypeOut st)), ds_tableTypeOut st, ds_partsOut st).

(** * Properties *)

(** What every record of the result satisfies. *)
Definition record_ok (diskId : string) (r : PartitionRecord) : Prop :=
  pr_diskId r = diskId /\ 1 <= pr_partitionNumber r <= UINT32_MAX /\
  (pr_partitionType r = "gpt" /\ pr_fsTypeRaw r = "" \/
   pr_partitionType r = "mbr" /\ IsMbrTypeSupportedForVolume (pr_fsTypeRaw r) = true).

Definition dump_inv (diskId : string) (st : DumpState) : Prop :=
  Forall (record_ok diskId) (ds_partsOut st) /\
  to_lower (ds_tableTypeOut st) = ds_tableTypeOut st /\ ds_table st = ds_tableTypeOut st.

Lemma tolower_idem c : tolower (tolower c) = tolower c.
Proof. destruct c as [[] [] [] [] [] [] [] []]; reflexivity. Qed.
Lemma to_lower_idem s : to_lower (to_lower s) = to_lower s.
Proof. unfold to_lower. induction s; simpl; [done|]. by rewrite tolower_idem, IHs. Qed.

Lemma dump_line_inv diskId st line : dump_inv diskId st -> dump_inv diskId (dump_line diskId st line).
Proof.
  intros (Hp & Hl & He). unfold dump_line.
  destruct (str_empty (Trim line)); [done|].
  destruct (SplitSpace (Trim line)) as [|t0 [|t1 args]]; [done..|].
  destruct (t0 =s "DISK"); [split_and!; simpl; [done|apply to_lower_idem|done]|].
  destruct (t0 =s "PART"); [|done]. simpl negb. cbv iota.
  destruct (u32 (strtoul10 t1) <? 1) eqn:Hn; [done|]. bsimp.
  pose proof (u32_range (strtoul10 t1)) as Hr.
  assert (Hok : forall r, record_ok diskId r ->
    dump_inv diskId (mkDumpState (ds_table st) (ds_tableTypeOut st) (ds_partsOut st ++ [r]))).
  { intros r Hr'. split_and!; simpl; [|done..]. apply Forall_app. split; [done|]. by constructor. }
  destruct args as [|t2 args].
  - destruct (ds_table st =s "gpt"); [|done]. apply Hok. unfold record_ok; unfold_ints; simpl. split_and!; [done|lia..|by left].
  - destruct (ds_table st =s "mbr").
    + destruct (IsMbrTypeSupportedForVolume t2) eqn:Hm; [|done]. apply Hok.
      unfold record_ok; unfold_ints; simpl. split_and!; [done|lia..|by right].
    + destruct (ds_table st =s "gpt"); [|done]. apply Hok. unfold record_ok; unfold_ints; simpl. split_and!; [done|lia..|by left].
Qed.

Lemma dump_inv_fold diskId ls st : dump_inv diskId st -> dump_inv diskId (fold_left (dump_line diskId) ls st).
Proof. revert st; induction ls; intros st H; simpl; [done|]. apply IHls. by apply dump_line_inv. Qed.

(** C26: On any input the parser returns only partitions of the disk it was asked
    about, numbered from 1 within 32 bits, GPT entries without a type or MBR
    entries whose type is on the white list; the table type is in lower case and
    the call succeeds exactly when it saw one. *)
Theorem ParseSgdiskDump_sound rawDump diskId ok tableType parts :
  ParseSgdiskDump rawDump diskId = (ok, tableType, parts) ->
  Forall (record_ok diskId) parts /\ to_lower tableType = tableType /\ (ok = true <-> tableType <> "").
Proof.
  unfold ParseSgdiskDump. intros [= <- <- <-].
  destruct (dump_inv_fold diskId (getlines rawDump) (mkDumpState "" "" [])) as (H1 & H2 & H3).
  { split_and!; simpl; [constructor|done..]. }
  split_and!; [done|done|]. rewrite negb_true_iff. apply str_empty_false.
Qed.
Lemma ParseSgdiskDump_sound_witness :
  let dump := unlines ["DISK MBR dos"; "PART 1 0x0c"; "PART 2 0x82"; "PART 0 7"] in
  let r := ParseSgdiskDump dump "disk-8-0" in
  r = (true, "mbr", [rec_of "disk-8-0" 1 "mbr" "0x0c"]) /\ Forall (record_ok "disk-8-0") r.2.
Proof.
  split; [vm_compute; reflexivity|].
  exact (proj1 (ParseSgdiskDump_sound (unlines ["DISK MBR dos"; "PART 1 0x0c"; "PART 2 0x82"; "PART 0 7"]) "disk-8-0" _ _ _ eq_refl)).
Defined.

(** ** Round trip with the printed form of a GPT table *)
Definition print_part (n : Z) : string := "PART " +:+ to_string n +:+ " EBD0A0A2".
Definition print_gpt (ns : list Z) : string := unlines ("DISK gpt" :: map print_part ns).

Lemma tokens_aux_word w cur s :
  sforall (fun c => negb (is_space c)) w = true ->
  tokens_aux (w +:+ s) cur = tokens_aux s (srev_append w cur).
Proof.
  revert cur; induction w as [|c w IH]; intros cur; simpl; [done|].
  rewrite andb_true_iff. intros [Hc Hw]. apply negb_true_iff in Hc. rewrite Hc. by apply IH.
Qed.
Lemma srev_append_app a b acc : srev_append (a +:+ b) acc = srev_append b (srev_append a acc).
Proof. revert acc; induction a; intros acc; simpl; auto. Qed.
Lemma srev_append_srev_append a b c : srev_append (srev_append a b) c = srev_append b (a +:+ c).
Proof. revert b; induction a as [|x a IH]; intros b; simpl; [done|]. rewrite IH. done. Qed.
Lemma srev_srev a : srev (srev a) = a.
Proof. unfold srev. rewrite srev_append_srev_append. simpl. apply sapp_nil_r. Qed.
Lemma srev_nonempty a : a <> "" -> srev a <> "".
Proof. intros H He. apply H. rewrite <- (srev_srev a), He. done. Qed.

(** One word, then the rest after a space; the last word. *)
Lemma tokens_word w s :
  w <> "" -> sforall (fun c => negb (is_space c)) w = true ->
  tokens (w +:+ String " " s) = w :: tokens s.
Proof.
  intros Hne Hw. unfold tokens. rewrite tokens_aux_word by done. simpl. change (srev_append w "") with (srev w).
  destruct (str_empty (srev w)) eqn:E; [by apply str_empty_true, srev_nonempty in E|]. by rewrite srev_srev.
Qed.
Lemma tokens_last w :
  w <> "" -> sforall (fun c => negb (is_space c)) w = true -> tokens w = [w].
Proof.
  intros Hne Hw. unfold tokens. rewrite <- (sapp_nil_r w) at 1. rewrite tokens_aux_word by done. simpl.
  change (srev_append w "") with (srev w).
  destruct (str_empty (srev w)) eqn:E; [by apply str_empty_true, srev_nonempty in E|]. by rewrite srev_srev.
Qed.

(** [Trim] leaves a text alone whose first and last characters are not blank. *)
Lemma Trim_id c s d : is_blank c = false -> is_blank d = false -> Trim (String c (s +:+ schar d)) = String c (s +:+ schar d).
Proof.
  intros Hc Hd. unfold Trim. simpl. rewrite Hc. unfold rtrim.
  assert (Hr : srev (String c (s +:+ schar d)) = String d (srev (String c s))).
  { unfold srev. simpl. by rewrite srev_append_app. }
  rewrite Hr. simpl sdrop_while. rewrite Hd, <- Hr. apply srev_srev.
Qed.

Lemma digits_not_space s : sforall is_digit s = true -> sforall (fun c => negb (is_space c)) s = true.
Proof. apply sforall_impl. intros c Hc. by rewrite digit_not_space. Qed.

Lemma dump_line_part diskId t parts n :
  1 <= n <= UINT32_MAX ->
  dump_line diskId (mkDumpState "gpt" t parts) (print_part n) =
  mkDumpState "gpt" t (parts ++ [rec_of diskId n "gpt" ""]).
Proof.
  intros Hn. unfold dump_line.
  assert (HT : Trim (print_part n) = print_part n).
  { unfold print_part. replace ("PART " +:+ to_string n +:+ " EBD0A0A2")
      with (String "P" (("ART " +:+ to_string n +:+ " EBD0A0A") +:+ schar "2")).
    - by apply Trim_id.
    - rewrite <- !sapp_assoc. done. }
  rewrite HT. unfold SplitSpace, print_part.
  change ("PART " +:+ to_string n +:+ " EBD0A0A2") with ("PART" +:+ String " " (to_string n +:+ String " " "EBD0A0A2")).
  rewrite tokens_word, tokens_word, tokens_last; [|done|done|by apply to_string_nonempty; lia|apply digits_not_space, to_string_digits; lia|done..].
  simpl str_empty. cbv iota. simpl str_eqb. rewrite <- (sapp_nil_r (to_string n)), strtoul10_to_string; [|unfold_ints; lia|done].
  rewrite u32_id by (unfold_ints; lia). destruct (Z.ltb_spec n 1); [lia|]. done.
Qed.

(** C27: Parsing a printed GPT table returns its partitions, in order. *)
Theorem ParseSgdiskDump_print_gpt ns diskId :
  Forall (fun n => 1 <= n <= UINT32_MAX) ns ->
  ParseSgdiskDump (print_gpt ns) diskId = (true, "gpt", map (fun n => rec_of diskId n "gpt" "") ns).
Proof.
  intros Hns. unfold ParseSgdiskDump, print_gpt. rewrite getlines_unlines.
  - cbn [fold_left]. change (dump_line diskId (mkDumpState "" "" []) "DISK gpt") with (mkDumpState "gpt" "gpt" []).
    assert (Hg : forall parts, fold_left (dump_line diskId) (map print_part ns) (mkDumpState "gpt" "gpt" parts)
                 = mkDumpState "gpt" "gpt" (parts ++ map (fun n => rec_of diskId n "gpt" "") ns)).
    { induction Hns as [|n ns Hn _ IH]; intros parts; simpl; [by rewrite app_nil_r|].
      rewrite dump_line_part by done. rewrite IH, <- app_assoc. done. }
    rewrite Hg. done.
  - constructor; [done|]. apply Forall_map. eapply Forall_impl; [exact Hns|]. intros n [Hn _]. simpl.
    unfold print_part, no_char. rewrite !sforall_app. simpl.
    rewrite (sforall_impl is_digit _ (to_string n)); [done| |apply to_string_digits; lia].
    intros c Hc. apply negb_true_iff, char_eqb_false. by intros ->.
Qed.
Lemma ParseSgdiskDump_print_gpt_witness :
  Forall (fun n => 1 <= n <= UINT32_MAX) [1; 2; 4294967295] /\
  ParseSgdiskDump (print_gpt [1; 2; 4294967295]) "disk-8-0" =
    (true, "gpt", map (fun n => rec_of "disk-8-0" n "gpt" "") [1; 2; 4294967295]).
Proof.
  assert (H : Forall (fun n => 1 <= n <= UINT32_MAX) [1; 2; 4294967295]) by (repeat constructor; unfold_ints; lia).
  split; [exact H|]. exact (ParseSgdiskDump_print_gpt [1; 2; 4294967295] "disk-8-0" H).
Defined.
