(* ===== verification/Json.v ===== *)
(** * JSON values and the JSON library

    [nlohmann::json] is a third-party library: its text format is the class
    [JsonText], a parser and a printer with the one law the service relies on
    (what is printed is parsed back). The values themselves are a tree. *)
From stdpp Require Import countable.
From S2P Require Import Prelude CppString.

(** An object is the list of its members in key order; [JUInt] and [JInt] are
    the library's unsigned and signed number kinds, [JFloat] any other number. *)
Inductive json : Type :=
  | JNull
  | JBool (b : bool)
  | JUInt (n : Z)
  | JInt (n : Z)
  | JFloat (text : string)
  | JStr (s : string)
  | JArr (l : list json)
  | JObj (l : list (string * json)).

Definition json_is_object (j : json) : bool := match j with JObj _ => true | _ => false end.
Definition json_is_array (j : json) : bool := match j with JArr _ => true | _ => false end.
(** [jsonObject.contains(key)] and [jsonObject[key]] of an object. *)
Definition json_member (key : string) (j : json) : option json :=
  match j with JObj l => snd <$> find_if (fun kv => kv.1 =s key) l | _ => None end.

(** Every string of the value satisfies [p] (used with 7-bit text, which is
    valid UTF-8 whatever surrounds it). *)
Fixpoint json_strings (p : string -> bool) (j : json) : bool :=
  match j with
  | JStr s => p s
  | JArr l => forallb (json_strings p) l
  | JObj l => forallb (fun kv => p kv.1 && json_strings p kv.2) l
  | JFloat s => p s
  | _ => true
  end.
(** Numbers in the range of their kind; floating-point values are left out. *)
Fixpoint json_canonical (j : json) : bool :=
  match j with
  | JUInt n => (0 <=? n) && (n <=? UINT64_MAX)
  | JInt n => (n <=? INT64_MAX) && (INT64_MIN <=? n)
  | JArr l => forallb json_canonical l
  | JObj l => forallb (fun kv => json_canonical kv.2) l
  | JFloat _ => false
  | _ => true
  end.
Definition is_ascii7 (c : ascii) : bool := (char_code c <? 128)%N.
Definition json_plain (j : json) : bool := json_strings (sforall is_ascii7) j && json_canonical j.

(** The kind the parser gives a number: a signed value that is not negative comes
    back unsigned. *)
Fixpoint json_norm (j : json) : json :=
  match j with
  | JInt n => if 0 <=? n then JUInt n else JInt n
  | JArr l => JArr (map json_norm l)
  | JObj l => JObj (map (fun kv => (kv.1, json_norm kv.2)) l)
  | _ => j
  end.

(** [jsonObject[key] = value]: members are kept in key order. *)
Fixpoint members_set (key : string) (v : json) (l : list (string * json)) : list (string * json) :=
  match l with
  | [] => [(key, v)]
  | (k, x) :: l' =>
      if key =s k then (key, v) :: l'
      else if str_leb key k then (key, v) :: l else (k, x) :: members_set key v l'
  end.
Definition json_set (key : string) (v : json) (j : json) : json :=
  match j with JObj l => JObj (members_set key v l) | _ => j end.

Class JsonText : Type := {
  json_parse : string -> option json;
  json_dump : json -> string;
  json_parse_dump j : json_plain j = true -> json_parse (json_dump j) = Some (json_norm j);
  json_dump_nonempty j : json_dump j <> "";
}.

(** ** An instance

    A printer and parser with the same law, through an injective encoding of
    trees as positive numbers written in binary: it shows that the law can hold
    and lets the definitions be evaluated. *)
Fixpoint json_to_tree (j : json) : gen_tree (string + Z) :=
  match j with
  | JNull => GenNode 0 []
  | JBool b => GenNode 1 [GenLeaf (inr (Z.b2z b))]
  | JUInt n => GenNode 2 [GenLeaf (inr n)]
  | JInt n => GenNode 3 [GenLeaf (inr n)]
  | JFloat s => GenNode 4 [GenLeaf (inl s)]
  | JStr s => GenNode 5 [GenLeaf (inl s)]
  | JArr l => GenNode 6 (map json_to_tree l)
  | JObj l => GenNode 7 (map (fun kv => GenNode 8 [GenLeaf (inl kv.1); json_to_tree kv.2]) l)
  end.
Fixpoint json_of_tree (t : gen_tree (string + Z)) : json :=
  match t with
  | GenNode 1 [GenLeaf (inr n)] => JBool (n =? 1)
  | GenNode 2 [GenLeaf (inr n)] => JUInt n
  | GenNode 3 [GenLeaf (inr n)] => JInt n
  | GenNode 4 [GenLeaf (inl s)] => JFloat s
  | GenNode 5 [GenLeaf (inl s)] => JStr s
  | GenNode 6 l => JArr (map json_of_tree l)
  | GenNode 7 l => JObj (map (fun t => match t with
                                   | GenNode 8 [GenLeaf (inl k); v] => (k, json_of_tree v)
                                   | _ => ("", JNull)
                                   end) l)
  | _ => JNull
  end.

Section json_ind'.
Variable P : json -> Prop.
Hypotheses (Hnull : P JNull) (Hbool : forall b, P (JBool b)) (Huint : forall n, P (JUInt n))
  (Hint : forall n, P (JInt n)) (Hfloat : forall s, P (JFloat s)) (Hstr : forall s, P (JStr s))
  (Harr : forall l, Forall P l -> P (JArr l)) (Hobj : forall l, Forall (fun kv => P kv.2) l -> P (JObj l)).
Fixpoint json_ind' (j : json) : P j :=
  match j with
  | JNull => Hnull | JBool b => Hbool b | JUInt n => Huint n | JInt n => Hint n
  | JFloat s => Hfloat s | JStr s => Hstr s
  | JArr l => Harr l ((fix go l := match l return Forall P l with
                                   | [] => Forall_nil_2 _ | x :: l' => Forall_cons_2 _ _ _ (json_ind' x) (go l') end) l)
  | JObj l => Hobj l ((fix go l := match l return Forall (fun kv => P kv.2) l with
                                   | [] => Forall_nil_2 _ | x :: l' => Forall_cons_2 _ _ _ (json_ind' x.2) (go l') end) l)
  end.
End json_ind'.

Lemma json_of_to_tree j : json_of_tree (json_to_tree j) = j.
Proof.
  induction j as [| | | | | |l IH|l IH] using json_ind'; simpl; try done.
  - by destruct b.
  - f_equal. rewrite map_map. induction IH; simpl; congruence.
  - f_equal. rewrite map_map. induction IH as [|[k v] l Hx _ IHl]; simpl in *; congruence.
Qed.
#[export] Instance json_eq_dec : EqDecision json.
Proof. refine (inj_eq_dec json_to_tree). intros x y H. by rewrite <- (json_of_to_tree x), H, json_of_to_tree. Defined.

Fixpoint pos_bits (p : positive) : string :=
  match p with xH => "1" | xO p => String "o" (pos_bits p) | xI p => String "i" (pos_bits p) end.
Fixpoint bits_pos (s : string) : option positive :=
  match s with
  | EmptyString => None
  | String c EmptyString => if char_eqb c "1" then Some xH else None
  | String c s => if char_eqb c "o" then xO <$> bits_pos s else if char_eqb c "i" then xI <$> bits_pos s else None
  end.
Lemma pos_bits_nonempty p : pos_bits p <> "".
Proof. by destruct p. Qed.
Lemma bits_pos_bits p : bits_pos (pos_bits p) = Some p.
Proof.
  induction p; simpl; [| |done].
  - pose proof (pos_bits_nonempty p). destruct (pos_bits p); [done|]. by rewrite IHp.
  - pose proof (pos_bits_nonempty p). destruct (pos_bits p); [done|]. by rewrite IHp.
Qed.

Definition coded_dump (j : json) : string := pos_bits (encode (json_to_tree (json_norm j))).
Definition coded_parse (s : string) : option json :=
  p ← bits_pos s; json_of_tree <$> decode p.
Definition coded_json : JsonText.
Proof.
  refine {| json_parse := coded_parse; json_dump := coded_dump |}.
  - intros j _. unfold coded_parse, coded_dump. rewrite bits_pos_bits. simpl.
    rewrite decode_encode. simpl. by rewrite json_of_to_tree.
  - intros j. apply pos_bits_nonempty.
Defined.

Lemma members_set_lookup key v l : snd <$> find_if (fun kv => kv.1 =s key) (members_set key v l) = Some v.
Proof.
  induction l as [|[k x] l IH]; simpl; [by rewrite str_eqb_refl|].
  destruct (str_eqb_spec key k) as [->|Hne]; simpl; [by rewrite str_eqb_refl|].
  destruct (str_leb key k); simpl; [by rewrite str_eqb_refl|].
  destruct (str_eqb_spec k key); [congruence|]. done.
Qed.
Lemma json_member_set key v j : json_is_object j = true -> json_member key (json_set key v j) = Some v.
Proof. destruct j; simpl; try done. intros _. apply members_set_lookup. Qed.
Lemma json_member_set_ne key key' v j : key <> key' -> json_member key' (json_set key v j) = json_member key' j.
Proof.
  intros Hne. destruct j as [| | | | | | |l]; simpl; try done. f_equal.
  induction l as [|[k x] l IH]; simpl; [by rewrite (proj2 (str_eqb_false key key'))|].
  destruct (str_eqb_spec key k) as [<-|Hk]; simpl.
  - by rewrite (proj2 (str_eqb_false key key')).
  - destruct (str_leb key k); simpl; [by rewrite (proj2 (str_eqb_false key key'))|].
    destruct (str_eqb_spec k key'); [done|]. apply IH.
Qed.
