(* ===== verification/Voldata.v ===== *)
(** * [services/disk_manager/src/db/voldata_uuid_store.cpp]

    The persistent mapping from file-system uuids to the mount paths
    [/mnt/data/voldata/data<slot>], at most 1000 entries. The state holds the
    in-memory map, the files it is stored in and the environment: whether a
    file-system call succeeds, and in which order the unordered map iterates,
    are the environment's. *)
From S2P Require Import Prelude CppString Types Utils State Json.

(** ** Data *)
(* @src services/disk_manager/include/db/voldata_uuid_store.h 29-36 VoldataUuidEntry *)
Record VoldataUuidEntry : Type := mkVoldataUuidEntry {
  ve_fsUuid : string;
  ve_mountPath : string;
  ve_slotIndex : Z;
}.
#[export] Instance VoldataUuidEntry_eq_dec : EqDecision VoldataUuidEntry.
Proof. solve_decision. Defined.

(* @src services/disk_manager/src/db/voldata_uuid_store.cpp 34-41 DISK_MANAGER_DATA_PATH *)
Definition DISK_MANAGER_DATA_PATH : string := "/data/service/el1/public/disk_manager/".
Definition VOLDATA_UUID_MAPPING_JSON : string := "voldata_uuid_mapping.json".
Definition TMP_FILE_SUFFIX : string := ".tmp".
Definition BACKUP_FILE_SUFFIX : string := ".bak".
Definition VOLDATA_MOUNT_PREFIX : string := "/mnt/data/voldata/data".
Definition MAX_VOLDATA_SLOT_COUNT : Z := 1000.

(* @src services/disk_manager/src/db/voldata_uuid_store.cpp 44-66 ParseVoldataSlotFromMountPath *)
Definition ParseVoldataSlotFromMountPath (mountPath : string) : option Z :=
  let prefix := VOLDATA_MOUNT_PREFIX in
  if (String.length mountPath <=? String.length prefix)%nat || negb (starts_with prefix mountPath) then None
  else
    let digits := sdrop (String.length prefix) mountPath in
    if negb (sforall is_digit digits) then None
    else match conv10 digits with
         | None => None
         | Some c =>
             if UINT64_MAX <? conv_mag c then None
             else
               let parsed := conv_ulong (Some c) in
               if (parsed <? 1) || (MAX_VOLDATA_SLOT_COUNT <? parsed) then None else Some parsed
         end.

(* @src services/disk_manager/src/db/voldata_uuid_store.cpp 69-86 VoldataUuidEntry::FromJson *)
Definition VoldataUuidEntry_FromJson (jsonObject : json) : option VoldataUuidEntry :=
  if negb (json_is_object jsonObject) then None
  else match json_member "fsUuid" jsonObject, json_member "mountPath" jsonObject with
       | Some (JStr fsUuid), Some (JStr mountPath) =>
           match ParseVoldataSlotFromMountPath mountPath with
           | None => None
           | Some slotIndex =>
               if IsUuidValid fsUuid then Some (mkVoldataUuidEntry fsUuid mountPath slotIndex) else None
           end
       | _, _ => None
       end.

(* @src services/disk_manager/src/db/voldata_uuid_store.cpp 88-95 VoldataUuidEntry::ToJson *)
Definition VoldataUuidEntry_ToJson (e : VoldataUuidEntry) : json :=
  JObj [("fsUuid", JStr (ve_fsUuid e)); ("mountPath", JStr (ve_mountPath e)); ("slotIndex", JUInt (ve_slotIndex e))].

(* @src services/disk_manager/src/db/voldata_uuid_store.cpp 103-106 VoldataUuidStore::BuildMountPathForSlot *)
Definition BuildMountPathForSlot (slotIndex : Z) : string := VOLDATA_MOUNT_PREFIX +:+ to_string slotIndex.

(** ** The environment *)
Inductive FsOp : Type :=
  | FsExists (p : string) | FsOpenRead (p : string) | FsCreateDirs (p : string) | FsOpenTrunc (p : string)
  | FsWrite (p : string) | FsFsync (p : string) | FsRemove (p : string) | FsRename (a b : string).

Notation UuidMap := (gmap string VoldataUuidEntry).

(** [fs_answer]: whether a call succeeds; [fs_partial]: what a failed write left
    in the file; [umap_iter]: the iteration order of the unordered map. *)
Class FsEnv (E : Type) : Type := {
  fs_answer : E -> FsOp -> bool * E;
  fs_partial : E -> string -> string;
  umap_iter : E -> UuidMap -> list (string * VoldataUuidEntry);
  umap_iter_perm env m : umap_iter env m ≡ₚ map_to_list m;
}.

(** [v_hist] records the content of the files after every change to them, most
    recent first: what a crash at that moment leaves behind. *)
Record VState (E : Type) : Type := mkVState {
  v_map : UuidMap;
  v_initialized : bool;
  v_jsonFilePath : string;
  v_files : gmap string string;
  v_hist : list (gmap string string);
  v_env : E;
}.
Arguments mkVState {E}.
Arguments v_map {E}. Arguments v_initialized {E}. Arguments v_jsonFilePath {E}.
Arguments v_files {E}. Arguments v_hist {E}. Arguments v_env {E}.

Section voldata.
  Context {E : Type} {FS : FsEnv E} {JT : JsonText}.
  Notation VM := (State (VState E)).
  Implicit Types st : VState E.

Definition v_set_map (m : UuidMap) : VM unit := smodify (fun st =>
  mkVState m (v_initialized st) (v_jsonFilePath st) (v_files st) (v_hist st) (v_env st)).
Definition v_set_initialized (b : bool) : VM unit := smodify (fun st =>
  mkVState (v_map st) b (v_jsonFilePath st) (v_files st) (v_hist st) (v_env st)).
Definition v_set_jsonFilePath (p : string) : VM unit := smodify (fun st =>
  mkVState (v_map st) (v_initialized st) p (v_files st) (v_hist st) (v_env st)).
Definition v_set_files (f : gmap string string) : VM unit := smodify (fun st =>
  mkVState (v_map st) (v_initialized st) (v_jsonFilePath st) f (f :: v_hist st) (v_env st)).

(** A file-system call: its answer comes from the environment. *)
Definition fs_call (op : FsOp) : VM bool := fun st =>
  let (b, env) := fs_answer (v_env st) op in
  (b, mkVState (v_map st) (v_initialized st) (v_jsonFilePath st) (v_files st) (v_hist st) env).

(** [std::remove] *)
Definition fs_remove (p : string) : VM unit :=
  let! ok := fs_call (FsRemove p) in
  let! files := sget v_files in
  when! ok then v_set_files (delete p files).

(** [std::filesystem::exists(p, ec)] *)
Definition fs_exists (p : string) : VM bool :=
  let! ok := fs_call (FsExists p) in
  let! files := sget v_files in
  sret (ok && match files !! p with Some _ => true | None => false end).

(** [std::ifstream file(p)] and the whole content of the file. *)
Definition fs_read (p : string) : VM (option string) :=
  let! ok := fs_call (FsOpenRead p) in
  let! files := sget v_files in
  sret (if ok then files !! p else None).

Definition parent_path (p : string) : string :=
  match srfind "/" p with Some i => stake i p | None => "" end.

(* @src services/disk_manager/src/db/voldata_uuid_store.cpp 427-470 VoldataUuidStore::SaveJsonToFile *)
Definition SaveJsonToFile (filePath : string) (jsonData : json) : VM Z :=
  let jsonStr := json_dump jsonData in
  let! ok := fs_call (FsCreateDirs (parent_path filePath)) in
  if negb ok then sret (errno DISK_MGR_ERR)
  else
    let tempFilePath := filePath +:+ TMP_FILE_SUFFIX in
    let! ok := fs_call (FsOpenTrunc tempFilePath) in
    if negb ok then sret (errno DISK_MGR_ERR)
    else
      let! files := sget v_files in
      do! v_set_files (<[tempFilePath := ""]> files) in
      let! ok := fs_call (FsWrite tempFilePath) in
      let! files := sget v_files in
      if negb ok then
        let! part := sget (fun st => fs_partial (v_env st) jsonStr) in
        do! v_set_files (<[tempFilePath := part]> files) in
        do! fs_remove tempFilePath in
        sret (errno DISK_MGR_ERR)
      else
        do! v_set_files (<[tempFilePath := jsonStr]> files) in
        let! fd := fs_call (FsOpenRead tempFilePath) in
        let! _fsync := (if fd then fs_call (FsFsync tempFilePath) else sret true) in
        let! ok := fs_call (FsRename tempFilePath filePath) in
        if negb ok then
          do! fs_remove tempFilePath in
          sret (errno DISK_MGR_ERR)
        else
          let! files := sget v_files in
          do! v_set_files (match files !! tempFilePath with
                           | Some c => <[filePath := c]> (delete tempFilePath files)
                           | None => files
                           end) in
          sret (errno E_OK).

(** The array both files receive. *)
Definition store_json (pairs : list (string * VoldataUuidEntry)) : json :=
  JArr (map (fun p => VoldataUuidEntry_ToJson p.2) pairs).

(* @src services/disk_manager/src/db/voldata_uuid_store.cpp 406-425 VoldataUuidStore::SaveToFile *)
Definition SaveToFile : VM Z :=
  let! pairs := sget (fun st => umap_iter (v_env st) (v_map st)) in
  let jsonArray := store_json pairs in
  let! path := sget v_jsonFilePath in
  let! mainRet := SaveJsonToFile path jsonArray in
  if negb (mainRet =? E_OK) then sret mainRet
  else
    let! _backupRet := SaveJsonToFile (path +:+ BACKUP_FILE_SUFFIX) jsonArray in
    sret (errno E_OK).

(** The loop of [LoadJsonFromPath] over the items of the root array. *)
(* @src services/disk_manager/src/db/voldata_uuid_store.cpp 349-360 VoldataUuidStore::LoadJsonFromPath *)
Fixpoint load_items (items : list json) (m : UuidMap) : UuidMap :=
  match items with
  | [] => m
  | item :: items' =>
      if MAX_VOLDATA_SLOT_COUNT <=? Z.of_nat (size m) then m
      else match VoldataUuidEntry_FromJson item with
           | None => load_items items' m
           | Some entry => load_items items' (<[ve_fsUuid entry := entry]> m)
           end
  end.

(** What the text of a file adds to the map; [None] when the text is refused. *)
Definition load_text (jsonStr : string) (m : UuidMap) : option UuidMap :=
  if str_empty jsonStr then Some m
  else match json_parse jsonStr with
       | None => None
       | Some (JArr root) => Some (load_items root m)
       | Some _ => None
       end.

(* @src services/disk_manager/src/db/voldata_uuid_store.cpp 318-364 VoldataUuidStore::LoadJsonFromPath *)
Definition LoadJsonFromPath (filePath : string) : VM Z :=
  let! file := fs_read filePath in
  match file with
  | None => sret (errno DISK_MGR_ERR)
  | Some jsonStr =>
      let! m := sget v_map in
      match load_text jsonStr m with
      | None => sret (errno DISK_MGR_ERR)
      | Some m' => do! v_set_map m' in sret (errno E_OK)
      end
  end.

(* @src services/disk_manager/src/db/voldata_uuid_store.cpp 366-404 VoldataUuidStore::LoadFromFile *)
Definition LoadFromFile : VM Z :=
  do! v_set_map ∅ in
  let! path := sget v_jsonFilePath in
  let backupFilePath := path +:+ BACKUP_FILE_SUFFIX in
  let! mainExists := fs_exists path in
  if negb mainExists then SaveToFile
  else
    let! loadRet := LoadJsonFromPath path in
    if loadRet =? E_OK then
      let! backupExists := fs_exists backupFilePath in
      let! _ret := (if negb backupExists then SaveToFile else sret 0) in
      sret (errno E_OK)
    else
      let! backupExists := fs_exists backupFilePath in
      let! recovered := (if backupExists then
                           let! loadRet := LoadJsonFromPath backupFilePath in sret (loadRet =? E_OK)
                         else sret false) in
      if recovered then SaveToFile else SaveToFile.

(* @src services/disk_manager/src/db/voldata_uuid_store.cpp 108-126 VoldataUuidStore::Init *)
Definition Voldata_Init : VM Z :=
  let! initialized := sget v_initialized in
  if initialized then sret (errno E_OK)
  else
    do! v_set_jsonFilePath (DISK_MANAGER_DATA_PATH +:+ VOLDATA_UUID_MAPPING_JSON) in
    let! loadRet := LoadFromFile in
    if negb (loadRet =? E_OK) then sret loadRet
    else
      do! v_set_initialized true in
      sret (errno E_OK).

(* @src services/disk_manager/src/db/voldata_uuid_store.cpp 128-139 VoldataUuidStore::UnInit *)
Definition Voldata_UnInit : VM Z :=
  let! initialized := sget v_initialized in
  if negb initialized then sret (errno E_OK)
  else
    do! v_set_map ∅ in
    do! v_set_initialized false in
    sret (errno E_OK).

(** The key [EvictSlotOneIfFullLocked] erases, if any. *)
(* @src services/disk_manager/src/db/voldata_uuid_store.cpp 274-291 VoldataUuidStore::EvictSlotOneIfFullLocked *)
Definition EvictSlotOneIfFullLocked (pairs : list (string * VoldataUuidEntry)) (m : UuidMap) : UuidMap :=
  if Z.of_nat (size m) <? MAX_VOLDATA_SLOT_COUNT then m
  else match find_if (fun p => ve_slotIndex p.2 =? 1) pairs with
       | Some it => delete it.1 m
       | None => match pairs with [] => m | it :: _ => delete it.1 m end
       end.

(** The slot loop, from [slot] on. *)
Fixpoint find_slot (fuel : nat) (slot : Z) (pairs : list (string * VoldataUuidEntry)) : Z :=
  match fuel with
  | O => 1
  | S fuel' =>
      if existsb (fun p => ve_slotIndex p.2 =? slot) pairs then find_slot fuel' (slot + 1) pairs else slot
  end.
(* @src services/disk_manager/src/db/voldata_uuid_store.cpp 293-308 VoldataUuidStore::FindMinimumFreeSlotLocked *)
Definition FindMinimumFreeSlotLocked (pairs : list (string * VoldataUuidEntry)) : Z :=
  find_slot (Z.to_nat MAX_VOLDATA_SLOT_COUNT) 1 pairs.

(* @src services/disk_manager/src/db/voldata_uuid_store.cpp 310-316 VoldataUuidStore::AllocateNextSlotLocked *)
Definition AllocateNextSlotLocked : VM Z :=
  let! m := sget v_map in
  let! pairs := sget (fun st => umap_iter (v_env st) m) in
  do! (if MAX_VOLDATA_SLOT_COUNT <=? Z.of_nat (size m)
       then v_set_map (EvictSlotOneIfFullLocked pairs m) else sret tt) in
  sget (fun st => FindMinimumFreeSlotLocked (umap_iter (v_env st) (v_map st))).

(** Result: return code, [outMountPath] (when assigned) and [outCreated]. *)
(* @src services/disk_manager/src/db/voldata_uuid_store.cpp 141-182 VoldataUuidStore::ResolveMountPath *)
Definition Voldata_ResolveMountPath (fsUuid : string) : VM (Z * option string * bool) :=
  if negb (IsUuidValid fsUuid) then sret (errno DISK_MGR_ERR, None, false)
  else
    let! initRet := Voldata_Init in
    if negb (initRet =? E_OK) then sret (initRet, None, false)
    else
      let! m := sget v_map in
      match m !! fsUuid with
      | Some existing => sret (errno E_OK, Some (ve_mountPath existing), false)
      | None =>
          let backup := m in
          let! slot := AllocateNextSlotLocked in
          let entry := mkVoldataUuidEntry fsUuid (BuildMountPathForSlot slot) slot in
          let! m := sget v_map in
          do! v_set_map (<[fsUuid := entry]> m) in
          let! saveRet := SaveToFile in
          if negb (saveRet =? E_OK) then
            do! v_set_map backup in
            sret (saveRet, None, false)
          else sret (errno E_OK, Some (ve_mountPath entry), true)
      end.

(* @src services/disk_manager/src/db/voldata_uuid_store.cpp 184-212 VoldataUuidStore::RemoveByFsUuid *)
Definition Voldata_RemoveByFsUuid (fsUuid : string) : VM Z :=
  if negb (IsUuidValid fsUuid) then sret (errno DISK_MGR_ERR)
  else
    let! initRet := Voldata_Init in
    if negb (initRet =? E_OK) then sret initRet
    else
      let! m := sget v_map in
      match m !! fsUuid with
      | None => sret (errno E_OK)
      | Some _ =>
          let backup := m in
          do! v_set_map (delete fsUuid m) in
          let! saveRet := SaveToFile in
          if negb (saveRet =? E_OK) then
            do! v_set_map backup in
            sret saveRet
          else sret (errno E_OK)
      end.

(* @src services/disk_manager/src/db/voldata_uuid_store.cpp 214-257 VoldataUuidStore::ReplaceFsUuid *)
Definition Voldata_ReplaceFsUuid (oldFsUuid newFsUuid : string) : VM Z :=
  if negb (IsUuidValid oldFsUuid) || negb (IsUuidValid newFsUuid) then sret (errno DISK_MGR_ERR)
  else if oldFsUuid =s newFsUuid then sret (errno E_OK)
  else
    let! initRet := Voldata_Init in
    if negb (initRet =? E_OK) then sret initRet
    else
      let! m := sget v_map in
      match m !! oldFsUuid with
      | None => sret (errno E_OK)
      | Some oldEntry =>
          match m !! newFsUuid with
          | Some _ => sret (errno DISK_MGR_ERR)
          | None =>
              let backup := m in
              let entry := mkVoldataUuidEntry newFsUuid (ve_mountPath oldEntry) (ve_slotIndex oldEntry) in
              do! v_set_map (<[newFsUuid := entry]> (delete oldFsUuid m)) in
              let! saveRet := SaveToFile in
              if negb (saveRet =? E_OK) then
                do! v_set_map backup in
                sret saveRet
              else sret (errno E_OK)
          end
      end.

(* @src services/disk_manager/src/db/voldata_uuid_store.cpp 259-272 VoldataUuidStore::TryGetMountPath *)
Definition Voldata_TryGetMountPath (fsUuid : string) : VM (option string) :=
  if negb (IsUuidValid fsUuid) then sret None
  else
    let! m := sget v_map in
    sret (ve_mountPath <$> m !! fsUuid).

End voldata.
