(* ===== verification/VoldataFacts.v ===== *)
(** * Correctness of the uuid store

    The representation invariant of the map and of the files, what every
    operation does on each branch, crash atomicity of a save, the save/load
    round trip, and the invariant over every sequence of operations. *)
From S2P Require Import Prelude CppString Types Utils State Json Voldata.

(** ** Invariants *)
Definition entry_ok (k : string) (e : VoldataUuidEntry) : Prop :=
  ve_fsUuid e = k /\ IsUuidValid k = true /\ sforall is_ascii7 k = true /\
  1 <= ve_slotIndex e <= MAX_VOLDATA_SLOT_COUNT /\ ve_mountPath e = BuildMountPathForSlot (ve_slotIndex e).

Definition slots_distinct (m : UuidMap) : Prop :=
  forall k1 k2 e1 e2, m !! k1 = Some e1 -> m !! k2 = Some e2 -> ve_slotIndex e1 = ve_slotIndex e2 -> k1 = k2.

Definition MapInv (m : UuidMap) : Prop :=
  map_Forall entry_ok m /\ slots_distinct m /\ Z.of_nat (size m) <= MAX_VOLDATA_SLOT_COUNT.

Lemma MapInv_empty : MapInv ∅.
Proof.
  split_and!; [apply map_Forall_empty| |].
  - intros k1 k2 e1 e2 H. by rewrite lookup_empty in H.
  - rewrite map_size_empty. unfold MAX_VOLDATA_SLOT_COUNT. lia.
Qed.

Lemma MapInv_delete k m : MapInv m -> MapInv (delete k m).
Proof.
  intros (Hf & Hd & Hs). split_and!.
  - by apply map_Forall_delete.
  - intros k1 k2 e1 e2 [_ H1]%lookup_delete_Some [_ H2]%lookup_delete_Some. by apply Hd.
  - pose proof (map_size_delete k m) as Hsz. unfold id in Hsz. destruct (m !! k); lia.
Qed.

(** ** The slot search *)
Definition slot_used (slot : Z) (m : UuidMap) : Prop := exists k e, m !! k = Some e /\ ve_slotIndex e = slot.

Lemma slot_used_pairs (pairs : list (string * VoldataUuidEntry)) m slot :
  pairs ≡ₚ map_to_list m -> existsb (fun p => ve_slotIndex p.2 =? slot) pairs = true <-> slot_used slot m.
Proof.
  intros Hp. rewrite existsb_elem_of. split.
  - intros ([k e] & Hin & Hs). rewrite Hp in Hin. apply elem_of_map_to_list in Hin. bsimp. by exists k, e.
  - intros (k & e & Hin & Hs). exists (k, e). rewrite Hp. split; [by apply elem_of_map_to_list|]. simpl. by apply Z.eqb_eq.
Qed.

Lemma find_slot_spec fuel slot pairs m :
  pairs ≡ₚ map_to_list m ->
  let r := find_slot fuel slot pairs in
  (slot <= r < slot + Z.of_nat fuel /\ ~ slot_used r m /\ forall s, slot <= s < r -> slot_used s m) \/
  (forall s, slot <= s < slot + Z.of_nat fuel -> slot_used s m).
Proof.
  intros Hp. revert slot; induction fuel as [|fuel IH]; intros slot; simpl; [right; lia|].
  destruct (existsb _ pairs) eqn:Hu.
  - rewrite slot_used_pairs in Hu by done. destruct (IH (slot + 1)) as [(Hr & Hn & Hm)|Hall].
    + left. split; [lia|]. split; [done|]. intros s Hs. destruct (decide (s = slot)) as [->|]; [done|]. apply Hm. lia.
    + right. intros s Hs. destruct (decide (s = slot)) as [->|]; [done|]. apply Hall. lia.
  - left. split; [lia|]. rewrite <- (slot_used_pairs _ _ _ Hp), Hu. split; [done|lia].
Qed.

(** Pigeonhole: fewer entries than slots leave a slot free. *)
Lemma slots_all_used_size m (n : nat) :
  (forall s, 1 <= s < 1 + Z.of_nat n -> slot_used s m) -> (n <= size m)%nat.
Proof.
  intros H. rewrite <- (length_map_to_list m).
  assert (Hsub : seqZ 1 (Z.of_nat n) ⊆+ (fun p => ve_slotIndex p.2) <$> map_to_list m).
  { apply NoDup_submseteq; [apply NoDup_seqZ|]. intros s Hs%elem_of_seqZ.
    destruct (H s) as (k & e & Hk & <-); [lia|]. apply list_elem_of_fmap. exists (k, e).
    split; [done|by apply elem_of_map_to_list]. }
  apply submseteq_length in Hsub. rewrite length_fmap, length_seqZ in Hsub. lia.
Qed.

Lemma FindMinimumFreeSlotLocked_spec pairs m :
  pairs ≡ₚ map_to_list m -> Z.of_nat (size m) < MAX_VOLDATA_SLOT_COUNT ->
  let slot := FindMinimumFreeSlotLocked pairs in
  1 <= slot <= MAX_VOLDATA_SLOT_COUNT /\ ~ slot_used slot m /\ (forall s, 1 <= s < slot -> slot_used s m).
Proof.
  intros Hp Hs. unfold FindMinimumFreeSlotLocked, MAX_VOLDATA_SLOT_COUNT in *.
  destruct (find_slot_spec (Z.to_nat 1000) 1 pairs m Hp) as [(Hr & Hn & Hm)|Hall].
  - split; [lia|]. done.
  - exfalso. apply slots_all_used_size in Hall. lia.
Qed.

Lemma EvictSlotOneIfFullLocked_spec pairs m :
  pairs ≡ₚ map_to_list m ->
  let m' := EvictSlotOneIfFullLocked pairs m in
  (Z.of_nat (size m) < MAX_VOLDATA_SLOT_COUNT /\ m' = m) \/
  (MAX_VOLDATA_SLOT_COUNT <= Z.of_nat (size m) /\ exists k e, m !! k = Some e /\ m' = delete k m /\
     (slot_used 1 m -> ve_slotIndex e = 1)).
Proof.
  intros Hp. unfold EvictSlotOneIfFullLocked. cbv zeta.
  destruct (Z.ltb_spec (Z.of_nat (size m)) MAX_VOLDATA_SLOT_COUNT) as [|Hge]; [by left|]. right. split; [done|].
  destruct (find_if _ pairs) as [[k e]|] eqn:Hf.
  - apply find_if_Some in Hf as [Hin Hs]. rewrite Hp, elem_of_map_to_list in Hin. simpl in Hs. bsimp. eauto 6.
  - rewrite find_if_None in Hf. destruct pairs as [|[k e] pairs].
    + exfalso. symmetry in Hp. apply Permutation_nil_r in Hp. rewrite map_to_list_empty_iff in Hp. subst m.
      rewrite map_size_empty in Hge. unfold MAX_VOLDATA_SLOT_COUNT in Hge. lia.
    + exists k, e. split; [by apply elem_of_map_to_list; rewrite <- Hp; left|]. split; [done|].
      intros (k' & e' & Hk & Hs'). exfalso. specialize (Hf (k', e')). rewrite Hp, elem_of_map_to_list in Hf.
      specialize (Hf Hk). simpl in Hf. bsimp. done.
Qed.

(** ** Text of an entry *)
Lemma ParseVoldataSlot_Build slot :
  1 <= slot <= MAX_VOLDATA_SLOT_COUNT -> ParseVoldataSlotFromMountPath (BuildMountPathForSlot slot) = Some slot.
Proof.
  intros Hs. unfold MAX_VOLDATA_SLOT_COUNT in Hs. unfold ParseVoldataSlotFromMountPath, BuildMountPathForSlot.
  rewrite starts_with_app, sdrop_app, slen_app, orb_false_r.
  pose proof (to_string_nonempty slot ltac:(lia)) as Hne.
  destruct (Nat.leb_spec (String.length VOLDATA_MOUNT_PREFIX + String.length (to_string slot)) (String.length VOLDATA_MOUNT_PREFIX)).
  { destruct (to_string slot); simpl in *; [done|lia]. }
  rewrite to_string_digits by lia. simpl negb. cbv iota.
  rewrite <- (sapp_nil_r (to_string slot)), conv10_digits; [|by apply to_string_digits; lia|done|done].
  simpl conv_mag. unfold conv_ulong. simpl conv_mag. simpl conv_neg.
  rewrite dec_val_to_string by lia. unfold MAX_VOLDATA_SLOT_COUNT. unfold_ints.
  destruct (Z.ltb_spec 18446744073709551615 slot); [lia|].
  destruct (Z.ltb_spec slot 1); [lia|]. destruct (Z.ltb_spec 1000 slot); [lia|]. done.
Qed.

Lemma VoldataUuidEntry_roundtrip k e :
  entry_ok k e -> VoldataUuidEntry_FromJson (VoldataUuidEntry_ToJson e) = Some e.
Proof.
  intros (Hk & Hu & _ & Hs & Hp). destruct e as [u p s]. simpl in *. subst u p. unfold VoldataUuidEntry_FromJson.
  simpl. rewrite ParseVoldataSlot_Build by done. by rewrite Hu.
Qed.

(** Any accepted entry names a slot in range, whatever the file holds. *)
Lemma ParseVoldataSlot_range p s : ParseVoldataSlotFromMountPath p = Some s -> 1 <= s <= MAX_VOLDATA_SLOT_COUNT.
Proof.
  unfold ParseVoldataSlotFromMountPath. destruct (_ || _); [done|]. destruct (negb _); [done|].
  destruct (conv10 _) as [c|]; [|done]. destruct (_ <? _); [done|].
  generalize (conv_ulong (Some c)). intros v. destruct ((v <? 1) || _) eqn:Hr; [done|].
  apply orb_false_iff in Hr as [H1%Z.ltb_ge H2%Z.ltb_ge]. by intros [= <-].
Qed.

Section facts.
Context {E : Type} {FS : FsEnv E} {JT : JsonText}.
Notation VM := (State (VState E)).
Implicit Types st : VState E.

(** ** Loading the items of a saved map gives the map back *)
Lemma load_items_pairs (pairs : list (string * VoldataUuidEntry)) m :
  Forall (fun p => entry_ok p.1 p.2) pairs -> NoDup pairs.*1 ->
  (forall k, k ∈ pairs.*1 -> m !! k = None) ->
  Z.of_nat (size m + List.length pairs) <= MAX_VOLDATA_SLOT_COUNT ->
  load_items (map (fun p => VoldataUuidEntry_ToJson p.2) pairs) m = list_to_map pairs ∪ m.
Proof.
  revert m; induction pairs as [|[k e] pairs IH]; intros m Hok Hnd Hm Hsz; simpl.
  - by rewrite map_empty_union.
  - inversion Hok as [|? ? Hke Hok']; subst. inversion Hnd as [|? ? Hk Hnd']; subst. simpl in *.
    destruct (Z.leb_spec MAX_VOLDATA_SLOT_COUNT (Z.of_nat (size m))); [lia|].
    rewrite (VoldataUuidEntry_roundtrip k e Hke). destruct Hke as [-> _].
    rewrite IH; [|done|done| |].
    + rewrite <- insert_union_r, <- insert_union_l; [done|]. apply not_elem_of_list_to_map_1. done.
    + intros k' Hk'. rewrite lookup_insert_ne by set_solver. apply Hm. set_solver.
    + rewrite map_size_insert_None by (apply Hm; set_solver). lia.
Qed.

Lemma store_json_norm pairs :
  Forall (fun p => entry_ok p.1 p.2) pairs -> json_norm (store_json pairs) = store_json pairs.
Proof.
  intros H. unfold store_json. simpl. f_equal. rewrite map_map.
  induction H as [|[k e] pairs Hke _ IH]; simpl; [done|]. apply (f_equal (cons _)). exact IH.
Qed.

Lemma load_text_store pairs m :
  MapInv m -> pairs ≡ₚ map_to_list m -> load_text (json_dump (store_json pairs)) ∅ = Some m.
Proof.
  intros (Hok & _ & Hsz) Hp. unfold load_text.
  destruct (str_empty _) eqn:He; [exfalso; apply str_empty_true in He; by apply json_dump_nonempty in He|].
  assert (Hall : Forall (fun p => entry_ok p.1 p.2) pairs).
  { rewrite Hp. apply map_Forall_to_list in Hok. eapply Forall_impl; [exact Hok|]. by intros []. }
  rewrite json_parse_dump.
  - rewrite store_json_norm by done. unfold store_json. cbv beta iota. f_equal. rewrite load_items_pairs, map_union_empty.
    + rewrite (list_to_map_proper pairs (map_to_list m)); [apply list_to_map_to_list| |done].
      rewrite Hp. apply NoDup_fst_map_to_list.
    + done.
    + rewrite Hp. apply NoDup_fst_map_to_list.
    + intros. apply lookup_empty.
    + rewrite map_size_empty. rewrite Hp. rewrite length_map_to_list. lia.
  - unfold json_plain, store_json. simpl. apply andb_true_iff. rewrite !forallb_forall.
    rewrite Forall_forall in Hall. split; intros x (p & <- & Hin%list_elem_of_In)%in_map_iff;
      destruct (Hall p Hin) as (Hu & _ & Ha & Hs & Hpath); simpl.
    + rewrite Hu, Ha, Hpath. unfold BuildMountPathForSlot. rewrite sforall_app.
      rewrite (sforall_impl is_digit is_ascii7 (to_string _)); [done| |apply to_string_digits; lia].
      intros c Hc. unfold is_digit, is_ascii7 in *. bsimp. lia.
    + unfold MAX_VOLDATA_SLOT_COUNT in Hs. unfold_ints.
      rewrite (proj2 (Z.leb_le _ _)), (proj2 (Z.leb_le _ _)) by lia. done.
Qed.

(** ** A save *)
Definition same_core (st st' : VState E) : Prop :=
  v_map st' = v_map st /\ v_initialized st' = v_initialized st /\ v_jsonFilePath st' = v_jsonFilePath st.
#[local] Instance same_core_preorder : PreOrder same_core.
Proof. split; [by intros st|]. intros a b c (? & ? & ?) (? & ? & ?). split_and!; congruence. Qed.

(** The snapshots of the files that the step from [st] to [st'] left on disk. *)
Definition snapshots_ok (P : gmap string string -> Prop) (st st' : VState E) : Prop :=
  exists snaps, v_hist st' = snaps ++ v_hist st /\ Forall P snaps.

(** What one written file may hold at any moment, the others being untouched. *)
Definition file_step (p text : string) (f0 f : gmap string string) : Prop :=
  (f !! p = f0 !! p \/ f !! p = Some text) /\
  forall q, q <> p -> q <> p +:+ TMP_FILE_SUFFIX -> f !! q = f0 !! q.

Lemma tmp_ne p : p +:+ TMP_FILE_SUFFIX <> p.
Proof. intros H%(f_equal String.length). rewrite slen_app in H. simpl in H. lia. Qed.

Lemma file_step_tmp p text f0 f c :
  file_step p text f0 f -> file_step p text f0 (<[p +:+ TMP_FILE_SUFFIX := c]> f).
Proof.
  intros [H1 H2]. pose proof (tmp_ne p). split.
  - by rewrite lookup_insert_ne.
  - intros q Hq Ht. rewrite lookup_insert_ne by done. auto.
Qed.
Lemma file_step_rm p text f0 f :
  file_step p text f0 f -> file_step p text f0 (delete (p +:+ TMP_FILE_SUFFIX) f).
Proof.
  intros [H1 H2]. pose proof (tmp_ne p). split.
  - by rewrite lookup_delete_ne.
  - intros q Hq Ht. rewrite lookup_delete_ne by done. auto.
Qed.

(** [SaveJsonToFile]: success writes exactly the text, failure leaves the file
    as it was; every intermediate state of the disk holds the old or the new
    text in the file and leaves every other file but the temporary one alone. *)
Lemma SaveJsonToFile_spec p js st ret st' :
  SaveJsonToFile p js st = (ret, st') ->
  same_core st st' /\ file_step p (json_dump js) (v_files st) (v_files st') /\
  snapshots_ok (file_step p (json_dump js) (v_files st)) st st' /\
  (ret = errno E_OK /\ v_files st' !! p = Some (json_dump js) \/
   ret = errno DISK_MGR_ERR /\ v_files st' !! p = v_files st !! p).
Proof.
  pose proof (tmp_ne p) as Hne. set (t := p +:+ TMP_FILE_SUFFIX) in *.
  set (txt := json_dump js). destruct st as [m i jp f h e].
  assert (H0 : file_step p txt f f) by (split; auto).
  assert (Hfin : forall snaps f' e' ret, file_step p txt f f' -> Forall (file_step p txt f) snaps ->
      (ret = errno E_OK /\ f' !! p = Some txt \/ ret = errno DISK_MGR_ERR /\ f' !! p = f !! p) ->
      let st := mkVState m i jp f h e in let st' := mkVState m i jp f' (snaps ++ h) e' in
      same_core st st' /\ file_step p txt f (v_files st') /\
      snapshots_ok (file_step p txt f) st st' /\
      (ret = errno E_OK /\ v_files st' !! p = Some txt \/ ret = errno DISK_MGR_ERR /\ v_files st' !! p = f !! p)).
  { intros. split_and!; [by split_and!|done|by exists snaps|done]. }
  unfold SaveJsonToFile, fs_remove, fs_call, v_set_files, smodify, sget, sbind, sret. fold t txt. simpl.
  destruct (fs_answer e _) as [[] e1]; simpl; [|intros [= <- <-]; by apply (Hfin []); auto].
  destruct (fs_answer e1 _) as [[] e2]; simpl; [|intros [= <- <-]; by apply (Hfin []); auto].
  destruct (fs_answer e2 _) as [okw e3]; simpl. rewrite insert_insert_eq.
  assert (H1 : forall c, file_step p txt f (<[t:=c]> f)) by (intros; by apply file_step_tmp).
  assert (H2 : file_step p txt f (delete t f)) by (by apply file_step_rm).
  destruct okw; simpl.
  - destruct (fs_answer e3 _) as [fd e4]; simpl.
    assert (H3 : file_step p txt f (<[p:=txt]> (delete t f))).
    { split; [right; apply lookup_insert_eq|]. intros q Hq Ht. by rewrite lookup_insert_ne, lookup_delete_ne. }
    destruct fd; simpl; [destruct (fs_answer e4 (FsFsync t)) as [x e5]; simpl|rename e4 into e5];
      (destruct (fs_answer e5 (FsRename t p)) as [[] e6]; simpl;
       [rewrite lookup_insert_eq, delete_insert_eq; intros [= <- <-]; apply (Hfin [_; _; _]);
        [done|by auto|left; split; [done|apply lookup_insert_eq]]
       |destruct (fs_answer e6 (FsRemove t)) as [[] e7]; simpl; intros [= <- <-]; rewrite ?delete_insert_eq;
        [apply (Hfin [_; _; _]); [auto|auto|right; by rewrite lookup_delete_ne]
        |apply (Hfin [_; _]); [auto..|right; by rewrite lookup_insert_ne]]]).
  - destruct (fs_answer e3 _) as [[] e7]; simpl; intros [= <- <-]; rewrite ?insert_insert_eq, ?delete_insert_eq.
    + apply (Hfin [_; _; _]); [done|by auto|]. right. by rewrite lookup_delete_ne.
    + apply (Hfin [_; _]); [by auto..|]. right. by rewrite lookup_insert_ne.
Qed.

(** [SaveToFile]: the main file first, then the backup, with the same text. *)
Definition save_step (p text : string) (f0 f : gmap string string) : Prop :=
  (f !! p = f0 !! p \/ f !! p = Some text) /\
  (f !! (p +:+ BACKUP_FILE_SUFFIX) = f0 !! (p +:+ BACKUP_FILE_SUFFIX) \/
   f !! (p +:+ BACKUP_FILE_SUFFIX) = Some text).

Lemma SaveToFile_spec st ret st' :
  SaveToFile st = (ret, st') ->
  exists pairs, pairs ≡ₚ map_to_list (v_map st) /\
  let p := v_jsonFilePath st in
  let text := json_dump (store_json pairs) in
  same_core st st' /\ save_step p text (v_files st) (v_files st') /\
  snapshots_ok (save_step p text (v_files st)) st st' /\
  (ret = errno E_OK /\ v_files st' !! p = Some text \/
   ret = errno DISK_MGR_ERR /\ v_files st' !! p = v_files st !! p).
Proof.
  unfold SaveToFile, sbind, sget. set (pairs := umap_iter _ _). set (p := v_jsonFilePath st).
  set (b := p +:+ BACKUP_FILE_SUFFIX). set (text := json_dump (store_json pairs)).
  assert (Hpb : p <> b). { intros H%(f_equal String.length). unfold b in H. rewrite slen_app in H. simpl in H. lia. }
  assert (Hpbt : p <> b +:+ TMP_FILE_SUFFIX).
  { intros H%(f_equal String.length). unfold b in H. rewrite !slen_app in H. simpl in H. lia. }
  assert (Hbt : b <> p +:+ TMP_FILE_SUFFIX). { unfold b. intros H%sapp_inj_r. done. }
  destruct (SaveJsonToFile p (store_json pairs) st) as [mainRet st1] eqn:H1.
  apply SaveJsonToFile_spec in H1 as (Hc1 & [Hf1 Ho1] & (sn1 & Hh1 & Hs1) & Hr1). fold text in Hf1, Hs1, Hr1.
  assert (Hs1' : Forall (save_step p text (v_files st)) sn1).
  { eapply Forall_impl; [exact Hs1|]. intros f [Ha Hb]. split; [done|]. left. by apply Hb. }
  intros Hrun. exists pairs. split; [apply umap_iter_perm|]. cbv zeta. revert Hrun.
  destruct Hr1 as [[-> Hp1]|[-> Hp1]]; simpl.
  - destruct (SaveJsonToFile b (store_json pairs) st1) as [backupRet st2] eqn:H2.
    apply SaveJsonToFile_spec in H2 as (Hc2 & [Hf2 Ho2] & (sn2 & Hh2 & Hs2) & _). fold text in Hf2, Hs2.
    intros [= <- <-].
    assert (Hg : forall f, file_step b text (v_files st1) f -> save_step p text (v_files st) f).
    { intros f [Ha Hb]. split; fold b; [right; rewrite (Hb p) by done; exact Hp1|].
      destruct Ha as [Ha|Ha]; [left|by right]. rewrite Ha. by apply Ho1. }
    split_and!.
    + by etransitivity.
    + apply Hg. by split.
    + exists (sn2 ++ sn1). rewrite Hh2, Hh1, <- app_assoc. split; [done|]. apply Forall_app. split; [|done].
      by eapply Forall_impl.
    + left. split; [done|]. rewrite (Ho2 p) by done. done.
  - intros [= <- <-]. split_and!; [done| |by exists sn1|by right].
    split; [by left|]. left. by apply Ho1.
Qed.

(** ** The global invariant

    The map is well formed; whatever the main or backup file holds now, or held
    at any earlier moment, loads to a well-formed map if it loads at all. *)
Definition MAIN_FILE : string := DISK_MANAGER_DATA_PATH +:+ VOLDATA_UUID_MAPPING_JSON.
Definition BACKUP_FILE : string := MAIN_FILE +:+ BACKUP_FILE_SUFFIX.
Definition text_ok (c : string) : Prop := forall m, load_text c ∅ = Some m -> MapInv m.
Definition FileInv (files : gmap string string) : Prop :=
  forall q c, q = MAIN_FILE \/ q = BACKUP_FILE -> files !! q = Some c -> text_ok c.
Definition Inv (st : VState E) : Prop :=
  MapInv (v_map st) /\ FileInv (v_files st) /\ Forall FileInv (v_hist st) /\
  (v_initialized st = true -> v_jsonFilePath st = MAIN_FILE).

Lemma save_step_FileInv text f0 f :
  text_ok text -> FileInv f0 -> save_step MAIN_FILE text f0 f -> FileInv f.
Proof.
  intros Ht H0 [[Hm|Hm] [Hb|Hb]] q c [->| ->] Hq; unfold BACKUP_FILE in *; try (rewrite ?Hm, ?Hb in Hq);
    try (injection Hq as <-; done); try (eapply H0; [|exact Hq]; unfold BACKUP_FILE; auto).
Qed.

Lemma SaveToFile_inv st ret st' :
  SaveToFile st = (ret, st') -> v_jsonFilePath st = MAIN_FILE -> Inv st ->
  Inv st' /\ same_core st st' /\
  (ret = errno E_OK /\ (exists text, v_files st' !! MAIN_FILE = Some text /\ load_text text ∅ = Some (v_map st)) \/
   ret = errno DISK_MGR_ERR /\ v_files st' !! MAIN_FILE = v_files st !! MAIN_FILE).
Proof.
  intros Hrun Hpath (Hm & Hf & Hh & Hi).
  apply SaveToFile_spec in Hrun as (pairs & Hperm & Hc & Hstep & (sn & Hsn & Hall) & Hr). rewrite Hpath in *.
  set (text := json_dump (store_json pairs)) in *.
  pose proof (load_text_store pairs (v_map st) Hm Hperm) as Hload. fold text in Hload.
  assert (Ht : text_ok text) by (intros m' H'; rewrite Hload in H'; by injection H' as <-).
  destruct Hc as (Hc1 & Hc2 & Hc3). split_and!.
  - split_and!.
    + by rewrite Hc1.
    + by eapply save_step_FileInv.
    + rewrite Hsn. apply Forall_app. split; [|done]. eapply Forall_impl; [exact Hall|].
      intros f' Hf'. by eapply save_step_FileInv.
    + by rewrite Hc3.
  - done.
  - destruct Hr as [[-> Hr]|[-> Hr]]; [left|by right]. split; [done|]. by exists text.
Qed.

(** Every operation that only changes the map in memory. *)
Lemma Inv_set_map m st : MapInv m -> Inv st -> Inv (v_set_map m st).2.
Proof. intros Hm (_ & Hf & Hh & Hi). by split_and!. Qed.

Lemma Inv_env st env : Inv st ->
  Inv (mkVState (v_map st) (v_initialized st) (v_jsonFilePath st) (v_files st) (v_hist st) env).
Proof. by intros (Hm & Hf & Hh & Hi). Qed.

Lemma fs_exists_spec p st b st' :
  fs_exists p st = (b, st') ->
  exists env, st' = mkVState (v_map st) (v_initialized st) (v_jsonFilePath st) (v_files st) (v_hist st) env.
Proof.
  unfold fs_exists, fs_call, sbind, sget, sret. destruct (fs_answer _ _) as [ok env]. intros [= <- <-]. eauto.
Qed.

(** Loading one of the two files into the empty map. *)
Lemma LoadJsonFromPath_spec p st ret st' :
  LoadJsonFromPath p st = (ret, st') -> v_map st = ∅ -> p = MAIN_FILE \/ p = BACKUP_FILE -> Inv st ->
  Inv st' /\ v_jsonFilePath st' = v_jsonFilePath st /\ v_initialized st' = v_initialized st /\ v_files st' = v_files st /\
  (ret = errno E_OK /\ (exists c, v_files st !! p = Some c /\ load_text c ∅ = Some (v_map st')) \/
   ret = errno DISK_MGR_ERR /\ v_map st' = ∅).
Proof.
  intros Hrun Hm0 Hp HI. destruct HI as (Hm & Hf & Hh & Hi).
  assert (HIe : forall env, Inv (mkVState (v_map st) (v_initialized st) (v_jsonFilePath st) (v_files st) (v_hist st) env))
    by (intros; by split_and!).
  unfold LoadJsonFromPath, fs_read, fs_call, sbind, sget, sret in Hrun.
  destruct (fs_answer _ _) as [ok env]. simpl in Hrun.
  destruct (if ok then v_files st !! p else None) as [c|] eqn:Hc.
  - simpl in Hrun. rewrite Hm0 in Hrun. destruct ok; [|done]. destruct (load_text c ∅) as [m'|] eqn:Hl; simpl in Hrun.
    + injection Hrun as <- <-. simpl. split_and!; try done.
      * split_and!; [by eapply Hf|done..].
      * left. split; [done|]. eauto.
    + injection Hrun as <- <-. split_and!; try done. by right.
  - injection Hrun as <- <-. split_and!; try done. by right.
Qed.

(** ** Init *)
Definition init_post (st : VState E) (ret : Z) (st' : VState E) : Prop :=
  Inv st' /\ (v_initialized st = true -> st' = st /\ ret = errno E_OK) /\
  (ret = errno E_OK -> v_initialized st' = true) /\
  (ret <> errno E_OK -> ret = errno DISK_MGR_ERR /\ v_initialized st' = false).

Lemma LoadFromFile_spec st ret st' :
  LoadFromFile st = (ret, st') -> v_jsonFilePath st = MAIN_FILE -> v_initialized st = false -> Inv st ->
  Inv st' /\ v_jsonFilePath st' = MAIN_FILE /\ v_initialized st' = false /\
  (ret = errno E_OK \/ ret = errno DISK_MGR_ERR).
Proof.
  intros Hrun Hp Hi HI. apply (Inv_set_map ∅ st MapInv_empty) in HI.
  unfold LoadFromFile in Hrun. cbv [sbind sget sret] in Hrun.
  change (v_set_map ∅ st) with (tt, (v_set_map ∅ st).2) in Hrun. cbv beta iota in Hrun.
  set (s1 := (v_set_map ∅ st).2) in *. assert (Hp1 : v_jsonFilePath s1 = MAIN_FILE) by done.
  assert (Hi1 : v_initialized s1 = false) by done. assert (Hm1 : v_map s1 = ∅) by done.
  clearbody s1. rewrite Hp1 in Hrun. change (MAIN_FILE +:+ BACKUP_FILE_SUFFIX) with BACKUP_FILE in Hrun.
  assert (Hsave : forall s r s', SaveToFile s = (r, s') -> Inv s -> v_jsonFilePath s = MAIN_FILE -> v_initialized s = false ->
            Inv s' /\ v_jsonFilePath s' = MAIN_FILE /\ v_initialized s' = false /\ (r = errno E_OK \/ r = errno DISK_MGR_ERR)).
  { intros s r s' Hs HIs Hps His. apply SaveToFile_inv in Hs as (HI' & (_ & Hc2 & Hc3) & Hr); [|done..].
    split_and!; [done|congruence..|]. destruct Hr as [[-> _]|[-> _]]; auto. }
  destruct (fs_exists MAIN_FILE s1) as [mainExists s2] eqn:He. apply fs_exists_spec in He as [env ->].
  apply (Inv_env s1 env) in HI. destruct mainExists; [|by apply (Hsave _ _ _ Hrun)]. simpl in Hrun.
  destruct (LoadJsonFromPath MAIN_FILE _) as [loadRet s3] eqn:Hl.
  apply LoadJsonFromPath_spec in Hl as (HI3 & Hp3 & Hi3 & _ & Hr3); [|done|by left|done]. simpl in Hp3, Hi3.
  rewrite Hp1 in Hp3. rewrite Hi1 in Hi3.
  destruct Hr3 as [[-> _]|[-> Hm3]]; simpl in Hrun.
  - destruct (fs_exists BACKUP_FILE s3) as [be s4] eqn:He. apply fs_exists_spec in He as [env2 ->].
    apply (Inv_env s3 env2) in HI3. destruct be; simpl in Hrun.
    + injection Hrun as <- <-. split_and!; try done. by left.
    + destruct (SaveToFile _) as [r s5] eqn:Hsv. apply Hsave in Hsv as (? & ? & ? & _); [|done..].
      injection Hrun as <- <-. auto.
  - destruct (fs_exists BACKUP_FILE s3) as [be s4] eqn:He. apply fs_exists_spec in He as [env2 ->].
    apply (Inv_env s3 env2) in HI3. destruct be; simpl in Hrun; [|by apply (Hsave _ _ _ Hrun)].
    destruct (LoadJsonFromPath BACKUP_FILE _) as [r5 s5] eqn:Hl5.
    apply LoadJsonFromPath_spec in Hl5 as (HI5 & Hp5 & Hi5 & _); [|done|by right|done]. simpl in Hp5, Hi5.
    rewrite Hp3 in Hp5. rewrite Hi3 in Hi5. destruct (r5 =? 0); by apply (Hsave _ _ _ Hrun).
Qed.

Lemma Init_spec st ret st' : Voldata_Init st = (ret, st') -> Inv st -> init_post st ret st'.
Proof.
  unfold Voldata_Init, sbind, sget, sret. intros Hrun HI. destruct (v_initialized st) eqn:Hi.
  - injection Hrun as <- <-. by split_and!.
  - change (v_set_jsonFilePath (DISK_MANAGER_DATA_PATH +:+ VOLDATA_UUID_MAPPING_JSON) st)
      with (tt, (v_set_jsonFilePath MAIN_FILE st).2) in Hrun. cbv beta iota in Hrun.
    destruct (LoadFromFile _) as [lr s2] eqn:Hl.
    apply LoadFromFile_spec in Hl as (HI2 & Hp2 & Hi2 & Hr); [|done|done|].
    2:{ destruct HI as (?&?&?&?). by split_and!. }
    destruct Hr as [-> | ->]; simpl in Hrun; injection Hrun as <- <-; split_and!; try done.
    all: first [congruence | destruct HI2 as (?&?&?&?); by split_and!].
Qed.

(** ** The operations *)
Lemma MapInv_insert u slot m :
  MapInv m -> m !! u = None -> IsUuidValid u = true -> sforall is_ascii7 u = true ->
  1 <= slot <= MAX_VOLDATA_SLOT_COUNT -> ~ slot_used slot m -> Z.of_nat (size m) < MAX_VOLDATA_SLOT_COUNT ->
  MapInv (<[u := mkVoldataUuidEntry u (BuildMountPathForSlot slot) slot]> m).
Proof.
  intros (Hf & Hd & Hs) Hu Hv Ha Hr Hn Hsz. split_and!.
  - apply map_Forall_insert_2; [|done]. destruct Hr. by split_and!.
  - intros k1 k2 e1 e2 [[<- <-]|[Hk1 H1]]%lookup_insert_Some [[<- <-]|[Hk2 H2]]%lookup_insert_Some; simpl; intros He.
    + done.
    + exfalso. apply Hn. exists k2, e2. auto.
    + exfalso. apply Hn. exists k1, e1. auto.
    + by eapply Hd.
  - rewrite map_size_insert_None by done. lia.
Qed.

(** The map after the eviction a full store makes: nothing, or one entry less. *)
Definition evicted (m m0 : UuidMap) : Prop :=
  (Z.of_nat (size m) < MAX_VOLDATA_SLOT_COUNT /\ m0 = m) \/
  (Z.of_nat (size m) = MAX_VOLDATA_SLOT_COUNT /\
   exists k e, m !! k = Some e /\ ve_slotIndex e = 1 /\ m0 = delete k m).

Lemma evicted_facts m m0 :
  MapInv m -> evicted m m0 -> MapInv m0 /\ Z.of_nat (size m0) < MAX_VOLDATA_SLOT_COUNT /\ m0 ⊆ m.
Proof.
  intros HI [[Hs ->]|[Hs (k & e & Hk & _ & ->)]]; [done|]. split_and!.
  - by apply MapInv_delete.
  - rewrite map_size_delete_Some by (by exists e). unfold MAX_VOLDATA_SLOT_COUNT in *. lia.
  - apply delete_subseteq.
Qed.

(** A full well-formed store uses every slot, so slot 1 is the one evicted. *)
Lemma full_uses_slot_one m :
  MapInv m -> Z.of_nat (size m) = MAX_VOLDATA_SLOT_COUNT -> slot_used 1 m.
Proof.
  intros (Hf & Hd & _) Hs. destruct (decide (Exists (fun p => ve_slotIndex p.2 = 1) (map_to_list m))) as [Hex|Hn].
  - apply Exists_exists in Hex as ([k e] & Hin & He). apply elem_of_map_to_list in Hin. by exists k, e.
  - exfalso. assert (Hl : (List.length (map_to_list m) <= List.length (seqZ 2 999))%nat).
    { rewrite <- (length_fmap (fun p => ve_slotIndex p.2)). apply submseteq_length, NoDup_submseteq.
      - apply NoDup_fmap_2_strong; [|apply NoDup_map_to_list].
        intros [k1 e1] [k2 e2] H1 H2 He. apply elem_of_map_to_list in H1, H2. simpl in He.
        pose proof (Hd _ _ _ _ H1 H2 He). subst. congruence.
      - intros s ([k e] & -> & Hin)%list_elem_of_fmap. simpl. apply elem_of_seqZ.
        rewrite <- Forall_Exists_neg in Hn. rewrite Forall_forall in Hn. specialize (Hn _ Hin). simpl in Hn.
        apply elem_of_map_to_list in Hin. destruct (Hf _ _ Hin) as (_ & _ & _ & Hr & _).
        unfold MAX_VOLDATA_SLOT_COUNT in Hr. lia. }
    rewrite length_map_to_list, length_seqZ in Hl. unfold MAX_VOLDATA_SLOT_COUNT in Hs. lia.
Qed.

Lemma AllocateNextSlotLocked_spec st slot st' :
  AllocateNextSlotLocked st = (slot, st') -> MapInv (v_map st) ->
  evicted (v_map st) (v_map st') /\ v_initialized st' = v_initialized st /\
  v_jsonFilePath st' = v_jsonFilePath st /\ v_files st' = v_files st /\ v_hist st' = v_hist st /\
  1 <= slot <= MAX_VOLDATA_SLOT_COUNT /\ ~ slot_used slot (v_map st') /\
  (forall s, 1 <= s < slot -> slot_used s (v_map st')).
Proof.
  intros Hrun HI. unfold AllocateNextSlotLocked, sbind, sget in Hrun.
  set (pairs := umap_iter (v_env st) (v_map st)) in Hrun.
  assert (Hev : evicted (v_map st) (if MAX_VOLDATA_SLOT_COUNT <=? Z.of_nat (size (v_map st))
                                    then EvictSlotOneIfFullLocked pairs (v_map st) else v_map st)).
  { destruct (Z.leb_spec MAX_VOLDATA_SLOT_COUNT (Z.of_nat (size (v_map st)))); [|by left].
    assert (Hs : Z.of_nat (size (v_map st)) = MAX_VOLDATA_SLOT_COUNT) by (destruct HI as (_ & _ & ?); lia).
    destruct (EvictSlotOneIfFullLocked_spec pairs (v_map st)) as [[? _]|(_ & k & e & Hk & He & H1)];
      [apply umap_iter_perm|lia|]. right. split; [done|]. exists k, e. split_and!; [done| |done].
    by apply H1, full_uses_slot_one. }
  set (m0 := if _ <=? _ then _ else _) in Hev.
  assert (Hst : (if MAX_VOLDATA_SLOT_COUNT <=? Z.of_nat (size (v_map st))
                 then v_set_map (EvictSlotOneIfFullLocked pairs (v_map st)) else sret tt) st
          = (tt, mkVState m0 (v_initialized st) (v_jsonFilePath st) (v_files st) (v_hist st) (v_env st))).
  { unfold m0. destruct (_ <=? _); [done|]. by destruct st. }
  rewrite Hst in Hrun. injection Hrun as <- <-. simpl.
  destruct (evicted_facts _ _ HI Hev) as (_ & Hlt & _).
  split_and!; [done..| | | |]; by apply (FindMinimumFreeSlotLocked_spec _ m0 (umap_iter_perm _ _) Hlt).
Qed.

(** What the main file holds reloads to the map in memory. *)
Definition saved (st : VState E) : Prop :=
  exists text, v_files st !! MAIN_FILE = Some text /\ load_text text ∅ = Some (v_map st).

(** The common end of the three mutating operations: install the new map, save,
    and roll back when the save fails. *)
Lemma save_or_rollback m' backup (A : Type) (onfail onok : Z -> A) st ret st' :
  (do! v_set_map m' in
   let! saveRet := SaveToFile in
   if negb (saveRet =? E_OK) then do! v_set_map backup in sret (onfail saveRet) else sret (onok saveRet)) st = (ret, st') ->
  Inv st -> v_initialized st = true -> MapInv m' -> MapInv backup ->
  Inv st' /\ v_initialized st' = true /\
  (ret = onok (errno E_OK) /\ v_map st' = m' /\ saved st' \/
   ret = onfail (errno DISK_MGR_ERR) /\ v_map st' = backup /\ v_files st' !! MAIN_FILE = v_files st !! MAIN_FILE).
Proof.
  intros Hrun HI Hinit Hm' Hb. pose proof HI as (_ & _ & _ & Hpath). specialize (Hpath Hinit).
  unfold sbind in Hrun. change (v_set_map m' st) with (tt, (v_set_map m' st).2) in Hrun. cbv beta iota in Hrun.
  destruct (SaveToFile _) as [sr s2] eqn:Hs.
  apply SaveToFile_inv in Hs as (HI2 & (Hc1 & Hc2 & Hc3) & Hr); [|done|by apply Inv_set_map].
  simpl in Hc1, Hc2, Hc3. destruct Hr as [[-> (text & Ht & Hl)]|[-> Hf]]; simpl in Hrun; injection Hrun as <- <-.
  - split_and!; [done|congruence|]. left. split_and!; [done..|]. exists text. split; [done|]. rewrite Hl. simpl. congruence.
  - split_and!; [by apply (Inv_set_map backup s2)|simpl; congruence|]. right. by split_and!.
Qed.

Definition ascii_uuid (u : string) : Prop := sforall is_ascii7 u = true.

(** What [ResolveMountPath] does to an initialised store, on every branch. *)
Definition resolve_post (u : string) (st : VState E) (r : Z * option string * bool) (st' : VState E) : Prop :=
  match v_map st !! u with
  | Some e => st' = st /\ r = (errno E_OK, Some (ve_mountPath e), false)
  | None =>
      (exists m0 slot, evicted (v_map st) m0 /\ 1 <= slot <= MAX_VOLDATA_SLOT_COUNT /\
         ~ slot_used slot m0 /\ (forall s, 1 <= s < slot -> slot_used s m0) /\
         v_map st' = <[u := mkVoldataUuidEntry u (BuildMountPathForSlot slot) slot]> m0 /\ saved st' /\
         r = (errno E_OK, Some (BuildMountPathForSlot slot), true)) \/
      (v_map st' = v_map st /\ v_files st' !! MAIN_FILE = v_files st !! MAIN_FILE /\
         r = (errno DISK_MGR_ERR, None, false))
  end.

Lemma Resolve_run u st r st' :
  Voldata_ResolveMountPath u st = (r, st') -> Inv st -> v_initialized st = true -> IsUuidValid u = true -> ascii_uuid u ->
  Inv st' /\ v_initialized st' = true /\ resolve_post u st r st'.
Proof.
  intros Hrun HI Hinit Hv Ha. unfold Voldata_ResolveMountPath in Hrun. rewrite Hv in Hrun. simpl in Hrun.
  unfold sbind at 1 in Hrun. destruct (Voldata_Init st) as [ir s0] eqn:Hin.
  apply Init_spec in Hin as (_ & Hs0 & _); [|done]. destruct (Hs0 Hinit) as [-> ->]. simpl in Hrun. clear Hs0.
  unfold sbind at 1, sget at 1 in Hrun. unfold resolve_post.
  destruct (v_map st !! u) as [e|] eqn:Hu; [by injection Hrun as <- <-|].
  unfold sbind at 1 in Hrun. destruct (AllocateNextSlotLocked st) as [slot s1] eqn:Hal.
  pose proof HI as (Hm & _).
  apply AllocateNextSlotLocked_spec in Hal as (Hev & Hi1 & Hp1 & Hf1 & Hh1 & Hr & Hn & Hmin); [|done].
  destruct (evicted_facts _ _ Hm Hev) as (Hm1 & Hsz1 & Hsub).
  assert (Hu1 : v_map s1 !! u = None) by (by eapply lookup_weaken_None).
  assert (HI1 : Inv s1). { destruct HI as (_ & Hf & Hh & Hp). split; [done|]. rewrite Hf1, Hh1, Hi1, Hp1. done. }
  unfold sbind at 1, sget at 1 in Hrun.
  apply (save_or_rollback _ (v_map st) _ (fun r => (r, None, false))
           (fun _ => (errno E_OK, Some (BuildMountPathForSlot slot), true))) in Hrun
    as (HI' & Hi' & [(-> & Hm' & Hsv)|(-> & Hm' & Hf')]); [| |done|congruence|by apply MapInv_insert|done].
  - split_and!; [done..|]. left. exists (v_map s1), slot. destruct Hr. by split_and!.
  - split_and!; [done..|]. right. split_and!; [done|congruence|done].
Qed.

Lemma Remove_run u st r st' :
  Voldata_RemoveByFsUuid u st = (r, st') -> Inv st -> v_initialized st = true -> IsUuidValid u = true ->
  Inv st' /\ v_initialized st' = true /\
  (r = errno E_OK /\ v_map st' = delete u (v_map st) /\ (v_map st !! u <> None -> saved st') \/
   r = errno DISK_MGR_ERR /\ v_map st' = v_map st /\ v_files st' !! MAIN_FILE = v_files st !! MAIN_FILE).
Proof.
  intros Hrun HI Hinit Hv. unfold Voldata_RemoveByFsUuid in Hrun. rewrite Hv in Hrun. simpl in Hrun.
  unfold sbind at 1 in Hrun. destruct (Voldata_Init st) as [ir s0] eqn:Hin.
  apply Init_spec in Hin as (_ & Hs0 & _); [|done]. destruct (Hs0 Hinit) as [-> ->]. simpl in Hrun. clear Hs0.
  unfold sbind at 1, sget at 1 in Hrun. destruct (v_map st !! u) as [e|] eqn:Hu.
  - pose proof HI as (Hm & _).
    apply (save_or_rollback _ (v_map st) _ (fun r => r) (fun _ => errno E_OK)) in Hrun
      as (HI' & Hi' & [(-> & Hm' & Hsv)|(-> & Hm' & Hf')]); [| |done..|by apply MapInv_delete|done].
    + split_and!; [done..|]. left. by split_and!.
    + split_and!; [done..|]. right. by split_and!.
  - injection Hrun as <- <-. split_and!; [done..|]. left. split_and!; [done|by rewrite delete_id|done].
Qed.

Lemma MapInv_rename old new e m :
  MapInv m -> m !! old = Some e -> m !! new = None -> IsUuidValid new = true -> ascii_uuid new ->
  MapInv (<[new := mkVoldataUuidEntry new (ve_mountPath e) (ve_slotIndex e)]> (delete old m)).
Proof.
  intros HI Ho Hn Hv Ha. pose proof HI as (Hf & Hd & Hs).
  destruct (Hf _ _ Ho) as (_ & _ & _ & Hr & Hp). rewrite Hp. apply MapInv_insert.
  - by apply MapInv_delete.
  - by rewrite lookup_delete_ne by congruence.
  - done.
  - done.
  - done.
  - intros (k & e' & [Hk He']%lookup_delete_Some & Hse). apply Hk. by eapply Hd.
  - rewrite map_size_delete_Some by (by exists e). assert (size m <> 0%nat); [|lia].
    intros Hz%map_size_empty_inv. by rewrite Hz in Ho.
Qed.

Lemma Replace_run old new st r st' :
  Voldata_ReplaceFsUuid old new st = (r, st') -> Inv st -> v_initialized st = true ->
  IsUuidValid old = true -> IsUuidValid new = true -> ascii_uuid new -> old <> new ->
  Inv st' /\ v_initialized st' = true /\
  match v_map st !! old, v_map st !! new with
  | None, _ => r = errno E_OK /\ st' = st
  | Some _, Some _ => r = errno DISK_MGR_ERR /\ st' = st
  | Some e, None =>
      (r = errno E_OK /\ saved st' /\
       v_map st' = <[new := mkVoldataUuidEntry new (ve_mountPath e) (ve_slotIndex e)]> (delete old (v_map st))) \/
      (r = errno DISK_MGR_ERR /\ v_map st' = v_map st)
  end.
Proof.
  intros Hrun HI Hinit Ho Hn Ha Hne. unfold Voldata_ReplaceFsUuid in Hrun. rewrite Ho, Hn in Hrun. simpl in Hrun.
  rewrite (proj2 (str_eqb_false old new) Hne) in Hrun.
  unfold sbind at 1 in Hrun. destruct (Voldata_Init st) as [ir s0] eqn:Hin.
  apply Init_spec in Hin as (_ & Hs0 & _); [|done]. destruct (Hs0 Hinit) as [-> ->]. simpl in Hrun. clear Hs0.
  unfold sbind at 1, sget at 1 in Hrun. destruct (v_map st !! old) as [e|] eqn:Hu; [|by injection Hrun as <- <-].
  destruct (v_map st !! new) as [e'|] eqn:Hu'; [by injection Hrun as <- <-|].
  pose proof HI as (Hm & _).
  apply (save_or_rollback _ (v_map st) _ (fun r => r) (fun _ => errno E_OK)) in Hrun
    as (HI' & Hi' & [(-> & Hm' & Hsv)|(-> & Hm' & Hf')]); [| |done..|by apply MapInv_rename|done].
  - split_and!; [done..|]. left. by split_and!.
  - split_and!; [done..|]. right. by split_and!.
Qed.
End facts.

(** ** Operations as a whole *)
Inductive VOp : Type :=
  | VInit | VUnInit | VResolve (u : string) | VRemove (u : string) | VReplace (old new : string) | VTryGet (u : string).
Definition vop_ascii (o : VOp) : Prop :=
  match o with
  | VResolve u => ascii_uuid u
  | VReplace _ new => ascii_uuid new
  | _ => True
  end.
Definition run_vop {E} `{FsEnv E} `{JsonText} (o : VOp) : State (VState E) unit :=
  match o with
  | VInit => do! Voldata_Init in sret tt
  | VUnInit => do! Voldata_UnInit in sret tt
  | VResolve u => do! Voldata_ResolveMountPath u in sret tt
  | VRemove u => do! Voldata_RemoveByFsUuid u in sret tt
  | VReplace a b => do! Voldata_ReplaceFsUuid a b in sret tt
  | VTryGet u => do! Voldata_TryGetMountPath u in sret tt
  end.
(** Reachable states: any sequence of operations from a process just started
    over any files whose content loads to a well-formed map (none at first
    boot). *)
Inductive vreach {E} `{FsEnv E} `{JsonText} : VState E -> Prop :=
  | vreach_start files env : FileInv files -> vreach (mkVState ∅ false "" files [files] env)
  | vreach_step st o : vreach st -> vop_ascii o -> vreach (run_vop o st).2.

(** ** Concrete environments for the examples *)
Definition fs_always : FsEnv unit := {|
  fs_answer := fun _ _ => (true, tt);
  fs_partial := fun _ _ => "";
  umap_iter := fun _ m => map_to_list m;
  umap_iter_perm := fun _ m => Permutation_refl _;
|}.
(** The environment counts calls; the rename of call [n] fails. *)
Definition fs_fail_at (n : nat) : FsEnv nat := {|
  fs_answer := fun k _ => (negb (k =? n)%nat, S k);
  fs_partial := fun _ s => stake 3 s;
  umap_iter := fun _ m => map_to_list m;
  umap_iter_perm := fun _ m => Permutation_refl _;
|}.

Section theorems.
Context {E : Type} {FS : FsEnv E} {JT : JsonText}.
Implicit Types st : VState E.

(** An operation that starts with [Init] keeps the invariant if it does so on
    the stores [Init] leaves. *)
Lemma init_guard_inv {A} (fail : Z -> A) (body : State (VState E) A) st :
  let m := let! initRet := Voldata_Init in
           if negb (initRet =? E_OK) then sret (fail initRet) else body in
  (forall s, Inv s -> v_initialized s = true -> Inv (m s).2) -> Inv st -> Inv (m st).2.
Proof.
  cbv zeta. intros Hm HI. unfold sbind. destruct (Voldata_Init st) as [r s] eqn:Hr.
  apply Init_spec in Hr as (HIs & _ & Hok & _); [|done].
  destruct (r =? E_OK) eqn:He; [|done]. bsimp. specialize (Hok He). specialize (Hm s HIs Hok).
  unfold sbind in Hm. assert (Hid : Voldata_Init s = (errno E_OK, s)).
  { unfold Voldata_Init, sbind, sget. by rewrite Hok. }
  by rewrite Hid in Hm.
Qed.

Lemma state_snd_bind_unit {S A} (m : State S A) s : ((do! m in sret tt) s).2 = (m s).2.
Proof. unfold sbind. by destruct (m s). Qed.

Lemma run_vop_inv o st : Inv st -> vop_ascii o -> Inv (run_vop o st).2.
Proof.
  intros HI Ha. destruct o as [| |u|u|a b|u]; simpl; rewrite state_snd_bind_unit.
  - destruct (Voldata_Init st) as [r s] eqn:Hr. by apply Init_spec in Hr as [? _].
  - unfold Voldata_UnInit, sbind, sget. destruct (v_initialized st); [|done]. simpl.
    destruct HI as (_ & ? & ? & _). split_and!; simpl; [apply MapInv_empty|done..].
  - pose proof (Resolve_run u) as HR. unfold Voldata_ResolveMountPath in *. destruct (IsUuidValid u); [|done].
    apply (init_guard_inv (fun r => (r, None, false))); [|done]. intros s HIs Hi. apply (HR s _ _ (surjective_pairing _)); done.
  - pose proof (Remove_run u) as HR. unfold Voldata_RemoveByFsUuid in *. destruct (IsUuidValid u); [|done].
    apply (init_guard_inv (fun r => r)); [|done]. intros s HIs Hi. apply (HR s _ _ (surjective_pairing _)); done.
  - pose proof (Replace_run a b) as HR. unfold Voldata_ReplaceFsUuid in *. destruct (IsUuidValid a); [|done].
    destruct (IsUuidValid b); [|done]. destruct (str_eqb_spec a b); [done|].
    apply (init_guard_inv (fun r => r)); [|done]. intros s HIs Hi. apply (HR s _ _ (surjective_pairing _)); done.
  - unfold Voldata_TryGetMountPath. by destruct (negb (IsUuidValid u)).
Qed.

Lemma vreach_inv st : vreach st -> Inv st.
Proof.
  induction 1 as [files env Hf|st o _ IH Ha]; [|by apply run_vop_inv].
  split_and!; [apply MapInv_empty|done|by constructor|done].
Qed.

(** C12: In every state the store reaches from files that load to well-formed mappings if they load at
    all, by any operations that resolve or rename to ASCII uuids only, whatever the file
    system answers: at most 1000 mappings, every mapping is keyed by
    its own valid uuid and names the path of its own slot, distinct uuids never
    share a mount path, and whatever the files held at any moment of the run
    loads back to such a map. (Files that were not written by the store can give two uuids one
    slot, [load_items_accepts_shared_slot]; bytes of a uuid that are no UTF-8 are replaced when it is saved.) *)
Theorem voldata_reachable_invariant st :
  vreach st ->
  Z.of_nat (size (v_map st)) <= MAX_VOLDATA_SLOT_COUNT /\
  (forall u e, v_map st !! u = Some e ->
     ve_fsUuid e = u /\ IsUuidValid u = true /\ ve_mountPath e = BuildMountPathForSlot (ve_slotIndex e) /\
     1 <= ve_slotIndex e <= MAX_VOLDATA_SLOT_COUNT) /\
  (forall u1 u2 e1 e2, v_map st !! u1 = Some e1 -> v_map st !! u2 = Some e2 ->
     ve_mountPath e1 = ve_mountPath e2 -> u1 = u2) /\
  Forall FileInv (v_hist st).
Proof.
  intros ((Hf & Hd & Hs) & _ & Hh & _)%vreach_inv. split_and!; [done| | |done].
  - intros u e (? & ? & _ & ? & ?)%Hf. auto.
  - intros u1 u2 e1 e2 H1 H2 He.
    destruct (Hf _ _ H1) as (_ & _ & _ & _ & Hp1). destruct (Hf _ _ H2) as (_ & _ & _ & _ & Hp2).
    apply (Hd _ _ _ _ H1 H2). rewrite Hp1, Hp2 in He. unfold BuildMountPathForSlot in He.
    apply sapp_inj_r in He. by apply to_string_inj in He.
Qed.

(** ResolveMountPath on an initialised store, on every branch: a known uuid
    gets its stored path and nothing changes; a new uuid gets the least slot free
    after at most one eviction (of slot 1, and only when all 1000 are taken) and
    is on disk when the call returns OK; when the save fails the map and the file
    are what they were. *)
Theorem ResolveMountPath_spec u st :
  vreach st -> v_initialized st = true -> IsUuidValid u = true -> ascii_uuid u ->
  wp (Voldata_ResolveMountPath u) (resolve_post u st) st.
Proof.
  intros HI%vreach_inv Hi Hv Ha. unfold wp.
  apply (Resolve_run u st _ _ (surjective_pairing _)); done.
Qed.

(** A uuid resolved with success resolves to the same path again, without
    creating anything and without touching the state. *)
Theorem ResolveMountPath_idempotent u st :
  vreach st -> v_initialized st = true -> IsUuidValid u = true -> ascii_uuid u ->
  wp (Voldata_ResolveMountPath u) (fun r st' =>
    r.1.1 = errno E_OK ->
    exists path, r.1.2 = Some path /\ Voldata_ResolveMountPath u st' = ((errno E_OK, Some path, false), st') /\
                 Voldata_TryGetMountPath u st' = (Some path, st')) st.
Proof.
  intros HI%vreach_inv Hi Hv Ha. unfold wp.
  destruct (Voldata_ResolveMountPath u st) as [r s] eqn:Hr. apply Resolve_run in Hr as (HI' & Hi' & Hpost); [|done..].
  assert (Hg : forall e, v_map s !! u = Some e ->
    Voldata_ResolveMountPath u s = ((errno E_OK, Some (ve_mountPath e), false), s) /\
    Voldata_TryGetMountPath u s = (Some (ve_mountPath e), s)).
  { intros e He. destruct (Voldata_ResolveMountPath u s) as [r2 s2] eqn:Hr2.
    apply Resolve_run in Hr2 as (_ & _ & Hp2); [|done..]. unfold resolve_post in Hp2. rewrite He in Hp2.
    destruct Hp2 as [-> ->]. split; [done|]. unfold Voldata_TryGetMountPath, sbind, sget, sret. rewrite Hv. simpl. by rewrite He. }
  simpl. unfold resolve_post in Hpost. intros Hok. destruct (v_map st !! u) as [e|] eqn:Hu.
  - destruct Hpost as [-> ->]. exists (ve_mountPath e). split; [done|]. by apply Hg.
  - destruct Hpost as [(m0 & slot & _ & _ & _ & _ & Hm & _ & ->)|(_ & _ & ->)]; [|done].
    eexists. split; [done|]. apply (Hg (mkVoldataUuidEntry u (BuildMountPathForSlot slot) slot)).
    rewrite Hm. apply lookup_insert_eq.
Qed.

(** ReplaceFsUuid moves the mapping: on success the new uuid has the old one's
    path, the old uuid is unknown, every other mapping is untouched and the file
    holds the result; on failure the map is unchanged. *)
Theorem ReplaceFsUuid_spec old new e st :
  vreach st -> v_initialized st = true -> IsUuidValid old = true -> IsUuidValid new = true -> ascii_uuid new ->
  v_map st !! old = Some e -> v_map st !! new = None ->
  wp (Voldata_ReplaceFsUuid old new) (fun r st' =>
    (r = errno E_OK /\ saved st' /\
     ve_mountPath <$> v_map st' !! new = Some (ve_mountPath e) /\ v_map st' !! old = None /\
     forall k, k <> old -> k <> new -> v_map st' !! k = v_map st !! k) \/
    (r = errno DISK_MGR_ERR /\ v_map st' = v_map st)) st.
Proof.
  intros HI%vreach_inv Hi Hvo Hvn Ha Ho Hn. assert (Hne : old <> new) by congruence. unfold wp.
  destruct (Voldata_ReplaceFsUuid old new st) as [r s] eqn:Hr.
  apply Replace_run in Hr as (_ & _ & Hpost); [|done..]. rewrite Ho, Hn in Hpost. simpl.
  destruct Hpost as [(-> & Hs & Hm)|[-> Hm]]; [left|by right]. rewrite Hm. split_and!; [done|done| | |].
  - by rewrite lookup_insert_eq.
  - by rewrite lookup_insert_ne, lookup_delete_eq.
  - intros k H1 H2. by rewrite lookup_insert_ne, lookup_delete_ne.
Qed.

(** RemoveByFsUuid forgets exactly the given uuid, or fails and changes
    nothing. *)
Theorem RemoveByFsUuid_spec u st :
  vreach st -> v_initialized st = true -> IsUuidValid u = true ->
  wp (Voldata_RemoveByFsUuid u) (fun r st' =>
    r = errno E_OK /\ v_map st' = delete u (v_map st) \/
    r = errno DISK_MGR_ERR /\ v_map st' = v_map st /\ v_files st' !! MAIN_FILE = v_files st !! MAIN_FILE) st.
Proof.
  intros HI%vreach_inv Hi Hv. unfold wp. destruct (Voldata_RemoveByFsUuid u st) as [r s] eqn:Hr.
  apply Remove_run in Hr as (_ & _ & Hpost); [|done..]. naive_solver.
Qed.

(** C17: Crash atomicity of a save: after every single change the save makes to the
    disk, the main file holds its previous content or the complete new text,
    never a part of it. *)
Theorem SaveToFile_crash_atomic st :
  wp SaveToFile (fun ret st' =>
    exists snaps pairs, pairs ≡ₚ map_to_list (v_map st) /\ v_hist st' = snaps ++ v_hist st /\
    let old := v_files st !! v_jsonFilePath st in
    let new := Some (json_dump (store_json pairs)) in
    Forall (fun f => f !! v_jsonFilePath st = old \/ f !! v_jsonFilePath st = new) snaps /\
    (if ret =? E_OK then v_files st' !! v_jsonFilePath st = new else v_files st' !! v_jsonFilePath st = old)) st.
Proof.
  unfold wp. destruct (SaveToFile st) as [ret st'] eqn:Hr.
  apply SaveToFile_spec in Hr as (pairs & Hp & _ & _ & (snaps & Hh & Hall) & Hret). exists snaps, pairs.
  split_and!; [done|done| |].
  - eapply Forall_impl; [exact Hall|]. by intros f [? _].
  - simpl. destruct Hret as [[-> Hf]|[-> Hf]]; done.
Qed.

(** Persistence: after a successful Resolve, Remove or Replace ([saved]), a new
    process that can read the file starts with the same mapping. *)
Theorem voldata_restart st :
  vreach st -> saved st ->
  (forall env op, op = FsExists MAIN_FILE \/ op = FsOpenRead MAIN_FILE -> (fs_answer env op).1 = true) ->
  forall env, wp Voldata_Init (fun ret st' => ret = errno E_OK /\ v_map st' = v_map st)
                 (mkVState ∅ false "" (v_files st) [] env).
Proof.
  intros HI%vreach_inv (text & Hf & Hl) Hok env. unfold wp.
  assert (Hload : forall env', exists env'', LoadJsonFromPath MAIN_FILE (mkVState ∅ false MAIN_FILE (v_files st) [] env')
            = (errno E_OK, mkVState (v_map st) false MAIN_FILE (v_files st) [] env'')).
  { intros env'. unfold LoadJsonFromPath, fs_read, fs_call, sbind, sget, sret. simpl.
    specialize (Hok env' (FsOpenRead MAIN_FILE) (or_intror eq_refl)).
    destruct (fs_answer env' _) as [b env2]. simpl in *. subst b. rewrite Hf. simpl. rewrite Hl. simpl. eauto. }
  assert (Hlf : exists s2, LoadFromFile (mkVState ∅ false MAIN_FILE (v_files st) [] env) = (errno E_OK, s2) /\ v_map s2 = v_map st).
  { unfold LoadFromFile. cbv [sbind sget sret v_set_map smodify]. cbn [v_map v_initialized v_jsonFilePath v_files v_hist v_env].
    assert (Hex : exists e1, fs_exists MAIN_FILE (mkVState ∅ false MAIN_FILE (v_files st) [] env)
                  = (true, mkVState ∅ false MAIN_FILE (v_files st) [] e1)).
    { unfold fs_exists, fs_call, sbind, sget, sret. simpl.
      specialize (Hok env (FsExists MAIN_FILE) (or_introl eq_refl)).
      destruct (fs_answer env _) as [b e1]. simpl in *. subst b. rewrite Hf. eauto. }
    destruct Hex as [e1 ->]. cbv beta iota delta [negb]. destruct (Hload e1) as [e2 ->].
    change (errno E_OK =? errno E_OK) with true. cbv beta iota.
    change (MAIN_FILE +:+ BACKUP_FILE_SUFFIX) with BACKUP_FILE.
    destruct (fs_exists BACKUP_FILE _) as [be s3] eqn:Hb. apply fs_exists_spec in Hb as [e3 ->]. simpl.
    destruct be; simpl; [eauto|].
    match goal with |- context [SaveToFile ?x] => set (x1 := x) end.
    destruct (SaveToFile x1) as [sr s4] eqn:Hs. apply SaveToFile_spec in Hs as (? & _ & (Hc & _) & _).
    exists s4. split; [done|]. by rewrite Hc. }
  destruct Hlf as (s2 & Hrun & Hm).
  cbv [Voldata_Init sbind sget sret v_set_jsonFilePath v_set_initialized smodify].
  cbn [v_map v_initialized v_jsonFilePath v_files v_hist v_env].
  change (DISK_MANAGER_DATA_PATH +:+ VOLDATA_UUID_MAPPING_JSON) with MAIN_FILE.
  rewrite Hrun. simpl. done.
Qed.
End theorems.

(** ** Witnesses: a store over working files, with two uuids resolved *)
Definition ex_start : VState unit := mkVState ∅ false "" ∅ [∅] tt.
Definition ex_run (o : VOp) (st : VState unit) : VState unit := (@run_vop unit fs_always coded_json o st).2.
Definition ex_st : VState unit := ex_run (VResolve "1234-ABCD") ex_start.

Lemma ex_start_reach : @vreach unit fs_always coded_json ex_start.
Proof. apply vreach_start. intros q c _ H. by rewrite lookup_empty in H. Qed.
Lemma ex_st_reach : @vreach unit fs_always coded_json ex_st.
Proof. apply (@vreach_step unit fs_always coded_json); [apply ex_start_reach|reflexivity]. Qed.

Lemma voldata_reachable_invariant_witness :
  v_map ex_st !! "1234-ABCD" = Some (mkVoldataUuidEntry "1234-ABCD" "/mnt/data/voldata/data1" 1) /\
  Z.of_nat (size (v_map ex_st)) <= MAX_VOLDATA_SLOT_COUNT.
Proof.
  split; [vm_compute; reflexivity|].
  exact (proj1 (@voldata_reachable_invariant unit fs_always coded_json ex_st ex_st_reach)).
Defined.

Lemma ResolveMountPath_spec_witness :
  v_initialized ex_st = true /\
  wp (@Voldata_ResolveMountPath unit fs_always coded_json "5678") (@resolve_post unit coded_json "5678" ex_st) ex_st /\
  (@Voldata_ResolveMountPath unit fs_always coded_json "5678" ex_st).1 = (errno E_OK, Some "/mnt/data/voldata/data2", true).
Proof.
  split_and!; [vm_compute; reflexivity| |vm_compute; reflexivity].
  apply (@ResolveMountPath_spec unit fs_always coded_json "5678" ex_st ex_st_reach); vm_compute; reflexivity.
Defined.

Lemma ResolveMountPath_idempotent_witness :
  (@Voldata_ResolveMountPath unit fs_always coded_json "5678" ex_st).1.1.1 = errno E_OK /\
  exists path, (@Voldata_ResolveMountPath unit fs_always coded_json "5678" ex_st).1.1.2 = Some path.
Proof.
  assert (H : (@Voldata_ResolveMountPath unit fs_always coded_json "5678" ex_st).1.1.1 = errno E_OK)
    by (vm_compute; reflexivity).
  split; [exact H|].
  destruct (@ResolveMountPath_idempotent unit fs_always coded_json "5678" ex_st ex_st_reach
              ltac:(vm_compute; reflexivity) ltac:(vm_compute; reflexivity) ltac:(vm_compute; reflexivity) H) as (path & Hp & _).
  exact (ex_intro _ path Hp).
Defined.

Lemma ReplaceFsUuid_spec_witness :
  (@Voldata_ReplaceFsUuid unit fs_always coded_json "1234-ABCD" "new" ex_st).1 = errno E_OK /\
  exists e, v_map ex_st !! "1234-ABCD" = Some e /\
  wp (@Voldata_ReplaceFsUuid unit fs_always coded_json "1234-ABCD" "new") (fun r st' =>
      (r = errno E_OK /\ @saved unit coded_json st' /\
       ve_mountPath <$> v_map st' !! "new" = Some (ve_mountPath e) /\ v_map st' !! "1234-ABCD" = None /\
       forall k, k <> "1234-ABCD" -> k <> "new" -> v_map st' !! k = v_map ex_st !! k) \/
      (r = errno DISK_MGR_ERR /\ v_map st' = v_map ex_st)) ex_st.
Proof.
  split; [vm_compute; reflexivity|].
  exists (mkVoldataUuidEntry "1234-ABCD" "/mnt/data/voldata/data1" 1). split; [vm_compute; reflexivity|].
  apply (@ReplaceFsUuid_spec unit fs_always coded_json "1234-ABCD" "new" _ ex_st ex_st_reach); vm_compute; reflexivity.
Defined.

Lemma RemoveByFsUuid_spec_witness :
  wp (@Voldata_RemoveByFsUuid unit fs_always coded_json "1234-ABCD") (fun r st' =>
      r = errno E_OK /\ v_map st' = delete "1234-ABCD" (v_map ex_st) \/
      r = errno DISK_MGR_ERR /\ v_map st' = v_map ex_st /\ v_files st' !! MAIN_FILE = v_files ex_st !! MAIN_FILE) ex_st.
Proof. apply (@RemoveByFsUuid_spec unit fs_always coded_json "1234-ABCD" ex_st ex_st_reach); vm_compute; reflexivity. Defined.

Lemma voldata_restart_witness :
  @saved unit coded_json ex_st /\
  wp (@Voldata_Init unit fs_always coded_json) (fun ret st' => ret = errno E_OK /\ v_map st' = v_map ex_st)
     (mkVState ∅ false "" (v_files ex_st) [] tt).
Proof.
  assert (Hs : @saved unit coded_json ex_st).
  { exists (default "" (v_files ex_st !! MAIN_FILE)). split; vm_compute; reflexivity. }
  split; [exact Hs|].
  exact (@voldata_restart unit fs_always coded_json ex_st ex_st_reach Hs (fun _ _ _ => eq_refl) tt).
Defined.

(** Only the loader can break the one-path-per-uuid invariant: it checks each
    item on its own, so a file in which two uuids name one slot loads as such. *)
Theorem load_items_accepts_shared_slot :
  let item u p := JObj [("fsUuid", JStr u); ("mountPath", JStr p)] in
  let m := load_items [item "A" "/mnt/data/voldata/data7"; item "B" "/mnt/data/voldata/data007"] ∅ in
  ve_slotIndex <$> m !! "A" = Some 7 /\ ve_slotIndex <$> m !! "B" = Some 7 /\ ~ MapInv m.
Proof.
  cbv zeta. split_and!; [vm_compute; reflexivity..|]. intros (_ & Hd & _).
  assert ("A" = "B"); [|done].
  eapply Hd; [vm_compute; reflexivity..|]. done.
Qed.
