(* ===== verification/VoldataSpec.v ===== *)
(** * What the uuid store promises: the abstract machine

    The store seen by its clients: whether it has been initialised and which slot
    each uuid holds. The iteration order of the unordered map, the two files, the
    temporary ones and the rollback are not visible here: [VoldataRefine] proves
    that the code of [Voldata] implements this machine, across crashes and
    restarts. *)
From S2P Require Import Prelude CppString Types Utils State Json Voldata VoldataFacts.

Notation Slots := (gmap string Z).
Record AStore : Type := mkAStore { a_up : bool; a_slots : Slots }.

(** What a caller gets back: the return code, the outputs of [ResolveMountPath]
    (code, path, created), or the path of [TryGetMountPath]. *)
Inductive VAnswer : Type :=
  | AnsRet (ret : Z)
  | AnsResolve (ret : Z) (path : option string) (created : bool)
  | AnsPath (path : option string).

(** The operations of the code, with their answers. *)
Definition call_vop {E} `{FsEnv E} `{JsonText} (o : VOp) : State (VState E) VAnswer :=
  match o with
  | VInit => let! r := Voldata_Init in sret (AnsRet r)
  | VUnInit => let! r := Voldata_UnInit in sret (AnsRet r)
  | VResolve u => let! r := Voldata_ResolveMountPath u in sret (AnsResolve r.1.1 r.1.2 r.2)
  | VRemove u => let! r := Voldata_RemoveByFsUuid u in sret (AnsRet r)
  | VReplace a b => let! r := Voldata_ReplaceFsUuid a b in sret (AnsRet r)
  | VTryGet u => let! r := Voldata_TryGetMountPath u in sret (AnsPath r)
  end.

(** ** The slots *)
Definition used_slots (s : Slots) : gset Z := map_img s.
Definition least_free (s : Slots) : Z :=
  default 1 (snd <$> list_find (fun n => n ∉ used_slots s) (seqZ 1 MAX_VOLDATA_SLOT_COUNT)).
(** A full store gives up the holder of slot 1. *)
Definition make_room (s : Slots) : Slots :=
  if Z.of_nat (size s) <? MAX_VOLDATA_SLOT_COUNT then s else filter (fun p => p.2 <> 1) s.

(** ** The operations *)
Definition vop_valid (o : VOp) : bool :=
  match o with
  | VInit | VUnInit => true
  | VResolve u | VRemove u | VTryGet u => IsUuidValid u
  | VReplace a b => IsUuidValid a && IsUuidValid b
  end.

(** The operation done: its answer and the slots after it. *)
Definition spec_op (o : VOp) (s : Slots) : VAnswer * Slots :=
  match o with
  | VInit | VUnInit => (AnsRet (errno E_OK), s)
  | VResolve u =>
      match s !! u with
      | Some n => (AnsResolve (errno E_OK) (Some (BuildMountPathForSlot n)) false, s)
      | None => let n := least_free (make_room s) in
                (AnsResolve (errno E_OK) (Some (BuildMountPathForSlot n)) true, <[u := n]> (make_room s))
      end
  | VRemove u => (AnsRet (errno E_OK), delete u s)
  | VReplace a b =>
      if a =s b then (AnsRet (errno E_OK), s)
      else match s !! a, s !! b with
           | None, _ => (AnsRet (errno E_OK), s)
           | Some _, Some _ => (AnsRet (errno DISK_MGR_ERR), s)
           | Some n, None => (AnsRet (errno E_OK), <[b := n]> (delete a s))
           end
  | VTryGet u => (AnsPath (BuildMountPathForSlot <$> s !! u), s)
  end.
(** Every operation but these brings the store up first. *)
Definition spec_up (o : VOp) (up : bool) : bool :=
  match o with
  | VUnInit => false
  | VTryGet _ => up
  | VReplace a b => if a =s b then up else true
  | _ => true
  end.
(** The answer of an operation that was not done. *)
Definition spec_fails (o : VOp) : VAnswer :=
  match o with
  | VResolve _ => AnsResolve (errno DISK_MGR_ERR) None false
  | VTryGet _ => AnsPath None
  | _ => AnsRet (errno DISK_MGR_ERR)
  end.

(** One call. [fallible]: a file-system call may fail. An operation is done
    completely, or it is refused, or it fails without any effect on the slots;
    it can fail only when the disk can and there is something to write. *)
Inductive astep (fallible : Prop) (o : VOp) (a : AStore) : VAnswer -> AStore -> Prop :=
  | as_done : vop_valid o = true ->
      astep fallible o a (spec_op o (a_slots a)).1 (mkAStore (spec_up o (a_up a)) (spec_op o (a_slots a)).2)
  | as_refused : vop_valid o = false -> astep fallible o a (spec_fails o) a
  | as_failed up : fallible -> vop_valid o = true -> spec_up o false = true -> (a_up a = true -> up = true) ->
      (a_up a = false \/ (spec_op o (a_slots a)).2 <> a_slots a) ->
      astep fallible o a (spec_fails o) (mkAStore up (a_slots a))
  | as_lookup_down u : o = VTryGet u -> a_up a = false -> astep fallible o a (AnsPath None) a.

(** What happens to the service: a call that returns, or a call the process
    does not survive, after which a new process starts on what the disk holds. *)
Inductive VEvent : Type :=
  | EvCall (o : VOp) (ans : VAnswer)
  | EvCrash (o : VOp).
Definition event_op (e : VEvent) : VOp := match e with EvCall o _ | EvCrash o => o end.

Inductive aevent (fallible : Prop) (a : AStore) : VEvent -> AStore -> Prop :=
  | ae_call o ans a' : astep fallible o a ans a' -> aevent fallible a (EvCall o ans) a'
  | ae_crash_before o : aevent fallible a (EvCrash o) (mkAStore false (a_slots a))
  | ae_crash_after o : vop_valid o = true -> aevent fallible a (EvCrash o) (mkAStore false (spec_op o (a_slots a)).2).

(** The same events on the code's state; [crash_disk]: one of the contents the
    disk had during the call. *)
Definition crash_disk {E} (st st' : VState E) (files : gmap string string) : Prop :=
  exists snaps, v_hist st' = snaps ++ v_hist st /\ (files = v_files st \/ files ∈ snaps).
Inductive cevent {E} `{FsEnv E} `{JsonText} (st : VState E) : VEvent -> VState E -> Prop :=
  | ce_call o : cevent st (EvCall o (call_vop o st).1) (call_vop o st).2
  | ce_crash o files env : crash_disk st (call_vop o st).2 files ->
      cevent st (EvCrash o) (mkVState ∅ false "" files [files] env).

(** Runs of either machine, labelled by their events. *)
Inductive steps {S L} (step : S -> L -> S -> Prop) : S -> list L -> S -> Prop :=
  | steps_nil s : steps step s [] s
  | steps_cons s l s1 ls s2 : step s l s1 -> steps step s1 ls s2 -> steps step s (l :: ls) s2.

Lemma steps_app {S L} (step : S -> L -> S -> Prop) s l1 l2 s' :
  steps step s (l1 ++ l2) s' -> exists s1, steps step s l1 s1 /\ steps step s1 l2 s'.
Proof.
  revert s. induction l1 as [|l l1 IH]; intros s Hs; cbn in Hs; [exists s; split; [constructor|done]|].
  inversion Hs as [|? ? s1 ? ? Hl Hr]; subst. apply IH in Hr as (s2 & H1 & H2). exists s2. split; [by econstructor|done].
Qed.
(** Trace inclusion from a simulation, for steps that satisfy [ok]. *)
Lemma steps_simulation {S1 S2 L} (step1 : S1 -> L -> S1 -> Prop) (step2 : S2 -> L -> S2 -> Prop)
    (R : S1 -> Prop) (abs : S1 -> S2) (ok : L -> Prop) :
  (forall s l s', R s -> ok l -> step1 s l s' -> R s' /\ step2 (abs s) l (abs s')) ->
  forall s ls s', R s -> Forall ok ls -> steps step1 s ls s' -> R s' /\ steps step2 (abs s) ls (abs s').
Proof.
  intros Hsim s ls s' HR Hok Hs. induction Hs as [s|s l s1 ls s2 Hl _ IH]; [split; [done|constructor]|].
  apply Forall_cons in Hok as [Hokl Hokls]. destruct (Hsim _ _ _ HR Hokl Hl) as [HR1 H2].
  destruct (IH HR1 Hokls). split; [done|]. by econstructor.
Qed.

(** ** The abstraction of the map in memory *)
Definition slots_of (m : UuidMap) : Slots := ve_slotIndex <$> m.

Lemma slots_of_lookup m u : slots_of m !! u = ve_slotIndex <$> m !! u.
Proof. apply lookup_fmap. Qed.
Lemma slots_of_insert m u e : slots_of (<[u := e]> m) = <[u := ve_slotIndex e]> (slots_of m).
Proof. apply fmap_insert. Qed.
Lemma slots_of_delete m u : slots_of (delete u m) = delete u (slots_of m).
Proof. apply fmap_delete. Qed.
Lemma slots_of_size m : size (slots_of m) = size m.
Proof. apply map_size_fmap. Qed.

Lemma used_slots_of m n : n ∈ used_slots (slots_of m) <-> slot_used n m.
Proof.
  unfold used_slots, slot_used. rewrite elem_of_map_img. setoid_rewrite slots_of_lookup.
  setoid_rewrite fmap_Some. naive_solver.
Qed.

Lemma slots_of_evicted m m0 : MapInv m -> evicted m m0 -> slots_of m0 = make_room (slots_of m).
Proof.
  intros (_ & Hd & _) Hev. unfold make_room. rewrite slots_of_size. destruct Hev as [[Hs ->]|[Hs (k & e & Hk & He & ->)]].
  - by rewrite (proj2 (Z.ltb_lt _ _) Hs).
  - rewrite (proj2 (Z.ltb_ge _ _)) by lia. apply map_eq. intros u. apply option_eq. intros n.
    rewrite slots_of_delete, lookup_delete_Some, map_lookup_filter_Some, slots_of_lookup, fmap_Some. simpl.
    split.
    + intros (Hne & e' & Hu & ->). split; [by eauto|]. intros H1. apply Hne. eapply Hd; [exact Hk|exact Hu|congruence].
    + intros ((e' & Hu & ->) & Hn1). split; [|by eauto]. intros ->. apply Hn1. congruence.
Qed.

Lemma least_free_unique m n :
  1 <= n <= MAX_VOLDATA_SLOT_COUNT -> ~ slot_used n m -> (forall k, 1 <= k < n -> slot_used k m) ->
  least_free (slots_of m) = n.
Proof.
  intros Hr Hn Hmin. unfold least_free.
  rewrite (proj2 (list_find_Some _ _ (Z.to_nat (n - 1)) n)); [done|]. split_and!.
  - rewrite lookup_seqZ. lia.
  - by rewrite used_slots_of.
  - intros j y [-> Hj]%lookup_seqZ Hlt. rewrite used_slots_of. intros Hy. apply Hy, Hmin. lia.
Qed.
