(* ===== verification/VoldataRefine.v ===== *)
(** * The uuid store implements its abstract machine

    The abstraction reads the disk only: [abs st] holds the slots a new process
    would load. Every operation, whether it returns or is cut by a crash at any
    of its changes to the disk, is one step of the machine of [VoldataSpec]. *)
From S2P Require Import Prelude CppString Types Utils State Json Voldata VoldataFacts VoldataSpec.

(** ** What a process loads *)
Section disk.
Context {JT : JsonText}.
Definition disk_map (files : gmap string string) : UuidMap :=
  match files !! MAIN_FILE with
  | None => ∅
  | Some c => default (default ∅ (b ← files !! BACKUP_FILE; load_text b ∅)) (load_text c ∅)
  end.
Definition disk_slots (files : gmap string string) : Slots := slots_of (disk_map files).
Definition main_loads (files : gmap string string) (m : UuidMap) : Prop :=
  exists c, files !! MAIN_FILE = Some c /\ load_text c ∅ = Some m.

Lemma main_loads_disk files m : main_loads files m -> disk_map files = m.
Proof. intros (c & Hc & Hl). unfold disk_map. by rewrite Hc, Hl. Qed.

Lemma FileInv_disk files : FileInv files -> MapInv (disk_map files).
Proof.
  intros HF. unfold disk_map. destruct (files !! MAIN_FILE) as [c|] eqn:Hc; [|apply MapInv_empty].
  destruct (load_text c ∅) as [m|] eqn:Hl; simpl; [by eapply HF; [left| |]|].
  destruct (files !! BACKUP_FILE) as [b|] eqn:Hb; simpl; [|apply MapInv_empty].
  destruct (load_text b ∅) as [m|] eqn:Hl2; simpl; [by eapply HF; [right| |]|apply MapInv_empty].
Qed.

(** A moment of a save: the disk loads to what it held or to what is saved. *)
Lemma save_step_disk text m f0 f :
  load_text text ∅ = Some m -> (exists m0, main_loads f0 m0) \/ disk_map f0 = m ->
  save_step MAIN_FILE text f0 f -> disk_map f = disk_map f0 \/ disk_map f = m.
Proof.
  intros Ht Hor [[Hm|Hm] Hb]; [|right; apply main_loads_disk; by exists text].
  destruct Hor as [(m0 & c & Hc & Hl)|<-]; [left; unfold disk_map; by rewrite Hm, Hc, Hl|left].
  change (MAIN_FILE +:+ BACKUP_FILE_SUFFIX) with BACKUP_FILE in Hb.
  unfold disk_map in *. rewrite Hm. destruct (f0 !! MAIN_FILE) as [c|]; [|done].
  destruct (load_text c ∅) as [m0|]; cbn in *; [done|].
  destruct Hb as [-> | ->]; [done|]. cbn. by rewrite Ht.
Qed.
End disk.

(** The uuids an event may take away, on purpose. *)
Definition gives_up (e : VEvent) (u : string) : Prop :=
  match event_op e with VRemove v => v = u | VReplace v _ => v = u | _ => False end.

Lemma make_room_keeps (s : Slots) u n : s !! u = Some n -> n <> 1 -> make_room s !! u = Some n.
Proof. intros Hu Hn. unfold make_room. destruct (_ <? _); [done|]. by apply map_lookup_filter_Some. Qed.
Lemma spec_op_keeps o (s : Slots) u n :
  s !! u = Some n -> n <> 1 -> ~ gives_up (EvCrash o) u -> (spec_op o s).2 !! u = Some n.
Proof.
  intros Hu Hn Hg. unfold gives_up in Hg. cbn in Hg. destruct o as [| |v|v|a b|v]; cbn; try done.
  - destruct (s !! v) as [k|] eqn:Hv; [done|]. cbn. rewrite lookup_insert_ne by congruence. by apply make_room_keeps.
  - by rewrite lookup_delete_ne.
  - destruct (a =s b); [done|]. destruct (s !! a) as [k|]; [|done]. destruct (s !! b) as [k'|] eqn:Hb; [done|]. cbn.
    by rewrite lookup_insert_ne, lookup_delete_ne by congruence.
Qed.
Lemma aevent_keeps (F : Prop) a e a' u n :
  aevent F a e a' -> a_slots a !! u = Some n -> n <> 1 -> ~ gives_up e u -> a_slots a' !! u = Some n.
Proof.
  intros Hev Hu Hn Hg. destruct Hev as [o ans a' Hs|o|o Hv]; [|done|by apply spec_op_keeps].
  destruct Hs; cbn; [by apply spec_op_keeps|done..].
Qed.
Lemma aevents_keep (F : Prop) a tr a' u n :
  steps (aevent F) a tr a' -> a_slots a !! u = Some n -> n <> 1 -> Forall (fun e => ~ gives_up e u) tr ->
  a_slots a' !! u = Some n.
Proof.
  intros Hs Hu Hn Hg. induction Hs as [a|a e a1 tr a2 He _ IH]; [done|].
  apply Forall_cons in Hg as [Hg1 Hg2]. apply IH; [|done]. by eapply aevent_keeps.
Qed.
(** An answer of [ResolveMountPath] with success is the path of the uuid's slot. *)
Lemma aevent_resolved (F : Prop) a u p c a' :
  aevent F a (EvCall (VResolve u) (AnsResolve (errno E_OK) (Some p) c)) a' ->
  exists n, p = BuildMountPathForSlot n /\ a_slots a' !! u = Some n.
Proof.
  intros Hev. inversion Hev as [o ans a1 Hs| |]; subst. inversion Hs as [Hv Ha|Hv Ha|up _ _ _ _ _ Ha|v Hv]; try discriminate; subst.
  cbn in Ha. cbn. destruct (a_slots a !! u) as [n|] eqn:Hu; cbn in Ha; injection Ha as <- <-; cbn; eexists; split; try done.
  apply lookup_insert_eq.
Qed.

Section refine.
Context {E : Type} {FS : FsEnv E} {JT : JsonText}.
Notation VM := (State (VState E)).
Implicit Types st : VState E.

Definition fs_fallible : Prop := exists env op, (fs_answer env op).1 = false.

(** The code's state, seen by its clients. *)
Definition abs st : AStore := mkAStore (v_initialized st) (disk_slots (v_files st)).

(** Between two operations: the invariant, and an initialised store holds what
    the main file loads to, one that is down holds nothing that is not there. *)
Definition Good st : Prop :=
  Inv st /\ (if v_initialized st then main_loads (v_files st) (v_map st)
             else v_map st = ∅ \/ v_map st = disk_map (v_files st)).

Lemma snapshots_refl P st : snapshots_ok P st st.
Proof. by exists []. Qed.
Lemma snapshots_trans P st1 st2 st3 : snapshots_ok P st1 st2 -> snapshots_ok P st2 st3 -> snapshots_ok P st1 st3.
Proof.
  intros (a & Ha & HA) (b & Hb & HB). exists (b ++ a). rewrite Hb, Ha, app_assoc. split; [done|by apply Forall_app].
Qed.
Lemma snapshots_impl (P Q : gmap string string -> Prop) st st' :
  (forall f, P f -> Q f) -> snapshots_ok P st st' -> snapshots_ok Q st st'.
Proof. intros HPQ (a & Ha & HA). exists a. split; [done|by eapply Forall_impl]. Qed.
Lemma snapshots_same P st st' : v_hist st' = v_hist st -> snapshots_ok P st st'.
Proof. intros H. exists []. by rewrite H. Qed.

(** ** A save *)
Lemma SaveJsonToFile_fails p js st : (SaveJsonToFile p js st).1 <> errno E_OK -> fs_fallible.
Proof.
  unfold SaveJsonToFile, fs_remove, fs_call, v_set_files, smodify, sget, sbind, sret. intros H.
  repeat (simpl in H; match type of H with
          | context [fs_answer ?e ?o] => let a := fresh "a" in destruct (fs_answer e o) as [[] a] eqn:?
          end; try done); try (do 2 eexists; match goal with Hf : fs_answer _ _ = (false, _) |- _ => by rewrite Hf end).
Qed.
Lemma SaveToFile_fails st : (SaveToFile st).1 <> errno E_OK -> fs_fallible.
Proof.
  unfold SaveToFile, sbind, sget. pose proof (SaveJsonToFile_fails (v_jsonFilePath st) (store_json (umap_iter (v_env st) (v_map st))) st).
  destruct (SaveJsonToFile _ _ st) as [r s]. simpl in *. destruct (r =? 0) eqn:Hr; simpl; [by destruct (SaveJsonToFile _ _ s)|].
  auto.
Qed.

(** [disk_between m st st']: each content the disk had on the way loads to what
    it held at first or to [m]. *)
Definition disk_between (m : UuidMap) st st' : Prop :=
  snapshots_ok (fun f => disk_map f = disk_map (v_files st) \/ disk_map f = m) st st'.

Lemma SaveToFile_run st ret st' :
  SaveToFile st = (ret, st') -> v_jsonFilePath st = MAIN_FILE -> Inv st ->
  (exists m0, main_loads (v_files st) m0) \/ disk_map (v_files st) = v_map st ->
  Inv st' /\ same_core st st' /\ disk_between (v_map st) st st' /\
  (ret = errno E_OK /\ main_loads (v_files st') (v_map st) \/
   ret = errno DISK_MGR_ERR /\ fs_fallible /\ disk_map (v_files st') = disk_map (v_files st) /\
   forall m0, main_loads (v_files st) m0 -> main_loads (v_files st') m0).
Proof.
  intros Hrun Hpath HI Hor. pose proof (SaveToFile_fails st) as Hfail. rewrite Hrun in Hfail. simpl in Hfail.
  pose proof Hrun as (HI' & Hcore & _)%SaveToFile_inv; [|done..].
  apply SaveToFile_spec in Hrun as (pairs & Hperm & _ & Hstep & (sn & Hsn & Hall) & Hr). rewrite Hpath in *.
  pose proof (load_text_store pairs (v_map st) (proj1 HI) Hperm) as Hload.
  split_and!; [done|done| |].
  - exists sn. split; [done|]. eapply Forall_impl; [exact Hall|]. intros f. by apply save_step_disk.
  - destruct Hr as [[-> Hf]|[-> Hf]]; [left; split; [done|by eexists]|right]. split_and!; [done|by apply Hfail| |].
    + destruct (save_step_disk _ _ _ _ Hload Hor Hstep) as [?|Hm]; [done|].
      destruct Hor as [(m0 & c & Hc & Hl)|Hd]; [|by rewrite Hd]. unfold disk_map. by rewrite Hf, Hc, Hl.
    + intros m0 (c & Hc & Hl). exists c. by rewrite Hf.
Qed.

(** The common end of the mutating operations, from a map that is on disk. *)
Lemma commit_run m' backup (A : Type) (onfail onok : Z -> A) st ret st' :
  (do! v_set_map m' in
   let! saveRet := SaveToFile in
   if negb (saveRet =? E_OK) then do! v_set_map backup in sret (onfail saveRet) else sret (onok saveRet)) st = (ret, st') ->
  Inv st -> v_initialized st = true -> main_loads (v_files st) backup -> MapInv m' ->
  Good st' /\ v_initialized st' = true /\ disk_between m' st st' /\
  (ret = onok (errno E_OK) /\ disk_map (v_files st') = m' \/
   ret = onfail (errno DISK_MGR_ERR) /\ fs_fallible /\ disk_map (v_files st') = backup).
Proof.
  intros Hrun HI Hinit Hld Hm'. pose proof HI as (_ & HF & _ & Hpath). specialize (Hpath Hinit).
  pose proof (main_loads_disk _ _ Hld) as Hbk. assert (Hb : MapInv backup) by (rewrite <- Hbk; by apply FileInv_disk).
  unfold sbind in Hrun. change (v_set_map m' st) with (tt, (v_set_map m' st).2) in Hrun. cbv beta iota in Hrun.
  destruct (SaveToFile _) as [sr s2] eqn:Hs.
  apply SaveToFile_run in Hs as (HI2 & (Hc1 & Hc2 & Hc3) & Hbet & Hr);
    [|done|by apply Inv_set_map|left; by exists backup].
  cbn [v_set_map smodify v_map v_files v_initialized snd] in *.
  destruct Hr as [[-> Hf]|(-> & Hfl & Hd & Hl)]; simpl in Hrun; injection Hrun as <- <-.
  - split_and!; [|congruence|exact Hbet|left; split; [done|by apply main_loads_disk]].
    split; [done|]. rewrite Hc2, Hinit, Hc1. done.
  - split_and!; [|simpl; congruence|exact Hbet|right; split_and!; [done..|simpl; congruence]].
    split; [by apply (Inv_set_map backup s2)|]. simpl. rewrite Hc2, Hinit. by apply Hl.
Qed.

(** ** Init *)
(** The service can read its two files: a failing [exists] or [open] is outside
    this theorem, since the code takes either for a missing file. *)
Definition reads_ok : Prop := forall env p, p = MAIN_FILE \/ p = BACKUP_FILE ->
  (fs_answer env (FsExists p)).1 = true /\ (fs_answer env (FsOpenRead p)).1 = true.
Hypothesis Hreads : reads_ok.

Lemma fs_exists_run p st : p = MAIN_FILE \/ p = BACKUP_FILE ->
  exists env, fs_exists p st = (bool_decide (is_Some (v_files st !! p)),
    mkVState (v_map st) (v_initialized st) (v_jsonFilePath st) (v_files st) (v_hist st) env).
Proof.
  intros Hp. unfold fs_exists, fs_call, sbind, sget, sret. destruct (Hreads (v_env st) p Hp) as [H _].
  destruct (fs_answer _ _) as [ok env]. simpl in *. subst ok. exists env. f_equal.
  by destruct (v_files st !! p).
Qed.
Lemma LoadJsonFromPath_run p st : p = MAIN_FILE \/ p = BACKUP_FILE -> v_map st = ∅ ->
  exists env ret, LoadJsonFromPath p st = (ret, mkVState (default ∅ (c ← v_files st !! p; load_text c ∅))
    (v_initialized st) (v_jsonFilePath st) (v_files st) (v_hist st) env) /\
  (ret = errno E_OK /\ is_Some (c ← v_files st !! p; load_text c ∅) \/
   ret = errno DISK_MGR_ERR /\ (c ← v_files st !! p; load_text c ∅) = None).
Proof.
  intros Hp Hm. unfold LoadJsonFromPath, fs_read, fs_call, sbind, sget, sret.
  destruct (Hreads (v_env st) p Hp) as [_ H]. destruct (fs_answer _ _) as [ok env]. simpl in *. subst ok. exists env.
  destruct (v_files st !! p) as [c|]; simpl; rewrite Hm; [|by eauto 6].
  destruct (load_text c ∅) as [m|]; simpl; [|by eauto 6]. eexists. split; [done|]. left. eauto.
Qed.

Definition init_sim st r (s1 : VState E) : Prop :=
  Good s1 /\ disk_map (v_files s1) = disk_map (v_files st) /\
  snapshots_ok (fun f => disk_map f = disk_map (v_files st)) st s1 /\
  (r = errno E_OK /\ v_initialized s1 = true \/
   r = errno DISK_MGR_ERR /\ v_initialized s1 = false /\ fs_fallible).

Lemma init_save s r s' :
  SaveToFile s = (r, s') -> v_jsonFilePath s = MAIN_FILE -> Inv s -> v_map s = disk_map (v_files s) ->
  Inv s' /\ same_core s s' /\ disk_map (v_files s') = disk_map (v_files s) /\
  snapshots_ok (fun f => disk_map f = disk_map (v_files s)) s s' /\
  (r = errno E_OK /\ main_loads (v_files s') (v_map s') \/ r = errno DISK_MGR_ERR /\ fs_fallible).
Proof.
  intros Hrun Hp HI Hm. apply SaveToFile_run in Hrun as (HI' & Hc & Hbet & Hr); [|done|done|by right].
  assert (Hsn : snapshots_ok (fun f => disk_map f = disk_map (v_files s)) s s').
  { eapply snapshots_impl; [|exact Hbet]. intros f [H|H]; congruence. }
  destruct Hr as [[-> Hl]|(-> & Hf & Hd & _)]; split_and!; try done; [|left|by right].
  - rewrite (main_loads_disk _ _ Hl). congruence.
  - split; [done|]. by rewrite (proj1 Hc).
Qed.

(** What [LoadFromFile] leaves, from the disk [files]: the map the disk holds,
    in memory and still on the disk, at every moment. *)
Definition loaded files (h : list (gmap string string)) r (s1 : VState E) : Prop :=
  Inv s1 /\ v_jsonFilePath s1 = MAIN_FILE /\ v_initialized s1 = false /\ disk_map (v_files s1) = disk_map files /\ v_map s1 = disk_map files /\
  (exists sn, v_hist s1 = sn ++ h /\ Forall (fun f => disk_map f = disk_map files) sn) /\
  (r = errno E_OK /\ main_loads (v_files s1) (v_map s1) \/ r = errno DISK_MGR_ERR /\ fs_fallible).

Section load.
Context (files : gmap string string) (h : list (gmap string string)).
Hypothesis HF : FileInv files.
Hypothesis Hh : Forall FileInv h.
Notation down m env := (mkVState m false MAIN_FILE files h env).

Lemma down_Inv m (env : E) : MapInv m -> Inv (down m env).
Proof. intros. by split_and!. Qed.

Lemma load_save (env : E) r s1 : SaveToFile (down (disk_map files) env) = (r, s1) -> loaded files h r s1.
Proof.
  intros (HI & (Hc1 & Hc2 & Hc3) & Hd & Hsn & Hr)%init_save; [|done|by apply down_Inv, FileInv_disk|done].
  simpl in *. by split_and!.
Qed.

(** The main file loads: at most the backup is rebuilt. *)
Lemma load_main m (env : E) r s1 : main_loads files m ->
  (let! backupExists := fs_exists BACKUP_FILE in
   let! _ret := (if negb backupExists then SaveToFile else sret 0) in
   sret (errno E_OK)) (down m env) = (r, s1) -> loaded files h r s1.
Proof.
  intros Hl Hrun. pose proof (main_loads_disk _ _ Hl) as Hm. subst m.
  assert (HI : forall env : E, Inv (down (disk_map files) env)) by (intros; by apply down_Inv, FileInv_disk).
  unfold sbind, sret in Hrun.
  destruct (fs_exists_run BACKUP_FILE (down (disk_map files) env) (or_intror eq_refl)) as [env1 He].
  rewrite He in Hrun. clear He. case_bool_decide; cbn [negb] in Hrun.
  - injection Hrun as <- <-. split_and!; [apply HI|done..|exists []; by split|left; by split].
  - destruct (SaveToFile _) as [r' s'] eqn:Hs. injection Hrun as <- <-.
    apply SaveToFile_run in Hs as (HI' & (Hc1 & Hc2 & Hc3) & (sn & Hsn & Hall) & Hr); [|done|apply HI|by right].
    simpl in *. assert (Hl' : main_loads (v_files s') (disk_map files)).
    { destruct Hr as [[_ ?]|(_ & _ & _ & Hp)]; [done|by apply Hp]. }
    split_and!; [done..|by apply main_loads_disk|done| |left; split; [done|by rewrite Hc1]].
    exists sn. split; [done|]. eapply Forall_impl; [exact Hall|]. by intros f [].
Qed.

(** It does not: the backup, if it loads, or nothing. *)
Lemma load_backup c (env : E) r s1 : files !! MAIN_FILE = Some c -> load_text c ∅ = None ->
  (let! backupExists := fs_exists BACKUP_FILE in
   let! recovered := (if backupExists then
                        let! loadRet := LoadJsonFromPath BACKUP_FILE in sret (loadRet =? E_OK)
                      else sret false) in
   if recovered then SaveToFile else SaveToFile) (down ∅ env) = (r, s1) -> loaded files h r s1.
Proof.
  intros Hc Hn Hrun. unfold sbind, sret in Hrun.
  assert (Hd : disk_map files = default ∅ (b ← files !! BACKUP_FILE; load_text b ∅)).
  { unfold disk_map. by rewrite Hc, Hn. }
  destruct (fs_exists_run BACKUP_FILE (down ∅ env) (or_intror eq_refl)) as [env1 He].
  rewrite He in Hrun. clear He. cbn [v_files] in Hrun. destruct (files !! BACKUP_FILE) as [b|] eqn:Hb.
  - rewrite bool_decide_true in Hrun by eauto.
    match type of Hrun with context [LoadJsonFromPath ?p ?s] =>
      destruct (LoadJsonFromPath_run p s (or_intror eq_refl) eq_refl) as (env2 & r2 & Hl & _)
    end. rewrite Hl in Hrun. cbn [v_map v_initialized v_jsonFilePath v_files v_hist v_env] in Hrun.
    rewrite Hb, <- Hd in Hrun. destruct (r2 =? E_OK); by apply load_save in Hrun.
  - rewrite bool_decide_false in Hrun by (by intros []). cbn in Hrun. apply (load_save env1). by rewrite Hd.
Qed.

Lemma LoadFromFile_run m0 (env : E) r s1 : LoadFromFile (down m0 env) = (r, s1) -> loaded files h r s1.
Proof.
  intros Hrun. cbv [LoadFromFile sbind sget sret v_set_map smodify] in Hrun.
  cbn [v_map v_initialized v_jsonFilePath v_files v_hist v_env] in Hrun.
  change (MAIN_FILE +:+ BACKUP_FILE_SUFFIX) with BACKUP_FILE in Hrun.
  destruct (fs_exists_run MAIN_FILE (down ∅ env) (or_introl eq_refl)) as [env1 He].
  rewrite He in Hrun. clear He. cbn [v_map v_initialized v_jsonFilePath v_files v_hist v_env] in Hrun.
  destruct (files !! MAIN_FILE) as [c|] eqn:Hc.
  - rewrite bool_decide_true in Hrun by eauto. cbn [negb] in Hrun.
    match type of Hrun with context [LoadJsonFromPath ?p ?s] =>
      destruct (LoadJsonFromPath_run p s (or_introl eq_refl) eq_refl) as (env2 & r2 & Hl & Hr2)
    end. rewrite Hl in Hrun. cbn [v_map v_initialized v_jsonFilePath v_files v_hist v_env] in *.
    rewrite Hc in Hrun, Hr2. cbn [mbind option_bind] in Hrun, Hr2. clear Hl.
    destruct (load_text c ∅) as [m|] eqn:Hlt; cbn [default] in Hrun.
    + destruct Hr2 as [[-> _]|[_ ?]]; [|done]. apply (load_main m env2); [by exists c|exact Hrun].
    + destruct Hr2 as [[_ [? ?]]|[-> _]]; [done|]. by apply (load_backup c env2).
  - rewrite bool_decide_false in Hrun by (by intros []). apply (load_save env1). unfold disk_map. by rewrite Hc.
Qed.
End load.

Lemma Init_run st r s1 :
  Voldata_Init st = (r, s1) -> v_initialized st = false -> Good st -> init_sim st r s1.
Proof.
  destruct st as [m0 i p files h env]. cbn. intros Hrun -> ((_ & HF & Hh & _) & _). cbn in HF, Hh.
  cbv [Voldata_Init sbind sget sret v_set_jsonFilePath v_set_initialized smodify] in Hrun.
  cbn [v_map v_initialized v_jsonFilePath v_files v_hist v_env] in Hrun.
  change (DISK_MANAGER_DATA_PATH +:+ VOLDATA_UUID_MAPPING_JSON) with MAIN_FILE in Hrun.
  destruct (LoadFromFile _) as [lr s2] eqn:Hl.
  pose proof Hl as (HI2 & Hp2 & Hi2 & Hd & Hm & (sn & Hsn & Hall) & Hr)%LoadFromFile_run; [|done..].
  clear Hl. assert (HG : Good s2) by (split; [done|rewrite Hi2; right; congruence]).
  destruct Hr as [[-> Hl]|[-> Hf]]; simpl in Hrun; injection Hrun as <- <-.
  - split_and!; [|done|by exists sn|by left]. destruct HI2 as (? & ? & ? & _). split; [by split_and!|done].
  - split_and!; [done|done|by exists sn|by right].
Qed.

(** ** One call *)
Definition op_sim (o : VOp) st (ans : VAnswer) (st' : VState E) : Prop :=
  Good st' /\ astep fs_fallible o (abs st) ans (abs st') /\
  snapshots_ok (fun f => disk_slots f = disk_slots (v_files st) \/
                         vop_valid o = true /\ disk_slots f = (spec_op o (disk_slots (v_files st))).2) st st'.

(** A call that leaves the disk alone. *)
Lemma sim_quiet o st ans st' :
  Good st' -> v_files st' = v_files st -> v_hist st' = v_hist st -> v_initialized st' = spec_up o (v_initialized st) ->
  vop_valid o = true -> spec_op o (disk_slots (v_files st)) = (ans, disk_slots (v_files st)) -> op_sim o st ans st'.
Proof.
  intros HG Hf Hh Hi Hv Hs. split; [done|]. split; [|by apply snapshots_same].
  pose proof (as_done fs_fallible o (abs st) Hv) as Ha. unfold abs in *. simpl in Ha. rewrite Hs in Ha. by rewrite Hf, Hi.
Qed.
Lemma sim_refused o st : Good st -> vop_valid o = false -> op_sim o st (spec_fails o) st.
Proof. intros. split; [done|]. split; [by apply as_refused|apply snapshots_refl]. Qed.

(** A call that changes the map and saves it, from the disk of [st0]. *)
Lemma commit_sim o m' backup (A : Type) (onfail onok : Z -> A) (wrap : A -> VAnswer) st0 st ret st' :
  (do! v_set_map m' in
   let! saveRet := SaveToFile in
   if negb (saveRet =? E_OK) then do! v_set_map backup in sret (onfail saveRet) else sret (onok saveRet)) st = (ret, st') ->
  Inv st -> v_initialized st = true -> v_initialized st0 = true -> v_files st = v_files st0 -> v_hist st = v_hist st0 ->
  main_loads (v_files st0) backup -> MapInv m' ->
  vop_valid o = true -> spec_up o false = true -> spec_up o true = true ->
  spec_op o (slots_of backup) = (wrap (onok (errno E_OK)), slots_of m') ->
  spec_fails o = wrap (onfail (errno DISK_MGR_ERR)) -> slots_of m' <> slots_of backup ->
  op_sim o st0 (wrap ret) st'.
Proof.
  intros Hrun HI Hi Hi0 Hf Hh Hl Hm' Hv Hup Hup' Hspec Hfail Hne.
  pose proof (main_loads_disk _ _ Hl) as Hd. rewrite <- Hf in Hl.
  apply (commit_run m' backup A onfail onok) in Hrun as (HG & Hi' & (sn & Hsn & Hall) & Hr); [|done..].
  rewrite Hf, Hh in *. split; [done|]. split.
  - unfold abs. rewrite Hi', Hi0. unfold disk_slots. rewrite Hd.
    destruct Hr as [[-> Hd']|(-> & Hfl & Hd')]; rewrite Hd'.
    + pose proof (as_done fs_fallible o (mkAStore true (slots_of backup)) Hv) as Ha. simpl in Ha. by rewrite Hspec, Hup' in Ha.
    + rewrite <- Hfail. apply (as_failed _ _ (mkAStore true (slots_of backup)) true); [done..|]. simpl. right. by rewrite Hspec.
  - exists sn. split; [done|]. eapply Forall_impl; [exact Hall|]. unfold disk_slots. rewrite Hd, Hspec.
    intros f [->| ->]; [by left|by right].
Qed.

Lemma Good_up st : Good st -> v_initialized st = true -> main_loads (v_files st) (v_map st) /\ disk_map (v_files st) = v_map st.
Proof. intros [_ H] Hi. rewrite Hi in H. split; [done|by apply main_loads_disk]. Qed.
Lemma Init_up st : v_initialized st = true -> Voldata_Init st = (errno E_OK, st).
Proof. intros Hi. unfold Voldata_Init, sbind, sget. by rewrite Hi. Qed.

Lemma resolve_up u st :
  Good st -> v_initialized st = true -> IsUuidValid u = true -> ascii_uuid u ->
  op_sim (VResolve u) st (call_vop (VResolve u) st).1 (call_vop (VResolve u) st).2.
Proof.
  intros HG Hi Hv Ha. destruct (Good_up st HG Hi) as [Hl Hd]. pose proof HG as [HI _]. pose proof HI as (Hm & _).
  cbn [call_vop]. unfold sbind at 1 2. destruct (Voldata_ResolveMountPath u st) as [r st'] eqn:Hrun. cbn [sret fst snd].
  unfold Voldata_ResolveMountPath in Hrun. rewrite Hv in Hrun. cbn [negb] in Hrun.
  unfold sbind at 1 in Hrun. rewrite (Init_up st Hi) in Hrun. simpl in Hrun.
  unfold sbind at 1, sget at 1 in Hrun.
  destruct (v_map st !! u) as [e|] eqn:Hu.
  - injection Hrun as <- <-. apply sim_quiet; [done..|]. unfold disk_slots. rewrite Hd. cbn [spec_op].
    rewrite slots_of_lookup, Hu. cbn. destruct (proj1 Hm u e Hu) as (_ & _ & _ & _ & ->). done.
  - unfold sbind at 1 in Hrun. destruct (AllocateNextSlotLocked st) as [slot s1] eqn:Hal.
    apply AllocateNextSlotLocked_spec in Hal as (Hev & Hi1 & Hp1 & Hf1 & Hh1 & Hr & Hn & Hmin); [|done].
    destruct (evicted_facts _ _ Hm Hev) as (Hm1 & Hsz1 & Hsub).
    assert (Hu1 : v_map s1 !! u = None) by (by eapply lookup_weaken_None).
    unfold sbind at 1, sget at 1 in Hrun.
    eapply (commit_sim (VResolve u) _ (v_map st) _ (fun r => (r, None, false))
             (fun _ => (errno E_OK, Some (BuildMountPathForSlot slot), true))
             (fun r => AnsResolve r.1.1 r.1.2 r.2) st s1 r); [exact Hrun| |congruence|done|done|done|done|by apply MapInv_insert|done|done|done| |done|].
    + destruct HI as (_ & HF & Hh & Hp). split; [done|]. by rewrite Hf1, Hh1, Hi1, Hp1.
    + cbn [spec_op]. rewrite slots_of_lookup, Hu, slots_of_insert, <- (slots_of_evicted _ _ Hm Hev). cbn.
      by rewrite (least_free_unique _ slot).
    + intros Hne. apply (f_equal (lookup u)) in Hne. rewrite !slots_of_lookup, lookup_insert_eq, Hu in Hne. done.
Qed.

Lemma remove_up u st :
  Good st -> v_initialized st = true -> IsUuidValid u = true ->
  op_sim (VRemove u) st (call_vop (VRemove u) st).1 (call_vop (VRemove u) st).2.
Proof.
  intros HG Hi Hv. destruct (Good_up st HG Hi) as [Hl Hd]. pose proof HG as [HI _].
  cbn [call_vop]. unfold sbind at 1 2. destruct (Voldata_RemoveByFsUuid u st) as [r st'] eqn:Hrun. cbn [sret fst snd].
  unfold Voldata_RemoveByFsUuid in Hrun. rewrite Hv in Hrun. cbn [negb] in Hrun.
  unfold sbind at 1 in Hrun. rewrite (Init_up st Hi) in Hrun. simpl in Hrun. unfold sbind at 1, sget at 1 in Hrun.
  destruct (v_map st !! u) as [e|] eqn:Hu.
  - eapply (commit_sim (VRemove u) _ (v_map st) _ (fun r => r) (fun _ => errno E_OK) AnsRet st st);
      [exact Hrun|done|done|done|done|done|done|apply MapInv_delete, HI|done|done|done| |done|].
    + cbn [spec_op]. by rewrite slots_of_delete.
    + intros Hne. apply (f_equal (lookup u)) in Hne. rewrite !slots_of_lookup, lookup_delete_eq, Hu in Hne. done.
  - injection Hrun as <- <-. apply sim_quiet; [done..|]. unfold disk_slots. rewrite Hd. cbn [spec_op].
    by rewrite <- slots_of_delete, delete_id.
Qed.

Lemma replace_up a b st :
  Good st -> v_initialized st = true -> IsUuidValid a = true -> IsUuidValid b = true -> ascii_uuid b -> (a =s b) = false ->
  op_sim (VReplace a b) st (call_vop (VReplace a b) st).1 (call_vop (VReplace a b) st).2.
Proof.
  intros HG Hi Hva Hvb Hab Hne. destruct (Good_up st HG Hi) as [Hl Hd]. pose proof HG as [HI _].
  assert (Hv : vop_valid (VReplace a b) = true) by (cbn; by rewrite Hva, Hvb).
  assert (Hup : forall up, spec_up (VReplace a b) up = true) by (intros; cbn; by rewrite Hne).
  cbn [call_vop]. unfold sbind at 1 2. destruct (Voldata_ReplaceFsUuid a b st) as [r st'] eqn:Hrun. cbn [sret fst snd].
  unfold Voldata_ReplaceFsUuid in Hrun. rewrite Hva, Hvb, Hne in Hrun. cbn [negb orb] in Hrun.
  unfold sbind at 1 in Hrun. rewrite (Init_up st Hi) in Hrun. simpl in Hrun. unfold sbind at 1, sget at 1 in Hrun.
  assert (Hspec : spec_op (VReplace a b) (slots_of (v_map st)) = match v_map st !! a, v_map st !! b with
    | None, _ => (AnsRet (errno E_OK), slots_of (v_map st))
    | Some _, Some _ => (AnsRet (errno DISK_MGR_ERR), slots_of (v_map st))
    | Some e, None => (AnsRet (errno E_OK), <[b := ve_slotIndex e]> (delete a (slots_of (v_map st))))
    end).
  { cbn [spec_op]. rewrite Hne, !slots_of_lookup. by destruct (v_map st !! a), (v_map st !! b). }
  destruct (v_map st !! a) as [e|] eqn:Hu; [destruct (v_map st !! b) as [e'|] eqn:Hu'|].
  - injection Hrun as <- <-. apply sim_quiet; [done..|by rewrite Hi, Hup|done|]. unfold disk_slots. by rewrite Hd.
  - eapply (commit_sim (VReplace a b) _ (v_map st) _ (fun r => r) (fun _ => errno E_OK) AnsRet st st);
      [exact Hrun|done|done|done|done|done|done|by apply MapInv_rename; [apply HI|..]|done|done|done| |done|].
    + by rewrite slots_of_insert, slots_of_delete.
    + intros He. apply (f_equal (lookup b)) in He. rewrite !slots_of_lookup, lookup_insert_eq, Hu' in He. done.
  - injection Hrun as <- <-. apply sim_quiet; [done..|by rewrite Hi, Hup|done|]. unfold disk_slots. by rewrite Hd.
Qed.

(** ** Bringing the store up *)
Lemma call_init o st r s1 :
  vop_valid o = true -> spec_up o false = true -> Voldata_Init st = (r, s1) ->
  (r = errno E_OK -> v_initialized s1 = true -> call_vop o st = call_vop o s1) /\
  (r = errno DISK_MGR_ERR -> call_vop o st = (spec_fails o, s1)).
Proof.
  intros Hv Hup Hrun. split; [intros -> Hi; pose proof (Init_up s1 Hi) as Hi1|intros ->];
    destruct o as [| |u|u|a b|u]; try discriminate; cbn in Hv, Hup; cbn [call_vop];
    unfold Voldata_ResolveMountPath, Voldata_RemoveByFsUuid, Voldata_ReplaceFsUuid, sbind;
    try (destruct (IsUuidValid a); [|done]; destruct (IsUuidValid b); [|done]; destruct (a =s b); [done|]);
    try rewrite Hv; cbn [negb orb]; rewrite Hrun; try rewrite Hi1; done.
Qed.

Lemma call_up o st : Good st -> v_initialized st = true -> vop_valid o = true -> vop_ascii o ->
  op_sim o st (call_vop o st).1 (call_vop o st).2.
Proof.
  intros HG Hi Hv Ha. destruct o as [| |u|u|a b|u].
  - cbn [call_vop]. unfold sbind. rewrite (Init_up st Hi). by apply sim_quiet.
  - cbn [call_vop]. unfold Voldata_UnInit, sbind, sget, sret. rewrite Hi. cbn.
    apply sim_quiet; [|done..]. destruct HG as [(_ & HF & Hh & Hp) _]. split; [|by left]. by split_and!; [apply MapInv_empty| | |].
  - by apply resolve_up.
  - by apply remove_up.
  - cbn in Hv. apply andb_true_iff in Hv as [Hva Hvb]. destruct (a =s b) eqn:Hab; [|by apply replace_up].
    cbn [call_vop]. unfold Voldata_ReplaceFsUuid. rewrite Hva, Hvb, Hab. cbn.
    apply sim_quiet; [done..|cbn; by rewrite Hab|cbn; by rewrite Hva, Hvb|cbn; by rewrite Hab].
  - destruct (Good_up st HG Hi) as [_ Hd]. cbn [call_vop]. unfold Voldata_TryGetMountPath, sbind, sget, sret.
    cbn in Hv. rewrite Hv. cbn. apply sim_quiet; [done..|]. unfold disk_slots. rewrite Hd. cbn. rewrite slots_of_lookup.
    destruct (v_map st !! u) as [e|] eqn:Hu; [|done]. cbn.
    destruct HG as [((Hf & _) & _) _]. by destruct (Hf u e Hu) as (_ & _ & _ & _ & ->).
Qed.

(** A call that brings a store that is down up first. *)
Lemma sim_after_init o st s1 ans st' :
  init_sim st (errno E_OK) s1 -> v_initialized s1 = true -> v_initialized st = false ->
  vop_valid o = true -> spec_up o false = true -> op_sim o s1 ans st' -> op_sim o st ans st'.
Proof.
  intros (HG1 & Hd & Hsn & _) Hi1 Hi Hvo Hup (HG & Ha & Hs).
  assert (Hds : disk_slots (v_files s1) = disk_slots (v_files st)) by (unfold disk_slots; by rewrite Hd).
  assert (Hup' : spec_up o true = true) by (destruct o; try done; cbn in *; by destruct (_ =s _)).
  rewrite Hds in Hs. split; [done|]. split.
  - remember (abs st') as a' eqn:Ha'. unfold abs in Ha. rewrite Hds, Hi1 in Ha. unfold abs. rewrite Hi.
    inversion Ha as [Hv|Hv|up Hfl Hv Hu Hx Hor|u Hu Hdn]; simplify_eq/=.
    + rewrite Hup'. pose proof (as_done fs_fallible o (mkAStore false (disk_slots (v_files st))) Hv) as H. cbn in H. by rewrite Hup in H.
    + congruence.
    + by apply (as_failed _ _ (mkAStore false _)); [..|left].
  - eapply snapshots_trans; [|exact Hs]. eapply snapshots_impl; [|exact Hsn]. intros f Hf. left. unfold disk_slots. by rewrite Hf.
Qed.

Lemma call_down o st : Good st -> v_initialized st = false -> vop_valid o = true -> vop_ascii o ->
  op_sim o st (call_vop o st).1 (call_vop o st).2.
Proof.
  intros HG Hi Hv Ha. destruct (spec_up o false) eqn:Hup.
  - destruct (Voldata_Init st) as [r s1] eqn:Hr. destruct (call_init o st r s1 Hv Hup Hr) as [Hok Hfail].
    pose proof (Init_run _ _ _ Hr Hi HG) as Hsim. destruct Hsim as (HG1 & Hd & Hsn & [[-> Hi1]|(-> & Hi1 & Hfl)]).
    + rewrite Hok by done. apply (sim_after_init o st s1); [|done..|by apply call_up]. split_and!; [done..|by left].
    + rewrite Hfail by done. split; [done|]. split.
      * unfold abs. cbn. rewrite Hi, Hi1. unfold disk_slots. rewrite Hd. by apply (as_failed _ _ (mkAStore false _) false); [..|left].
      * eapply snapshots_impl; [|exact Hsn]. intros f Hf. left. unfold disk_slots. by rewrite Hf.
  - destruct o as [| |u|u|a b|u]; try done.
    + cbn [call_vop]. unfold Voldata_UnInit, sbind, sget, sret. rewrite Hi. by apply sim_quiet.
    + cbn in Hv, Hup. apply andb_true_iff in Hv as [Hva Hvb]. destruct (a =s b) eqn:Hab; [|done].
      cbn [call_vop]. unfold Voldata_ReplaceFsUuid. rewrite Hva, Hvb, Hab. cbn.
      apply sim_quiet; [done..|cbn; by rewrite Hab|cbn; by rewrite Hva, Hvb|cbn; by rewrite Hab].
    + cbn in Hv. cbn [call_vop]. unfold Voldata_TryGetMountPath, sbind, sget, sret. rewrite Hv. cbn.
      pose proof HG as [HI Hm]. rewrite Hi in Hm. destruct Hm as [Hm|Hm]; rewrite Hm.
      * rewrite lookup_empty. split; [done|]. split; [by apply (as_lookup_down _ _ _ u)|apply snapshots_refl].
      * apply sim_quiet; [done..|]. cbn. unfold disk_slots. rewrite slots_of_lookup.
        destruct (disk_map (v_files st) !! u) as [e|] eqn:Hu; [|done]. cbn.
        destruct HI as (_ & HF & _). destruct (proj1 (FileInv_disk _ HF) u e Hu) as (_ & _ & _ & _ & ->). done.
Qed.

Lemma call_sim o st : Good st -> vop_ascii o -> op_sim o st (call_vop o st).1 (call_vop o st).2.
Proof.
  intros HG Ha. destruct (vop_valid o) eqn:Hv.
  - destruct (v_initialized st) eqn:Hi; [by apply call_up|by apply call_down].
  - assert (Hrun : call_vop o st = (spec_fails o, st)); [|rewrite Hrun; by apply sim_refused].
    destruct o as [| |u|u|a b|u]; cbn in Hv; try done; cbn [call_vop];
      unfold Voldata_ResolveMountPath, Voldata_RemoveByFsUuid, Voldata_ReplaceFsUuid, Voldata_TryGetMountPath;
      [by rewrite Hv..| |by rewrite Hv]. apply andb_false_iff in Hv as [Hv|Hv]; rewrite Hv; [done|by rewrite orb_true_r].
Qed.

(** ** The theorem *)
Lemma Good_start files (env : E) : FileInv files -> Good (mkVState ∅ false "" files [files] env).
Proof. intros HF. split; [by split_and!; [apply MapInv_empty| |constructor|]|by left]. Qed.

Lemma event_sim st e st' : Good st -> vop_ascii (event_op e) -> cevent st e st' ->
  Good st' /\ aevent fs_fallible (abs st) e (abs st').
Proof.
  intros HG Ha Hev. destruct Hev as [o|o files env (snaps & Hh & Hin)]; cbn in Ha; destruct (call_sim o st HG Ha) as (HG' & Hstep & (sn & Hsn & Hall)).
  - split; [done|by constructor].
  - assert (sn = snaps) as -> by (eapply app_inv_tail; by rewrite <- Hsn, <- Hh).
    pose proof HG as ((_ & HF & _) & _). pose proof HG' as ((_ & _ & HFh & _) & _). rewrite Hh in HFh.
    apply Forall_app in HFh as [HFs _]. rewrite Forall_forall in HFs, Hall. destruct Hin as [->|Hin].
    + split; [by apply Good_start|]. apply ae_crash_before.
    + split; [by apply Good_start, HFs|]. unfold abs. cbn. destruct (Hall _ Hin) as [->|[Hv ->]].
      * apply (ae_crash_before _ (mkAStore _ _)).
      * by apply (ae_crash_after _ (mkAStore _ _)).
Qed.

(** C10: The uuid store implements its abstract machine across crashes. It starts on files
    that load to well-formed mappings if they load at all (no files, to begin with), the uuids that are
    resolved or renamed to are ASCII, and looking for a file and opening it for reading
    succeed whenever it is there; writes, renames and removals may fail. Then over any
    sequence of calls, each of which returns or is cut by a crash at any of its
    changes to the disk, the answers and the content of the disk are those of a
    run of the machine in which every call is done completely, refused, or fails
    without effect. A new uuid gets the least free slot, a full store gives up
    slot 1, and the iteration order of the unordered map shows nowhere. (A read that fails
    for another reason loses the mapping: [exists_error_forgets].) *)
Theorem voldata_refines_spec files env tr st :
  FileInv files -> Forall (fun e => vop_ascii (event_op e)) tr ->
  steps cevent (mkVState ∅ false "" files [files] env) tr st ->
  steps (aevent fs_fallible) (mkAStore false (disk_slots files)) tr (abs st).
Proof.
  intros HF Ha Hs. eapply steps_simulation in Hs as [_ Hs]; [exact Hs|..|by apply Good_start|exact Ha].
  intros s l s' HG Hl. by apply event_sim.
Qed.

(** C11: A mount path that was answered stays, in a store that starts on files that load to
    well-formed mappings if they load at all, resolves and renames to ASCII uuids only, and whose files can be read
    (writes may fail): after [ResolveMountPath] has returned a
    path other than that of slot 1 for a uuid, no call for other uuids, no failing
    write, no crash at any of the disk's changes and no restart takes it away. As
    long as nobody removes or renames that uuid itself, the disk holds it for
    whoever starts next. (Slot 1 is what a full store gives up.) *)
Theorem voldata_mapping_durable files env tr1 u p created tr2 st :
  FileInv files -> Forall (fun e => vop_ascii (event_op e)) (tr1 ++ EvCall (VResolve u) (AnsResolve (errno E_OK) (Some p) created) :: tr2) ->
  steps cevent (mkVState ∅ false "" files [files] env) (tr1 ++ EvCall (VResolve u) (AnsResolve (errno E_OK) (Some p) created) :: tr2) st ->
  p <> BuildMountPathForSlot 1 -> Forall (fun e => ~ gives_up e u) tr2 ->
  ve_mountPath <$> disk_map (v_files st) !! u = Some p.
Proof.
  intros HF Ha Hs Hp Hg.
  eapply steps_simulation in Hs as [HG Hs]; [|intros s l s'; by apply event_sim|by apply Good_start|exact Ha].
  apply steps_app in Hs as (a1 & _ & Hs). inversion Hs as [|? ? a2 ? ? He Hs']; subst.
  apply aevent_resolved in He as (n & -> & Hn).
  eapply aevents_keep in Hs'; [|exact Hn|by intros ->|exact Hg]. cbn in Hs'. unfold disk_slots in Hs'.
  rewrite slots_of_lookup in Hs'. destruct (disk_map (v_files st) !! u) as [e|] eqn:He; [|done]. cbn in *. injection Hs' as <-.
  destruct HG as ((_ & HFs & _) & _). by destruct (proj1 (FileInv_disk _ HFs) u e He) as (_ & _ & _ & _ & ->).
Qed.
End refine.

(** ** Witness: writes may fail, a crash cuts a call after its last write *)
Definition fs_flaky (n : nat) : FsEnv nat := {|
  fs_answer := fun k o => (match o with FsWrite _ => negb (k =? n)%nat | _ => true end, S k);
  fs_partial := fun _ s => stake 3 s;
  umap_iter := fun _ m => map_to_list m;
  umap_iter_perm := fun _ m => Permutation_refl _;
|}.
Lemma ce_call_eq {E} `{FsEnv E} `{JsonText} (st : VState E) o ans :
  (call_vop o st).1 = ans -> cevent st (EvCall o ans) (call_vop o st).2.
Proof. intros <-. apply ce_call. Qed.

Notation flaky_call o st := (@call_vop nat (fs_flaky 30) coded_json o st).
Notation flaky_start := (mkVState ∅ false "" ∅ [∅] 0%nat).
Notation flaky_1 := (flaky_call (VResolve "1234-ABCD") flaky_start).2.
Notation flaky_2 := (flaky_call (VResolve "5678") flaky_1).2.
Notation flaky_3 := (mkVState ∅ false "" (v_files flaky_2) [v_files flaky_2] 25%nat).
Notation flaky_4 := (flaky_call (VResolve "5678") flaky_3).2.
Notation flaky_5 := (flaky_call (VRemove "1234-ABCD") flaky_4).2.
Notation flaky_6 := (flaky_call (VTryGet "1234-ABCD") flaky_5).2.
Notation flaky_7 := (mkVState ∅ false "" (v_files flaky_6) [v_files flaky_6] 0%nat).
Notation flaky_before := [
  EvCall (VResolve "1234-ABCD") (AnsResolve (errno E_OK) (Some "/mnt/data/voldata/data1") true);
  EvCrash (VResolve "5678")].
Notation flaky_after := [
  EvCall (VRemove "1234-ABCD") (AnsRet (errno DISK_MGR_ERR));
  EvCall (VTryGet "1234-ABCD") (AnsPath (Some "/mnt/data/voldata/data1"));
  EvCrash (VRemove "1234-ABCD")].
Notation flaky_trace := (flaky_before ++
  EvCall (VResolve "5678") (AnsResolve (errno E_OK) (Some "/mnt/data/voldata/data2") false) :: flaky_after).

Lemma flaky_run : steps (@cevent nat (fs_flaky 30) coded_json) flaky_start flaky_trace flaky_7.
Proof.
  cbn [app]. eapply steps_cons; [apply (@ce_call_eq nat (fs_flaky 30) coded_json); vm_compute; reflexivity|].
  eapply steps_cons.
  { apply (@ce_crash nat (fs_flaky 30) coded_json flaky_1 (VResolve "5678") (v_files flaky_2) 25%nat).
    exists (take (List.length (v_hist flaky_2) - List.length (v_hist flaky_1)) (v_hist flaky_2)).
    split; [|right]; apply (bool_decide_eq_true_1 _); vm_compute; reflexivity. }
  do 3 (eapply steps_cons; [apply (@ce_call_eq nat (fs_flaky 30) coded_json); vm_compute; reflexivity|]).
  eapply steps_cons; [|apply steps_nil].
  apply (@ce_crash nat (fs_flaky 30) coded_json flaky_6 (VRemove "1234-ABCD") (v_files flaky_6) 0%nat).
  exists (take (List.length (v_hist (flaky_call (VRemove "1234-ABCD") flaky_6).2) - List.length (v_hist flaky_6))
            (v_hist (flaky_call (VRemove "1234-ABCD") flaky_6).2)).
  split; [|by left]. apply (bool_decide_eq_true_1 _); vm_compute; reflexivity.
Qed.
Lemma flaky_reads : @reads_ok nat (fs_flaky 30).
Proof. intros env p _. split; reflexivity. Qed.
Lemma flaky_files : @FileInv coded_json ∅.
Proof. intros q c _ H. by rewrite lookup_empty in H. Qed.

Lemma voldata_refines_spec_witness :
  steps (aevent (@fs_fallible nat (fs_flaky 30))) (mkAStore false ∅) flaky_trace
    (mkAStore false {["1234-ABCD" := 1; "5678" := 2]}).
Proof.
  assert (Habs : @abs nat coded_json flaky_7 = mkAStore false {["1234-ABCD" := 1; "5678" := 2]}) by (vm_compute; reflexivity).
  rewrite <- Habs.
  refine (@voldata_refines_spec nat (fs_flaky 30) coded_json flaky_reads ∅ 0%nat flaky_trace flaky_7 flaky_files _ flaky_run).
  repeat constructor.
Defined.
Lemma voldata_mapping_durable_witness :
  ve_mountPath <$> @disk_map coded_json (v_files flaky_7) !! "5678" = Some "/mnt/data/voldata/data2".
Proof.
  refine (@voldata_mapping_durable nat (fs_flaky 30) coded_json flaky_reads ∅ 0%nat flaky_before "5678" "/mnt/data/voldata/data2" false
            flaky_after flaky_7 flaky_files _ flaky_run _ _).
  - repeat constructor.
  - vm_compute. discriminate.
  - repeat (apply Forall_cons_2; [intros H; vm_compute in H; first [discriminate H|exact H]|]). apply Forall_nil_2.
Defined.

(** Why the files must be readable: [std::filesystem::exists] answers false on an
    error, [LoadFromFile] then takes the store for a new one, and saves an empty
    mapping over the one on disk. *)
Definition fs_exists_error : FsEnv unit := {|
  fs_answer := fun _ o => (match o with FsExists _ => false | _ => true end, tt);
  fs_partial := fun _ s => s;
  umap_iter := fun _ m => map_to_list m;
  umap_iter_perm := fun _ m => Permutation_refl _;
|}.
Example exists_error_forgets :
  let files := v_files ex_st in
  let st := mkVState ∅ false "" files [files] tt in
  let st' := (@call_vop unit fs_exists_error coded_json VInit st).2 in
  (@call_vop unit fs_exists_error coded_json VInit st).1 = AnsRet (errno E_OK) /\
  @disk_slots coded_json files = {["1234-ABCD" := 1]} /\ @disk_slots coded_json (v_files st') = ∅.
Proof. split_and!; vm_compute; reflexivity. Qed.
