(* ===== verification/BlockInfo.v ===== *)
(** * [services/disk_manager/src/db/block_info_table.cpp]: block device descriptions

    The JSON description of a block device, its parser (lenient: a missing or
    mistyped member gives the type's default) and its printer. The table itself,
    kept in memory by disk id, is part of the world. *)
From S2P Require Import Prelude CppString Json.

(* @src interfaces/innerkits/include/block_info.h 32-49 BlockInfo *)
Record BlockInfo : Type := mkBlockInfo {
  bi_sizeBytes : Z;
  bi_vendor : string;
  bi_model : string;
  bi_interfaceType : string;
  bi_rpm : Z;
  bi_rotational : Z;
  bi_removable : bool;
  bi_serialNumber : string;
  bi_diskId : string;
  bi_devicePath : string;
  bi_port : string;
  bi_devnum : string;
  bi_busnum : string;
  bi_devNode : string;
  bi_scsiBusNum : string;
  bi_fwVersion : string;
  bi_ODD_INFO : json;
}.
Definition BlockInfo_default : BlockInfo :=
  mkBlockInfo 0 "" "" "" 0 0 false "" "" "" "" "" "" "" "" "" JNull.
Definition BlockInfo_SetDiskId (d : string) (b : BlockInfo) : BlockInfo :=
  mkBlockInfo (bi_sizeBytes b) (bi_vendor b) (bi_model b) (bi_interfaceType b) (bi_rpm b) (bi_rotational b)
    (bi_removable b) (bi_serialNumber b) d (bi_devicePath b) (bi_port b) (bi_devnum b) (bi_busnum b)
    (bi_devNode b) (bi_scsiBusNum b) (bi_fwVersion b) (bi_ODD_INFO b).

(* @src services/disk_manager/src/db/block_info_table.cpp 35-38 BLOCK_INFO_MAX_COUNT *)
Definition BLOCK_INFO_MAX_COUNT : nat := 20.
Definition BLOCK_INFO_SCAN_PAYLOAD_TYPE : string := "data".

(* @src services/disk_manager/src/db/block_info_table.cpp 43-51 TrimAsciiSpaces *)
Definition TrimAsciiSpaces (text : string) : string := rtrim is_space (sdrop_while is_space text).

(* @src services/disk_manager/src/db/block_info_table.cpp 53-59 ReadStringOrEmpty *)
Definition ReadStringOrEmpty (jsonObject : json) (key : string) : string :=
  match json_member key jsonObject with
  | Some (JStr s) => TrimAsciiSpaces s
  | _ => ""
  end.

(* @src services/disk_manager/src/db/block_info_table.cpp 61-74 ReadUInt64OrZero *)
Definition ReadUInt64OrZero (jsonObject : json) (key : string) : Z :=
  match json_member key jsonObject with
  | Some (JUInt n) => n
  | Some (JInt n) => if 0 <=? n then n else 0
  | _ => 0
  end.

(* @src services/disk_manager/src/db/block_info_table.cpp 76-80 ReadUInt32OrZero *)
Definition ReadUInt32OrZero (jsonObject : json) (key : string) : Z :=
  let value := ReadUInt64OrZero jsonObject key in
  if value <=? UINT32_MAX then value else 0.

(* @src services/disk_manager/src/db/block_info_table.cpp 82-91 ReadInt32OrZero *)
Definition ReadInt32OrZero (jsonObject : json) (key : string) : Z :=
  match json_member key jsonObject with
  | Some (JUInt n) => i32 n
  | Some (JInt n) => i32 n
  | _ => -1
  end.

(* @src services/disk_manager/src/db/block_info_table.cpp 93-105 ReadBoolLikeOrFalse *)
Definition ReadBoolLikeOrFalse (jsonObject : json) (key : string) : bool :=
  match json_member key jsonObject with
  | Some (JBool b) => b
  | Some (JUInt n) => negb (i32 n =? 0)
  | Some (JInt n) => negb (i32 n =? 0)
  | _ => false
  end.

(** The result is the filled record and the returned flag, [None] when the value
    is not an object (the record is then untouched). *)
(* @src services/disk_manager/src/db/block_info_table.cpp 107-134 FillBlockInfo *)
Definition FillBlockInfo (jsonObject : json) : option (BlockInfo * bool) :=
  if negb (json_is_object jsonObject) then None
  else
    let b := mkBlockInfo (ReadUInt64OrZero jsonObject "sizeBytes") (ReadStringOrEmpty jsonObject "vendor")
      (ReadStringOrEmpty jsonObject "model") (ReadStringOrEmpty jsonObject "interfaceType")
      (ReadUInt32OrZero jsonObject "rpm") (ReadInt32OrZero jsonObject "rotational")
      (ReadBoolLikeOrFalse jsonObject "removable") (ReadStringOrEmpty jsonObject "serialNumber")
      (ReadStringOrEmpty jsonObject "diskId") (ReadStringOrEmpty jsonObject "devicePath")
      (ReadStringOrEmpty jsonObject "port") (ReadStringOrEmpty jsonObject "devnum")
      (ReadStringOrEmpty jsonObject "busnum") (ReadStringOrEmpty jsonObject "devNode")
      (ReadStringOrEmpty jsonObject "scsiBusNum") (ReadStringOrEmpty jsonObject "fwVersion")
      (match json_member "ODD_INFO" jsonObject with Some j => j | None => JNull end) in
    Some (b, negb (str_empty (bi_diskId b))).

(** The members in key order. *)
(* @src services/disk_manager/src/db/block_info_table.cpp 136-157 BlockInfoToJsonObject *)
Definition BlockInfoToJsonObject (b : BlockInfo) : json :=
  JObj [("ODD_INFO", bi_ODD_INFO b); ("busnum", JStr (bi_busnum b)); ("devNode", JStr (bi_devNode b));
        ("devicePath", JStr (bi_devicePath b)); ("devnum", JStr (bi_devnum b)); ("diskId", JStr (bi_diskId b));
        ("fwVersion", JStr (bi_fwVersion b)); ("interfaceType", JStr (bi_interfaceType b));
        ("model", JStr (bi_model b)); ("port", JStr (bi_port b)); ("removable", JBool (bi_removable b));
        ("rotational", JInt (bi_rotational b)); ("rpm", JUInt (bi_rpm b)); ("scsiBusNum", JStr (bi_scsiBusNum b));
        ("serialNumber", JStr (bi_serialNumber b)); ("sizeBytes", JUInt (bi_sizeBytes b)); ("vendor", JStr (bi_vendor b))].

Definition ingestObject (m : gmap string BlockInfo) (jsonObject : json) : gmap string BlockInfo :=
  match FillBlockInfo jsonObject with
  | Some (b, true) => <[bi_diskId b := b]> m
  | _ => m
  end.
Definition walkArray (m : gmap string BlockInfo) (jsonArray : list json) : gmap string BlockInfo :=
  fold_left (fun m j => if json_is_object j then ingestObject m j else m)
            (take (Nat.min (List.length jsonArray) BLOCK_INFO_MAX_COUNT) jsonArray) m.

(* @src services/disk_manager/src/db/block_info_table.cpp 159-197 UpsertObjectsIntoMap *)
Definition UpsertObjectsIntoMap (m : gmap string BlockInfo) (rootJson : json) : gmap string BlockInfo :=
  match rootJson with
  | JArr l => walkArray m l
  | JObj _ =>
      match json_member "blocks" rootJson with
      | Some (JArr l) => walkArray m l
      | _ => ingestObject m rootJson
      end
  | _ => m
  end.

Section text.
Context {JT : JsonText}.

(** The text of a daemon reply; [None] is [ERR_INVALID_DATA]. *)
Definition parse_reply (jsonString : string) : option (gmap string BlockInfo) :=
  if str_empty jsonString then Some ∅ else UpsertObjectsIntoMap ∅ <$> json_parse jsonString.

(* @src services/disk_manager/src/db/block_info_table.cpp 248-259 BlockInfoTable::ToJsonStringWithExtras *)
Definition ToJsonStringWithExtras (b : BlockInfo) (extraKeyValues : list (string * string)) : string :=
  json_dump (fold_left (fun j kv => json_set kv.1 (JStr kv.2) j) extraKeyValues (BlockInfoToJsonObject b)).

(** * Properties *)

(** What the parser produces for a description printed by the service. *)
Definition BlockInfo_ok (b : BlockInfo) : Prop :=
  in_u64 (bi_sizeBytes b) /\ in_u32 (bi_rpm b) /\ in_i32 (bi_rotational b) /\
  json_plain (bi_ODD_INFO b) = true /\ json_norm (bi_ODD_INFO b) = bi_ODD_INFO b /\ bi_diskId b <> "" /\
  Forall (fun s => TrimAsciiSpaces s = s /\ sforall is_ascii7 s = true)
    [bi_vendor b; bi_model b; bi_interfaceType b; bi_serialNumber b; bi_diskId b; bi_devicePath b; bi_port b;
     bi_devnum b; bi_busnum b; bi_devNode b; bi_scsiBusNum b; bi_fwVersion b].

(** Evaluates the lookups of literal member names. *)
Ltac read_members :=
  repeat match goal with
         | |- context [json_member ?k ?j] => let v := eval lazy in (json_member k j) in change (json_member k j) with v
         end; cbv beta iota.

(** Round trip: the JSON text of a block description parses back to the same
    description, under its own disk id. *)
Theorem BlockInfo_json_roundtrip b :
  BlockInfo_ok b -> parse_reply (ToJsonStringWithExtras b []) = Some {[ bi_diskId b := b ]}.
Proof.
  intros (Hs & Hr & Hro & Hp & Hn & Hd & Hall). unfold parse_reply, ToJsonStringWithExtras. simpl fold_left.
  destruct (str_empty _) eqn:He; [exfalso; apply str_empty_true in He; by apply json_dump_nonempty in He|].
  repeat (apply Forall_cons in Hall as [[?Ht ?Ha] Hall]).
  rewrite json_parse_dump.
  - cbn [fmap option_fmap option_map]. f_equal.
    assert (Hf : FillBlockInfo (json_norm (BlockInfoToJsonObject b)) = Some (b, true)).
    { unfold FillBlockInfo, ReadInt32OrZero, ReadStringOrEmpty, ReadUInt32OrZero, ReadUInt64OrZero, ReadBoolLikeOrFalse.
      destruct b as [? ? ? ? rpm rot ? ? ? ? ? ? ? ? ? ? odd].
      unfold BlockInfoToJsonObject. cbn [json_norm map fst snd json_is_object negb].
      cbn [bi_rpm bi_rotational bi_ODD_INFO bi_vendor bi_model bi_interfaceType bi_serialNumber bi_diskId bi_devicePath bi_port bi_devnum bi_busnum bi_devNode bi_scsiBusNum bi_fwVersion bi_sizeBytes bi_removable] in *. unfold in_u32 in Hr.
      rewrite Hn. pose proof (i32_id rot Hro) as Hi.
      destruct (0 <=? rot); read_members; rewrite Hi, (proj2 (Z.leb_le rpm UINT32_MAX)) by lia;
        repeat match goal with H : TrimAsciiSpaces ?s = ?s |- _ => rewrite !H; clear H end;
        by rewrite (proj2 (str_empty_false _) Hd). }
    unfold UpsertObjectsIntoMap, ingestObject. simpl json_norm in Hf |- *. cbn [json_member find_if]. rewrite Hf.
    reflexivity.
  - unfold json_plain in *. apply andb_true_iff in Hp as [Hp1 Hp2]. simpl.
    rewrite Hp1, Hp2. repeat match goal with H : sforall is_ascii7 _ = true |- _ => rewrite H; clear H end.
    unfold_ints. simpl. repeat rewrite (proj2 (Z.leb_le _ _)) by lia. done.
Qed.

Lemma ingestObject_inv m j :
  map_Forall (fun k b => bi_diskId b = k /\ k <> "") m -> map_Forall (fun k b => bi_diskId b = k /\ k <> "") (ingestObject m j).
Proof.
  intros H. unfold ingestObject. destruct (FillBlockInfo j) as [[b []]|] eqn:Hf; [|done..].
  apply map_Forall_insert_2; [|done]. split; [done|]. unfold FillBlockInfo in Hf.
  destruct (negb (json_is_object j)); [done|]. injection Hf as <- Hd. simpl. bsimp. done.
Qed.
Lemma ingestObject_size m j : (size (ingestObject m j) <= S (size m))%nat.
Proof.
  unfold ingestObject. destruct (FillBlockInfo j) as [[b []]|]; [|lia..].
  destruct (m !! bi_diskId b) eqn:E; [rewrite map_size_insert_Some by done; lia|rewrite map_size_insert_None by done; lia].
Qed.
Lemma walkArray_facts l m :
  map_Forall (fun k b => bi_diskId b = k /\ k <> "") m ->
  map_Forall (fun k b => bi_diskId b = k /\ k <> "") (walkArray m l) /\ (size (walkArray m l) <= size m + BLOCK_INFO_MAX_COUNT)%nat.
Proof.
  unfold walkArray. set (l' := take _ l).
  assert (Hl : (List.length l' <= BLOCK_INFO_MAX_COUNT)%nat) by (unfold l'; rewrite length_take; lia).
  enough (Hg : forall l' m, map_Forall (fun k b => bi_diskId b = k /\ k <> "") m ->
     let m' := fold_left (fun m j => if json_is_object j then ingestObject m j else m) l' m in
     map_Forall (fun k b => bi_diskId b = k /\ k <> "") m' /\ (size m' <= size m + List.length l')%nat).
  { intros Hm. destruct (Hg l' m Hm). split; [done|]. lia. }
  clear. induction l' as [|j l' IH]; intros m Hm; simpl; [split; [done|lia]|].
  destruct (json_is_object j).
  - destruct (IH _ (ingestObject_inv m j Hm)) as [? Hsz]. split; [done|]. pose proof (ingestObject_size m j). lia.
  - destruct (IH m Hm). split; [done|]. lia.
Qed.

Lemma parse_reply_facts text m :
  parse_reply text = Some m ->
  (size m <= BLOCK_INFO_MAX_COUNT)%nat /\ map_Forall (fun k b => bi_diskId b = k /\ k <> "") m.
Proof.
  unfold parse_reply. destruct (str_empty text).
  - intros [= <-]. rewrite map_size_empty. split; [unfold BLOCK_INFO_MAX_COUNT; lia|apply map_Forall_empty].
  - destruct (json_parse text) as [j|]; simpl; [|done]. intros [= <-].
    assert (H0 : map_Forall (fun k b => bi_diskId b = k /\ k <> "") (∅ : gmap string BlockInfo)) by apply map_Forall_empty.
    assert (Hi : forall j, (size (ingestObject ∅ j) <= BLOCK_INFO_MAX_COUNT)%nat).
    { intros j'. pose proof (ingestObject_size ∅ j'). rewrite map_size_empty in *. unfold BLOCK_INFO_MAX_COUNT. lia. }
    assert (Hw : forall l, (size (walkArray ∅ l) <= BLOCK_INFO_MAX_COUNT)%nat).
    { intros l. destruct (walkArray_facts l ∅ H0) as [_ Hs]. rewrite map_size_empty in Hs. lia. }
    unfold UpsertObjectsIntoMap. destruct j; try (split; [rewrite map_size_empty; unfold BLOCK_INFO_MAX_COUNT; lia|done]).
    + split; [apply Hw|by apply walkArray_facts].
    + destruct (json_member _ _) as [[]|];
        (split; [first [apply Hw|apply Hi]|first [by apply walkArray_facts|by apply ingestObject_inv]]).
Qed.

(** C34: At most 20 devices of a reply enter the table, each under its own non-empty id. *)
Theorem parse_reply_bounded text m :
  parse_reply text = Some m ->
  (size m <= BLOCK_INFO_MAX_COUNT)%nat /\ map_Forall (fun k b => bi_diskId b = k /\ k <> "") m.
Proof. apply parse_reply_facts. Qed.
End text.

(** A USB disk, with the concrete text coding of [Json]. *)
Definition usb_block : BlockInfo :=
  mkBlockInfo 64000000000 "Kingston" "DataTraveler 3.0" "usb" 0 (-1) true "0019E06B" "disk-8-0"
    "/devices/platform/usbhost/8-0" "1-1" "4" "1" "/dev/sda" "0:0:0:0" "PMAP" JNull.
Lemma BlockInfo_json_roundtrip_witness :
  @parse_reply coded_json (@ToJsonStringWithExtras coded_json usb_block []) = Some {[ "disk-8-0" := usb_block ]}.
Proof.
  apply (@BlockInfo_json_roundtrip coded_json usb_block). repeat split; try done. repeat constructor; done.
Defined.
Lemma parse_reply_bounded_witness :
  (size ({[ "disk-8-0" := usb_block ]} : gmap string BlockInfo) <= BLOCK_INFO_MAX_COUNT)%nat /\
  map_Forall (fun k b => bi_diskId b = k /\ k <> "") ({[ "disk-8-0" := usb_block ]} : gmap string BlockInfo).
Proof.
  apply (@parse_reply_bounded coded_json (@ToJsonStringWithExtras coded_json usb_block [])). vm_compute. reflexivity.
Defined.
