(* ===== verification/World.v ===== *)
(** * The state of the service and its environment

    [World] is the state a handler of the service reads and writes: the members
    of [DiskManager], of [UeventBootstrap], of [BlockInfoTable] and of
    [StorageDaemonAdapter] ([Shared]), the uuid store, and the environment.
    Everything outside the process (storage_daemon, the kernel, other system
    services, dynamically loaded libraries) is the class [Env]: it answers
    requests, and while a request is pending other threads of the service may
    change the shared members whose lock the caller does not hold. Every request
    and every published event is recorded in a trace. *)
From S2P Require Import Prelude CppString Types State Json BlockInfo.

(** ** Requests that leave the process *)
Inductive Req : Type :=
  (* connecting to storage_daemon *)
  | RGetSystemAbilityManager | RGetSystemAbility | RIfaceCast | RNewDeathRecipient
  (* IStorageDaemon *)
  | SdQueryUsbIsInUse (diskPath : string)
  | SdCreateBlockDeviceNode (devPath : string) (mode major minor : Z)
  | SdDestroyBlockDeviceNode (devPath : string)
  | SdReadPartitionTable (devPath : string)
  | SdQueryCDStatus (devPath : string)
  | SdMount (devPath mountPath fsType : string) (mountFlag : Z) (mountData : string)
  | SdUnmount (mountPath fsType : string) (force : bool)
  | SdFormatVolume (devPath fsType diskPath partitionType : string) (partitionNum : Z)
  | SdCheck (devPath fsType : string)
  | SdRepair (devPath fsType : string)
  | SdSetLabel (devPath fsType label : string)
  | SdReadMetadata (devPath : string)
  | SdGetCapacity (devPath : string)
  | SdMountFuseDevice (mountPath : string)
  | SdPartition (diskPath partitionType : string)
  | SdGetBlockInfoByType (type diskId : string)
  | SdGetPartitionTableInfo (devPath : string)
  | SdCreatePartition (devPath : string) (partitionNum startSector endSector : Z) (typeCode : string)
  | SdDeletePartitionInfo (devPath diskId : string) (partitionNum : Z)
  | SdFormatPartition (devPath fsType volumeName : string) (cmd : list string) (quickFormat : bool)
  | SdErase (devPath : string)
  | SdEject (devName : string)
  | SdCreateIsoImage (devPath filePath fsType mountPath : string)
  | SdBurn (devPath burnOptions fsType : string)
  | SdGetVolumeOpProcess (volumeId : string)
  | SdGetDiskSize (devName : string)
  | SdExecuteCommand (cmd : list string)
  | SdCreateDmLinear (sourceDevPath : string) (startSector sectorCount : Z)
  (* parameters, kernel, libraries *)
  | GetParameter (key : string)
  | GetBoolParameter (key : string)
  | FindParameter (key : string)
  | Statvfs (path : string)
  | ProcMounts
  | Getxattr (path key : string)
  | CloseFd (fd : Z)
  | FuseNotifyMount (fuseFd : Z) (volumeId fsUuid : string)
  | FuseNotifyUmount (volumeId : string)
  | FuseIsByType (fsType : string)
  | PcEncQuery (volPath : string)
  | PcEncNotifyMounted (diskId volumeId volPath : string)
  | EdmNotifyDevice (type : Z) (devicePath volumeId : string) (mountStatus : bool) (vendorId productId : Z) (serial : string)
  | EdmIsAllowedOddBurn (userId vid pid : Z) (sn : string)
  | ReportSecurityInfo (userId : Z) (appId fsType : string) (eventId : Z)
  | ReadFile (path : string)
  | Readlink (path : string)
  | AccessFile (path : string)
  | Opendir (path : string)
  | StatRdev (path : string)
  | RandomDraws (seed : string)
  | Fnmatch (pattern text : string)
  | SleepSeconds (n : Z)
  | WaitUntil (diskId : string)
  | VerifyAccessToken (permission : string)
  | IsHapToken
  | IsNativeToken
  | IsSystemAppToken
  | GetNativeTokenInfo
  | GetHapTokenInfo
  | AcquireAuthorization (privilege : string)
  | WaitAuthorization
  | ReleaseAuthorization (privilege : string)
  | RealPath (path : string)
  | PublishService
  | ReportDiag (text : string)
  | GetCallingUid
  | UnloadSystemAbility.
#[export] Instance Req_eq_dec : EqDecision Req.
Proof. solve_decision. Defined.

(** The out parameters and the result of a request. *)
Record Ans : Type := mkAns {
  an_ret : Z;
  an_int : Z;
  an_int2 : Z;
  an_int3 : Z;
  an_bool : bool;
  an_str : string;
  an_str2 : string;
  an_str3 : string;
  an_strs : list string;
}.
Definition Ans_ok : Ans := mkAns 0 0 0 0 false "" "" "" [].

(** ** Published events *)
Inductive CommonEvent : Set :=
  | COMMON_EVENT_VOLUME_REMOVED | COMMON_EVENT_VOLUME_UNMOUNTED | COMMON_EVENT_VOLUME_MOUNTED
  | COMMON_EVENT_VOLUME_BAD_REMOVAL | COMMON_EVENT_VOLUME_EJECT | COMMON_EVENT_DISK_UNMOUNTABLE
  | COMMON_EVENT_DISK_BAD_REMOVAL | COMMON_EVENT_DISK_VOLUME_STATE_CHANGE
  | COMMON_EVENT_DISK_MOUNTED | COMMON_EVENT_DISK_REMOVED.
Inductive WantParam : Type := PStr (s : string) | PInt (z : Z) | PLong (z : Z).
Record Want : Type := mkWant { want_action : CommonEvent; want_params : list (string * WantParam) }.

Inductive Act : Type := AReq (r : Req) (ret : Z) | AEvt (e : Want).

(** One line of the disk configuration. *)
(* @src services/disk_manager/include/disk/disk_config.h 22-33 DiskConfig *)
Record DiskConfig : Type := mkDiskConfig { dc_sysPattern : string; dc_label : string; dc_flag : Z }.

(** The atomics of the provider and whether its idle timer runs. *)
(* @src services/disk_manager/include/ipc/disk_manager_provider.h 113-125 DiskManagerProvider *)
Record ProviderState : Type := mkProviderState {
  pv_idleTimer : bool;
  pv_idleMonitorStopped : bool;
  pv_pendingCallbacks : Z;
  pv_isUnloading : bool;
  pv_formatBusy : bool;
}.

(** ** Shared state

    [std::map] members are [gmap]s, iterated with [sorted_entries]. *)
(* @src services/disk_manager/include/disk/disk_manager.h 266-277 DiskManager *)
Record Shared : Type := mkShared {
  sh_disks : gmap string Disk;
  sh_vols : gmap string VolumeExternal;
  sh_partitionDone : gmap string bool;
  sh_partitionTable : gmap string PartitionTableInfo;
  sh_partitioning : gset string;
  sh_snapshot : gmap string (list PartitionRecord);
  sh_blockInfo : gmap string BlockInfo;
  sh_sdReady : bool;
  sh_configs : list DiskConfig;
  sh_prov : ProviderState;
}.

(** Updates of one member. *)
Definition upd_disks (f : gmap string Disk -> gmap string Disk) (sh : Shared) : Shared :=
  mkShared (f (sh_disks sh)) (sh_vols sh) (sh_partitionDone sh) (sh_partitionTable sh) (sh_partitioning sh) (sh_snapshot sh) (sh_blockInfo sh) (sh_sdReady sh) (sh_configs sh) (sh_prov sh).
Definition upd_vols (f : gmap string VolumeExternal -> gmap string VolumeExternal) (sh : Shared) : Shared :=
  mkShared (sh_disks sh) (f (sh_vols sh)) (sh_partitionDone sh) (sh_partitionTable sh) (sh_partitioning sh) (sh_snapshot sh) (sh_blockInfo sh) (sh_sdReady sh) (sh_configs sh) (sh_prov sh).
Definition upd_partitionDone (f : gmap string bool -> gmap string bool) (sh : Shared) : Shared :=
  mkShared (sh_disks sh) (sh_vols sh) (f (sh_partitionDone sh)) (sh_partitionTable sh) (sh_partitioning sh) (sh_snapshot sh) (sh_blockInfo sh) (sh_sdReady sh) (sh_configs sh) (sh_prov sh).
Definition upd_partitionTable (f : gmap string PartitionTableInfo -> gmap string PartitionTableInfo) (sh : Shared) : Shared :=
  mkShared (sh_disks sh) (sh_vols sh) (sh_partitionDone sh) (f (sh_partitionTable sh)) (sh_partitioning sh) (sh_snapshot sh) (sh_blockInfo sh) (sh_sdReady sh) (sh_configs sh) (sh_prov sh).
Definition upd_partitioning (f : gset string -> gset string) (sh : Shared) : Shared :=
  mkShared (sh_disks sh) (sh_vols sh) (sh_partitionDone sh) (sh_partitionTable sh) (f (sh_partitioning sh)) (sh_snapshot sh) (sh_blockInfo sh) (sh_sdReady sh) (sh_configs sh) (sh_prov sh).
Definition upd_snapshot (f : gmap string (list PartitionRecord) -> gmap string (list PartitionRecord)) (sh : Shared) : Shared :=
  mkShared (sh_disks sh) (sh_vols sh) (sh_partitionDone sh) (sh_partitionTable sh) (sh_partitioning sh) (f (sh_snapshot sh)) (sh_blockInfo sh) (sh_sdReady sh) (sh_configs sh) (sh_prov sh).
Definition upd_blockInfo (f : gmap string BlockInfo -> gmap string BlockInfo) (sh : Shared) : Shared :=
  mkShared (sh_disks sh) (sh_vols sh) (sh_partitionDone sh) (sh_partitionTable sh) (sh_partitioning sh) (sh_snapshot sh) (f (sh_blockInfo sh)) (sh_sdReady sh) (sh_configs sh) (sh_prov sh).
Definition upd_sdReady (f : bool -> bool) (sh : Shared) : Shared :=
  mkShared (sh_disks sh) (sh_vols sh) (sh_partitionDone sh) (sh_partitionTable sh) (sh_partitioning sh) (sh_snapshot sh) (sh_blockInfo sh) (f (sh_sdReady sh)) (sh_configs sh) (sh_prov sh).
Definition upd_configs (f : list DiskConfig -> list DiskConfig) (sh : Shared) : Shared :=
  mkShared (sh_disks sh) (sh_vols sh) (sh_partitionDone sh) (sh_partitionTable sh) (sh_partitioning sh) (sh_snapshot sh) (sh_blockInfo sh) (sh_sdReady sh) (f (sh_configs sh)) (sh_prov sh).
Definition upd_prov (f : ProviderState -> ProviderState) (sh : Shared) : Shared :=
  mkShared (sh_disks sh) (sh_vols sh) (sh_partitionDone sh) (sh_partitionTable sh) (sh_partitioning sh) (sh_snapshot sh) (sh_blockInfo sh) (sh_sdReady sh) (sh_configs sh) (f (sh_prov sh)).

(** The locks held during a request. *)
Record Locks : Type := mkLocks { lk_disk : bool; lk_vol : bool; lk_part : bool }.
Definition lk_none : Locks := mkLocks false false false.
Definition lk_D : Locks := mkLocks true false false.
Definition lk_V : Locks := mkLocks false true false.
Definition lk_DV : Locks := mkLocks true true false.
Definition lk_P : Locks := mkLocks false false true.

(** What other threads may do while a request is pending: [others], cut down to
    the members whose lock is free. *)
Definition interfere (lk : Locks) (others : Shared -> Shared) (sh : Shared) : Shared :=
  let sh' := others sh in
  mkShared (if lk_disk lk then sh_disks sh else sh_disks sh')
           (if lk_vol lk then sh_vols sh else sh_vols sh')
           (if lk_part lk then sh_partitionDone sh else sh_partitionDone sh')
           (if lk_part lk then sh_partitionTable sh else sh_partitionTable sh')
           (if lk_part lk then sh_partitioning sh else sh_partitioning sh')
           (sh_snapshot sh') (sh_blockInfo sh') (sh_sdReady sh') (sh_configs sh') (sh_prov sh').

Class Env (E : Type) : Type := {
  env_answer : E -> Req -> Ans * E;
  env_others : E -> (Shared -> Shared) * E;
  (* [errors.h] of the platform *)
  env_ERR_INVALID_DATA : Z;
}.

(** ** The uuid store, as its clients see it

    The laws its clients rely on are [PathStoreLaws] of [Safety]. *)
Class PathStore (St : Type) : Type := {
  ps_Init : State St Z;
  ps_TryGetMountPath : string -> State St (option string);
  ps_ResolveMountPath : string -> State St (Z * option string * bool);
  ps_RemoveByFsUuid : string -> State St Z;
  ps_ReplaceFsUuid : string -> string -> State St Z;
}.

(** ** The world *)
Record World (E St : Type) : Type := mkWorld {
  w_sh : Shared;
  w_store : St;
  w_env : E;
  w_trace : list Act;
}.
Arguments mkWorld {E St}. Arguments w_sh {E St}. Arguments w_store {E St}.
Arguments w_env {E St}. Arguments w_trace {E St}.

Section world.
Context {E St : Type} {EV : Env E} {PS : PathStore St}.
Notation M := (State (World E St)).

Definition set_sh (f : Shared -> Shared) : M unit :=
  smodify (fun w => mkWorld (f (w_sh w)) (w_store w) (w_env w) (w_trace w)).
Definition get_sh {A} (f : Shared -> A) : M A := sget (fun w => f (w_sh w)).

Definition set_disks (f : gmap string Disk -> gmap string Disk) : M unit := set_sh (upd_disks f).
Definition set_vols (f : gmap string VolumeExternal -> gmap string VolumeExternal) : M unit := set_sh (upd_vols f).
Definition set_partitionDone (f : gmap string bool -> gmap string bool) : M unit := set_sh (upd_partitionDone f).
Definition set_partitionTable (f : gmap string PartitionTableInfo -> gmap string PartitionTableInfo) : M unit := set_sh (upd_partitionTable f).
Definition set_partitioning (f : gset string -> gset string) : M unit := set_sh (upd_partitioning f).
Definition set_snapshot (f : gmap string (list PartitionRecord) -> gmap string (list PartitionRecord)) : M unit := set_sh (upd_snapshot f).
Definition set_blockInfo (x : gmap string BlockInfo) : M unit := set_sh (upd_blockInfo (fun _ => x)).
Definition set_sdReady (x : bool) : M unit := set_sh (upd_sdReady (fun _ => x)).
Definition set_prov (f : ProviderState -> ProviderState) : M unit := set_sh (upd_prov f).
Definition set_configs (f : list DiskConfig -> list DiskConfig) : M unit := set_sh (upd_configs f).

Definition get_disks : M (gmap string Disk) := get_sh sh_disks.
Definition get_vols : M (gmap string VolumeExternal) := get_sh sh_vols.

(** A point where other threads may run: between two critical sections. *)
Definition yield (lk : Locks) : M unit := fun w =>
  let (others, env) := env_others (w_env w) in
  (tt, mkWorld (interfere lk others (w_sh w)) (w_store w) env (w_trace w)).

(** A request: the environment answers, and other threads may have run. *)
Definition request (r : Req) : M Ans := fun w =>
  let (a, env) := env_answer (w_env w) r in
  (a, mkWorld (w_sh w) (w_store w) env (AReq r (an_ret a) :: w_trace w)).
Definition call (lk : Locks) (r : Req) : M Ans := let! a := request r in do! yield lk in sret a.

(** [EventFwk::CommonEventManager::PublishCommonEvent] *)
Definition publish (lk : Locks) (e : Want) : M unit :=
  do! smodify (fun w => mkWorld (w_sh w) (w_store w) (w_env w) (AEvt e :: w_trace w)) in yield lk.

Definition fin (e : DiskManagerErrNo) : M Z := sret (errno e).

(** An operation of the uuid store. *)
Definition store {A} (m : State St A) : M A :=
  szoom w_store (fun s w => mkWorld (w_sh w) s (w_env w) (w_trace w)) m.

(** ** [services/disk_manager/src/adapter/storage_daemon_adapter.cpp] *)

(* @src services/disk_manager/src/adapter/storage_daemon_adapter.cpp 65-93 StorageDaemonAdapter::Connect *)
Definition Connect (lk : Locks) : M Z :=
  let! ready := get_sh sh_sdReady in
  if negb ready then
    let! sam := call lk RGetSystemAbilityManager in
    if negb (an_bool sam) then sret (errno E_SA_IS_NULLPTR)
    else
      let! object := call lk RGetSystemAbility in
      if negb (an_bool object) then sret (errno E_REMOTE_IS_NULLPTR)
      else
        let! proxy := call lk RIfaceCast in
        if negb (an_bool proxy) then sret (errno E_SERVICE_IS_NULLPTR)
        else
          do! set_sdReady true in
          let! recipient := call lk RNewDeathRecipient in
          if negb (an_bool recipient) then sret (errno E_DEATH_RECIPIENT_IS_NULLPTR)
          else sret (errno E_OK)
  else sret (errno E_OK).

(* @src services/disk_manager/src/adapter/storage_daemon_adapter.cpp 95-106 StorageDaemonAdapter::EnsureProxyReady *)
Definition EnsureProxyReady (lk : Locks) : M Z :=
  let! err := Connect lk in
  if negb (err =? E_OK) then sret err
  else
    let! ready := get_sh sh_sdReady in
    if negb ready then sret (errno E_SERVICE_IS_NULLPTR) else sret (errno E_OK).

(* @src services/disk_manager/src/adapter/storage_daemon_adapter.cpp 107-123 StorageDaemonAdapter::ResetSdProxy *)
Definition ResetSdProxy : M Z := do! set_sdReady false in sret (errno E_OK).

(** The shape every forwarding method has: check the proxy, forward, return the
    daemon's result. The out parameters keep [dflt] when nothing is forwarded. *)
Definition sd_forward (lk : Locks) (dflt : Ans) (r : Req) : M Ans :=
  let! err := EnsureProxyReady lk in
  if negb (err =? E_OK) then
    sret (mkAns err (an_int dflt) (an_int2 dflt) (an_int3 dflt) (an_bool dflt) (an_str dflt) (an_str2 dflt) (an_str3 dflt) (an_strs dflt))
  else call lk r.
Definition sd_simple (lk : Locks) (r : Req) : M Z := let! a := sd_forward lk Ans_ok r in sret (an_ret a).

(* @src services/disk_manager/src/adapter/storage_daemon_adapter.cpp 126-137 StorageDaemonAdapter::QueryUsbIsInUse *)
Definition Sd_QueryUsbIsInUse (lk : Locks) (diskPath : string) : M (Z * bool) :=
  let! a := sd_forward lk (mkAns 0 0 0 0 true "" "" "" []) (SdQueryUsbIsInUse diskPath) in sret (an_ret a, an_bool a).
(* @src services/disk_manager/src/adapter/storage_daemon_adapter.cpp 139-154 StorageDaemonAdapter::CreateBlockDeviceNode *)
Definition Sd_CreateBlockDeviceNode (lk : Locks) (devPath : string) (mode major minor : Z) : M Z :=
  sd_simple lk (SdCreateBlockDeviceNode devPath mode major minor).
(* @src services/disk_manager/src/adapter/storage_daemon_adapter.cpp 156-167 StorageDaemonAdapter::DestroyBlockDeviceNode *)
Definition Sd_DestroyBlockDeviceNode (lk : Locks) (devPath : string) : M Z :=
  sd_simple lk (SdDestroyBlockDeviceNode devPath).
(* @src services/disk_manager/src/adapter/storage_daemon_adapter.cpp 169-184 StorageDaemonAdapter::ReadPartitionTable *)
Definition Sd_ReadPartitionTable (lk : Locks) (devPath : string) (maxVolume : Z) : M (Z * string * Z) :=
  let! a := sd_forward lk (mkAns 0 maxVolume 0 0 false "" "" "" []) (SdReadPartitionTable devPath) in
  sret (an_ret a, an_str a, an_int a).
(* @src services/disk_manager/src/adapter/storage_daemon_adapter.cpp 186-197 StorageDaemonAdapter::QueryCDStatus *)
Definition Sd_QueryCDStatus (lk : Locks) (devPath : string) (status : Z) : M (Z * Z) :=
  let! a := sd_forward lk (mkAns 0 status 0 0 false "" "" "" []) (SdQueryCDStatus devPath) in sret (an_ret a, an_int a).
(* @src services/disk_manager/src/adapter/storage_daemon_adapter.cpp 199-221 StorageDaemonAdapter::Mount *)
Definition Sd_Mount (lk : Locks) (devPath mountPath fsType : string) (mountFlag : Z) (mountData : string) : M Z :=
  sd_simple lk (SdMount devPath mountPath fsType mountFlag mountData).
(* @src services/disk_manager/src/adapter/storage_daemon_adapter.cpp 223-237 StorageDaemonAdapter::Unmount *)
Definition Sd_Unmount (lk : Locks) (mountPath fsType : string) (force : bool) : M Z :=
  sd_simple lk (SdUnmount mountPath fsType force).
(* @src services/disk_manager/src/adapter/storage_daemon_adapter.cpp 239-254 StorageDaemonAdapter::FormatVolume *)
Definition Sd_FormatVolume (lk : Locks) (devPath fsType diskPath partitionType : string) (partitionNum : Z) : M Z :=
  sd_simple lk (SdFormatVolume devPath fsType diskPath partitionType partitionNum).
(* @src services/disk_manager/src/adapter/storage_daemon_adapter.cpp 256-267 StorageDaemonAdapter::Check *)
Definition Sd_Check (lk : Locks) (devPath fsType : string) : M Z := sd_simple lk (SdCheck devPath fsType).
(* @src services/disk_manager/src/adapter/storage_daemon_adapter.cpp 269-280 StorageDaemonAdapter::Repair *)
Definition Sd_Repair (lk : Locks) (devPath fsType : string) : M Z := sd_simple lk (SdRepair devPath fsType).
(* @src services/disk_manager/src/adapter/storage_daemon_adapter.cpp 282-297 StorageDaemonAdapter::SetLabel *)
Definition Sd_SetLabel (lk : Locks) (devPath fsType label : string) : M Z := sd_simple lk (SdSetLabel devPath fsType label).
(** Result, uuid, type and label. *)
(* @src services/disk_manager/src/adapter/storage_daemon_adapter.cpp 299-317 StorageDaemonAdapter::ReadMetadata *)
Definition Sd_ReadMetadata (lk : Locks) (devPath : string) : M (Z * string * string * string) :=
  let! a := sd_forward lk Ans_ok (SdReadMetadata devPath) in sret (an_ret a, an_str a, an_str2 a, an_str3 a).
(* @src services/disk_manager/src/adapter/storage_daemon_adapter.cpp 319-331 StorageDaemonAdapter::GetCapacity *)
Definition Sd_GetCapacity (lk : Locks) (devPath : string) (totalSize freeSize : Z) : M (Z * Z * Z) :=
  let! a := sd_forward lk (mkAns 0 totalSize freeSize 0 false "" "" "" []) (SdGetCapacity devPath) in
  sret (an_ret a, an_int a, an_int2 a).
(* @src services/disk_manager/src/adapter/storage_daemon_adapter.cpp 333-344 StorageDaemonAdapter::MountFuseDevice *)
Definition Sd_MountFuseDevice (lk : Locks) (mountPath : string) (fuseFd : Z) : M (Z * Z) :=
  let! a := sd_forward lk (mkAns 0 fuseFd 0 0 false "" "" "" []) (SdMountFuseDevice mountPath) in sret (an_ret a, an_int a).
(* @src services/disk_manager/src/adapter/storage_daemon_adapter.cpp 346-358 StorageDaemonAdapter::Partition *)
Definition Sd_Partition (lk : Locks) (diskPath partitionType : string) : M Z := sd_simple lk (SdPartition diskPath partitionType).
(* @src services/disk_manager/src/adapter/storage_daemon_adapter.cpp 360-373 StorageDaemonAdapter::GetBlockInfoByType *)
Definition Sd_GetBlockInfoByType (lk : Locks) (type diskId : string) : M (Z * string) :=
  let! a := sd_forward lk Ans_ok (SdGetBlockInfoByType type diskId) in sret (an_ret a, an_str a).
(* @src services/disk_manager/src/adapter/storage_daemon_adapter.cpp 375-389 StorageDaemonAdapter::GetPartitionTableInfo *)
Definition Sd_GetPartitionTableInfo (lk : Locks) (devPath : string) : M (Z * string) :=
  let! a := sd_forward lk Ans_ok (SdGetPartitionTableInfo devPath) in sret (an_ret a, an_str a).
(* @src services/disk_manager/src/adapter/storage_daemon_adapter.cpp 391-406 StorageDaemonAdapter::CreatePartition *)
Definition Sd_CreatePartition (lk : Locks) (devPath : string) (partitionNum startSector endSector : Z) (typeCode : string) : M Z :=
  sd_simple lk (SdCreatePartition devPath partitionNum startSector endSector typeCode).
(* @src services/disk_manager/src/adapter/storage_daemon_adapter.cpp 408-424 StorageDaemonAdapter::DeletePartition *)
Definition Sd_DeletePartition (lk : Locks) (devPath diskId : string) (partitionNum : Z) : M Z :=
  sd_simple lk (SdDeletePartitionInfo devPath diskId partitionNum).
(* @src services/disk_manager/src/adapter/storage_daemon_adapter.cpp 426-443 StorageDaemonAdapter::FormatPartition *)
Definition Sd_FormatPartition (lk : Locks) (devPath fsType volumeName : string) (cmd : list string) (quickFormat : bool) : M Z :=
  sd_simple lk (SdFormatPartition devPath fsType volumeName cmd quickFormat).
(* @src services/disk_manager/src/adapter/storage_daemon_adapter.cpp 445-458 StorageDaemonAdapter::Erase *)
Definition Sd_Erase (lk : Locks) (devPath : string) : M Z := sd_simple lk (SdErase devPath).
(* @src services/disk_manager/src/adapter/storage_daemon_adapter.cpp 460-473 StorageDaemonAdapter::Eject *)
Definition Sd_Eject (lk : Locks) (devName : string) : M Z := sd_simple lk (SdEject devName).
(* @src services/disk_manager/src/adapter/storage_daemon_adapter.cpp 475-492 StorageDaemonAdapter::CreateIsoImage *)
Definition Sd_CreateIsoImage (lk : Locks) (devPath filePath fsType mountPath : string) : M Z :=
  sd_simple lk (SdCreateIsoImage devPath filePath fsType mountPath).
(* @src services/disk_manager/src/adapter/storage_daemon_adapter.cpp 494-510 StorageDaemonAdapter::Burn *)
Definition Sd_Burn (lk : Locks) (devPath burnOptions fsType : string) : M Z := sd_simple lk (SdBurn devPath burnOptions fsType).
(* @src services/disk_manager/src/adapter/storage_daemon_adapter.cpp 512-523 StorageDaemonAdapter::GetVolumeOpProcess *)
Definition Sd_GetVolumeOpProcess (lk : Locks) (volumeId : string) (progressPct : Z) : M (Z * Z) :=
  let! a := sd_forward lk (mkAns 0 progressPct 0 0 false "" "" "" []) (SdGetVolumeOpProcess volumeId) in sret (an_ret a, an_int a).
(* @src services/disk_manager/src/adapter/storage_daemon_adapter.cpp 525-536 StorageDaemonAdapter::GetDiskSize *)
Definition Sd_GetDiskSize (lk : Locks) (devName : string) (size : Z) : M (Z * Z) :=
  let! a := sd_forward lk (mkAns 0 size 0 0 false "" "" "" []) (SdGetDiskSize devName) in sret (an_ret a, an_int a).
(** [ExecuteCommand] folds the command's exit status into the result; the answer's
    [an_int] is [execRet]. *)
(* @src services/disk_manager/src/adapter/storage_daemon_adapter.cpp 538-560 StorageDaemonAdapter::ExecuteCommand *)
Definition Sd_ExecuteCommand (lk : Locks) (cmd : list string) : M (Z * list string) :=
  let! err := EnsureProxyReady lk in
  if negb (err =? E_OK) then sret (err, [])
  else
    let! a := call lk (SdExecuteCommand cmd) in
    if negb (an_ret a =? E_OK) then sret (errno DISK_MGR_ERR, an_strs a)
    else if negb (an_int a =? E_OK) then sret (errno DISK_MGR_ERR, an_strs a)
    else sret (errno E_OK, an_strs a).
(* @src services/disk_manager/src/adapter/storage_daemon_adapter.cpp 562-580 StorageDaemonAdapter::CreateDmLinear *)
Definition Sd_CreateDmLinear (lk : Locks) (sourceDevPath : string) (startSector sectorCount dmDev : Z) : M (Z * Z) :=
  let! a := sd_forward lk (mkAns 0 dmDev 0 0 false "" "" "" []) (SdCreateDmLinear sourceDevPath startSector sectorCount) in
  sret (an_ret a, an_int a).

(** Other calls out of the process. *)
Definition sys_GetParameter (lk : Locks) (key dflt : string) : M string :=
  let! a := call lk (GetParameter key) in sret (if an_bool a then an_str a else dflt).
Definition sys_GetBoolParameter (lk : Locks) (key : string) : M bool :=
  let! a := call lk (GetBoolParameter key) in sret (an_bool a).

End world.

(** The members as the constructors of the service leave them. *)
Definition ProviderState_initial : ProviderState := mkProviderState false false 0 false false.
Definition Shared_initial : Shared := mkShared ∅ ∅ ∅ ∅ ∅ ∅ ∅ false [] ProviderState_initial.
Definition World_initial {E St : Type} (st : St) (e : E) : World E St := mkWorld Shared_initial st e [].
