(* ===== verification/Adapters.v ===== *)
(** * [services/disk_manager/src/adapter] and the block table: calls to other services

    The fuse extension and the encryption extension are shared libraries opened at
    run time, the enterprise manager is another process; each call is a request.
    For a library call the answer's [an_bool] says that the library and its symbol
    were found, for a proxy call that the proxy could be obtained. *)
From S2P Require Import Prelude CppString Types State Json BlockInfo World.

Section adapters.
Context {E St : Type} {EV : Env E} {JT : JsonText}.
Notation M := (State (World E St)).

(** ** [usb_fuse_adapter.cpp] *)
(* @src services/disk_manager/src/adapter/usb_fuse_adapter.cpp 69-87 UsbFuseAdapter::NotifyUsbFuseMount *)
Definition NotifyUsbFuseMount (fuseFd : Z) (volumeId fsUuid : string) : M Z :=
  let! a := call lk_none (FuseNotifyMount fuseFd volumeId fsUuid) in
  if negb (an_bool a) then fin E_DAEMON_IPC_FAILED
  else if negb (an_ret a =? E_OK) then fin E_DAEMON_IPC_FAILED
  else fin E_OK.

(* @src services/disk_manager/src/adapter/usb_fuse_adapter.cpp 89-107 UsbFuseAdapter::NotifyUsbFuseUmount *)
Definition NotifyUsbFuseUmount (volumeId : string) : M Z :=
  let! a := call lk_none (FuseNotifyUmount volumeId) in
  if negb (an_bool a) then fin E_DAEMON_IPC_FAILED
  else if negb (an_ret a =? E_OK) then fin E_DAEMON_IPC_FAILED
  else fin E_OK.

(** The answer's [an_int] is the out parameter [enabled], initially false. *)
(* @src services/disk_manager/src/adapter/usb_fuse_adapter.cpp 109-127 UsbFuseAdapter::IsUsbFuseByType *)
Definition IsUsbFuseByType (lk : Locks) (fsType : string) : M bool :=
  let! a := call lk (FuseIsByType fsType) in
  if negb (an_bool a) then sret false else sret (negb (an_int a =? 0)).

Definition FUSE_PARAM_SERVICE_ENTERPRISE_ENABLE : string := "const.enterprise.external_storage_device.manage.enable".
(* @src services/disk_manager/src/adapter/usb_fuse_adapter.cpp 129-140 UsbFuseAdapter::IsUsbFuseEnabledForFsType *)
Definition IsUsbFuseEnabledForFsType (lk : Locks) (fsType : string) : M bool :=
  let! enabledByCcm := sys_GetBoolParameter lk FUSE_PARAM_SERVICE_ENTERPRISE_ENABLE in
  let! enabledByType := (if enabledByCcm then IsUsbFuseByType lk fsType else sret false) in
  sret (enabledByCcm && enabledByType && negb (str_empty fsType)).

(** ** [pc_encryption_adapter.cpp] *)
(** [Some encStatus] when the query succeeded. *)
(* @src services/disk_manager/src/adapter/pc_encryption_adapter.cpp 70-92 PcEncryptionAdapter::QueryEncryptionStatus *)
Definition QueryEncryptionStatus (lk : Locks) (volPath : string) : M (option Z) :=
  let! a := call lk (PcEncQuery volPath) in
  if negb (an_bool a) then sret None
  else if negb (an_ret a =? 0) then sret None
  else sret (Some (an_int a)).

(** The call runs later on the adapter's thread pool; its result is only logged. *)
(* @src services/disk_manager/src/adapter/pc_encryption_adapter.cpp 94-118 PcEncryptionAdapter::NotifyVolumeMounted *)
Definition NotifyVolumeMounted (diskId volumeId volPath : string) : M unit :=
  let! _ := call lk_none (PcEncNotifyMounted diskId volumeId volPath) in sret tt.

(** ** [edm_adapter.cpp], the parts that do not read the disk table *)
(* @src services/disk_manager/src/adapter/edm_adapter.cpp 36-39 IsEnterpriseDevice *)
Definition IsEnterpriseDevice : M bool :=
  let! v := sys_GetParameter lk_none "const.edm.is_enterprise_device" "" in sret (v =s "true").

(* @src services/disk_manager/src/adapter/edm_adapter.cpp 45-51 IsInterceptEnabled *)
Definition IsInterceptEnabled : M bool :=
  let! ent := IsEnterpriseDevice in
  if ent then
    let! v := sys_GetParameter lk_none "persist.edm.enable_external_storage_mount_intercept" "" in sret (v =s "true")
  else sret false.

(* @src services/disk_manager/src/adapter/edm_adapter.cpp 57-61 IsSataOddBurnDisabled *)
Definition IsSataOddBurnDisabled : M bool :=
  let! ent := IsEnterpriseDevice in
  if ent then let! v := sys_GetParameter lk_none "persist.edm.disable_sata_odd_burn" "" in sret (v =s "true")
  else sret false.

(* @src services/disk_manager/src/adapter/edm_adapter.cpp 68-71 IsEdmManagedDiskType *)
Definition IsEdmManagedDiskType (diskType : Z) : bool :=
  (diskType =? SD_FLAG) || (diskType =? USB_FLAG) || (diskType =? CD_FLAG).

(** The answer's [an_bool] is the service's verdict; [an_int] is 0 when no proxy was obtained. *)
(* @src services/disk_manager/src/adapter/edm_adapter.cpp 130-149 EdmAdapter::IsExternalOddBurnAllowed *)
Definition IsExternalOddBurnAllowed (userId pid vid : Z) (sn : string) : M bool :=
  let! a := call lk_none (EdmIsAllowedOddBurn userId vid pid sn) in
  if an_int a =? 0 then sret true else sret (an_bool a).

(* @src services/disk_manager/src/adapter/edm_adapter.cpp 192-219 EdmAdapter::NotifyExternalStorageDeviceAdd *)
Definition NotifyExternalStorageDeviceAdd (volume : VolumeExternal) (disk : Disk) : M Z :=
  let! a := call lk_none (EdmNotifyDevice (disk_diskType disk) (vol_path volume) (vol_id volume)
                            (vol_state volume =? MOUNTED) (disk_vendorId disk) (disk_productId disk)
                            (disk_serialNumber disk)) in
  if negb (an_bool a) then fin E_REMOTE_IS_NULLPTR
  else if negb (an_ret a =? ERR_OK) then sret (an_ret a)
  else fin E_OK.

(** ** [BlockInfoTable], the table itself *)
(* @src services/disk_manager/src/db/block_info_table.cpp 207-234 BlockInfoTable::ReloadFromDaemon *)
Definition ReloadFromDaemon : M Z :=
  let! (errCode, blockInfosJsonString) := Sd_GetBlockInfoByType lk_none BLOCK_INFO_SCAN_PAYLOAD_TYPE "" in
  if negb (errCode =? ERR_OK) then sret errCode
  else
    match parse_reply blockInfosJsonString with
    | None => sret (env_ERR_INVALID_DATA (E := E))
    | Some nextBlockInfoMap => do! set_blockInfo nextBlockInfoMap in sret ERR_OK
    end.

(* @src services/disk_manager/src/db/block_info_table.cpp 236-246 BlockInfoTable::TryCopyByDiskId *)
Definition TryCopyByDiskId (diskId : string) : M (option BlockInfo) := get_sh (fun sh => sh_blockInfo sh !! diskId).

(* @src services/disk_manager/src/db/block_info_table.cpp 261-288 BlockInfoTable::ReadExtDiskInfoFromDaemon *)
Definition ReadExtDiskInfoFromDaemon (devName : string) (info : BlockInfo) : M (Z * BlockInfo) :=
  let! (errCode, jsonString) := Sd_GetBlockInfoByType lk_none devName (bi_diskId info) in
  if negb (errCode =? ERR_OK) then sret (errCode, info)
  else
    match parse_reply jsonString with
    | None => sret (env_ERR_INVALID_DATA (E := E), info)
    | Some nextBlockInfoMap =>
        match nextBlockInfoMap !! bi_diskId info with
        | Some b => sret (ERR_OK, b)
        | None => sret (ERR_OK, info)
        end
    end.
End adapters.
