(* ===== verification/DmQuery.v ===== *)
(** * [services/disk_manager/src/disk/disk_manager.cpp]: lookups, sizes and records

    The functions of [DiskManager] that read the disk and volume tables or change
    one entry of them. Between two critical sections other threads may run
    ([yield], or the end of a request). *)
From S2P Require Import Prelude CppString Types State Utils Json BlockInfo World Adapters.

Definition EXTERNAL_MOUNT_ROOT : string := "/mnt/data/external/".
Definition EXTERNAL_FUSE_DATA_ROOT : string := "/mnt/data/external_fuse/".
Definition EXTERNAL_DVR_ROOT : string := "/mnt/data/dvr/".
Definition FUSE_UMOUNT_FS_TYPE : string := "fuse".
Definition DEV_BLOCK_PREFIX : string := "/dev/block/".
Definition VOLDATA_PATH_PREFIX : string := "/mnt/data/voldata/data".

(* @src services/disk_manager/src/disk/disk_manager.cpp 109-116 NormalizeDiskBlockPath *)
Definition NormalizeDiskBlockPath (diskPath : string) : string :=
  if (String.length DEV_BLOCK_PREFIX <? String.length diskPath)%nat && starts_with DEV_BLOCK_PREFIX diskPath then diskPath
  else DEV_BLOCK_PREFIX +:+ diskPath.
(* @src services/disk_manager/src/disk/disk_manager.cpp 217-225 NormalizeFsTypeAsciiLower *)
Definition NormalizeFsTypeAsciiLower (fs : string) : string := to_lower fs.

(** Path of the block node of a volume or disk id. *)
Definition dev_block (id : string) : string := DEV_BLOCK_PREFIX +:+ id.

(* @src services/disk_manager/src/disk/disk_manager.cpp 285-294 AttachVolumeIdsToDisk *)
Definition AttachVolumeIdsToDisk (volumeMap : gmap string VolumeExternal) (disk : Disk) : Disk :=
  Disk_SetVolumeIds (map (fun kv => vol_id kv.2)
                         (List.filter (fun kv => vol_diskId kv.2 =s disk_diskId disk) (sorted_entries volumeMap))) disk.

(* @src services/disk_manager/src/disk/disk_manager.cpp 371-382 DiskManager::ShouldUseVoldataMountPathForDiskUnlocked *)
Definition ShouldUseVoldataMountPathForDiskUnlocked (disks : gmap string Disk) (diskId fsNormLower : string) : bool :=
  match disks !! diskId with
  | None => false
  | Some d => if negb (IsInternalDataDisk d) then false else fsNormLower =s "f2fs"
  end.

(* @src services/disk_manager/src/disk/disk_manager.cpp 433-444 DiskManager::LookupVolumeByUuidUnlocked *)
Definition LookupVolumeByUuidUnlocked (vols : gmap string VolumeExternal) (fsUuid : string) : option VolumeExternal :=
  snd <$> find_if (fun kv => vol_fsUuid kv.2 =s fsUuid) (sorted_entries vols).

(* @src services/disk_manager/src/disk/disk_manager.cpp 446-454 DiskManager::IsUuidOccupiedUnlocked *)
Definition IsUuidOccupiedUnlocked (vols : gmap string VolumeExternal) (volumeId uuid : string) : bool :=
  existsb (fun kv => (kv.1 <>s volumeId) && (vol_fsUuid kv.2 =s uuid)) (sorted_entries vols).

Definition dedup_candidate (fsUuid : string) (seq : Z) : string :=
  fsUuid +:+ UUID_SEQ_SEPARATOR +:+ to_string seq.
(** The loop [for (uint32_t seq = 1; ; ++seq)]; [None] when the fuel runs out.
    [DedupFsUuid_total] shows that one step more than the table has entries is enough. *)
Fixpoint dedup_loop (fuel : nat) (vols : gmap string VolumeExternal) (volumeId fsUuid : string) (seq : Z) : option string :=
  match fuel with
  | O => None
  | S fuel =>
      let candidate := dedup_candidate fsUuid seq in
      if negb (IsUuidOccupiedUnlocked vols volumeId candidate) then Some candidate
      else dedup_loop fuel vols volumeId fsUuid (u32 (seq + 1))
  end.
(* @src services/disk_manager/src/disk/disk_manager.cpp 456-469 DiskManager::DedupFsUuidUnlocked *)
Definition DedupFsUuidUnlocked (vols : gmap string VolumeExternal) (volumeId fsUuid : string) : string :=
  if negb (IsUuidOccupiedUnlocked vols volumeId fsUuid) then fsUuid
  else match dedup_loop (S (size vols)) vols volumeId fsUuid 1 with
       | Some c => c
       | None => fsUuid
       end.

(* @src services/disk_manager/src/disk/disk_manager.cpp 482-497 DiskManager::MapToPublicVolumeState *)
Definition MapToPublicVolumeState (internalState : Z) : Z :=
  if (internalState =? MOUNTED) || (internalState =? DAMAGED_MOUNTED) then MOUNTED
  else if (internalState =? CHECKING) || (internalState =? ENCRYPTING) || (internalState =? DECRYPTING) then CHECKING
  else if internalState =? EJECTING then EJECTING
  else UNMOUNTED.

(* @src services/disk_manager/src/disk/disk_manager.cpp 499-502 DiskManager::IsOddFsType *)
Definition IsOddFsType (fsType : string) : bool := (fsType =s "udf") || (fsType =s "iso9660").

(* @src services/disk_manager/src/disk/disk_manager.cpp 973-983 DiskManager::ResolveVolumeFlagsUnlocked *)
Definition ResolveVolumeFlagsUnlocked (disks : gmap string Disk) (diskId : string) : Z :=
  match disks !! diskId with
  | Some d => if negb (disk_diskType d =? DISK_TYPE_UNKNOWN) then disk_diskType d else USB_FLAG
  | None => USB_FLAG
  end.

(* @src services/disk_manager/src/disk/disk_manager.cpp 264-283 ApplyDefaultVolumeDescriptionIfUnset *)
Definition ApplyDefaultVolumeDescriptionIfUnset (flag : Z) (v : VolumeExternal) : VolumeExternal :=
  if negb (str_empty (vol_description v)) then v
  else if (flag =? DATA_DISK_SSD) || (flag =? DATA_DISK_HDD) then v
  else Vol_SetDescription (if flag =? SD_FLAG then "MySDCard" else if flag =? USB_FLAG then "MyUSB"
                           else if flag =? CD_FLAG then "MyDVD" else "Default") v.

(* @src services/disk_manager/src/disk/disk_manager.cpp 330-336 BuildMountDataOptions *)
Definition BuildMountDataOptions (useVoldataPath : bool) : string := if useVoldataPath then "bb_retry" else "".

(** The length test after the concatenation can only fail on an empty suffix. *)
(* @src services/disk_manager/src/disk/disk_manager.cpp 338-348 BuildSafeExternalMountPath *)
Definition BuildSafeExternalMountPath (suffix : string) : string :=
  if negb (IsUuidValid suffix) then ""
  else
    let mountPath := EXTERNAL_MOUNT_ROOT +:+ suffix in
    if (String.length mountPath <=? String.length EXTERNAL_MOUNT_ROOT)%nat then "" else mountPath.

Section json_text.
Context {JT : JsonText}.

(** The string member [key] of the object [ODD_INFO] of [extraInfo]. *)
Definition odd_info_string (key extraInfo : string) : string :=
  if str_empty extraInfo then ""
  else
    match json_parse extraInfo with
    | None => ""
    | Some root =>
        if negb (json_is_object root) then ""
        else
          match json_member "ODD_INFO" root with
          | None => ""
          | Some oddInfo =>
              if negb (json_is_object oddInfo) then ""
              else match json_member key oddInfo with Some (JStr s) => s | _ => "" end
          end
    end.
(* @src services/disk_manager/src/disk/disk_manager.cpp 1886-1911 DiskManager::GetDiscType *)
Definition GetDiscType (extraInfo : string) : string := odd_info_string "DISC_TYPE" extraInfo.
(* @src services/disk_manager/src/disk/disk_manager.cpp 1913-1938 DiskManager::GetDriverType *)
Definition GetDriverType (extraInfo : string) : string := odd_info_string "DRIVE_TYPE" extraInfo.

(** The new text of [extraInfo]. *)
Definition set_disc_state (extraInfo : string) (discState : CdromState) : string :=
  let root := if str_empty extraInfo then Some (JObj []) else json_parse extraInfo in
  let root := match root with
              | Some r => if json_is_object r then r else JObj []
              | None => JObj []
              end in
  let odd := match json_member "ODD_INFO" root with
             | Some o => if json_is_object o then o else JObj []
             | None => JObj []
             end in
  json_dump (json_set "ODD_INFO" (json_set "DISC_STATE" (JInt (CdromState_val discState)) odd) root).
End json_text.

Section queries.
Context {E St : Type} {EV : Env E} {PS : PathStore St} {JT : JsonText}.
Notation M := (State (World E St)).

(* @src services/disk_manager/src/disk/disk_manager.cpp 1385-1389 DiskManager::HasDisk *)
Definition HasDisk (diskId : string) : M bool :=
  let! disks := get_disks in sret (bool_decide (is_Some (disks !! diskId))).

(* @src services/disk_manager/src/disk/disk_manager.cpp 1391-1405 DiskManager::HasManagedResources *)
Definition HasManagedResources : M bool :=
  let! disks := get_disks in
  let! vols := get_vols in
  sret (negb (bool_decide (disks = ∅)) || negb (bool_decide (vols = ∅))).

(* @src services/disk_manager/src/disk/disk_manager.cpp 1372-1383 DiskManager::OnDiskCreated *)
Definition OnDiskCreated (disk : Disk) : M Z :=
  let! disks := get_disks in
  match disks !! disk_diskId disk with
  | Some _ => fin E_DISK_HAS_EXIST
  | None => do! set_disks (<[disk_diskId disk := disk]>) in fin E_OK
  end.

(* @src services/disk_manager/src/disk/disk_manager.cpp 1407-1416 DiskManager::OnDiskDestroyed *)
Definition OnDiskDestroyed (diskId : string) : M Z :=
  let! disks := get_disks in
  match disks !! diskId with
  | None => fin E_DISK_NOT_FOUND
  | Some _ => do! set_disks (delete diskId) in fin E_OK
  end.

(** [std::map::insert] keeps an existing entry. *)
Definition map_insert (v : VolumeExternal) (m : gmap string VolumeExternal) : gmap string VolumeExternal :=
  match m !! vol_id v with Some _ => m | None => <[vol_id v := v]> m end.

(* @src services/disk_manager/src/disk/disk_manager.cpp 1418-1428 DiskManager::OnVolumeCreated *)
Definition OnVolumeCreated (volExternal : VolumeExternal) : M Z :=
  let! disks := get_disks in
  let vol := Vol_SetFlags (ResolveVolumeFlagsUnlocked disks (vol_diskId volExternal)) volExternal in
  do! yield lk_none in
  do! set_vols (map_insert vol) in
  fin E_OK.

(* @src services/disk_manager/src/disk/disk_manager.cpp 1430-1439 DiskManager::OnVolumeDestroyed *)
Definition OnVolumeDestroyed (volumeId : string) : M Z :=
  let! vols := get_vols in
  match vols !! volumeId with
  | None => fin E_NON_EXIST
  | Some _ => do! set_vols (delete volumeId) in fin E_OK
  end.

(* @src services/disk_manager/src/disk/disk_manager.cpp 1441-1446 DiskManager::ReplacePartitionsForDisk *)
Definition ReplacePartitionsForDisk (diskId : string) (partitions : list PartitionRecord) : M Z := fin E_OK.

(* @src services/disk_manager/src/disk/disk_manager.cpp 1486-1496 DiskManager::UpdateDisk *)
Definition UpdateDisk (disk : Disk) : M Z :=
  let! disks := get_disks in
  match disks !! disk_diskId disk with
  | None => fin E_NON_EXIST
  | Some _ => do! set_disks (<[disk_diskId disk := disk]>) in fin E_OK
  end.

(* @src services/disk_manager/src/disk/disk_manager.cpp 2617-2627 DiskManager::UpdateVolumeExternal *)
Definition UpdateVolumeExternal (volExternal : VolumeExternal) : M Z :=
  let! vols := get_vols in
  match vols !! vol_id volExternal with
  | None => fin E_NON_EXIST
  | Some _ => do! set_vols (<[vol_id volExternal := volExternal]>) in fin E_OK
  end.

(* @src services/disk_manager/src/disk/disk_manager.cpp 2608-2615 DiskManager::SetVolumeStateLocked *)
Definition SetVolumeStateLocked (volumeId : string) (state : VolumeState) : M unit :=
  do! set_vols (alter (Vol_SetState state) volumeId) in yield lk_none.

(* @src services/disk_manager/src/disk/disk_manager.cpp 1610-1620 DiskManager::GetVolumeById *)
Definition GetVolumeById (volumeId : string) : M (option VolumeExternal) :=
  let! vols := get_vols in sret (vols !! volumeId).

(* @src services/disk_manager/src/disk/disk_manager.cpp 1622-1626 DiskManager::GetVolumeByUuid *)
Definition GetVolumeByUuid (fsUuid : string) : M (option VolumeExternal) :=
  let! vols := get_vols in sret (LookupVolumeByUuidUnlocked vols fsUuid).

(* @src services/disk_manager/src/disk/disk_manager.cpp 471-480 DiskManager::GetVolumePath *)
Definition GetVolumePath (volumeUuid : string) : M string :=
  let! vols := get_vols in
  match LookupVolumeByUuidUnlocked vols volumeUuid with
  | None => sret ""
  | Some vol => sret (vol_path vol)
  end.

(** The first voldata mount path of the disk's volumes. *)
Definition voldata_path_of (vols : gmap string VolumeExternal) (ids : list string) : string :=
  let ok v := negb (str_empty (vol_path v)) && starts_with VOLDATA_PATH_PREFIX (vol_path v) in
  match find_if (fun id => match vols !! id with Some v => ok v | None => false end) ids with
  | Some id => match vols !! id with Some v => vol_path v | None => "" end
  | None => ""
  end.

(** Called with both tables locked. *)
(* @src services/disk_manager/src/disk/disk_manager.cpp 2828-2872 DiskManager::QueryAndAppendEncryptionStatusUnlocked *)
Definition QueryAndAppendEncryptionStatusUnlocked (disk : Disk) : M Disk :=
  match disk_volumeIds disk with
  | [] => sret disk
  | volumeIds =>
      let! vols := get_vols in
      let volPath := voldata_path_of vols volumeIds in
      if str_empty volPath then sret disk
      else
        let! q := QueryEncryptionStatus lk_DV volPath in
        match q with
        | None => sret disk
        | Some encStatus =>
            let! b := TryCopyByDiskId (disk_diskId disk) in
            match b with
            | Some blockInfo =>
                sret (Disk_SetExtraInfo (ToJsonStringWithExtras blockInfo [("encryptionStatus", to_string encStatus)]) disk)
            | None => sret disk
            end
        end
  end.

(** [None] is [E_NON_EXIST]. *)
(* @src services/disk_manager/src/disk/disk_manager.cpp 1468-1484 DiskManager::GetDiskById *)
Definition GetDiskById (diskId : string) : M (option Disk) :=
  let! disks := get_disks in
  let! vols := get_vols in
  match disks !! diskId with
  | None => sret None
  | Some d =>
      let out := AttachVolumeIdsToDisk vols d in
      if (disk_diskType out =? DATA_DISK_SSD) || (disk_diskType out =? DATA_DISK_HDD) then
        let! out := QueryAndAppendEncryptionStatusUnlocked out in do! yield lk_none in sret (Some out)
      else do! yield lk_none in sret (Some out)
  end.

Fixpoint smap_list {A B} (f : A -> M B) (l : list A) : M (list B) :=
  match l with
  | [] => sret []
  | x :: l' => let! y := f x in let! ys := smap_list f l' in sret (y :: ys)
  end.

(* @src services/disk_manager/src/disk/disk_manager.cpp 1448-1466 DiskManager::GetAllDisks *)
Definition GetAllDisks : M (list Disk) :=
  let! disks := get_disks in
  let snaps := map snd (sorted_entries disks) in
  smap_list (fun disk =>
    let! vols := get_vols in
    let disk := AttachVolumeIdsToDisk vols disk in
    if (disk_diskType disk =? DATA_DISK_SSD) || (disk_diskType disk =? DATA_DISK_HDD)
    then QueryAndAppendEncryptionStatusUnlocked disk else sret disk) snaps.

(** The placeholder volume of an optical drive without a disc volume. *)
Definition dvd_placeholder (disk : Disk) : VolumeExternal :=
  let v := VolumeExternal_of_core (VolumeCore_full "0" CD_FLAG (disk_diskId disk) MOUNTED "udf" (disk_extraInfo disk)) in
  let v := Vol_SetFsType (GetFsTypeByStr "udf") v in
  let discType := GetDriverType (disk_extraInfo disk) in
  Vol_SetDescription (if str_empty discType then "DVD RW" else discType) v.

(* @src services/disk_manager/src/disk/disk_manager.cpp 1498-1532 DiskManager::GetAllVolumes *)
Definition GetAllVolumes : M (list VolumeExternal) :=
  let! disks := get_disks in
  let! vols := get_vols in
  let result := map snd (sorted_entries vols) in
  let dvdDiskIds := map vol_diskId
        (List.filter (fun v => (vol_fsType v =? UDF) || (vol_fsType v =? ISO9660)) result) in
  sret (result ++ map dvd_placeholder
          (List.filter (fun d => (disk_diskType d =? CD_FLAG) && negb (existsb (fun i => i =s disk_diskId d) dvdDiskIds))
                       (map snd (sorted_entries disks)))).

(** [statvfs] of a mounted path. *)
Definition statvfs (path : string) : M Ans := call lk_none (Statvfs path).

(* @src services/disk_manager/src/disk/disk_manager.cpp 504-511 DiskManager::GetOddCapacity *)
Definition GetOddCapacity (devPath : string) (totalSize freeSize : Z) : M (Z * Z * Z) :=
  if str_empty devPath then sret (errno DISK_MGR_ERR, totalSize, freeSize)
  else Sd_GetCapacity lk_none devPath totalSize freeSize.

(** The answer to [statvfs]: [an_int] is [f_bsize], [an_int2] [f_bfree], [an_int3] [f_blocks]. *)
(* @src services/disk_manager/src/disk/disk_manager.cpp 1709-1740 DiskManager::GetOddFreeSize *)
Definition GetOddFreeSize (extraInfo blockVolId : string) (diskInfo : Ans) (freeSize : Z) : M (Z * Z) :=
  let discType := GetDiscType extraInfo in
  if contains "ROM" discType then sret (errno E_OK, 0)
  else
    let startTotalSize := i64 (i64 (an_int diskInfo) * i64 (an_int3 diskInfo)) in
    let startFreeSize := i64 (i64 (an_int diskInfo) * i64 (an_int2 diskInfo)) in
    let! (oddRet, totalSize, freeSize) := GetOddCapacity (dev_block blockVolId) 0 freeSize in
    if contains "CD" discType then sret (oddRet, freeSize)
    else if negb (freeSize =? 0) then sret (oddRet, freeSize)
    else if startFreeSize =? 0 then sret (errno E_OK, i64 (totalSize - startTotalSize))
    else sret (errno E_OK, startFreeSize).

(* @src services/disk_manager/src/disk/disk_manager.cpp 1674-1707 DiskManager::GetFreeSizeOfVolume *)
Definition GetFreeSizeOfVolume (volumeUuid : string) : M (Z * Z) :=
  let! vols := get_vols in
  match LookupVolumeByUuidUnlocked vols volumeUuid with
  | None => sret (errno E_NON_EXIST, 0)
  | Some vol =>
      if str_empty (vol_path vol) then sret (errno E_NON_EXIST, 0)
      else
        let! diskInfo := statvfs (vol_path vol) in
        if negb (an_ret diskInfo =? 0) then sret (errno E_STATVFS, 0)
        else if IsOddFsType (GetFsTypeString vol) then GetOddFreeSize (vol_extraInfo vol) (vol_id vol) diskInfo 0
        else sret (errno E_OK, i64 (i64 (an_int diskInfo) * i64 (an_int2 diskInfo)))
  end.

(* @src services/disk_manager/src/disk/disk_manager.cpp 1742-1775 DiskManager::GetTotalSizeOfVolume *)
Definition GetTotalSizeOfVolume (volumeUuid : string) : M (Z * Z) :=
  let! vols := get_vols in
  match LookupVolumeByUuidUnlocked vols volumeUuid with
  | None => sret (errno E_NON_EXIST, 0)
  | Some vol =>
      if str_empty (vol_path vol) then sret (errno E_NON_EXIST, 0)
      else
        let! diskInfo := statvfs (vol_path vol) in
        if negb (an_ret diskInfo =? 0) then sret (errno E_STATVFS, 0)
        else if IsOddFsType (GetFsTypeString vol) then
          let! (_, totalSize, _) := GetOddCapacity (dev_block (vol_id vol)) 0 0 in sret (errno E_OK, totalSize)
        else sret (errno E_OK, i64 (i64 (an_int diskInfo) * i64 (an_int3 diskInfo)))
  end.

(* @src services/disk_manager/src/disk/disk_manager.cpp 1534-1563 DiskManager::GetExternalDiskInfos *)
Definition GetExternalDiskInfos : M (list ExternalDiskInfo) :=
  let! disks := get_disks in
  let! vols := get_vols in
  sret (map (fun disk => mkExternalDiskInfo (disk_diskId disk) (disk_diskType disk)
               (disk_volumeIds (AttachVolumeIdsToDisk vols disk)) (disk_vendorId disk) (disk_productId disk))
            (List.filter (fun d => negb (IsInternalDataDisk d)) (map snd (sorted_entries disks)))).

Definition external_volume_info (vol : VolumeExternal) (totalSize freeSize : Z) : ExternalVolumeInfo :=
  mkExternalVolumeInfo (vol_id vol) (vol_fsUuid vol) (vol_diskId vol) (vol_description vol)
    (MapToPublicVolumeState (vol_state vol)) totalSize freeSize (vol_path vol) (GetFsTypeString vol).
(* @src services/disk_manager/src/disk/disk_manager.cpp 1565-1608 DiskManager::GetExternalVolumeInfos *)
Definition GetExternalVolumeInfos : M (list ExternalVolumeInfo) :=
  let! disks := get_disks in
  let externalDiskIds := map disk_diskId (List.filter (fun d => negb (IsInternalDataDisk d)) (map snd (sorted_entries disks))) in
  do! yield lk_none in
  let! vols := get_vols in
  let candidates := List.filter (fun v => existsb (fun i => i =s vol_diskId v) externalDiskIds) (map snd (sorted_entries vols)) in
  do! yield lk_none in
  smap_list (fun vol =>
    if MapToPublicVolumeState (vol_state vol) =? MOUNTED then
      let! (_, totalSize) := GetTotalSizeOfVolume (vol_fsUuid vol) in
      let! (_, freeSize) := GetFreeSizeOfVolume (vol_fsUuid vol) in
      sret (external_volume_info vol totalSize freeSize)
    else sret (external_volume_info vol 0 0)) candidates.

(* @src services/disk_manager/src/disk/disk_manager.cpp 1628-1648 DiskManager::UpdateVolumeMetadata *)
Definition UpdateVolumeMetadata (volumeId fsUuid fsTypeStr description : string) : M Z :=
  let! vols := get_vols in
  match vols !! volumeId with
  | None => fin E_NON_EXIST
  | Some v =>
      let resolvedUuid := DedupFsUuidUnlocked vols volumeId fsUuid in
      do! set_vols (<[volumeId := Vol_SetDescription description
                                    (Vol_SetFsType (GetFsTypeByStr fsTypeStr) (Vol_SetFsUuid resolvedUuid v))]>) in
      fin E_OK
  end.

(* @src services/disk_manager/src/disk/disk_manager.cpp 1650-1672 DiskManager::SetVolumeDiscState *)
Definition SetVolumeDiscState (volumeId : string) (discState : CdromState) : M Z :=
  let! vols := get_vols in
  match vols !! volumeId with
  | None => fin E_NON_EXIST
  | Some v => do! set_vols (<[volumeId := Vol_SetExtraInfo (set_disc_state (vol_extraInfo v) discState) v]>) in fin E_OK
  end.

(** The second blank-separated word of a line; the first when there is only one. *)
Definition second_word (line : string) : string :=
  match tokens line with [] => "" | [w] => w | _ :: w :: _ => w end.
Definition pop_slash (path : string) : string :=
  match srev path with String c r => if char_eqb c SLASH then srev r else path | "" => path end.
(** The answer to [ProcMounts]: [an_bool] when the file could be opened, its lines. *)
(* @src services/disk_manager/src/disk/disk_manager.cpp 513-537 DiskManager::IsPathMounted *)
Definition IsPathMounted (path : string) : M bool :=
  if str_empty path then sret true
  else
    let! a := call lk_none ProcMounts in
    if negb (an_bool a) then sret true
    else sret (existsb (fun line => pop_slash path =s second_word line) (an_strs a)).

(* @src services/disk_manager/src/disk/disk_manager.cpp 253-262 IsDiskSupported *)
Definition IsDiskSupported (diskId : string) : M Z :=
  let! disk := GetDiskById diskId in
  match disk with
  | None => fin E_NOT_SUPPORT
  | Some d => if disk_diskType d =? CD_FLAG then fin E_NOT_SUPPORT else fin E_OK
  end.

(* @src services/disk_manager/src/disk/disk_manager.cpp 3137-3158 DiskManager::CheckVolId *)
Definition CheckVolId (volId : string) : M string :=
  if str_empty volId then sret ""
  else
    let! external := GetVolumeById volId in
    match external with
    | None => sret ""
    | Some external =>
        if starts_with "vol-crypt-" volId then
          if negb (str_empty (vol_mapperPath external)) then sret (vol_mapperPath external)
          else if negb (str_empty (vol_loopPath external)) then sret (vol_loopPath external)
          else sret ""
        else sret (dev_block volId)
    end.

(** The volumes of a disk, as [GetDiskById] lists them and [GetVolumeById] finds
    them one by one; the first that satisfies [p]. *)
Fixpoint find_volume (p : VolumeExternal -> bool) (ids : list string) : M (option VolumeExternal) :=
  match ids with
  | [] => sret None
  | id :: ids' =>
      do! yield lk_none in
      let! external := GetVolumeById id in
      match external with
      | None => find_volume p ids'
      | Some v => if p v then sret (Some v) else find_volume p ids'
      end
  end.

(* @src services/disk_manager/src/disk/disk_manager.cpp 2406-2427 DiskManager::IsDiskNotReady *)
Definition IsDiskNotReady (diskId : string) : M bool :=
  let! disk := GetDiskById diskId in
  match disk with
  | None => sret true
  | Some d =>
      let! busy := find_volume (fun v => negb (vol_state v =? UNMOUNTED)) (disk_volumeIds d) in
      sret (match busy with Some _ => true | None => false end)
  end.

(* @src services/disk_manager/src/disk/disk_manager.cpp 2585-2606 DiskManager::IsVolumeMounted *)
Definition IsVolumeMounted (diskId : string) (partitionNum : Z) : M bool :=
  let! disk := GetDiskById diskId in
  match disk with
  | None => sret true
  | Some d =>
      match disk_volumeIds d with
      | [] => sret true
      | ids =>
          let! busy := find_volume (fun v => (vol_partitionNum v =? partitionNum) && negb (vol_state v =? UNMOUNTED)) ids in
          sret (match busy with Some _ => true | None => false end)
      end
  end.

(* @src services/disk_manager/src/disk/disk_manager.cpp 2690-2699 DiskManager::FindVolumeForPartition *)
Definition FindVolumeForPartition (disk : Disk) (partitionNum : Z) : M VolumeExternal :=
  let! v := find_volume (fun v => vol_partitionNum v =? partitionNum) (disk_volumeIds disk) in
  sret (match v with Some v => v | None => VolumeExternal_default end).

(* @src services/disk_manager/src/disk/disk_manager.cpp 2184-2201 DiskManager::GetFsTypeByDiskIdAndPartNum *)
Definition GetFsTypeByDiskIdAndPartNum (diskId : string) (partitionNum : Z) : M string :=
  let! disk := GetDiskById diskId in
  match disk with
  | None => sret ""
  | Some d =>
      let! v := find_volume (fun v => vol_partitionNum v =? partitionNum) (disk_volumeIds d) in
      sret (match v with Some v => GetFsTypeString v | None => "" end)
  end.

(* @src services/disk_manager/src/disk/disk_manager.cpp 3083-3095 DiskManager::LookupVolumeByCryptPath *)
Definition LookupVolumeByCryptPath (diskId cryptPath : string) : M (option VolumeExternal) :=
  let! vols := get_vols in
  sret (snd <$> find_if (fun kv => (vol_diskId kv.2 =s diskId) &&
                                   ((vol_loopPath kv.2 =s cryptPath) || (vol_mapperPath kv.2 =s cryptPath)))
                        (sorted_entries vols)).

(** ** [edm_adapter.cpp], the parts that read the disk table *)
(* @src services/disk_manager/src/adapter/edm_adapter.cpp 84-128 EdmAdapter::IsEdmEnableOddBurn *)
Definition IsEdmEnableOddBurn (diskId : string) (callerUserId : Z) : M bool :=
  let! ent := IsEnterpriseDevice in
  if negb ent then sret true
  else
    let! disk := GetDiskById diskId in
    match disk with
    | None => sret true
    | Some disk =>
        if negb (disk_diskType disk =? CD_FLAG) then sret true
        else if negb (disk_isUsbBus disk) then
          let! burnDisabled := IsSataOddBurnDisabled in sret (negb burnDisabled)
        else IsExternalOddBurnAllowed callerUserId (disk_productId disk) (disk_vendorId disk) (disk_serialNumber disk)
    end.

(* @src services/disk_manager/src/adapter/edm_adapter.cpp 151-190 EdmAdapter::IsEdmControlMountEnabled *)
Definition IsEdmControlMountEnabled (volume : VolumeExternal) (mountParam : MountParam) : M bool :=
  let! ent := IsEnterpriseDevice in
  if negb ent then sret false
  else
    let! intercept := IsInterceptEnabled in
    if negb intercept then sret false
    else if mp_fromEdmMount mountParam then sret false
    else
      let! disk := GetDiskById (vol_diskId volume) in
      match disk with
      | None => sret false
      | Some disk =>
          if negb (IsEdmManagedDiskType (disk_diskType disk)) then sret false
          else
            let! notifyRet := NotifyExternalStorageDeviceAdd volume disk in
            sret (notifyRet =? E_OK)
      end.
End queries.
