(* ===== verification/Events.v ===== *)
(** * [services/disk_manager/src/notification/common_event_publisher.cpp]

    The broadcast each state change sends: its action and its parameters, in the
    order they are set. [CDC_STORAGE] is not defined. *)
From S2P Require Import Prelude CppString Types State Json World Adapters DmQuery.

(** The rows of [STATE_INFOS]: the action of a state, [None] for a state without one. *)
(* @src services/disk_manager/src/notification/common_event_publisher.cpp 54-72 STATE_INFOS *)
Definition STATE_INFOS (notifyCode : VolumeState) : option CommonEvent :=
  match notifyCode with
  | REMOVED => Some COMMON_EVENT_VOLUME_REMOVED
  | UNMOUNTED => Some COMMON_EVENT_VOLUME_UNMOUNTED
  | MOUNTED => Some COMMON_EVENT_VOLUME_MOUNTED
  | BAD_REMOVAL => Some COMMON_EVENT_VOLUME_BAD_REMOVAL
  | EJECTING => Some COMMON_EVENT_VOLUME_EJECT
  | DAMAGED | DAMAGED_MOUNTED => Some COMMON_EVENT_DISK_UNMOUNTABLE
  | ENCRYPTING | ENCRYPTED_AND_LOCKED | ENCRYPTED_AND_UNLOCKED | DECRYPTING => Some COMMON_EVENT_DISK_BAD_REMOVAL
  | CHECKING | REPAIR_FINISH_FAIL | REPAIR_FINISH_SUCCESS | FORMAT_FINISH_FAIL | REPAIR_START =>
      Some COMMON_EVENT_DISK_VOLUME_STATE_CHANGE
  | FUSE_REMOVED | REPAIRING => None
  end.

Definition is_mtp_ptp (fsType : Z) : bool := (fsType =? MTP) || (fsType =? PTP).

(* @src services/disk_manager/src/notification/common_event_publisher.cpp 100-119 SetUnmountedEventParams *)
Definition SetUnmountedEventParams (volume : VolumeExternal) : list (string * WantParam) :=
  ("fsType", PInt (vol_fsType volume)) ::
  (if is_mtp_ptp (vol_fsType volume) then []
   else if vol_freeSize volume <? 0 then [] else [("freeSize", PLong (vol_freeSize volume))]).

(* @src services/disk_manager/src/notification/common_event_publisher.cpp 121-127 SetEjectEventParams *)
Definition SetEjectEventParams (volume : VolumeExternal) : list (string * WantParam) :=
  [("fsType", PInt (vol_fsType volume)); ("umountResult", PStr (vol_umountResult volume))].

(* @src services/disk_manager/src/notification/common_event_publisher.cpp 129-143 ReasonCodeToMessage *)
Definition ReasonCodeToMessage (reasonCode : Z) : string :=
  if reasonCode =? PARTITION_TABLE_READ_FAILED then "partition table read failed"
  else if reasonCode =? METADATA_READ_FAILED then "metadata read failed"
  else if reasonCode =? FSTYPE_UNSUPPORTED then "fstype unsupported"
  else if reasonCode =? MOUNT_FAILED then "mount failed"
  else "unknown".

(** The parameters every volume event starts with. *)
Definition volume_params (notifyCode : VolumeState) (volume : VolumeExternal) : list (string * WantParam) :=
  [("id", PStr (vol_id volume)); ("diskId", PStr (vol_diskId volume)); ("fsUuid", PStr (vol_fsUuid volume));
   ("flags", PInt (vol_flags volume)); ("volumeState", PInt notifyCode)].

(* @src services/disk_manager/src/notification/common_event_publisher.cpp 236-251 CommonEventPublisher::BuildVolumeAbnormalWant *)
Definition BuildVolumeAbnormalWant (volume : VolumeExternal) (reasonCode : Z) : Want :=
  mkWant COMMON_EVENT_DISK_UNMOUNTABLE
    (volume_params DAMAGED volume ++
     [("reasonCode", PInt reasonCode); ("reason", PStr (ReasonCodeToMessage reasonCode));
      ("devPath", PStr (dev_block (vol_id volume)))]).

(** [sizeBytes] is an [int64_t] given to a 32-bit box. *)
Definition disk_params (disk : Disk) : list (string * WantParam) :=
  [("diskId", PStr (disk_diskId disk)); ("sizeBytes", PInt (i32 (disk_sizeBytes disk)));
   ("sysPath", PStr (disk_sysPath disk)); ("flag", PInt (disk_diskType disk))].

(* @src services/disk_manager/include/notification/common_event_publisher.h 26-29 DiskEventKind *)
Inductive DiskEventKind : Set := DK_MOUNTED | DK_REMOVED.

Section events.
Context {E St : Type} {EV : Env E} {JT : JsonText}.
Notation M := (State (World E St)).

(* @src services/disk_manager/src/notification/common_event_publisher.cpp 74-98 SetMountedEventParams *)
Definition SetMountedEventParams (volume : VolumeExternal) : M (list (string * WantParam)) :=
  let base := [("path", PStr (vol_path volume)); ("fsType", PInt (vol_fsType volume))] in
  if is_mtp_ptp (vol_fsType volume) then sret base
  else
    let! (ret, freeSize) := GetFreeSizeOfVolume (vol_fsUuid volume) in
    if ret =? E_OK then
      if freeSize <? 0 then sret base else sret (base ++ [("freeSize", PLong freeSize)])
    else sret base.

(* @src services/disk_manager/src/notification/common_event_publisher.cpp 146-197 CommonEventPublisher::PublishVolumeChange *)
Definition PublishVolumeChange (lk : Locks) (notifyCode : VolumeState) (volume : VolumeExternal) : M unit :=
  match STATE_INFOS notifyCode with
  | None => sret tt
  | Some action =>
      let! extra := (match notifyCode with
                     | MOUNTED => SetMountedEventParams volume
                     | UNMOUNTED => sret (SetUnmountedEventParams volume)
                     | EJECTING => sret (SetEjectEventParams volume)
                     | _ => sret []
                     end) in
      publish lk (mkWant action (volume_params notifyCode volume ++ extra))
  end.

(* @src services/disk_manager/src/notification/common_event_publisher.cpp 199-230 CommonEventPublisher::PublishVolumeResult *)
Definition PublishVolumeResult (lk : Locks) (notifyCode : VolumeState) (volume : VolumeExternal) : M unit :=
  match STATE_INFOS notifyCode with
  | None => sret tt
  | Some action => publish lk (mkWant action (volume_params notifyCode volume))
  end.

(* @src services/disk_manager/src/notification/common_event_publisher.cpp 253-260 CommonEventPublisher::PublishVolumeAbnormal *)
Definition PublishVolumeAbnormal (volume : VolumeExternal) (reasonCode : Z) : M unit :=
  publish lk_none (BuildVolumeAbnormalWant volume reasonCode).

(* @src services/disk_manager/src/notification/common_event_publisher.cpp 262-277 CommonEventPublisher::PublishDiskAbnormal *)
Definition PublishDiskAbnormal (diskId : string) (reasonCode : Z) : M unit :=
  publish lk_none (mkWant COMMON_EVENT_DISK_UNMOUNTABLE
    [("diskId", PStr diskId); ("volumeState", PInt DAMAGED); ("reasonCode", PInt reasonCode);
     ("reason", PStr (ReasonCodeToMessage reasonCode)); ("devPath", PStr (dev_block diskId))]).

(* @src services/disk_manager/src/notification/common_event_publisher.cpp 279-303 CommonEventPublisher::PublishDiskChange *)
Definition PublishDiskChange (kind : DiskEventKind) (disk : Disk) : M unit :=
  match kind with
  | DK_MOUNTED => publish lk_none (mkWant COMMON_EVENT_DISK_MOUNTED (disk_params disk ++ [("diskState", PInt 0)]))
  | DK_REMOVED => publish lk_none (mkWant COMMON_EVENT_DISK_REMOVED (disk_params disk))
  end.
End events.
