(* ===== verification/DmMount.v ===== *)
(** * [services/disk_manager/src/disk/disk_manager.cpp]: mount, unmount, repair, format

    The operations that change a volume's state. A [VolumeExternal &] argument is
    passed in and returned. *)
From S2P Require Import Prelude CppString Types State Utils Json World Adapters DmQuery Events.

Definition MS_RDONLY : Z := 1.
Definition HMFS_FLAG : Z := 32768.
Definition VOLUME_DESCRIPTION_MAX_LEN : nat := 512.
Definition PERSIST_FILEMANAGEMENT_USB_READONLY : string := "persist.filemanagement.usb.readonly".

(* @src services/disk_manager/src/disk/disk_manager.cpp 140-145 LABEL_SUPPORTED_FS_TYPES *)
Definition LABEL_SUPPORTED_FS_TYPES (fsType : string) : bool :=
  existsb (fun t => t =s fsType) ["ntfs"; "exfat"; "hmfs"; "f2fs"].

(* @src services/disk_manager/include/disk/disk_manager.h 137-141 VolumeMountPolicy *)
Record VolumeMountPolicy : Type := mkPolicy {
  useVoldataPath : bool;
  useFuseData : bool;
  useDvrPath : bool;
}.

(** The states from which [Mount] starts, [Unmount] starts, and [Format] starts. *)
Definition mountable_state (s : Z) : bool := (s =? UNMOUNTED) || (s =? DECRYPTING) || (s =? FORMAT_FINISH_FAIL).
Definition unmountable_state (s : Z) : bool :=
  (s =? MOUNTED) || (s =? DAMAGED_MOUNTED) || (s =? ENCRYPTED_AND_LOCKED) || (s =? ENCRYPTED_AND_UNLOCKED).
Definition formattable_state (s : Z) : bool := (s =? UNMOUNTED) || (s =? FORMAT_FINISH_FAIL) || (s =? DAMAGED).

Section mount.
Context {E St : Type} {EV : Env E} {PS : PathStore St} {JT : JsonText}.
Notation M := (State (World E St)).

(** The answer to [FindParameter]: [an_bool] when the key exists, [an_int] the
    length [GetParameterValue] returns, [an_str] the value. *)
(* @src services/disk_manager/src/disk/disk_manager.cpp 233-251 ReadPersistUsbReadonlyMountFlagBits *)
Definition ReadPersistUsbReadonlyMountFlagBits (useFuseData : bool) : M Z :=
  if useFuseData then sret 0
  else
    let! a := call lk_none (FindParameter PERSIST_FILEMANAGEMENT_USB_READONLY) in
    if negb (an_bool a) then sret 0
    else if (0 <=? an_int a) && (an_str a =s "true") then sret (Z.lor 0 MS_RDONLY)
    else sret (Z.land 0 (Z.lnot MS_RDONLY)).

(** The path, empty on failure, and whether the mapping was created. *)
(* @src services/disk_manager/src/disk/disk_manager.cpp 296-328 ResolveVoldataMountPath *)
Definition ResolveVoldataMountPath (fsUuid : string) : M (string * bool) :=
  let! initErr := store ps_Init in
  if negb (initErr =? E_OK) then sret ("", false)
  else
    let! known := store (ps_TryGetMountPath fsUuid) in
    match known with
    | Some dataMountPath => sret (dataMountPath, false)
    | None =>
        let! (resolveErr, path, created) := store (ps_ResolveMountPath fsUuid) in
        if negb (resolveErr =? E_OK) then sret ("", false)
        else sret (match path with Some p => p | None => "" end, created)
    end.

(* @src services/disk_manager/src/disk/disk_manager.cpp 351-368 ResolveQueryUsbIsInUseMountPath *)
Definition ResolveQueryUsbIsInUseMountPath (volExternal : VolumeExternal) (isInternalDataDisk : bool) : M string :=
  if negb (str_empty (vol_path volExternal)) then sret (vol_path volExternal)
  else
    let fsNormLower := NormalizeFsTypeAsciiLower (GetFsTypeString volExternal) in
    let fsUuid := vol_fsUuid volExternal in
    let external := if IsUuidValid fsUuid then EXTERNAL_MOUNT_ROOT +:+ fsUuid else "" in
    if isInternalDataDisk && (fsNormLower =s "f2fs") && IsUuidValid fsUuid then
      let! voldataPath := store (ps_TryGetMountPath fsUuid) in
      match voldataPath with Some p => sret p | None => sret external end
    else sret external.

(* @src services/disk_manager/src/disk/disk_manager.cpp 384-409 DiskManager::UpdateVoldataMappingAfterFormat *)
Definition UpdateVoldataMappingAfterFormat (diskId oldFsUuid newFsUuid fsType : string) : M unit :=
  let fsNormLower := NormalizeFsTypeAsciiLower fsType in
  let! disks := get_disks in
  if negb (ShouldUseVoldataMountPathForDiskUnlocked disks diskId fsNormLower) then
    if negb (str_empty oldFsUuid) && IsUuidValid oldFsUuid
    then let! _ := store (ps_RemoveByFsUuid oldFsUuid) in sret tt
    else sret tt
  else if str_empty oldFsUuid || str_empty newFsUuid || negb (IsUuidValid oldFsUuid) || negb (IsUuidValid newFsUuid)
  then sret tt
  else
    let! unused := store (ps_TryGetMountPath oldFsUuid) in
    match unused with
    | None => sret tt
    | Some _ => let! _ := store (ps_ReplaceFsUuid oldFsUuid newFsUuid) in sret tt
    end.

(* @src services/disk_manager/src/disk/disk_manager.cpp 411-431 DiskManager::ComputeVolumeMountPolicy *)
Definition ComputeVolumeMountPolicy (diskId fsType : string) : M VolumeMountPolicy :=
  let fsNormLower := NormalizeFsTypeAsciiLower fsType in
  let! disks := get_disks in
  let useVoldata := ShouldUseVoldataMountPathForDiskUnlocked disks diskId fsNormLower in
  let isInternalDisk := match disks !! diskId with Some d => IsInternalDataDisk d | None => false end in
  let useDvr := match disks !! diskId with Some d => disk_diskType d =? DVR_USB | None => false end in
  let isDataFs := fsNormLower =s "f2fs" in
  let bypassTobForPcNonDataFs := isInternalDisk && negb isDataFs in
  if negb useVoldata && negb useDvr && negb bypassTobForPcNonDataFs then
    let! enabled := IsUsbFuseEnabledForFsType lk_DV fsType in sret (mkPolicy useVoldata enabled useDvr)
  else sret (mkPolicy useVoldata false useDvr).

(** The result, the volume and [outFsUuid]. *)
(* @src services/disk_manager/src/disk/disk_manager.cpp 539-578 DiskManager::EnsureFsUuidReady *)
Definition EnsureFsUuidReady (volExternal : VolumeExternal) : M (Z * VolumeExternal * string) :=
  let outFsUuid := vol_fsUuid volExternal in
  if negb (str_empty outFsUuid) then
    if negb (IsUuidValid outFsUuid) then sret (errno E_PARAMS_INVALID, volExternal, outFsUuid)
    else sret (errno E_OK, volExternal, outFsUuid)
  else
    let! (err, uuid, type, label) := Sd_ReadMetadata lk_none (dev_block (vol_id volExternal)) in
    if negb (err =? ERR_OK) then sret (err, volExternal, outFsUuid)
    else if negb (IsUuidValid uuid) then sret (errno E_PARAMS_INVALID, volExternal, outFsUuid)
    else
      let! vols := get_vols in
      let uuid := DedupFsUuidUnlocked vols (vol_id volExternal) uuid in
      do! set_vols (alter (Vol_SetFsUuid uuid) (vol_id volExternal)) in
      do! yield lk_none in
      let volExternal := Vol_SetFsType (GetFsTypeByStr type) (Vol_SetDescription label (Vol_SetFsUuid uuid volExternal)) in
      sret (errno E_OK, volExternal, uuid).

(** The result and [fuseMountedOut]. *)
(* @src services/disk_manager/src/disk/disk_manager.cpp 580-621 DiskManager::MountUsbFuseIfNeeded *)
Definition MountUsbFuseIfNeeded (volumeId fsType fsUuid : string) (useFuseData : bool) : M (Z * bool) :=
  if negb useFuseData then sret (errno E_OK, false)
  else
    let! enabled := IsUsbFuseEnabledForFsType lk_none fsType in
    if negb enabled then sret (errno E_OK, false)
    else if negb (IsUuidValid fsUuid) then sret (errno E_PARAMS_INVALID, false)
    else
      let mountPath := EXTERNAL_MOUNT_ROOT +:+ fsUuid in
      let! (err, fuseFd) := Sd_MountFuseDevice lk_none mountPath (-1) in
      if negb (err =? ERR_OK) then sret (err, false)
      else
        let! err := NotifyUsbFuseMount fuseFd volumeId fsUuid in
        if negb (err =? E_OK) then
          do! (if 0 <=? fuseFd then let! _ := call lk_none (CloseFd fuseFd) in sret tt else sret tt) in
          let! _ := Sd_Unmount lk_none mountPath FUSE_UMOUNT_FS_TYPE true in
          sret (err, false)
        else sret (errno E_OK, true).

(* @src services/disk_manager/src/disk/disk_manager.cpp 623-640 DiskManager::RollbackFuseMount *)
Definition RollbackFuseMount (volumeId fsUuid : string) : M Z :=
  if negb (IsUuidValid fsUuid) then fin E_PARAMS_INVALID
  else
    let fusePath := EXTERNAL_MOUNT_ROOT +:+ fsUuid in
    let! mounted := IsPathMounted fusePath in
    if mounted then
      let! err := Sd_Unmount lk_none fusePath FUSE_UMOUNT_FS_TYPE true in
      if negb (err =? ERR_OK) then sret err else NotifyUsbFuseUmount volumeId
    else NotifyUsbFuseUmount volumeId.

(* @src services/disk_manager/src/disk/disk_manager.cpp 642-682 DiskManager::UnmountVolumeMountPoints *)
Definition UnmountVolumeMountPoints (volExternal : VolumeExternal) (force : bool) : M Z :=
  let fsType := GetFsTypeString volExternal in
  let uuid := vol_fsUuid volExternal in
  let volumeId := vol_id volExternal in
  let mountedPath := vol_path volExternal in
  if negb (str_empty mountedPath) && starts_with EXTERNAL_FUSE_DATA_ROOT mountedPath then
    let! err := Sd_Unmount lk_none mountedPath fsType force in
    if negb (err =? ERR_OK) then sret err
    else
      let fuseMountPath := BuildSafeExternalMountPath uuid in
      if negb (str_empty fuseMountPath) then
        let! err := Sd_Unmount lk_none fuseMountPath FUSE_UMOUNT_FS_TYPE force in
        if negb (err =? ERR_OK) then sret err else NotifyUsbFuseUmount volumeId
      else NotifyUsbFuseUmount volumeId
  else if negb (str_empty mountedPath) then Sd_Unmount lk_none mountedPath fsType force
  else if (fsType =s "mtp") || (fsType =s "ptp") then
    let mountPath := BuildSafeExternalMountPath volumeId in
    if str_empty mountPath then fin E_OK else Sd_Unmount lk_none mountPath fsType force
  else fin E_OK.

(** The result and the force flag, which an internal data disk always clears. *)
(* @src services/disk_manager/src/disk/disk_manager.cpp 684-710 DiskManager::ResolveUnmountForceFlag *)
Definition ResolveUnmountForceFlag (volExternal : VolumeExternal) (forceUnmount : bool) : M (Z * bool) :=
  let! disks := get_disks in
  if negb (match disks !! vol_diskId volExternal with Some d => IsInternalDataDisk d | None => false end)
  then sret (errno E_OK, forceUnmount)
  else
    let! queryPath := ResolveQueryUsbIsInUseMountPath volExternal true in
    if str_empty queryPath then sret (errno E_PARAMS_INVALID, false)
    else
      let! (queryErr, isInUse) := Sd_QueryUsbIsInUse lk_D queryPath in
      if negb (queryErr =? ERR_OK) then sret (queryErr, false)
      else if isInUse then sret (errno E_UMOUNT_BUSY, false)
      else sret (errno E_OK, false).

(* @src services/disk_manager/src/disk/disk_manager.cpp 722-748 DiskManager::MarkVolumeAbnormal *)
Definition MarkVolumeAbnormal (volumeId : string) (reason : AbnormalReason) : M Z :=
  let! vols := get_vols in
  match vols !! volumeId with
  | None => fin E_NON_EXIST
  | Some v =>
      if vol_state v =? DAMAGED then fin E_OK
      else if negb (vol_state v =? UNMOUNTED) then fin E_VOL_STATE
      else
        let volExternal := Vol_SetState DAMAGED v in
        do! set_vols (<[volumeId := volExternal]>) in
        do! yield lk_none in
        do! PublishVolumeAbnormal volExternal reason in
        fin E_OK
  end.

(** The data path, empty on failure, and whether a voldata mapping was created. *)
(* @src services/disk_manager/src/disk/disk_manager.cpp 860-872 DiskManager::BuildMountDataPath *)
Definition BuildMountDataPath (policy : VolumeMountPolicy) (fsUuid : string) : M (string * bool) :=
  if useVoldataPath policy then ResolveVoldataMountPath fsUuid
  else if useDvrPath policy then sret (EXTERNAL_DVR_ROOT +:+ fsUuid, false)
  else if useFuseData policy then sret (EXTERNAL_FUSE_DATA_ROOT +:+ fsUuid, false)
  else sret (EXTERNAL_MOUNT_ROOT +:+ fsUuid, false).

(* @src services/disk_manager/src/disk/disk_manager.cpp 874-884 DiskManager::MountVolumeSetPath *)
Definition MountVolumeSetPath (volExternal : VolumeExternal) (dataMountPath : string) : M Z :=
  let! vols := get_vols in
  match vols !! vol_id volExternal with
  | None => fin E_NON_EXIST
  | Some v => do! set_vols (<[vol_id volExternal := Vol_SetPath dataMountPath v]>) in do! yield lk_none in sret ERR_OK
  end.

(* @src services/disk_manager/include/disk/disk_manager.h 143-152 MountDataPathParams *)
Record MountDataPathParams : Type := mkMountDataPathParams {
  mdp_fsUuid : string;
  mdp_policy : VolumeMountPolicy;
  mdp_voldataMappingCreated : bool;
  mdp_dataMountPath : string;
  mdp_fuseMounted : bool;
  mdp_diskFlag : Z;
  mdp_readOnly : bool;
}.

(** The flags a data mount is requested with. *)
Definition data_mount_flags (persistBits : Z) (fsType : string) (isUserData : bool) (params : MountDataPathParams) : Z :=
  let mountFlag := if mdp_readOnly params then Z.lor persistBits MS_RDONLY else persistBits in
  if ((fsType =s "hmfs") || (fsType =s "f2fs")) && (isUserData || negb (useVoldataPath (mdp_policy params)))
  then HMFS_FLAG else mountFlag.

(** What a failed data mount undoes. *)
Definition undo_data_mount (volExternal : VolumeExternal) (params : MountDataPathParams) : M unit :=
  do! (if useVoldataPath (mdp_policy params) && mdp_voldataMappingCreated params
       then let! _ := store (ps_RemoveByFsUuid (mdp_fsUuid params)) in sret tt else sret tt) in
  if mdp_fuseMounted params then let! _ := RollbackFuseMount (vol_id volExternal) (mdp_fsUuid params) in sret tt
  else sret tt.

(* @src services/disk_manager/src/disk/disk_manager.cpp 886-936 DiskManager::ExecuteVolumeDataMount *)
Definition ExecuteVolumeDataMount (volExternal : VolumeExternal) (fsType : string) (params : MountDataPathParams)
  : M (Z * VolumeExternal) :=
  let! persistBits := ReadPersistUsbReadonlyMountFlagBits (useFuseData (mdp_policy params)) in
  let mountFlag := data_mount_flags persistBits fsType (vol_isUserData volExternal) params in
  let mountData := BuildMountDataOptions (useVoldataPath (mdp_policy params)) in
  let! err := Sd_Mount lk_none (dev_block (vol_id volExternal)) (mdp_dataMountPath params) fsType mountFlag mountData in
  if negb (err =? ERR_OK) then
    do! undo_data_mount volExternal params in
    sret (err, Vol_SetState UNMOUNTED volExternal)
  else
    let volExternal := Vol_SetState MOUNTED (Vol_SetPath (mdp_dataMountPath params) volExternal) in
    let! err := MountVolumeSetPath volExternal (mdp_dataMountPath params) in
    if negb (err =? ERR_OK) then
      let! _ := Sd_Unmount lk_none (mdp_dataMountPath params) fsType true in
      do! undo_data_mount volExternal params in
      sret (err, Vol_SetState UNMOUNTED volExternal)
    else
      do! (if (mdp_diskFlag params =? DATA_DISK_SSD) || (mdp_diskFlag params =? DATA_DISK_HDD)
           then NotifyVolumeMounted (vol_diskId volExternal) (vol_id volExternal) (mdp_dataMountPath params)
           else sret tt) in
      let volExternal := ApplyDefaultVolumeDescriptionIfUnset (mdp_diskFlag params) (Vol_SetFlags (mdp_diskFlag params) volExternal) in
      do! PublishVolumeChange lk_none MOUNTED volExternal in
      sret (errno E_OK, volExternal).

(* @src services/disk_manager/src/disk/disk_manager.cpp 938-971 DiskManager::MountVolumeFilesystem *)
Definition MountVolumeFilesystem (volExternal : VolumeExternal) (fsType fsUuid : string) (readOnly : bool)
  : M (Z * VolumeExternal) :=
  let! policy := ComputeVolumeMountPolicy (vol_diskId volExternal) fsType in
  let! (fuseErr, fuseMounted) := MountUsbFuseIfNeeded (vol_id volExternal) fsType fsUuid (useFuseData policy) in
  if negb (fuseErr =? E_OK) then sret (fuseErr, volExternal)
  else
    let! (dataMountPath, created) := BuildMountDataPath policy fsUuid in
    if str_empty dataMountPath then
      do! (if fuseMounted then let! _ := RollbackFuseMount (vol_id volExternal) fsUuid in sret tt else sret tt) in
      sret (errno DISK_MGR_ERR, Vol_SetState UNMOUNTED volExternal)
    else
      let! disks := get_disks in
      let diskFlag := ResolveVolumeFlagsUnlocked disks (vol_diskId volExternal) in
      ExecuteVolumeDataMount volExternal fsType
        (mkMountDataPathParams fsUuid policy created dataMountPath fuseMounted diskFlag readOnly).

(** Sets the state of the caller's copy and of the table's entry. *)
Definition set_state_both (volumeId : string) (s : VolumeState) (v : VolumeExternal) : M VolumeExternal :=
  do! SetVolumeStateLocked volumeId s in sret (Vol_SetState s v).

(** The check, and the repair when the check asks for one, before a voldata mount. *)
Definition check_before_mount (volExternal : VolumeExternal) (volumeId fsType : string) : M (Z * VolumeExternal) :=
  let! v := set_state_both volumeId CHECKING volExternal in
  do! PublishVolumeResult lk_none CHECKING v in
  let! checkErr := Sd_Check lk_none (dev_block (vol_id v)) fsType in
  if checkErr =? E_VOL_NEED_FIX then
    let! v := set_state_both volumeId REPAIR_START v in
    do! PublishVolumeResult lk_none REPAIR_START v in
    let! v := set_state_both volumeId REPAIRING v in
    let! repairErr := Sd_Repair lk_none (dev_block (vol_id v)) fsType in
    if negb (repairErr =? ERR_OK) then
      let! v := set_state_both volumeId REPAIR_FINISH_FAIL v in
      do! PublishVolumeResult lk_none REPAIR_FINISH_FAIL v in
      sret (repairErr, v)
    else
      do! PublishVolumeResult lk_none REPAIR_FINISH_SUCCESS v in
      let! v := set_state_both volumeId UNMOUNTED v in
      sret (errno E_OK, v)
  else if negb (checkErr =? ERR_OK) then
    let! v := set_state_both volumeId REPAIR_FINISH_FAIL v in
    do! PublishVolumeResult lk_none REPAIR_FINISH_FAIL v in
    sret (checkErr, v)
  else
    do! PublishVolumeResult lk_none REPAIR_FINISH_SUCCESS v in
    let! v := set_state_both volumeId UNMOUNTED v in
    sret (errno E_OK, v).

(* @src services/disk_manager/src/disk/disk_manager.cpp 807-858 DiskManager::MountVolumeEntry *)
Definition MountVolumeEntry (volExternal : VolumeExternal) (volumeId : string) (readOnly : bool) : M (Z * VolumeExternal) :=
  let! (uuidErr, volExternal, fsUuid) := EnsureFsUuidReady volExternal in
  let fsType := GetFsTypeString volExternal in
  if negb (uuidErr =? E_OK) then sret (uuidErr, Vol_SetState UNMOUNTED volExternal)
  else
    let! policy := ComputeVolumeMountPolicy (vol_diskId volExternal) fsType in
    let! (checkErr, volExternal) := (if useVoldataPath policy then check_before_mount volExternal volumeId fsType
                                     else sret (errno E_OK, volExternal)) in
    if negb (checkErr =? ERR_OK) then sret (checkErr, volExternal)
    else
      let! (mountErr, volExternal) := MountVolumeFilesystem volExternal fsType fsUuid readOnly in
      if negb (mountErr =? E_OK) then sret (mountErr, Vol_SetState UNMOUNTED volExternal)
      else sret (mountErr, volExternal).

(** ** Volumes mounted by device path (dm-crypt and loop devices) *)
(* @src services/disk_manager/src/disk/disk_manager.cpp 3112-3135 DiskManager::InitVolume *)
Definition InitVolume (volExternal : VolumeExternal) (volPath : string) : M (Z * VolumeExternal) :=
  let! (err, uuid, type, label) := Sd_ReadMetadata lk_none volPath in
  if negb (err =? E_OK) then sret (err, volExternal)
  else if negb (IsUuidValid uuid) then sret (errno E_PARAMS_INVALID, volExternal)
  else
    let v := Vol_SetFsUuid uuid volExternal in
    let v := Vol_SetDescription (if str_empty label then "MyUSB" else label) v in
    let v := Vol_SetFsType (GetFsTypeByStr type) v in
    sret (errno E_OK, Vol_SetPath (EXTERNAL_MOUNT_ROOT +:+ uuid) v).

(* @src services/disk_manager/src/disk/disk_manager.cpp 3097-3110 DiskManager::InitAndMountVolume *)
Definition InitAndMountVolume (volExternal : VolumeExternal) (volPath : string) (mountFlag : Z) : M (Z * VolumeExternal) :=
  let! (res, volExternal) := InitVolume volExternal volPath in
  if negb (res =? E_OK) then sret (res, volExternal)
  else
    let! res := Sd_Mount lk_none volPath (vol_path volExternal) (GetFsTypeString volExternal) mountFlag "" in
    if negb (res =? E_OK) then sret (res, volExternal) else sret (errno E_OK, volExternal).

(* @src services/disk_manager/src/disk/disk_manager.cpp 3002-3047 DiskManager::MountVolumeByPath *)
Definition MountVolumeByPath (diskId volPath : string) (mountParam : MountParam) : M Z :=
  let! disk := GetDiskById diskId in
  match disk with
  | None => fin E_NON_EXIST
  | Some disk =>
      if negb (disk_diskType disk =? USB_FLAG) then fin E_MOUNT_VOL_BY_PATH_FAILED
      else
        let! volExternal := LookupVolumeByCryptPath diskId volPath in
        match volExternal with
        | None => fin E_NON_EXIST
        | Some volExternal =>
            if vol_state volExternal =? MOUNTED then fin E_VOL_STATE
            else
              let! mountFlag := ReadPersistUsbReadonlyMountFlagBits false in
              let mountFlag := if mp_readOnly mountParam then Z.lor mountFlag MS_RDONLY else mountFlag in
              let! (res, volExternal) := InitAndMountVolume volExternal volPath mountFlag in
              if negb (res =? E_OK) then sret res
              else
                let v := Vol_SetMountFlag (mp_readOnly mountParam)
                           (Vol_SetFlags (disk_diskType disk) (Vol_SetState MOUNTED volExternal)) in
                let! updateErr := UpdateVolumeExternal v in
                if negb (updateErr =? E_OK) then sret updateErr
                else
                  do! yield lk_none in
                  do! PublishVolumeChange lk_none MOUNTED v in
                  fin E_OK
        end
  end.

(* @src services/disk_manager/src/disk/disk_manager.cpp 750-805 DiskManager::Mount *)
Definition Mount (volumeId : string) (mountParam : MountParam) : M Z :=
  let! disabled := sys_GetParameter lk_none "persist.edm.external_storage_card_disable" "" in
  if disabled =s "true" then fin E_NON_EXIST
  else
    let! vols := get_vols in
    match vols !! volumeId with
    | None => fin E_NON_EXIST
    | Some volExternal =>
        if negb (mountable_state (vol_state volExternal)) then fin E_VOL_MOUNT_ERR
        else
          do! yield lk_none in
          let! devPath := CheckVolId volumeId in
          let! intercepted := IsEdmControlMountEnabled volExternal mountParam in
          if intercepted then fin E_OK
          else if negb (str_empty devPath) && starts_with "vol-crypt-" volumeId then
            MountVolumeByPath (vol_diskId volExternal) devPath (MP_SetReadOnly (vol_mountFlag volExternal) MountParam_default)
          else
            let! (mountErr, volExternal) := MountVolumeEntry volExternal volumeId (mp_readOnly mountParam) in
            let! vols := get_vols in
            match vols !! volumeId with
            | None => fin E_NON_EXIST
            | Some it =>
                if (mountErr =? E_OK) && negb (mountable_state (vol_state it)) then fin E_VOL_MOUNT_ERR
                else do! set_vols (<[volumeId := volExternal]>) in sret mountErr
            end
    end.

(** ** Unmount *)
(* @src services/disk_manager/src/disk/disk_manager.cpp 2763-2780 DiskManager::SaveVolumeFreeSize *)
Definition SaveVolumeFreeSize (volExternal : VolumeExternal) : M VolumeExternal :=
  let! (ret, freeSize) := GetFreeSizeOfVolume (vol_fsUuid volExternal) in
  if ret =? E_OK then
    if freeSize <? 0 then sret volExternal else sret (Vol_SetFreeSize freeSize volExternal)
  else sret volExternal.

(** The previous state and the volume. *)
(* @src services/disk_manager/src/disk/disk_manager.cpp 2734-2751 DiskManager::NotifyVolumeEjecting *)
Definition NotifyVolumeEjecting (volumeId : string) (volExternal : VolumeExternal) (umountResult : string)
  : M (Z * VolumeExternal) :=
  let previousState := vol_state volExternal in
  let eject v := Vol_SetUmountResult umountResult (Vol_SetState EJECTING v) in
  do! set_vols (alter eject volumeId) in
  do! yield lk_none in
  do! PublishVolumeChange lk_none EJECTING (eject volExternal) in
  sret (previousState, eject volExternal).

(* @src services/disk_manager/src/disk/disk_manager.cpp 2753-2761 DiskManager::RestoreVolumeState *)
Definition RestoreVolumeState (volumeId : string) (volExternal : VolumeExternal) (state : Z) : M VolumeExternal :=
  do! set_vols (alter (Vol_SetState state) volumeId) in sret (Vol_SetState state volExternal).

(* @src services/disk_manager/src/disk/disk_manager.cpp 1027-1076 DiskManager::DoUnmountVolume *)
Definition DoUnmountVolume (volExternal : VolumeExternal) (forceUnmount : bool) : M Z :=
  let! volExternal := SaveVolumeFreeSize volExternal in
  let volumeId := vol_id volExternal in
  let! (previousState, volExternal) := NotifyVolumeEjecting volumeId volExternal "" in
  let! disks := get_disks in
  let isInternalDataDisk := match disks !! vol_diskId volExternal with Some d => IsInternalDataDisk d | None => false end in
  do! (if isInternalDataDisk then let! _ := call lk_none (SleepSeconds 1) in sret tt else yield lk_none) in
  let! (prepErr, forceUnmount) := ResolveUnmountForceFlag volExternal forceUnmount in
  if negb (prepErr =? E_OK) then
    let! (_, volExternal) := NotifyVolumeEjecting volumeId volExternal "umountFail" in
    let! _ := RestoreVolumeState volumeId volExternal previousState in
    sret prepErr
  else
    let! err := UnmountVolumeMountPoints volExternal forceUnmount in
    if negb (err =? ERR_OK) then
      let! (_, volExternal) := NotifyVolumeEjecting volumeId volExternal "umountFail" in
      let! _ := RestoreVolumeState volumeId volExternal previousState in
      sret err
    else
      let updated := Vol_SetState UNMOUNTED (Vol_SetPath "" volExternal) in
      do! PublishVolumeChange lk_none UNMOUNTED updated in
      let! vols := get_vols in
      match vols !! volumeId with
      | None => fin E_NON_EXIST
      | Some it =>
          do! (if is_mtp_ptp (vol_fsType updated) then set_vols (delete volumeId)
               else set_vols (<[volumeId := Vol_SetState UNMOUNTED (Vol_SetPath "" it)]>)) in
          fin E_OK
      end.

(* @src services/disk_manager/src/disk/disk_manager.cpp 985-1008 DiskManager::Unmount *)
Definition Unmount (volumeId : string) : M Z :=
  let! vols := get_vols in
  match vols !! volumeId with
  | None => fin E_NON_EXIST
  | Some volExternal =>
      if negb (unmountable_state (vol_state volExternal)) then fin E_VOL_UMOUNT_ERR
      else do! yield lk_none in DoUnmountVolume volExternal false
  end.

(* @src services/disk_manager/src/disk/disk_manager.cpp 1010-1025 DiskManager::ForceUnmount *)
Definition ForceUnmount (volumeId : string) : M Z :=
  let! vols := get_vols in
  match vols !! volumeId with
  | None => fin E_NON_EXIST
  | Some volExternal => do! yield lk_none in DoUnmountVolume volExternal true
  end.

(* @src services/disk_manager/src/disk/disk_manager.cpp 3049-3081 DiskManager::UmountVolumeByPath *)
Definition UmountVolumeByPath (diskId volPath : string) : M Z :=
  let! disk := GetDiskById diskId in
  match disk with
  | None => fin E_NON_EXIST
  | Some disk =>
      if negb (disk_diskType disk =? USB_FLAG) then fin E_UMOUNT_VOL_BY_PATH_FAILED
      else
        let! volExternal := LookupVolumeByCryptPath diskId volPath in
        match volExternal with
        | None => fin E_NON_EXIST
        | Some volExternal =>
            if vol_state volExternal =? UNMOUNTED then fin E_VOL_STATE
            else
              do! yield lk_none in
              let! res := DoUnmountVolume volExternal false in
              if negb (res =? E_OK) then sret res else fin E_OK
        end
  end.

(** ** Format *)
(* @src services/disk_manager/src/disk/disk_manager.cpp 2629-2637 DiskManager::PublishFormatFailEvent *)
Definition PublishFormatFailEvent (volumeId : string) : M unit :=
  do! SetVolumeStateLocked volumeId FORMAT_FINISH_FAIL in
  let! vols := get_vols in
  match vols !! volumeId with
  | Some v => PublishVolumeResult lk_V FORMAT_FINISH_FAIL v
  | None => sret tt
  end.

(** The result of [ReadMetadata] is not looked at: on failure the uuid is empty. *)
(* @src services/disk_manager/src/disk/disk_manager.cpp 2639-2666 DiskManager::UpdateVolumeAfterFormat *)
Definition UpdateVolumeAfterFormat (volumeId fsType diskId oldFsUuid devPath : string) : M Z :=
  let! (_, uuid, _, label) := Sd_ReadMetadata lk_none devPath in
  if negb (IsUuidValid uuid) then fin E_PARAMS_INVALID
  else
    let! vols := get_vols in
    let uuid := DedupFsUuidUnlocked vols volumeId uuid in
    do! yield lk_none in
    do! UpdateVoldataMappingAfterFormat diskId oldFsUuid uuid fsType in
    do! yield lk_none in
    let! vols := get_vols in
    match vols !! volumeId with
    | None => fin E_NON_EXIST
    | Some v =>
        do! set_vols (<[volumeId := Vol_SetState UNMOUNTED (Vol_SetFsType (GetFsTypeByStr fsType)
                                      (Vol_SetDescription label (Vol_SetFsUuid uuid v)))]>) in
        fin E_OK
    end.

(** [IsDiskSupported] runs under the volume table's read lock. *)
(* @src services/disk_manager/src/disk/disk_manager.cpp 1078-1136 DiskManager::Format *)
Definition Format (volumeId fsType : string) : M Z :=
  let! vols := get_vols in
  match vols !! volumeId with
  | None => fin E_NON_EXIST
  | Some it =>
      if vol_fsType it =? MTP then fin E_NOT_SUPPORT
      else
        let! supported := IsDiskSupported (vol_diskId it) in
        if negb (supported =? E_OK) then fin E_NOT_SUPPORT
        else if negb (formattable_state (vol_state it)) then fin E_VOL_STATE
        else
          do! yield lk_none in
          let! disks := get_disks in
          let partitionType := match disks !! vol_diskId it with Some d => disk_partitionType d | None => "" end in
          do! yield lk_none in
          let! devPath := CheckVolId volumeId in
          if str_empty devPath then fin E_NON_EXIST
          else
            let! err := Sd_FormatVolume lk_none devPath fsType (dev_block (vol_diskId it)) partitionType (vol_partitionNum it) in
            if negb (err =? ERR_OK) then do! PublishFormatFailEvent volumeId in sret err
            else UpdateVolumeAfterFormat volumeId fsType (vol_diskId it) (vol_fsUuid it) devPath
  end.

(** ** Repair *)
(* @src services/disk_manager/src/disk/disk_manager.cpp 2701-2732 DiskManager::RepairAndCheckVolume *)
Definition RepairAndCheckVolume (volExternal : VolumeExternal) (volumeId : string) : M (Z * VolumeExternal) :=
  let devPath := dev_block (vol_id volExternal) in
  let fsType := GetFsTypeString volExternal in
  let! v := set_state_both volumeId CHECKING volExternal in
  do! PublishVolumeResult lk_none CHECKING v in
  let! fixErr := Sd_Repair lk_none devPath fsType in
  if negb (fixErr =? ERR_OK) then
    let! v := set_state_both volumeId REPAIR_FINISH_FAIL v in
    do! PublishVolumeResult lk_none REPAIR_FINISH_FAIL v in
    sret (fixErr, v)
  else
    let! policy := ComputeVolumeMountPolicy (vol_diskId v) fsType in
    let! checkErr := (if useVoldataPath policy then Sd_Check lk_none devPath fsType else sret ERR_OK) in
    if negb (checkErr =? ERR_OK) then
      let! v := set_state_both volumeId REPAIR_FINISH_FAIL v in
      do! PublishVolumeResult lk_none REPAIR_FINISH_FAIL v in
      sret (checkErr, v)
    else
      do! PublishVolumeResult lk_none REPAIR_FINISH_SUCCESS v in
      let! v := set_state_both volumeId UNMOUNTED v in
      sret (errno E_OK, v).

(** The forced unmount a repair of a mounted volume starts with. *)
Definition unmount_for_fix (volExternal : VolumeExternal) (volumeId : string) : M (Z * VolumeExternal) :=
  let! (previousState, v) := NotifyVolumeEjecting volumeId volExternal "" in
  let! umErr := UnmountVolumeMountPoints v true in
  if negb (umErr =? ERR_OK) then
    let! v := RestoreVolumeState volumeId v previousState in sret (umErr, v)
  else
    do! set_vols (alter (fun it => Vol_SetState UNMOUNTED (Vol_SetPath "" it)) volumeId) in
    do! yield lk_none in
    sret (ERR_OK, Vol_SetState UNMOUNTED (Vol_SetPath "" v)).

(* @src services/disk_manager/src/disk/disk_manager.cpp 1138-1182 DiskManager::TryToFix *)
Definition TryToFix (volumeId : string) : M Z :=
  let! vols := get_vols in
  match vols !! volumeId with
  | None => fin E_NON_EXIST
  | Some volExternal =>
      do! yield lk_none in
      let! (umErr, volExternal) :=
        (if (vol_state volExternal =? DAMAGED_MOUNTED) || (vol_state volExternal =? MOUNTED)
         then unmount_for_fix volExternal volumeId else sret (ERR_OK, volExternal)) in
      if negb (umErr =? ERR_OK) then sret umErr
      else
        let! (rcErr, volExternal) := RepairAndCheckVolume volExternal volumeId in
        if negb (rcErr =? E_OK) then sret rcErr
        else
          let! (mountErr, volExternal) := MountVolumeEntry volExternal volumeId false in
          let! vols := get_vols in
          match vols !! volumeId with
          | None => fin E_NON_EXIST
          | Some _ => do! set_vols (<[volumeId := volExternal]>) in sret mountErr
          end
  end.

(* @src services/disk_manager/src/disk/disk_manager.cpp 1184-1242 DiskManager::SetVolumeDescription *)
Definition SetVolumeDescription (fsUuid description : string) : M Z :=
  let! vols := get_vols in
  match LookupVolumeByUuidUnlocked vols fsUuid with
  | None => fin E_NON_EXIST
  | Some v =>
      if negb (vol_state v =? UNMOUNTED) then fin E_VOL_STATE
      else if str_empty description || (VOLUME_DESCRIPTION_MAX_LEN <? String.length description)%nat then fin E_PARAMS_INVALID
      else
        do! yield lk_none in
        let! supported := IsDiskSupported (vol_diskId v) in
        if negb (supported =? E_OK) then fin E_NOT_SUPPORT
        else if negb (LABEL_SUPPORTED_FS_TYPES (GetFsTypeString v)) then fin E_NOT_SUPPORT
        else
          let! devPath := CheckVolId (vol_id v) in
          if str_empty devPath then fin E_NON_EXIST
          else
            let! err := Sd_SetLabel lk_none devPath (GetFsTypeString v) description in
            if negb (err =? ERR_OK) then sret err
            else
              let! vols := get_vols in
              match vols !! vol_id v with
              | None => fin E_NON_EXIST
              | Some it => do! set_vols (<[vol_id v := Vol_SetDescription description it]>) in fin E_OK
              end
  end.

(** The volumes of a disk and the valid uuids among theirs, in table order. *)
Definition volumes_of_disk (vols : gmap string VolumeExternal) (diskId : string) : list (string * VolumeExternal) :=
  List.filter (fun kv => vol_diskId kv.2 =s diskId) (sorted_entries vols).
(** The last error of the removals. *)
Fixpoint remove_mappings (fsUuids : list string) (ret : Z) : M Z :=
  match fsUuids with
  | [] => sret ret
  | u :: us =>
      let! removeRet := store (ps_RemoveByFsUuid u) in
      remove_mappings us (if negb (removeRet =? E_OK) then removeRet else ret)
  end.
(* @src services/disk_manager/src/disk/disk_manager.cpp 1244-1288 DiskManager::PurgeVolumesForDisk *)
Definition PurgeVolumesForDisk (diskId : string) : M Z :=
  let! known := HasDisk diskId in
  if negb known then fin E_DISK_NOT_FOUND
  else
    do! yield lk_none in
    let! vols := get_vols in
    let volumes := volumes_of_disk vols diskId in
    let fsUuids := List.filter IsUuidValid (map (fun kv => vol_fsUuid kv.2) volumes) in
    do! yield lk_none in
    do! set_vols (fun vols => fold_left (fun m k => delete k m) (map fst volumes) vols) in
    do! yield lk_none in
    remove_mappings fsUuids (errno E_OK).

(** ** MTP volumes *)
(** The answer to [Getxattr]: [an_ret] the length, [an_str] the value. *)
(* @src services/disk_manager/src/disk/disk_manager.cpp 2045-2093 DiskManager::NotifyMtpMounted *)
Definition NotifyMtpMounted (id path desc uuid fsType : string) : M Z :=
  let! a := call lk_none (Getxattr path "user.getfriendlyname") in
  let v := Vol_SetPath path (VolumeExternal_of_core (VolumeCore_new id 0 "" UNMOUNTED)) in
  let v := if fsType =s "mtpfs" then Vol_SetFsType (GetFsTypeByStr "mtp") v
           else if fsType =s "gphotofs" then Vol_SetFsType (GetFsTypeByStr "ptp") v
           else v in
  let v := Vol_SetDescription desc v in
  let v := if 0 <? an_ret a then Vol_SetDescription (an_str a) v else v in
  let v := Vol_SetFsUuid uuid (Vol_SetState MOUNTED v) in
  do! set_vols (map_insert v) in
  do! yield lk_none in
  do! PublishVolumeChange lk_none MOUNTED v in
  fin E_OK.

(** The event is published with the volume table locked. *)
(* @src services/disk_manager/src/disk/disk_manager.cpp 2095-2115 DiskManager::NotifyMtpUnmounted *)
Definition NotifyMtpUnmounted (id : string) (isBadRemove : bool) : M Z :=
  let! vols := get_vols in
  match vols !! id with
  | None => fin E_VOLUME_NOT_FOUND
  | Some volExternal =>
      do! PublishVolumeChange lk_V (if negb isBadRemove then UNMOUNTED else BAD_REMOVAL) volExternal in
      do! set_vols (delete id) in
      fin E_OK
  end.
End mount.
