(* ===== verification/DmPartition.v ===== *)
(** * [services/disk_manager/src/disk/disk_manager.cpp]: partition tables and partitions

    Parsing of the [sgdisk -p] dump, the checks of a new partition, and the
    create, delete and format requests. [partitionLock_] guards the partition
    members of the world; [lk_P] marks requests made while it is held. *)
From S2P Require Import Prelude CppString Types State Utils Json World Adapters DmQuery Events DmMount.

(* @src services/disk_manager/src/disk/disk_manager.cpp 131-138 typeCodeMap_ *)
Definition typeCodeMap : gmap string string :=
  list_to_map [("vfat", "0x0700"); ("exfat", "0x0700"); ("ntfs", "0x0700");
               ("ext4", "0x8300"); ("f2fs", "0x8300"); ("hmfs", "0x8300")].
Definition VFAT_TYPECODE_MIN_SIZE : Z := 16 * 1024 * 1024.
Definition EXFAT_TYPECODE_MIN_SIZE : Z := 32 * 1024 * 1024.
Definition NTFS_TYPECODE_MIN_SIZE : Z := 4 * 1024 * 1024.
Definition EXT4_TYPECODE_MIN_SIZE : Z := 16 * 1024 * 1024.
Definition F2FS_TYPECODE_MIN_SIZE : Z := 16 * 1024 * 1024.

(** ** Text *)
(** [*endptr == '\0'] *)
Definition at_end (rest : string) : bool := match rest with "" => true | String c _ => char_eqb c NUL end.
(* @src services/disk_manager/src/disk/disk_manager.cpp 147-169 ConvertStringToInt *)
Definition ConvertStringToInt (str : string) : option Z :=
  if str_empty str then None
  else
    match strtoll10 str with
    | None => None
    | Some (result, erange, rest) => if erange then None else if negb (at_end rest) then None else Some result
    end.

(** The pattern is [^([1-9]\d{0,9})$]. *)
(* @src services/disk_manager/src/disk/disk_manager.cpp 171-191 ConvertStringToInt32 *)
Definition ConvertStringToInt32 (context : string) : option Z :=
  match context with
  | "" => None
  | String c ds =>
      if negb (is_digit c && negb (char_eqb c "0") && sforall is_digit ds && (String.length ds <=? 9)%nat) then None
      else
        match strtoll10 context with
        | None => None
        | Some (tollRes, erange, rest) =>
            if erange || negb (str_empty rest) then None
            else if (tollRes <=? 0) || (INT32_MAX <=? tollRes) then None
            else Some (i32 tollRes)
        end
  end.

(** The [while] loop and what follows it; [fuel] bounds the number of newlines. *)
Fixpoint split_dump_loop (fuel : nat) (rawDump : string) (start : nat) (end_ : option nat) (lines : list string) : list string :=
  match end_, fuel with
  | Some e, S fuel =>
      let lines := if (start <? e)%nat then lines ++ [substr start (e - start) rawDump] else lines in
      split_dump_loop fuel rawDump (S e) (sfind_from (schar NL) (S e) rawDump) lines
  | _, _ => if (start <? String.length rawDump)%nat then lines ++ [sdrop start rawDump] else lines
  end.
(* @src services/disk_manager/src/disk/disk_manager.cpp 193-215 SplitRawDumpToLines *)
Definition SplitRawDumpToLines (rawDump : string) : list string :=
  if str_empty rawDump then []
  else split_dump_loop (String.length rawDump) rawDump 0 (sfind (schar NL) rawDump) [].

(** [std::regex_search]: the first suffix [m] accepts. *)
Fixpoint regex_search (m : string -> option string) (s : string) : option string :=
  match m s with
  | Some r => Some r
  | None => match s with "" => None | String _ s' => regex_search m s' end
  end.
(** [lit(\d+)lit'] *)
Definition re_digits (lit lit' : string) (s : string) : option string :=
  if starts_with lit s then
    let t := sdrop (String.length lit) s in
    let ds := stake_while is_digit t in
    if negb (str_empty ds) && starts_with lit' (sdrop_while is_digit t) then Some ds else None
  else None.
(** [Sector size\s*\(logical(?:/physical)?\):\s*(\d+)] *)
Definition re_sector_size (s : string) : option string :=
  if starts_with "Sector size" s then
    let t := sdrop_while is_space (sdrop 11 s) in
    if starts_with "(logical" t then
      let t := sdrop 8 t in
      let t := if starts_with "/physical" t then sdrop 9 t else t in
      if starts_with "):" t then
        let ds := stake_while is_digit (sdrop_while is_space (sdrop 2 t)) in
        if str_empty ds then None else Some ds
      else None
    else None
  else None.

Definition first_line (prefix : string) (content : list string) : option string :=
  find_if (fun buf => starts_with prefix buf) content.

(* @src services/disk_manager/src/disk/disk_manager.cpp 2243-2275 DiskManager::SetUsableSector *)
Definition SetUsableSector (content : list string) (info : PartitionTableInfo) : option PartitionTableInfo :=
  target ← first_line "First usable sector is" content;
  result ← regex_search (re_digits "last usable sector is " "") target;
  lastUsableSector ← ConvertStringToInt result;
  Some (PTI_SetTotalSector lastUsableSector (PTI_SetLastUsableSector lastUsableSector info)).

(* @src services/disk_manager/src/disk/disk_manager.cpp 2277-2308 DiskManager::SetSectorSize *)
Definition SetSectorSize (content : list string) (info : PartitionTableInfo) : option PartitionTableInfo :=
  target ← first_line "Sector size " content;
  result ← regex_search re_sector_size target;
  sectorSize ← ConvertStringToInt32 result;
  Some (PTI_SetSectorSize sectorSize info).

(* @src services/disk_manager/src/disk/disk_manager.cpp 2310-2341 DiskManager::SetAlignSector *)
Definition SetAlignSector (content : list string) (info : PartitionTableInfo) : option PartitionTableInfo :=
  target ← first_line "Partitions will be aligned on" content;
  result ← regex_search (re_digits "Partitions will be aligned on " "-sector boundaries") target;
  alignSector ← ConvertStringToInt32 result;
  Some (PTI_SetAlignSector alignSector info).

(* @src services/disk_manager/src/disk/disk_manager.cpp 2343-2357 DiskManager::SetTableType *)
Definition SetTableType (content : list string) (info : PartitionTableInfo) : PartitionTableInfo :=
  PTI_SetTableType (match first_line "Found invalid GPT and valid MBR" content with Some _ => "MBR" | None => "GPT" end) info.

(** [ss >> item] leaves [item] alone when the line is exhausted. *)
Definition next_item (item : string) (ws : list string) : string * list string :=
  match ws with [] => (item, []) | w :: ws' => (w, ws') end.
(* @src services/disk_manager/src/disk/disk_manager.cpp 2203-2241 DiskManager::ParsePartitionInfo *)
Definition ParsePartitionInfo (context : string) (info : PartitionInfo) : option PartitionInfo :=
  if str_empty context then None
  else
    let (item, ws) := next_item "" (tokens context) in
    if str_empty item then None
    else
      partitionNum ← ConvertStringToInt32 item;
      let (item, ws) := next_item item ws in
      if str_empty item then None
      else
        startSector ← ConvertStringToInt item;
        let (item, ws) := next_item item ws in
        if str_empty item then None
        else
          endSector ← ConvertStringToInt item;
          Some (PI_SetEndSector endSector (PI_SetStartSector startSector (PI_SetPartitionNum partitionNum info))).

(** The lines after the header line. *)
Fixpoint partition_rows (content : list string) : list string :=
  match content with
  | [] => []
  | buf :: rest => if starts_with "Number" buf && contains "Start" buf then rest else partition_rows rest
  end.

(** ** The checks of a new partition *)
Definition min_partition_size (typeCode : string) : Z :=
  if typeCode =s "vfat" then VFAT_TYPECODE_MIN_SIZE
  else if typeCode =s "exfat" then EXFAT_TYPECODE_MIN_SIZE
  else if typeCode =s "ntfs" then NTFS_TYPECODE_MIN_SIZE
  else if typeCode =s "ext4" then EXT4_TYPECODE_MIN_SIZE
  else F2FS_TYPECODE_MIN_SIZE.
Definition has_min_partition_size (typeCode : string) : bool :=
  (typeCode =s "vfat") || (typeCode =s "exfat") || (typeCode =s "ntfs") || (typeCode =s "ext4") ||
  (typeCode =s "f2fs") || (typeCode =s "hmfs").
(* @src services/disk_manager/src/disk/disk_manager.cpp 2429-2468 DiskManager::IsParamsValid *)
Definition IsParamsValid (params : PartitionParams) (info : PartitionTableInfo) : bool :=
  let startSector := pp_startSector params in
  if (pti_lastUsableSector info <? startSector) || (startSector <? pti_alignSector info) then false
  else if negb (Z.rem (i64 (startSector * pti_sectorSize info)) (pti_alignSector info) =? 0) then false
  else
    let endSector := pp_endSector params in
    if (pti_lastUsableSector info <? endSector) || (endSector <? pti_alignSector info) then false
    else
      let typeCode := pp_typeCode params in
      let sectorInterval := i64 (i64 (i64 (endSector - startSector) + 1) * pti_sectorSize info) in
      if has_min_partition_size typeCode && (sectorInterval <? min_partition_size typeCode) then false
      else true.

Section partition.
Context {E St : Type} {EV : Env E} {PS : PathStore St} {JT : JsonText}.
Notation M := (State (World E St)).

(** ** Partitioning in progress *)
(* @src services/disk_manager/src/disk/disk_manager.cpp 1290-1294 DiskManager::AddPartitioningDisk *)
Definition AddPartitioningDisk (diskId : string) : M unit := set_partitioning (fun s => {[diskId]} ∪ s).
(* @src services/disk_manager/src/disk/disk_manager.cpp 1296-1300 DiskManager::RemovePartitioningDisk *)
Definition RemovePartitioningDisk (diskId : string) : M unit := set_partitioning (fun s => s ∖ {[diskId]}).
(* @src services/disk_manager/src/disk/disk_manager.cpp 1326-1330 DiskManager::IsPartitioning *)
Definition IsPartitioning (diskId : string) : M bool := get_sh (fun sh => bool_decide (diskId ∈ sh_partitioning sh)).

(* @src services/disk_manager/src/disk/disk_manager.cpp 1302-1310 DiskManager::NotifyPartitionDone *)
Definition NotifyPartitionDone (diskId : string) : M unit :=
  let! m := get_sh sh_partitionDone in
  match m !! diskId with
  | None => sret tt
  | Some _ => set_partitionDone (<[diskId := true]>)
  end.

(** [partitionDoneMap_[diskId]], which creates a missing entry. *)
Definition partitionDone_at (diskId : string) : M bool :=
  let! m := get_sh sh_partitionDone in
  match m !! diskId with
  | Some b => sret b
  | None => do! set_partitionDone (<[diskId := false]>) in sret false
  end.
(** The loop [while (!done) { if (wait_until == timeout) break; }]; [wakeups] is the
    number of wake-ups, spurious or not, before the deadline. *)
Fixpoint wait_loop (wakeups : nat) (diskId : string) : M unit :=
  let! isDone := partitionDone_at diskId in
  if isDone then sret tt
  else
    do! yield lk_none in
    match wakeups with
    | O => sret tt
    | S wakeups => wait_loop wakeups diskId
    end.
(** The answer's [an_int] is the number of wake-ups before the deadline. *)
(* @src services/disk_manager/src/disk/disk_manager.cpp 1312-1324 DiskManager::WaitForPartitionDone *)
Definition WaitForPartitionDone (diskId : string) : M unit :=
  do! set_partitionDone (<[diskId := false]>) in
  let! a := request (WaitUntil diskId) in
  do! wait_loop (Z.to_nat (an_int a)) diskId in
  set_partitionDone (delete diskId).

(** ** The partition table *)
(** The rows that parse, with their size and file system. *)
Fixpoint collect_partitions (rows : list string) (tableInfo : PartitionTableInfo) : M (list PartitionInfo) :=
  match rows with
  | [] => sret []
  | buf :: rows' =>
      match ParsePartitionInfo buf PartitionInfo_default with
      | None => collect_partitions rows' tableInfo
      | Some info =>
          let sizeBytes := i64 (i64 (i64 (pi_endSector info - pi_startSector info) + 1) * pti_sectorSize tableInfo) in
          let! fsType := GetFsTypeByDiskIdAndPartNum (pti_diskId tableInfo) (pi_partitionNum info) in
          let! rest := collect_partitions rows' tableInfo in
          sret (PI_SetFsType fsType (PI_SetSizeBytes sizeBytes info) :: rest)
      end
  end.
(* @src services/disk_manager/src/disk/disk_manager.cpp 2152-2182 DiskManager::SetPartitions *)
Definition SetPartitions (content : list string) (tableInfo : PartitionTableInfo) : M PartitionTableInfo :=
  match partition_rows content with
  | [] => sret tableInfo
  | rows => let! partitions := collect_partitions rows tableInfo in sret (PTI_SetPartitions partitions tableInfo)
  end.

(* @src services/disk_manager/src/disk/disk_manager.cpp 2117-2150 DiskManager::GetPartitionTable *)
Definition GetPartitionTable (diskId : string) (info : PartitionTableInfo) : M (Z * PartitionTableInfo) :=
  let! known := HasDisk diskId in
  if negb known then sret (errno E_NON_EXIST, info)
  else
    let! (ret, execRet) := Sd_GetPartitionTableInfo lk_P (dev_block diskId) in
    if negb (ret =? E_OK) || str_empty execRet then sret (errno E_GET_PARTITION_ERROR, info)
    else
      let tempInfo := SplitRawDumpToLines execRet in
      match SetSectorSize tempInfo info with
      | None => sret (errno E_GET_PARTITION_ERROR, info)
      | Some info =>
          match SetAlignSector tempInfo info with
          | None => sret (errno E_GET_PARTITION_ERROR, info)
          | Some info =>
              match SetUsableSector tempInfo info with
              | None => sret (errno E_GET_PARTITION_ERROR, info)
              | Some info =>
                  let info := SetTableType tempInfo (PTI_SetDiskId diskId info) in
                  let! info := SetPartitions tempInfo info in
                  let info := PTI_SetPartitionCount (i32 (Z.of_nat (List.length (pti_partitions info)))) info in
                  do! set_partitionTable (<[diskId := info]>) in
                  sret (errno E_OK, info)
              end
          end
      end.

(** ** Creating, deleting and formatting *)
(* @src services/disk_manager/src/disk/disk_manager.cpp 2359-2404 DiskManager::CreatePartition *)
Definition CreatePartition (diskId : string) (params : PartitionParams) : M Z :=
  let! disk := GetDiskById diskId in
  match disk with
  | None => fin E_NON_EXIST
  | Some disk =>
      if negb (disk_diskType disk =? SD_FLAG) && negb (disk_diskType disk =? USB_FLAG) then fin E_CREATE_PARTITION_NOT_SUPPORT
      else
        match typeCodeMap !! pp_typeCode params with
        | None => fin E_CREATE_PARTITION_NOT_SUPPORT
        | Some code =>
            let! notReady := IsDiskNotReady diskId in
            if notReady then fin E_VOL_STATE
            else
              let! tables := get_sh sh_partitionTable in
              match tables !! diskId with
              | None => fin E_NON_EXIST
              | Some info =>
                  if negb (IsParamsValid params info) then fin E_PARAMS_INVALID
                  else
                    let! ret := Sd_CreatePartition lk_P (dev_block diskId) (pp_partitionNum params)
                                  (pp_startSector params) (pp_endSector params) code in
                    if negb (ret =? E_OK) then fin E_CREATE_PARTITION_ERROR
                    else
                      do! yield lk_none in
                      do! WaitForPartitionDone diskId in
                      fin E_OK
              end
        end
  end.

(* @src services/disk_manager/src/disk/disk_manager.cpp 2782-2826 DiskManager::DestroyVolumeByDiskIdAndPartNum *)
Definition DestroyVolumeByDiskIdAndPartNum (diskId : string) (partNum : Z) : M bool :=
  let! disk := GetDiskById diskId in
  match disk with
  | None => sret false
  | Some disk =>
      let! vol := find_volume (fun v => vol_partitionNum v =? partNum) (disk_volumeIds disk) in
      match vol with
      | None => sret false
      | Some vol =>
          let stateBeforeUnmount := vol_state vol in
          do! (if negb (stateBeforeUnmount =? UNMOUNTED) then let! _ := ForceUnmount (vol_id vol) in sret tt else sret tt) in
          let! ret := Sd_DestroyBlockDeviceNode lk_none (dev_block (vol_id vol)) in
          if negb (ret =? E_OK) then sret false
          else
            do! PublishVolumeChange lk_none (if stateBeforeUnmount =? UNMOUNTED then REMOVED else BAD_REMOVAL) vol in
            let! _ := OnVolumeDestroyed (vol_id vol) in
            sret true
      end
  end.

(* @src services/disk_manager/src/disk/disk_manager.cpp 2470-2518 DiskManager::DeletePartition *)
Definition DeletePartition (diskId : string) (partitionNum : Z) : M Z :=
  let! disk := GetDiskById diskId in
  match disk with
  | None => fin E_NON_EXIST
  | Some disk =>
      if negb (disk_diskType disk =? SD_FLAG) && negb (disk_diskType disk =? USB_FLAG) then fin E_DELETE_PARTITION_NOT_SUPPORT
      else
        let! notReady := IsDiskNotReady diskId in
        if notReady then fin E_VOL_STATE
        else
          let! tables := get_sh sh_partitionTable in
          match tables !! diskId with
          | None => fin E_NON_EXIST
          | Some info =>
              if negb (existsb (fun item => pi_partitionNum item =? partitionNum) (pti_partitions info)) then fin E_NON_EXIST
              else
                let! ret := Sd_DeletePartition lk_P (disk_sysPath disk) diskId partitionNum in
                if negb (ret =? E_OK) then fin E_DELETE_PARTITION_ERROR
                else
                  let! _ := DestroyVolumeByDiskIdAndPartNum diskId partitionNum in
                  do! yield lk_none in
                  do! WaitForPartitionDone diskId in
                  fin E_OK
          end
  end.

(* @src services/disk_manager/src/disk/disk_manager.cpp 2668-2688 DiskManager::RefreshVolumeAfterFormatPartition *)
Definition RefreshVolumeAfterFormatPartition (fmtVol : VolumeExternal) (fsType diskId : string) : M unit :=
  if str_empty (vol_id fmtVol) then sret tt
  else
    let! devPath := CheckVolId (vol_id fmtVol) in
    if str_empty devPath then sret tt
    else let! _ := UpdateVolumeAfterFormat (vol_id fmtVol) fsType diskId (vol_fsUuid fmtVol) devPath in sret tt.

(* @src services/disk_manager/src/disk/disk_manager.cpp 2520-2583 DiskManager::FormatPartition *)
Definition FormatPartition (diskId : string) (partitionNum : Z) (params : FormatParams) : M Z :=
  let! disk := GetDiskById diskId in
  match disk with
  | None => fin E_NON_EXIST
  | Some disk =>
      if negb (disk_diskType disk =? SD_FLAG) && negb (disk_diskType disk =? USB_FLAG) then fin E_FORMAT_PARTITION_NOT_SUPPORT
      else
        let! mounted := IsVolumeMounted diskId partitionNum in
        if mounted then fin E_VOL_STATE
        else
          let! fmtVol := FindVolumeForPartition disk partitionNum in
          do! yield lk_none in
          let! tables := get_sh sh_partitionTable in
          match tables !! diskId with
          | None => fin E_NON_EXIST
          | Some table =>
              let devPath := if existsb (fun item => pi_partitionNum item =? partitionNum) (pti_partitions table)
                             then disk_sysPath disk +:+ to_string partitionNum else "" in
              if str_empty devPath then fin E_NON_EXIST
              else
                let type := fp_fsType params in
                let typeIdentifier :=
                  if type =s "ext4" then Some (to_string partitionNum +:+ ":" +:+ "0x8300")
                  else if (type =s "exfat") || (type =s "vfat") then Some (to_string partitionNum +:+ ":" +:+ "0x0700")
                  else None in
                match typeIdentifier with
                | None => fin E_PARAMS_INVALID
                | Some typeIdentifier =>
                    let! ret := Sd_FormatPartition lk_none devPath type (fp_volumeName params)
                                  ["sgdisk"; "-t"; typeIdentifier; dev_block diskId] (fp_quickFormat params) in
                    if negb (ret =? E_OK) then
                      do! (if negb (str_empty (vol_id fmtVol)) then PublishVolumeResult lk_none FORMAT_FINISH_FAIL fmtVol
                           else sret tt) in
                      fin E_FORMAT_PARTITION_ERROR
                    else
                      do! RefreshVolumeAfterFormatPartition fmtVol type diskId in
                      fin E_OK
                end
          end
  end.
End partition.
