(* ===== verification/DmOptical.v ===== *)
(** * [services/disk_manager/src/disk/disk_manager.cpp]: optical discs, loop and dm-crypt devices *)
From S2P Require Import Prelude CppString Types State Utils Json World Adapters DmQuery Events DmMount DmPartition.

Definition BURN_REPORT_EVENT_ID : Z := 15728644.
Definition BURN_EDM_CONTROL_EVENT_ID : Z := 15728648.
Definition EDM_BURN_DENIED_MARK : Z := -2.

(** The part of a path after its last [/]; the whole path without one
    ([npos + 1] is 0). *)
Definition base_name (path : string) : string :=
  match srfind "/" path with Some i => sdrop (S i) path | None => path end.
Definition crypt_volume_id (loopPath : string) : string := "vol-crypt-" +:+ base_name loopPath.

Section optical.
Context {E St : Type} {EV : Env E} {PS : PathStore St} {JT : JsonText}.
Notation M := (State (World E St)).

(** The report is built from the arguments and the time; its result is only logged. *)
(* @src services/disk_manager/src/disk/disk_manager.cpp 84-107 ReportBurnSecurityInfo *)
Definition ReportBurnSecurityInfo (userId : Z) (appId fsType : string) (eventId : Z) : M Z :=
  let! a := call lk_none (ReportSecurityInfo userId appId fsType eventId) in sret (an_ret a).

(* @src services/disk_manager/src/disk/disk_manager.cpp 1812-1832 DiskManager::Eject *)
Definition Eject (diskId : string) : M Z :=
  let! disk := GetDiskById diskId in
  match disk with
  | None => fin E_NOT_SUPPORT
  | Some disk =>
      if negb (disk_diskType disk =? CD_FLAG) then fin E_NOT_SUPPORT
      else
        let! err := Sd_Eject lk_none (disk_devName disk) in
        if negb (err =? ERR_OK) then fin E_EJECT_FAILED else fin E_OK
  end.

(* @src services/disk_manager/src/disk/disk_manager.cpp 1777-1810 DiskManager::Erase *)
Definition Erase (volumeId : string) : M Z :=
  let! vols := get_vols in
  match vols !! volumeId with
  | None => fin E_PARAMS_INVALID
  | Some it =>
      if negb (IsOddFsType (GetFsTypeString it)) then fin E_NOT_SUPPORT
      else
        let! err := Sd_Erase lk_none (dev_block (vol_id it)) in
        if negb (err =? ERR_OK) then fin E_ERASE_FAILED
        else
          let! err := Eject (vol_diskId it) in
          if negb (err =? ERR_OK) then fin E_ERASE_FAILED else fin E_OK
  end.

(* @src services/disk_manager/src/disk/disk_manager.cpp 1834-1884 DiskManager::CreateIsoImage *)
Definition CreateIsoImage (volumeId filePath : string) : M Z :=
  let! vols := get_vols in
  match vols !! volumeId with
  | None => fin E_NOT_SUPPORT
  | Some it =>
      if negb (vol_state it =? MOUNTED) then fin E_VOL_STATE
      else if negb (IsOddFsType (GetFsTypeString it)) then fin E_NOT_SUPPORT
      else if str_empty filePath then fin E_PARAMS_INVALID
      else
        do! yield lk_none in
        let! disk := GetDiskById (vol_diskId it) in
        match disk with
        | None => fin E_PARAMS_INVALID
        | Some disk =>
            if bool_decide (disk_cdromState disk = EMPTY_DISC) then fin E_EMPTY_DISC
            else
              let! err := Sd_CreateIsoImage lk_none (dev_block (vol_id it)) filePath (GetFsTypeString it) (vol_path it) in
              if negb (err =? ERR_OK) then fin E_ISO_WRITE_FAILED else fin E_OK
        end
  end.

(** The result, [blockVolId] and [fsType]. *)
(* @src services/disk_manager/src/disk/disk_manager.cpp 1940-1984 DiskManager::PrepareBurn *)
Definition PrepareBurn (volumeId burnOptions : string) (callerUserId : Z) : M (Z * string * string) :=
  let! vols := get_vols in
  match vols !! volumeId with
  | None => sret (errno E_PARAMS_INVALID, "", "")
  | Some it =>
      let blockVolId := vol_id it in
      let fsType := GetFsTypeString it in
      if negb (IsOddFsType fsType) then sret (errno E_NOT_SUPPORT, blockVolId, fsType)
      else if str_empty burnOptions then sret (errno E_PARAMS_INVALID, blockVolId, fsType)
      else
        let! allowed := IsEdmEnableOddBurn (vol_diskId it) callerUserId in
        if negb allowed then sret (EDM_BURN_DENIED_MARK, blockVolId, fsType)
        else if ((vol_state it =? MOUNTED) || (vol_state it =? DAMAGED_MOUNTED)) && negb (str_empty (vol_path it)) then
          let! umountErr := Sd_Unmount lk_none (vol_path it) fsType true in
          if negb (umountErr =? ERR_OK) then sret (errno E_VOL_UMOUNT_ERR, blockVolId, fsType)
          else sret (errno E_OK, blockVolId, fsType)
        else sret (errno E_OK, blockVolId, fsType)
  end.

(* @src services/disk_manager/src/disk/disk_manager.cpp 1986-2015 DiskManager::Burn *)
Definition Burn (volumeId burnOptions callerBundle : string) (callerUserId : Z) : M Z :=
  let! (prepErr, blockVolId, fsType) := PrepareBurn volumeId burnOptions callerUserId in
  if prepErr =? EDM_BURN_DENIED_MARK then
    let! _ := ReportBurnSecurityInfo callerUserId callerBundle fsType BURN_EDM_CONTROL_EVENT_ID in
    fin E_NOT_SUPPORT
  else if negb (prepErr =? E_OK) then sret prepErr
  else
    let! err := Sd_Burn lk_none (dev_block blockVolId) burnOptions fsType in
    let! _ := ReportBurnSecurityInfo callerUserId callerBundle fsType BURN_REPORT_EVENT_ID in
    if negb (err =? ERR_OK) then
      if err =? E_BURN_NOSPC then fin E_BURN_NOSPC else fin E_BURN_FAILED
    else fin E_OK.

(* @src services/disk_manager/src/disk/disk_manager.cpp 2017-2043 DiskManager::GetVolumeOpProcess *)
Definition GetVolumeOpProcess (volumeId : string) (progressPct : Z) : M (Z * Z) :=
  let! vols := get_vols in
  match vols !! volumeId with
  | None => sret (errno E_PARAMS_INVALID, progressPct)
  | Some it =>
      if negb (IsOddFsType (GetFsTypeString it)) then sret (errno E_NOT_SUPPORT, progressPct)
      else
        let! (err, progressPct) := Sd_GetVolumeOpProcess lk_none (vol_id it) progressPct in
        if negb (err =? ERR_OK) then sret (err, progressPct) else sret (errno E_OK, progressPct)
  end.

(** ** Loop and dm-crypt devices *)
(** The loop path of the disk's volume bound to the same range. *)
(* @src services/disk_manager/src/disk/disk_manager.cpp 3160-3179 DiskManager::IsVolumeBind *)
Definition IsVolumeBind (disk : Disk) (offset sizeLimit : Z) : M (option string) :=
  let! vol := find_volume (fun v => (vol_offset v =? offset) && (vol_sizeLimit v =? sizeLimit)) (disk_volumeIds disk) in
  sret (vol_loopPath <$> vol).

(** An output whose first string has no non-empty line makes the code read past an
    empty vector; the model then continues with an empty path. *)
(* @src services/disk_manager/src/disk/disk_manager.cpp 2874-2914 DiskManager::BindBlockLoopDev *)
Definition BindBlockLoopDev (diskId : string) (offset sizeLimit : Z) : M (Z * option string) :=
  let! disk := GetDiskById diskId in
  match disk with
  | None => sret (errno E_NON_EXIST, None)
  | Some disk =>
      if negb (disk_diskType disk =? USB_FLAG) then sret (errno E_BIND_LOOP_DEV_FAILED, None)
      else
        let! bound := IsVolumeBind disk offset sizeLimit in
        match bound with
        | Some loopPath => sret (errno E_OK, Some loopPath)
        | None =>
            let! (ret, output) := Sd_ExecuteCommand lk_none ["loopctl"; "--oh"; "-f"; "-o"; to_string offset; "--sizelimit";
                                    to_string sizeLimit; "--show"; dev_block diskId] in
            match output with
            | [] => sret (errno E_BIND_LOOP_DEV_FAILED, None)
            | out0 :: _ =>
                if negb (ret =? E_OK) then sret (errno E_BIND_LOOP_DEV_FAILED, None)
                else
                  let loopPath := match SplitRawDumpToLines out0 with l :: _ => l | [] => "" end in
                  let v := VolumeExternal_of_core (VolumeCore_new (crypt_volume_id loopPath) 0 diskId UNMOUNTED) in
                  let v := Vol_SetState UNMOUNTED (Vol_SetSizeLimit sizeLimit (Vol_SetOffset offset (Vol_SetLoopPath loopPath v))) in
                  let! _ := OnVolumeCreated v in
                  sret (errno E_OK, Some loopPath)
            end
        end
  end.

(** The result and [mapperName]. *)
(* @src services/disk_manager/src/disk/disk_manager.cpp 2916-2952 DiskManager::CreateDmCryptVolume *)
Definition CreateDmCryptVolume (param : CryptParam) (loopPath mapperName : string) : M (Z * string) :=
  let! volumeExternal := GetVolumeById (crypt_volume_id loopPath) in
  match volumeExternal with
  | None => sret (errno E_NON_EXIST, mapperName)
  | Some v =>
      if negb (str_empty (vol_mapperPath v)) then sret (errno E_OK, vol_mapperPath v)
      else
        let! (ret, _) := Sd_ExecuteCommand lk_none ["cryptsetup"; "open"; "--type"; cp_type param; "--cipher"; cp_cipher param;
                           "--key-size"; to_string (cp_keySize param); "--key-file"; cp_keyFile param; loopPath; mapperName] in
        if negb (ret =? E_OK) then sret (errno E_CREATE_DM_CRYPT_VOLUME_FAILED, mapperName)
        else
          let v := Vol_SetMapperPath ("/dev/mapper/" +:+ mapperName) v in
          let! updateErr := UpdateVolumeExternal v in
          if negb (updateErr =? E_OK) then sret (updateErr, mapperName)
          else sret (errno E_OK, vol_mapperPath v)
  end.

(* @src services/disk_manager/src/disk/disk_manager.cpp 2954-2980 DiskManager::DestroyDmCryptVolume *)
Definition DestroyDmCryptVolume (mapperName : string) : M Z :=
  let mapperPath := "/dev/mapper/" +:+ mapperName in
  let! (ret, _) := Sd_ExecuteCommand lk_none ["cryptsetup"; "close"; mapperPath] in
  if negb (ret =? E_OK) then fin E_DESTROY_DM_CRYPT_VOLUME_FAILED
  else
    do! set_vols (fun vols =>
          match find_if (fun kv => vol_mapperPath kv.2 =s mapperPath) (sorted_entries vols) with
          | Some (k, v) => <[k := Vol_SetMapperPath "" v]> vols
          | None => vols
          end) in
    fin E_OK.

(* @src services/disk_manager/src/disk/disk_manager.cpp 2982-3000 DiskManager::UnbindBlockLoopDev *)
Definition UnbindBlockLoopDev (loopPath : string) : M Z :=
  let! (ret, _) := Sd_ExecuteCommand lk_none ["loopctl"; "-d"; loopPath] in
  if negb (ret =? E_OK) then fin E_UNBIND_LOOP_DEV_FAILED
  else let! _ := OnVolumeDestroyed (crypt_volume_id loopPath) in fin E_OK.
End optical.
