(* ===== verification/SysfsReader.v ===== *)
(** * [services/disk_manager/src/disk/sysfs_reader.cpp]: USB attributes of a block device

    The reader walks up from the device's directory to the first directory whose
    subsystem is [usb] and whose device type is [usb_device]. File accesses are
    requests: for [ReadFile] the answer's [an_bool] says that the file could be
    opened and [an_str] is its content; for [Readlink] [an_ret] is the returned
    length; for [AccessFile] [an_ret] is 0 when the file exists. *)
From S2P Require Import Prelude CppString Types State World.

(* @src services/disk_manager/include/disk/sysfs_reader.h 28-34 UsbSysfsInfo *)
Record UsbSysfsInfo : Type := mkUsbSysfsInfo {
  usb_vid : string;
  usb_pid : string;
  usb_serialNumber : string;
  usb_busnum : string;
  usb_devnum : string;
}.
Definition UsbSysfsInfo_default : UsbSysfsInfo := mkUsbSysfsInfo "" "" "" "" "".

(** [s] ends with [suffix] and is longer: the part before. *)
Definition strip_suffix (suffix s : string) : option string :=
  let n := (String.length s - String.length suffix)%nat in
  if (String.length suffix <? String.length s)%nat && (sdrop n s =s suffix) then Some (stake n s) else None.

(** The part of a path before its last [/]; [None] when there is none or it is the first character. *)
Definition parent_dir (path : string) : option string :=
  match srfind "/" path with
  | Some (S i) => Some (stake (S i) path)
  | _ => None
  end.

(* @src services/disk_manager/src/disk/sysfs_reader.cpp 28-43 SysfsReader::StripBlockSuffix *)
Definition StripBlockSuffix (sysPath devName : string) : string :=
  match strip_suffix ("/block/" +:+ devName) sysPath with
  | Some p => p
  | None => match parent_dir sysPath with Some p => p | None => sysPath end
  end.

(** The first line without trailing line ends, blanks and NULs. *)
Definition trim_content (content : string) : string :=
  rtrim (fun c => char_eqb c NL || char_eqb c CR || char_eqb c " " || char_eqb c NUL)
        (match getlines content with l :: _ => l | [] => "" end).

(** The part after the last [/], unless that is empty. *)
Definition link_base_name (target : string) : string :=
  match srfind "/" target with
  | Some i => if (S i <? String.length target)%nat then sdrop (S i) target else target
  | None => target
  end.

Section sysfs.
Context {E St : Type} {EV : Env E}.
Notation M := (State (World E St)).

(* @src services/disk_manager/src/disk/sysfs_reader.cpp 45-59 SysfsReader::ReadSysfsFile *)
Definition ReadSysfsFile (path : string) : M string :=
  let! a := call lk_none (ReadFile path) in
  if negb (an_bool a) then sret "" else sret (trim_content (an_str a)).

(* @src services/disk_manager/src/disk/sysfs_reader.cpp 61-82 SysfsReader::ReadSubsystemSymlink *)
Definition ReadSubsystemSymlink (sysfsDir : string) : M string :=
  let! a := call lk_none (Readlink (sysfsDir +:+ "/subsystem")) in
  if an_ret a <=? 0 then sret "" else sret (link_base_name (an_str a)).

(* @src services/disk_manager/src/disk/sysfs_reader.cpp 84-102 SysfsReader::ReadUeventField *)
Definition ReadUeventField (sysfsDir field : string) : M string :=
  let! a := call lk_none (ReadFile (sysfsDir +:+ "/uevent")) in
  if negb (an_bool a) then sret ""
  else
    let prefix := field +:+ "=" in
    sret (match find_if (starts_with prefix) (getlines (an_str a)) with
          | Some line => sdrop (String.length prefix) line
          | None => ""
          end).

(* @src services/disk_manager/src/disk/sysfs_reader.cpp 104-110 SysfsReader::HasUeventFile *)
Definition HasUeventFile (sysfsDir : string) : M bool :=
  let! a := call lk_none (AccessFile (sysfsDir +:+ "/uevent")) in sret (an_ret a =? 0).

(** Whether a directory is a USB device node. *)
Definition is_usb_device (path : string) : M bool :=
  let! has := HasUeventFile path in
  if negb has then sret false
  else
    let! subsystem := ReadSubsystemSymlink path in
    if subsystem <>s "usb" then sret false
    else
      let! devType := ReadUeventField path "DEVTYPE" in
      sret (devType =s "usb_device").

(** The loop; each turn shortens the path, and [walk_up_fuel] shows that more fuel than
    the path has characters changes nothing. *)
Fixpoint walk_up (fuel : nat) (currentPath : string) : M UsbSysfsInfo :=
  match fuel with
  | O => sret UsbSysfsInfo_default
  | S fuel =>
      if str_empty currentPath || (currentPath =s "/") then sret UsbSysfsInfo_default
      else
        let! found := is_usb_device currentPath in
        if negb found then
          match parent_dir currentPath with
          | None => sret UsbSysfsInfo_default
          | Some p => walk_up fuel p
          end
        else
          let! vid := ReadSysfsFile (currentPath +:+ "/idVendor") in
          let! pid := ReadSysfsFile (currentPath +:+ "/idProduct") in
          let! serialNumber := ReadSysfsFile (currentPath +:+ "/serial") in
          let! busnum := ReadSysfsFile (currentPath +:+ "/busnum") in
          let! devnum := ReadSysfsFile (currentPath +:+ "/devnum") in
          sret (mkUsbSysfsInfo vid pid serialNumber busnum devnum)
  end.
(* @src services/disk_manager/src/disk/sysfs_reader.cpp 112-176 SysfsReader::WalkUpAndReadUsbAttrs *)
Definition WalkUpAndReadUsbAttrs (startPath : string) : M UsbSysfsInfo :=
  walk_up (S (String.length startPath)) startPath.

(* @src services/disk_manager/src/disk/sysfs_reader.cpp 178-193 SysfsReader::ReadUsbInfo *)
Definition ReadUsbInfo (sysPath devName : string) : M UsbSysfsInfo :=
  if str_empty sysPath || str_empty devName then sret UsbSysfsInfo_default
  else WalkUpAndReadUsbAttrs (StripBlockSuffix sysPath devName).

(** ** The walk ends *)
Lemma parent_dir_shorter path p : parent_dir path = Some p -> (String.length p < String.length path)%nat.
Proof.
  unfold parent_dir. destruct (srfind "/" path) as [[|i]|] eqn:H; try done.
  apply srfind_Some in H as (a & b & Hp & Hi). intros Hs. apply (inj Some) in Hs. rewrite <- Hs.
  assert (Hl : (S i < String.length path)%nat) by (rewrite Hp, !slen_app, Hi; cbn; lia).
  rewrite stake_length; lia.
Qed.
Lemma walk_up_fuel fuel path (w : World E St) :
  (String.length path < fuel)%nat -> walk_up fuel path w = walk_up (S (String.length path)) path w.
Proof.
  enough (H : forall n m path (w : World E St), (String.length path < n)%nat -> (String.length path < m)%nat ->
                walk_up n path w = walk_up m path w) by (intros; apply H; lia).
  clear. induction n as [|n IH]; intros [|m] path w Hn Hm; try lia. cbn [walk_up].
  destruct (str_empty path || (path =s "/")); [done|]. unfold sbind.
  destruct (is_usb_device path w) as [[] w']; cbn [negb]; [done|].
  destruct (parent_dir path) as [p|] eqn:Hp; [|done]. apply parent_dir_shorter in Hp. apply IH; lia.
Qed.
End sysfs.
