(* ===== verification/Bootstrap.v ===== *)
(** * [services/disk_manager/src/disk/uevent_bootstrap.cpp]: disk discovery

    What the service does for a kernel event: it creates device nodes, reads the
    partition table, adds and removes disks and volumes and mounts what it found.
    Fault reports are not modelled. *)
From S2P Require Import Prelude CppString Types State Utils Uevent PartitionTable Json BlockInfo World Adapters.
From S2P Require Import DmQuery Events DmMount DmPartition DmOptical SysfsReader.

Definition PARTITION_TARGET_FS_TYPE : string := "f2fs".
Definition K_DISK_BLOCK_DEVICE_NODE_MODE : Z := 25008.
Definition K_VOLUME_BLOCK_DEVICE_NODE_MODE : Z := 24576.
Definition DISK_MMC_MAJOR : Z := 179.
Definition DISK_CD_MAJOR : Z := 11.
Definition MIN_LINES : nat := 32.
Definition MAJORID_BLKEXT : Z := 259.
Definition MAX_PARTITION : Z := 16.
Definition MAX_INTERVAL_PARTITION : Z := 15.
Definition MAX_SCSI_VOLUMES : Z := 15.
Definition BYTES_PER_MB : Z := 1024 * 1024.
Definition MIN_DISK_SIZE_MB : Z := 4.
Definition SECTOR_SIZE : Z := 512.
Definition CONFIG_PARAM_NUM : nat := 6.
Definition CONFIG_PATH : string := "/system/etc/disk_manager/disk_config".
Definition BLOCK_PATH : string := "/dev/block".

(** [dev_t] has 64 bits; the macros of [sys/sysmacros.h]. *)
Definition makedev (maj min : Z) : Z :=
  Z.lor (Z.lor (Z.shiftl (Z.land maj 4294963200) 32) (Z.shiftl (Z.land maj 4095) 8))
        (Z.lor (Z.shiftl (Z.land min 4294967040) 12) (Z.land min 255)).
Definition major (d : Z) : Z := Z.lor (Z.land (Z.shiftr d 32) 4294963200) (Z.land (Z.shiftr d 8) 4095).
Definition minor (d : Z) : Z := Z.lor (Z.land (Z.shiftr d 12) 4294967040) (Z.land d 255).

(** The base is 16 or 10. *)
(* @src services/disk_manager/src/disk/uevent_bootstrap.cpp 91-105 ParseSysfsInt *)
Definition ParseSysfsInt (str : string) (hex : bool) : Z :=
  if str_empty str then 0
  else
    match conv_signed (if hex then conv16 str else conv10 str) with
    | None => 0
    | Some (result, erange, rest) =>
        if negb (at_end rest) || erange || (result <? INT32_MIN) || (INT32_MAX <? result) then 0 else result
    end.

(** The same fold as [KeyHash]. *)
(* @src services/disk_manager/src/disk/uevent_bootstrap.cpp 140-148 ActionHash *)
Definition ActionHash (sv : string) : Z := KeyHash sv.

(* @src services/disk_manager/src/disk/uevent_bootstrap.cpp 155-158 DiskIdFrom *)
Definition DiskIdFrom (maj min : Z) : string := "disk-" +:+ to_string maj +:+ "-" +:+ to_string min.
(** For ids made by [DiskIdFrom]. *)
(* @src services/disk_manager/src/disk/uevent_bootstrap.cpp 161-169 ParseDiskIdToMajMin *)
Definition ParseDiskIdToMajMin (diskId : string) : Z * Z :=
  match srfind "-" diskId with
  | Some lastDash =>
      (u32 (strtoul10 (substr 5 (lastDash - 5) diskId)), u32 (strtoul10 (sdrop (S lastDash) diskId)))
  | None => (u32 (strtoul10 (sdrop 5 diskId)), u32 (strtoul10 diskId))
  end.
(* @src services/disk_manager/src/disk/uevent_bootstrap.cpp 171-174 VolIdFromDev *)
Definition VolIdFromDev (d : Z) : string := "vol-" +:+ to_string (major d) +:+ "-" +:+ to_string (minor d).
(* @src services/disk_manager/src/disk/uevent_bootstrap.cpp 176-179 BlockPathForId *)
Definition BlockPathForId (id : string) : string := dev_block id.
(* @src services/disk_manager/src/disk/uevent_bootstrap.cpp 181-187 PartitionDev *)
Definition PartitionDev (diskMaj diskMin partIndex : Z) : Z :=
  if MAX_SCSI_VOLUMES <? partIndex then makedev MAJORID_BLKEXT (u32 (partIndex - MAX_PARTITION))
  else makedev diskMaj (u32 (diskMin + partIndex)).

(* @src services/disk_manager/src/disk/uevent_bootstrap.cpp 189-198 LegacyDiskFlagFromDevPath *)
Definition LegacyDiskFlagFromDevPath (env : UeventEnv) : Z :=
  if ue_major env =? DISK_CD_MAJOR then CD_FLAG
  else if contains "usb" (ue_devPath env) then USB_FLAG
  else SD_FLAG.

(** What an entry of the configuration with flag [flag] gives for a device. *)
Definition combine_flag (flag : Z) (maj : Z) : Z :=
  let flag := u32 flag in
  if maj =? DISK_MMC_MAJOR then Z.lor flag SD_FLAG
  else if maj =? DISK_CD_MAJOR then Z.lor flag CD_FLAG
  else if negb (flag =? DVR_USB) then Z.lor flag USB_FLAG else flag.

(* @src services/disk_manager/src/disk/uevent_bootstrap.cpp 570-582 BuildPartitionDevName *)
Definition BuildPartitionDevName (devName : string) (partitionNumber : Z) : string :=
  if str_empty devName then ""
  else devName +:+ (if starts_with "nvme" devName then "p" else "") +:+ to_string partitionNumber.

(* @src services/disk_manager/src/disk/uevent_bootstrap.cpp 514-517 IsAbnormalDetectableFsType *)
Definition IsAbnormalDetectableFsType (fsType : Z) : bool :=
  negb (fsType =? MTP) && negb (fsType =? UDF) && negb (fsType =? ISO9660) && negb (fsType =? PTP).

(* @src services/disk_manager/src/disk/uevent_bootstrap.cpp 932-937 PartitionKeyEqual *)
Definition PartitionKeyEqual (a b : PartitionRecord) : bool :=
  (pr_partitionNumber a =? pr_partitionNumber b) && (pr_partitionType a =s pr_partitionType b) &&
  (pr_fsTypeRaw a =s pr_fsTypeRaw b).
(* @src services/disk_manager/src/disk/uevent_bootstrap.cpp 939-943 ContainsPartition *)
Definition ContainsPartition (l : list PartitionRecord) (target : PartitionRecord) : bool :=
  existsb (fun r => PartitionKeyEqual r target) l.

(** The added and removed records and the new snapshot. *)
Definition partition_diff (old : option (list PartitionRecord)) (newParts : list PartitionRecord)
  : list PartitionRecord * list PartitionRecord :=
  match old with
  | None => (newParts, [])
  | Some old => (List.filter (fun np => negb (ContainsPartition old np)) newParts,
                 List.filter (fun op => negb (ContainsPartition newParts op)) old)
  end.

(** The file's own copy of the function of disk_manager.cpp, with a log line. *)
(* @src services/disk_manager/src/disk/uevent_bootstrap.cpp 270-297 SplitRawDumpToLines *)
Definition UeventBootstrap_SplitRawDumpToLines (rawDump : string) : list string :=
  if str_empty rawDump then []
  else split_dump_loop (String.length rawDump) rawDump 0 (sfind (schar NL) rawDump) [].
(** The text given to the parser: of a large dump with a [userdata] line, only the
    disk line and that line are kept. *)
Definition reduce_dump (rawDump : string) : string * bool :=
  let lines := UeventBootstrap_SplitRawDumpToLines rawDump in
  if (MIN_LINES <? List.length lines)%nat then
    match find_if (contains "userdata") lines with
    | Some userdata =>
        ((match find_if (contains "DISK") lines with Some d => d | None => "" end) +:+ schar NL +:+ userdata, true)
    | None => (rawDump, false)
    end
  else (rawDump, false).

(* @src services/disk_manager/src/disk/uevent_bootstrap.cpp 1150-1169 UeventBootstrap::SplitLine *)
Definition SplitLine (line : string) : list string := drop_last_empty (split_char " " line).
(** [atoi] *)
Definition atoi (s : string) : Z := match strtoll10 s with Some (v, _, _) => i32 v | None => 0 end.
Definition parse_config_line (line : string) : option DiskConfig :=
  match SplitLine line with
  | [k1; sysPattern; k2; label; k3; flag] =>
      if (k1 =s "sysPattern") && (k2 =s "label") && (k3 =s "flag") then Some (mkDiskConfig sysPattern label (atoi flag))
      else None
  | _ => None
  end.
(** The lines before the first empty one. *)
Fixpoint until_empty (lines : list string) : list string :=
  match lines with
  | [] => []
  | l :: ls => if str_empty l then [] else l :: until_empty ls
  end.

Section bootstrap.
Context {E St : Type} {EV : Env E} {PS : PathStore St} {JT : JsonText}.
Notation M := (State (World E St)).

(** ** Configuration *)
(** The answer to [ReadFile]: [an_bool] when the file could be opened, [an_str] its text. *)
(* @src services/disk_manager/src/disk/uevent_bootstrap.cpp 1171-1223 UeventBootstrap::ParasConfigFile *)
Definition ParasConfigFile (configPath : string) : M bool :=
  let! a := call lk_none (ReadFile configPath) in
  if negb (an_bool a) then sret false
  else do! set_configs (fun cs => cs ++ omap parse_config_line (until_empty (getlines (an_str a)))) in sret true.
(** Of a build without [CDC_STORAGE], which reads a second file before this one. *)
(* @src services/disk_manager/src/disk/uevent_bootstrap.cpp 1225-1234 UeventBootstrap::ParasConfig *)
Definition ParasConfig : M bool := ParasConfigFile CONFIG_PATH.
(* @src services/disk_manager/src/disk/uevent_bootstrap.cpp 1144-1148 UeventBootstrap::Init *)
Definition Bootstrap_Init : M unit := let! _ := ParasConfig in sret tt.

(** The answer's [an_ret] is [fnmatch]'s result. *)
(* @src services/disk_manager/src/disk/disk_config.cpp 35-40 DiskConfig::IsMatch *)
Definition IsMatch (config : DiskConfig) (devPath : string) : M bool :=
  let! a := call lk_none (Fnmatch (dc_sysPattern config) devPath) in sret (an_ret a =? 0).
(* @src services/disk_manager/src/disk/uevent_bootstrap.cpp 1237-1261 UeventBootstrap::MatchConfig *)
Definition MatchConfig (env : UeventEnv) : M Z :=
  let! configs := get_sh sh_configs in
  let! found := sfor_until configs (fun config =>
    let! m := IsMatch config (ue_devPath env) in
    sret (if m then Some (combine_flag (dc_flag config) (ue_major env)) else None)) in
  sret (match found with Some flag => flag | None => 0 end).
(* @src services/disk_manager/src/disk/uevent_bootstrap.cpp 200-207 ResolveInitialDiskFlag *)
Definition ResolveInitialDiskFlag (env : UeventEnv) : M Z :=
  let! matchedFlag := MatchConfig env in
  if negb (matchedFlag =? 0) then sret (i32 matchedFlag) else sret (LegacyDiskFlagFromDevPath env).

(** ** Removal *)
(** One turn of the loop: a volume of [diskId]. *)
Definition destroy_volume (vol : VolumeExternal) : M unit :=
  do! (if negb (vol_state vol =? UNMOUNTED) then let! _ := ForceUnmount (vol_id vol) in sret tt else sret tt) in
  do! (if negb (str_empty (vol_mapperPath vol))
       then let! _ := DestroyDmCryptVolume (base_name (vol_mapperPath vol)) in sret tt else sret tt) in
  do! (if negb (str_empty (vol_loopPath vol))
       then let! _ := UnbindBlockLoopDev (vol_loopPath vol) in sret tt else sret tt) in
  let! ret := Sd_DestroyBlockDeviceNode lk_none (BlockPathForId (vol_id vol)) in
  if negb (ret =? E_OK) then sret tt
  else
    do! PublishVolumeChange lk_none (if vol_state vol =? UNMOUNTED then REMOVED else BAD_REMOVAL) vol in
    let! _ := OnVolumeDestroyed (vol_id vol) in sret tt.
(* @src services/disk_manager/src/disk/uevent_bootstrap.cpp 209-242 DestroyALLVolume *)
Definition DestroyALLVolume (diskId : string) : M unit :=
  let! vols := GetAllVolumes in
  do! yield lk_none in
  sfor (List.filter (fun vol => (vol_diskId vol =s diskId) && (vol_id vol <>s "0")) vols) destroy_volume.

(* @src services/disk_manager/src/disk/uevent_bootstrap.cpp 244-260 DestroyALLDisk *)
Definition DestroyALLDisk (diskId : string) : M Z :=
  let! ret := Sd_DestroyBlockDeviceNode lk_none (BlockPathForId diskId) in
  if negb (ret =? E_OK) then fin E_DESTROY_DEVICE_NODE
  else
    let! diskSnap := GetDiskById diskId in
    let! _ := OnDiskDestroyed diskId in
    do! (match diskSnap with Some d => PublishDiskChange DK_REMOVED d | None => sret tt end) in
    fin E_OK.

(** ** Reading the partition table *)
(* @src services/disk_manager/src/disk/uevent_bootstrap.cpp 298-357 BuildAndSyncPartitions *)
Definition BuildAndSyncPartitions (env : UeventEnv) (diskId diskDevPath : string)
  : M (Z * list PartitionRecord * bool * string) :=
  let! err := Sd_CreateBlockDeviceNode lk_none diskDevPath K_DISK_BLOCK_DEVICE_NODE_MODE (i32 (ue_major env)) (i32 (ue_minor env)) in
  if negb (err =? ERR_OK) then sret (err, [], false, "")
  else
    let! (err, rawDump, _) := Sd_ReadPartitionTable lk_none diskDevPath 0 in
    if negb (err =? ERR_OK) then
      let! (sizeErr, diskSize) := Sd_GetDiskSize lk_none (ue_devName env) 0 in
      if (sizeErr =? ERR_OK) && (0 <? diskSize) && (MIN_DISK_SIZE_MB <? diskSize / BYTES_PER_MB)
      then sret (errno E_STORAGE_VALID_NODE, [], false, "")
      else let! _ := Sd_DestroyBlockDeviceNode lk_none diskDevPath in sret (err, [], false, "")
    else
      let (rawDump, isUserData) := reduce_dump rawDump in
      let '(hasDiskLine, tableType, parts) :=
        if str_empty rawDump then (false, "", []) else ParseSgdiskDump rawDump diskId in
      if negb hasDiskLine && negb (ue_major env =? DISK_CD_MAJOR) then
        let! _ := Sd_DestroyBlockDeviceNode lk_none diskDevPath in sret (errno DISK_MGR_ERR, parts, isUserData, tableType)
      else
        let! _ := ReplacePartitionsForDisk diskId parts in
        sret (errno E_OK, parts, isUserData, tableType).

(* @src services/disk_manager/src/disk/uevent_bootstrap.cpp 359-366 BlockInfoToVolumeExtraInfo *)
Definition BlockInfoToVolumeExtraInfo (b : BlockInfo) : string :=
  ToJsonStringWithExtras b
    [("vendor", bi_vendor b); ("model", bi_model b); ("devnum", bi_devnum b); ("busnum", bi_busnum b);
     ("devNode", bi_devNode b); ("scsiBusNum", bi_scsiBusNum b); ("fwVersion", bi_fwVersion b)].

(** The disk record of a new disk. *)
Definition new_disk (env : UeventEnv) (diskId tableType : string) (flag : Z) (usbInfo : UsbSysfsInfo)
  (known loaded : bool) (b : BlockInfo) : Disk :=
  let d := Disk_new diskId (if known then i64 (bi_sizeBytes b) else 0) (ue_devName env) flag in
  let d := if loaded then Disk_SetExtraInfo (BlockInfoToVolumeExtraInfo b) (Disk_SetSizeBytes (i64 (bi_sizeBytes b)) d) else d in
  let d := Disk_SetPartitionType tableType (Disk_SetVendor (bi_vendor b) d) in
  let d := Disk_SetProductId (ParseSysfsInt (usb_pid usbInfo) true) (Disk_SetVendorId (ParseSysfsInt (usb_vid usbInfo) true) d) in
  let d := Disk_SetSerialNumber (usb_serialNumber usbInfo) d in
  let d := Disk_SetDevAddress (ParseSysfsInt (usb_devnum usbInfo) false) (Disk_SetBusnum (ParseSysfsInt (usb_busnum usbInfo) false) d) in
  RefreshClassificationFromSysfs (ue_sysPath env) (bi_rotational b) d.
(* @src services/disk_manager/src/disk/uevent_bootstrap.cpp 368-413 UpsertDiskAndPublishEvent *)
Definition UpsertDiskAndPublishEvent (env : UeventEnv) (diskId : string) (publishNewDiskEvent : bool) (tableType : string) : M unit :=
  if negb publishNewDiskEvent then sret tt
  else
    let! known := TryCopyByDiskId diskId in
    let! flag := ResolveInitialDiskFlag env in
    let! usbInfo := (if contains "usb" (ue_devPath env) then ReadUsbInfo (ue_sysPath env) (ue_devName env)
                     else sret UsbSysfsInfo_default) in
    let! (loaded, b) := (match known with
                         | Some b => sret (true, b)
                         | None =>
                             let! (ret, b) := ReadExtDiskInfoFromDaemon (ue_devName env) (BlockInfo_SetDiskId diskId BlockInfo_default) in
                             sret (ret =? ERR_OK, b)
                         end) in
    let d := new_disk env diskId tableType flag usbInfo (match known with Some _ => true | None => false end) loaded b in
    do! PublishDiskChange DK_MOUNTED d in
    let! _ := OnDiskCreated d in
    sret tt.

(** ** Volumes *)
(** The answer to [Opendir]: [an_bool] and the names; to [StatRdev]: [an_ret] is 0 on
    success, [an_int] is [st_rdev]. *)
(* @src services/disk_manager/src/disk/uevent_bootstrap.cpp 415-444 GetMaxMinor *)
Definition GetMaxMinor (maj : Z) : M Z :=
  let! dir := call lk_none (Opendir BLOCK_PATH) in
  if negb (an_bool dir) then sret (-1)
  else
    (fix loop (names : list string) (maxMinor : Z) : M Z :=
       match names with
       | [] => sret maxMinor
       | name :: names' =>
           if negb (starts_with "vol" name) then loop names' maxMinor
           else
             let! st := call lk_none (StatRdev (BLOCK_PATH +:+ "/" +:+ name)) in
             if (an_ret st =? 0) && (i32 (major (an_int st)) =? maj)
             then loop names' (Z.max (i32 (minor (an_int st))) maxMinor)
             else loop names' maxMinor
       end) (an_strs dir) (-1).

(* @src services/disk_manager/src/disk/uevent_bootstrap.cpp 446-451 IsInternalDataDiskById *)
Definition IsInternalDataDiskById (diskId : string) : M bool :=
  let! disk := GetDiskById diskId in
  sret (match disk with Some d => IsInternalDataDisk d | None => false end).

(* @src services/disk_manager/src/disk/uevent_bootstrap.cpp 453-460 TryLoadBlockInfoForVolume *)
Definition TryLoadBlockInfoForVolume (disk : Disk) : M (option BlockInfo) :=
  if IsInternalDataDisk disk then TryCopyByDiskId (disk_diskId disk)
  else
    let! (ret, b) := ReadExtDiskInfoFromDaemon (disk_devName disk) (BlockInfo_SetDiskId (disk_diskId disk) BlockInfo_default) in
    sret (if ret =? ERR_OK then Some b else None).

(* @src services/disk_manager/src/disk/uevent_bootstrap.cpp 462-494 CreateAndSetupVolume *)
Definition CreateAndSetupVolume (diskId : string) (pDev : Z) (isUserData : bool) (partitionNUm : Z) : M Z :=
  let volId := VolIdFromDev pDev in
  let! err := Sd_CreateBlockDeviceNode lk_none (BlockPathForId volId) K_VOLUME_BLOCK_DEVICE_NODE_MODE
                (i32 (major pDev)) (i32 (minor pDev)) in
  if negb (err =? ERR_OK) then sret err
  else
    let v := VolumeExternal_of_core (VolumeCore_new volId EXTERNAL diskId UNMOUNTED) in
    let v := Vol_SetPartitionNum partitionNUm (Vol_SetUserData isUserData v) in
    let! disk := GetDiskById diskId in
    match disk with
    | None => fin E_NON_EXIST
    | Some disk =>
        let! b := TryLoadBlockInfoForVolume disk in
        let v := match b with Some b => Vol_SetExtraInfo (BlockInfoToVolumeExtraInfo b) v | None => v end in
        let! _ := OnVolumeCreated v in
        sret ERR_OK
    end.

(** The result, uuid, type and label. *)
(* @src services/disk_manager/src/disk/uevent_bootstrap.cpp 496-511 ReadAndUpdateMetadata *)
Definition ReadAndUpdateMetadata (volId volDevPath : string) : M (Z * string * string * string) :=
  let! (err, uuid, type, label) := Sd_ReadMetadata lk_none volDevPath in
  do! (if (err =? ERR_OK) && IsUuidValid uuid then let! _ := UpdateVolumeMetadata volId uuid type label in sret tt
       else sret tt) in
  sret (err, uuid, type, label).

(* @src services/disk_manager/src/disk/uevent_bootstrap.cpp 523-543 EvaluateVolumeMetadataAbnormal *)
Definition EvaluateVolumeMetadataAbnormal (volId : string) (isUserData : bool) (uuid type : string) (metadataErr : Z) : M bool :=
  if isUserData then sret false
  else
    let fsType := GetFsTypeByStr type in
    if negb (IsAbnormalDetectableFsType fsType) then sret false
    else if negb (metadataErr =? ERR_OK) || str_empty uuid || str_empty type then
      let! _ := MarkVolumeAbnormal volId METADATA_READ_FAILED in sret true
    else if fsType =? UNDEFINED then
      let! _ := MarkVolumeAbnormal volId FSTYPE_UNSUPPORTED in sret true
    else sret false.

(** [AUTO_MOUNT_EXTERNAL_VOLUMES] is true. *)
(* @src services/disk_manager/src/disk/uevent_bootstrap.cpp 546-566 MountDiscoveredVolume *)
Definition MountDiscoveredVolume (volId diskId : string) (isUserData : bool) (uuid type : string) : M unit :=
  if str_empty type || str_empty uuid then sret tt
  else
    let! err := Mount volId MountParam_default in
    if negb (err =? ERR_OK) then
      if negb isUserData && IsAbnormalDetectableFsType (GetFsTypeByStr type)
      then let! _ := MarkVolumeAbnormal volId MOUNT_FAILED in sret tt
      else sret tt
    else sret tt.

(** [makedev(0, 0)] is no device. *)
(* @src services/disk_manager/src/disk/uevent_bootstrap.cpp 584-616 CreateDmLinearForPartition *)
Definition CreateDmLinearForPartition (devName : string) (partitionNumber : Z) : M Z :=
  let partDevName := BuildPartitionDevName devName partitionNumber in
  let dmReservedSectors := 20 * BYTES_PER_MB / SECTOR_SIZE in
  let! (sizeErr, totalBytes) := Sd_GetDiskSize lk_none (devName +:+ "/" +:+ partDevName) 0 in
  if negb (sizeErr =? ERR_OK) || (totalBytes =? 0) then sret (makedev 0 0)
  else
    let totalSectors := totalBytes / SECTOR_SIZE in
    if totalSectors <=? dmReservedSectors then sret (makedev 0 0)
    else
      let! (err, dmDevVal) := Sd_CreateDmLinear lk_none (dev_block partDevName) 0 (totalSectors - dmReservedSectors) 0 in
      if negb (err =? ERR_OK) || (dmDevVal =? 0) then sret (makedev 0 0) else sret dmDevVal.

(* @src services/disk_manager/src/disk/uevent_bootstrap.cpp 618-642 ResolvePartitionDev *)
Definition ResolvePartitionDev (env : UeventEnv) (diskId : string) (p : PartitionRecord) (isUserData : bool) : M Z :=
  let! internal := IsInternalDataDiskById diskId in
  let! dmDev := (if internal then CreateDmLinearForPartition (ue_devName env) (pr_partitionNumber p) else sret (makedev 0 0)) in
  if negb (dmDev =? makedev 0 0) then sret dmDev
  else if isUserData then
    let! maxMinor := GetMaxMinor MAJORID_BLKEXT in
    if maxMinor =? -1 then sret (makedev MAJORID_BLKEXT (u32 (pr_partitionNumber p - MAX_PARTITION)))
    else sret (makedev MAJORID_BLKEXT (u32 (maxMinor + pr_partitionNumber p - MAX_INTERVAL_PARTITION)))
  else sret (PartitionDev (ue_major env) (ue_minor env) (pr_partitionNumber p)).

(* @src services/disk_manager/src/disk/uevent_bootstrap.cpp 644-676 DiscoverSinglePartitionVolume *)
Definition DiscoverSinglePartitionVolume (env : UeventEnv) (diskId : string) (isUserData : bool) (p : PartitionRecord) : M unit :=
  let! pDev := ResolvePartitionDev env diskId p isUserData in
  let volId := VolIdFromDev pDev in
  let! vol := GetVolumeById volId in
  if match vol with Some v => vol_state v =? MOUNTED | None => false end then sret tt
  else
    let! err := CreateAndSetupVolume diskId pDev isUserData (i32 (pr_partitionNumber p)) in
    if negb (err =? ERR_OK) then sret tt
    else
      do! yield lk_none in
      let! (metadataErr, uuid, type, label) := ReadAndUpdateMetadata volId (BlockPathForId volId) in
      let! partitioning := IsPartitioning diskId in
      if partitioning then let! _ := Format volId PARTITION_TARGET_FS_TYPE in sret tt
      else
        let! abnormal := EvaluateVolumeMetadataAbnormal volId isUserData uuid type metadataErr in
        if abnormal then sret tt else MountDiscoveredVolume volId diskId isUserData uuid type.

(* @src services/disk_manager/src/disk/uevent_bootstrap.cpp 678-730 DiscoverWholeDiskVolume *)
Definition DiscoverWholeDiskVolume (env : UeventEnv) (diskId : string) (isUserData : bool) (tableType : string) : M unit :=
  let wholeDev := makedev (ue_major env) (ue_minor env) in
  let volId := VolIdFromDev wholeDev in
  let! isPartitioning := IsPartitioning diskId in
  let! (metaRet, uuid, type, label) := (if negb isPartitioning then Sd_ReadMetadata lk_none (BlockPathForId diskId)
                                        else sret (ERR_OK, "", "", "")) in
  if negb (metaRet =? ERR_OK) then
    let! internal := (if isUserData then sret true else IsInternalDataDiskById diskId) in
    if internal then sret tt
    else if tableType =s "gpt" then sret tt
    else PublishDiskAbnormal diskId PARTITION_TABLE_READ_FAILED
  else
    let! err := CreateAndSetupVolume diskId wholeDev false 0 in
    if negb (err =? ERR_OK) then sret tt
    else if isPartitioning then let! _ := Format volId PARTITION_TARGET_FS_TYPE in sret tt
    else
      do! yield lk_none in
      let! _ := UpdateVolumeMetadata volId uuid type label in
      do! yield lk_none in
      let! abnormal := EvaluateVolumeMetadataAbnormal volId false uuid type ERR_OK in
      if abnormal then sret tt else MountDiscoveredVolume volId diskId false uuid type.

(** ** Optical drives *)
(* @src services/disk_manager/src/disk/uevent_bootstrap.cpp 123-138 QueryCdromState *)
Definition QueryCdromState (devPath : string) : M CdromState :=
  let! (ret, status) := Sd_QueryCDStatus lk_none devPath 0 in
  if negb (ret =? ERR_OK) then sret QUERY_FAILED
  else if Z.land (u32 status) 1 =? 0 then sret NO_DISC
  else if Z.land (u32 status) 2 =? 0 then sret NON_EMPTY_DISC
  else sret EMPTY_DISC.

(** The answer to [RandomDraws]: the two draws of the generator. *)
Definition random_uuid (diskId : string) : M string :=
  let! a := call lk_none (RandomDraws diskId) in
  sret (GenerateRandomUuid (fun _ => (u64 (an_int a), u64 (an_int2 a))) diskId).

(* @src services/disk_manager/src/disk/uevent_bootstrap.cpp 732-779 HandleAddCD *)
Definition HandleAddCD (env : UeventEnv) (diskId : string) (state : CdromState) : M unit :=
  let pDev := PartitionDev (ue_major env) (ue_minor env) 0 in
  let volId := VolIdFromDev pDev in
  let! setupRet := CreateAndSetupVolume diskId pDev false 0 in
  if negb (setupRet =? ERR_OK) then sret tt
  else
    do! yield lk_none in
    let! (uuid, type, label) :=
      (if bool_decide (state = EMPTY_DISC) then
         let! uuid := random_uuid diskId in
         let! volume := GetVolumeById volId in
         let label := match volume with
                      | Some v => let l := GetDriverType (vol_extraInfo v) in if str_empty l then "DVD RW" else l
                      | None => "DVD RW"
                      end in
         sret (uuid, "udf", label)
       else
         let! (_, uuid, type, label) := ReadAndUpdateMetadata volId (BlockPathForId volId) in
         sret (uuid, type, label)) in
    do! yield lk_none in
    let! _ := UpdateVolumeMetadata volId uuid type label in
    do! yield lk_none in
    let! _ := SetVolumeDiscState volId state in
    if str_empty type then sret tt
    else do! yield lk_none in let! _ := Mount volId MountParam_default in sret tt.

(* @src services/disk_manager/src/disk/uevent_bootstrap.cpp 781-792 EjectAndDestroyCdrom *)
Definition EjectAndDestroyCdrom (diskId : string) : M bool :=
  let! ret := Eject diskId in
  if negb (ret =? ERR_OK) then sret false else do! DestroyALLVolume diskId in sret true.

(* @src services/disk_manager/src/disk/uevent_bootstrap.cpp 794-817 FindMountedVolumePath *)
Definition FindMountedVolumePath (diskId : string) : M string :=
  let! vols := GetAllVolumes in
  sret (match find_if (fun vol => (vol_diskId vol =s diskId) && (vol_id vol <>s "0") && (vol_state vol =? MOUNTED) &&
                                  negb (str_empty (vol_path vol))) vols with
        | Some vol => vol_path vol
        | None => ""
        end).

(* @src services/disk_manager/src/disk/uevent_bootstrap.cpp 819-837 CanEjectMountedCdrom *)
Definition CanEjectMountedCdrom (diskId mountPath : string) : M bool :=
  let! (queryErr, isInUse) := Sd_QueryUsbIsInUse lk_none mountPath in
  if negb (queryErr =? ERR_OK) then sret false else if isInUse then sret false else sret true.

(** Records the disc state of a known drive. *)
Definition set_cdrom_state (diskId : string) (state : CdromState) : M unit :=
  let! disk := GetDiskById diskId in
  match disk with
  | Some d => let! _ := UpdateDisk (Disk_SetCdromState state d) in sret tt
  | None => sret tt
  end.
(* @src services/disk_manager/src/disk/uevent_bootstrap.cpp 839-869 TryEjectCdrom *)
Definition TryEjectCdrom (diskId : string) : M unit :=
  let! disk := GetDiskById diskId in
  match disk with
  | None => sret tt
  | Some disk =>
      if negb (bool_decide (disk_cdromState disk = NON_EMPTY_DISC)) then let! _ := EjectAndDestroyCdrom diskId in sret tt
      else
        let! mountPath := FindMountedVolumePath diskId in
        let! can := (if negb (str_empty mountPath) then CanEjectMountedCdrom diskId mountPath else sret true) in
        if negb can then
          let! state := QueryCdromState (BlockPathForId diskId) in set_cdrom_state diskId state
        else let! _ := EjectAndDestroyCdrom diskId in sret tt
  end.

(* @src services/disk_manager/src/disk/uevent_bootstrap.cpp 871-910 DiscoverSinglePartitionVolume4CD *)
Definition DiscoverSinglePartitionVolume4CD (env : UeventEnv) (diskId : string) : M unit :=
  if ue_ejectRequest env then TryEjectCdrom diskId
  else
    let! state := QueryCdromState (BlockPathForId (DiskIdFrom (ue_major env) (ue_minor env))) in
    if bool_decide (state = NO_DISC) then DestroyALLVolume diskId
    else
      let! state := (if bool_decide (state = QUERY_FAILED) then
                       let! (metaRet, _, type, _) := Sd_ReadMetadata lk_none (BlockPathForId diskId) in
                       sret (if (metaRet =? ERR_OK) && negb (str_empty type) then Some NON_EMPTY_DISC else None)
                     else sret (Some state)) in
      match state with
      | None => DestroyALLVolume diskId
      | Some state =>
          do! set_cdrom_state diskId state in
          do! yield lk_none in
          HandleAddCD env diskId state
      end.

(* @src services/disk_manager/src/disk/uevent_bootstrap.cpp 912-930 DiscoverCdromVolumes *)
Definition DiscoverCdromVolumes (env : UeventEnv) (diskId : string) (publishNewDiskEvent : bool) : M Z :=
  let! err := Sd_CreateBlockDeviceNode lk_none (BlockPathForId diskId) K_DISK_BLOCK_DEVICE_NODE_MODE
                (i32 (ue_major env)) (i32 (ue_minor env)) in
  if negb (err =? ERR_OK) then sret err
  else
    let! known := HasDisk diskId in
    do! yield lk_none in
    do! UpsertDiskAndPublishEvent env diskId (publishNewDiskEvent || negb known) "cd" in
    do! DiscoverSinglePartitionVolume4CD env diskId in
    fin E_OK.

(** ** Partitions *)
(* @src services/disk_manager/src/disk/uevent_bootstrap.cpp 946-970 UeventBootstrap::ComputePartitionDiff *)
Definition ComputePartitionDiff (diskId : string) (newParts : list PartitionRecord)
  : M (list PartitionRecord * list PartitionRecord) :=
  let! snapshot := get_sh sh_snapshot in
  do! set_snapshot (<[diskId := newParts]>) in
  sret (partition_diff (snapshot !! diskId) newParts).

(* @src services/disk_manager/src/disk/uevent_bootstrap.cpp 972-976 UeventBootstrap::ClearPartitionSnapshot *)
Definition ClearPartitionSnapshot (diskId : string) : M unit := set_snapshot (delete diskId).

(* @src services/disk_manager/src/disk/uevent_bootstrap.cpp 1027-1097 UeventBootstrap::DiscoverPartitionsAndVolumes *)
Definition DiscoverPartitionsAndVolumes (env : UeventEnv) (publishNewDiskEvent : bool) : M Z :=
  let diskId := DiskIdFrom (ue_major env) (ue_minor env) in
  let diskDevPath := BlockPathForId diskId in
  if ue_major env =? DISK_CD_MAJOR then DiscoverCdromVolumes env diskId publishNewDiskEvent
  else
    let! (err, parts, isUserData, tableType) := BuildAndSyncPartitions env diskId diskDevPath in
    if err =? E_STORAGE_VALID_NODE then
      do! UpsertDiskAndPublishEvent env diskId publishNewDiskEvent tableType in
      let! internal := IsInternalDataDiskById diskId in
      let! partitioning := IsPartitioning diskId in
      do! (if negb internal && negb partitioning then PublishDiskAbnormal diskId PARTITION_TABLE_READ_FAILED else sret tt) in
      fin E_OK
    else if negb (err =? ERR_OK) then
      do! (if negb publishNewDiskEvent then do! DestroyALLVolume diskId in ClearPartitionSnapshot diskId else sret tt) in
      sret err
    else
      do! UpsertDiskAndPublishEvent env diskId publishNewDiskEvent tableType in
      let! partitioning := IsPartitioning diskId in
      let! internal := (if partitioning then IsInternalDataDiskById diskId else sret false) in
      if partitioning && internal then
        do! sfor parts (DiscoverSinglePartitionVolume env diskId isUserData) in
        fin E_OK
      else
        let! (addedParts, removedParts) := ComputePartitionDiff diskId parts in
        do! yield lk_none in
        do! sfor removedParts (fun rp =>
              let! _ := DestroyVolumeByDiskIdAndPartNum diskId (i32 (pr_partitionNumber rp)) in sret tt) in
        do! sfor addedParts (DiscoverSinglePartitionVolume env diskId isUserData) in
        do! (match parts with
             | [] => if publishNewDiskEvent || negb (match removedParts with [] => true | _ => false end)
                     then DiscoverWholeDiskVolume env diskId isUserData tableType else sret tt
             | _ => sret tt
             end) in
        fin E_OK.

(** ** Events *)
(* @src services/disk_manager/src/disk/uevent_bootstrap.cpp 1012-1025 UeventBootstrap::HandleDiskRemove *)
Definition HandleDiskRemove (env : UeventEnv) : M Z :=
  let diskId := DiskIdFrom (ue_major env) (ue_minor env) in
  do! DestroyALLVolume diskId in
  let! ret := DestroyALLDisk diskId in
  if negb (ret =? E_OK) then sret ret
  else do! ClearPartitionSnapshot diskId in fin E_OK.

(* @src services/disk_manager/src/disk/uevent_bootstrap.cpp 1099-1106 UeventBootstrap::HandleDiskAdd *)
Definition HandleDiskAdd (env : UeventEnv) : M Z :=
  let! known := HasDisk (DiskIdFrom (ue_major env) (ue_minor env)) in
  do! yield lk_none in
  DiscoverPartitionsAndVolumes env (negb known).

(* @src services/disk_manager/src/disk/uevent_bootstrap.cpp 1108-1122 UeventBootstrap::HandleDiskChange *)
Definition HandleDiskChange (env : UeventEnv) : M Z :=
  let diskId := DiskIdFrom (ue_major env) (ue_minor env) in
  let! partitioning := IsPartitioning diskId in
  let! internal := (if partitioning then IsInternalDataDiskById diskId else sret false) in
  if partitioning && internal then fin E_OK
  else
    let! known := HasDisk diskId in
    do! yield lk_none in
    let! ret := DiscoverPartitionsAndVolumes env (negb known) in
    do! NotifyPartitionDone diskId in
    sret ret.

(* @src services/disk_manager/src/disk/uevent_bootstrap.cpp 1124-1136 UeventBootstrap::RediscoverDiskVolumes *)
Definition RediscoverDiskVolumes (diskId : string) : M Z :=
  let (maj, min) := ParseDiskIdToMajMin diskId in
  DiscoverPartitionsAndVolumes (mkUeventEnv "change" "" "" maj min "" "" "" false) false.

(* @src services/disk_manager/src/disk/uevent_bootstrap.cpp 978-1010 UeventBootstrap::OnBlockDiskUevent *)
Definition OnBlockDiskUevent (rawUeventMsg : string) : M Z :=
  let (env, ok) := Uevent_Parse rawUeventMsg in
  if negb ok then fin E_UEVENT_PARSE_FAILED
  else if negb (IsBlockDiskEvent env) then fin E_OK
  else
    let h := ActionHash (ue_action env) in
    if h =? ActionHash "remove" then HandleDiskRemove env
    else if h =? ActionHash "add" then HandleDiskAdd env
    else if h =? ActionHash "change" then HandleDiskChange env
    else fin E_OK.

(** ** [DiskManager::Partition] *)
(* @src services/disk_manager/src/disk/disk_manager.cpp 1332-1370 DiskManager::Partition *)
Definition Partition (diskId : string) : M Z :=
  let! ret := IsDiskSupported diskId in
  if negb (ret =? E_OK) then sret ret
  else
    let! notReady := IsDiskNotReady diskId in
    if notReady then fin E_VOL_STATE
    else
      do! yield lk_none in
      do! AddPartitioningDisk diskId in
      do! yield lk_none in
      let! ret := PurgeVolumesForDisk diskId in
      if negb (ret =? E_OK) then do! RemovePartitioningDisk diskId in sret ret
      else
        let! ret := Sd_Partition lk_none (NormalizeDiskBlockPath diskId) "hmfs" in
        if negb (ret =? E_OK) then do! RemovePartitioningDisk diskId in sret ret
        else
          let! ret := RediscoverDiskVolumes diskId in
          do! RemovePartitioningDisk diskId in
          if negb (ret =? E_OK) then sret ret else fin E_OK.
End bootstrap.
