(* ===== verification/Provider.v ===== *)
(** * [services/disk_manager/src/ipc/disk_manager_provider.cpp], [utils/src/ipc_caller_auth.cpp]

    The entry points of the service: who may call what, the checks on the
    arguments, the authorisation of data-disk formatting, and unloading when idle.
    [PC_MANAGER] is the build flag of the desktop variant. *)
From S2P Require Import Prelude CppString Types State Utils Json BlockInfo World Adapters DmQuery Events DmMount.
From S2P Require Import DmPartition DmOptical Bootstrap.

Definition STORAGEDAEMON_UID : Z := 0.
Definition STORAGE_MANAGER_UID : Z := 1090.
Definition UEVENT_RAW_MAX_LEN : nat := 4096.
Definition OP_DIAG_RAW_MAX_LEN : nat := 8192.
Definition CRYPTO_USB_MGR_SERVICE_UID : Z := 7060.
Definition UID_BASE_DIVISOR : Z := 200000.
Definition FORMAT_DATA_DISK_PRIVILEGE : string := "ohos.privilege.format_data_disk".
Definition PERMISSION_STORAGE_MANAGER : string := "ohos.permission.STORAGE_MANAGER".
Definition PERMISSION_MOUNT_MANAGER : string := "ohos.permission.MOUNT_UNMOUNT_MANAGER".
Definition PERMISSION_FORMAT_MANAGER : string := "ohos.permission.MOUNT_FORMAT_MANAGER".
Definition PERMISSION_GET_STORAGE_VOLUME_INFO : string := "ohos.permission.GET_STORAGE_VOLUME_INFO".

Definition pv_set_timer (b : bool) (p : ProviderState) : ProviderState :=
  mkProviderState b (pv_idleMonitorStopped p) (pv_pendingCallbacks p) (pv_isUnloading p) (pv_formatBusy p).
Definition pv_set_stopped (b : bool) (p : ProviderState) : ProviderState :=
  mkProviderState (pv_idleTimer p) b (pv_pendingCallbacks p) (pv_isUnloading p) (pv_formatBusy p).
Definition pv_add_pending (n : Z) (p : ProviderState) : ProviderState :=
  mkProviderState (pv_idleTimer p) (pv_idleMonitorStopped p) (i32 (pv_pendingCallbacks p + n)) (pv_isUnloading p) (pv_formatBusy p).
Definition pv_set_unloading (b : bool) (p : ProviderState) : ProviderState :=
  mkProviderState (pv_idleTimer p) (pv_idleMonitorStopped p) (pv_pendingCallbacks p) b (pv_formatBusy p).
Definition pv_set_busy (b : bool) (p : ProviderState) : ProviderState :=
  mkProviderState (pv_idleTimer p) (pv_idleMonitorStopped p) (pv_pendingCallbacks p) (pv_isUnloading p) b.

(** Lines [key=value]; a value of [burnPath] or [diskName] must be a valid path. *)
Definition burn_line_ok (line : string) : bool :=
  match sfind "=" line with
  | None => true
  | Some pos =>
      let key := stake pos line in
      let val := sdrop (S pos) line in
      if (key =s "burnPath") || (key =s "diskName") then negb (IsFilePathInvalid val) else true
  end.
(* @src services/disk_manager/src/ipc/disk_manager_provider.cpp 231-253 DiskManagerProvider::ValidateBurnOptionsSubfields *)
Definition ValidateBurnOptionsSubfields (burnOptions : string) : bool :=
  if IsFilePathInvalid burnOptions then false else forallb burn_line_ok (getlines burnOptions).

(** [^[A-Za-z0-9]{1,n}$] *)
Definition is_mapper_name (n : nat) (s : string) : bool :=
  (1 <=? String.length s)%nat && (String.length s <=? n)%nat &&
  sforall (fun c => is_digit c || is_upper c || is_upper (Ascii.ascii_of_N (char_code c - 32))) s.

(** A device path given by the crypto service. *)
Definition is_loop_path (p : string) : bool :=
  negb (str_empty p || IsFilePathInvalid p || negb (starts_with "/dev/block/" p)).
Definition is_crypt_path (p : string) : bool :=
  negb (str_empty p || IsFilePathInvalid p || (negb (starts_with "/dev/block/" p) && negb (starts_with "/dev/mapper/" p))).

Section provider.
Context {E St : Type} {EV : Env E} {PS : PathStore St} {JT : JsonText}.
Variable PC_MANAGER : bool.
Notation M := (State (World E St)).

(** ** The caller *)
(* @src utils/src/ipc_caller_auth.cpp 34-44 IpcCallerAuth::VerifyCallerPermission *)
Definition VerifyCallerPermission (permissionName : string) : M bool :=
  let! a := call lk_none (VerifyAccessToken permissionName) in sret (an_bool a).
(** [trustWithoutPermission] may be empty. *)
(* @src utils/src/ipc_caller_auth.cpp 46-54 IpcCallerAuth::VerifyCallerPermissionUnlessTrusted *)
Definition VerifyCallerPermissionUnlessTrusted (permissionName : string) (trustWithoutPermission : option (M bool)) : M bool :=
  let! trusted := (match trustWithoutPermission with Some trust => trust | None => sret false end) in
  if trusted : bool then sret true else VerifyCallerPermission permissionName.
(* @src utils/src/ipc_caller_auth.cpp 56-65 IpcCallerAuth::IsCallingSystemApp *)
Definition IsCallingSystemApp : M bool :=
  let! hap := call lk_none IsHapToken in
  if an_bool hap then let! a := call lk_none IsSystemAppToken in sret (an_bool a) else sret true.
(** The answer to [GetNativeTokenInfo]: [an_ret] and the process name. *)
(* @src utils/src/ipc_caller_auth.cpp 67-84 IpcCallerAuth::VerifyNativeCallerMatches *)
Definition VerifyNativeCallerMatches (expectedProcessName : string) (expectedUid : Z) : M bool :=
  let! a := call lk_none GetNativeTokenInfo in
  if negb (an_ret a =? ERR_OK) then sret false
  else
    let! uid := call lk_none GetCallingUid in
    if (an_str a <>s expectedProcessName) || negb (an_int uid =? expectedUid) then sret false else sret true.
(* @src utils/src/ipc_caller_auth.cpp 86-89 IpcCallerAuth::GetCallingUid *)
Definition Auth_GetCallingUid : M Z := let! a := call lk_none GetCallingUid in sret (an_int a).
(* @src utils/src/ipc_caller_auth.cpp 91-94 IpcCallerAuth::IsCallingUid *)
Definition IsCallingUid (expectedUid : Z) : M bool := let! uid := call lk_none GetCallingUid in sret (an_int uid =? expectedUid).
(* @src utils/src/ipc_caller_auth.cpp 96-100 IpcCallerAuth::IsCallingNativeToken *)
Definition IsCallingNativeToken : M bool := let! a := call lk_none IsNativeToken in sret (an_bool a).
(* @src utils/src/ipc_caller_auth.cpp 102-106 IpcCallerAuth::IsCallingHapToken *)
Definition IsCallingHapToken : M bool := let! a := call lk_none IsHapToken in sret (an_bool a).
(* @src utils/src/ipc_caller_auth.cpp 108-129 IpcCallerAuth::GetCallingBundleOrNativeProcessName *)
Definition GetCallingBundleOrNativeProcessName : M string :=
  let! native := call lk_none IsNativeToken in
  if an_bool native then
    let! a := call lk_none GetNativeTokenInfo in sret (if negb (an_ret a =? ERR_OK) then "" else an_str a)
  else
    let! hap := call lk_none IsHapToken in
    if an_bool hap then
      let! a := call lk_none GetHapTokenInfo in sret (if negb (an_ret a =? ERR_OK) then "" else an_str a)
    else sret "".
(* @src utils/src/ipc_caller_auth.cpp 131-144 IpcCallerAuth::GetCallingUserId *)
Definition GetCallingUserId : M Z :=
  let! hap := call lk_none IsHapToken in
  let! known := (if an_bool hap then
                   let! a := call lk_none GetHapTokenInfo in
                   sret (if negb (an_ret a =? ERR_OK) then None else Some (an_int a))
                 else sret None) in
  match known with
  | Some userID => sret userID
  | None => let! uid := Auth_GetCallingUid in sret (Z.quot uid UID_BASE_DIVISOR)
  end.

(* @src services/disk_manager/src/ipc/disk_manager_provider.cpp 255-258 DiskManagerProvider::CheckStorageDaemonPermission *)
Definition CheckStorageDaemonPermission : M bool := VerifyNativeCallerMatches "storage_daemon" STORAGEDAEMON_UID.
(* @src services/disk_manager/src/ipc/disk_manager_provider.cpp 260-263 DiskManagerProvider::IsStorageManagerCaller *)
Definition IsStorageManagerCaller : M bool := VerifyNativeCallerMatches "storage_manager" STORAGE_MANAGER_UID.

(** The two checks most entry points start with; [E_OK] lets the caller pass. *)
Definition auth_permission (permission : string) : M Z :=
  let! system := IsCallingSystemApp in
  if negb system then fin E_SYS_APP_PERMISSION_DENIED
  else let! ok := VerifyCallerPermission permission in if negb ok then fin E_PERMISSION_DENIED else fin E_OK.
Definition auth_manager (permission : string) : M Z :=
  let! system := IsCallingSystemApp in
  if negb system then fin E_SYS_APP_PERMISSION_DENIED
  else
    let! sm := IsStorageManagerCaller in
    if sm then fin E_OK
    else let! ok := VerifyCallerPermission permission in if negb ok then fin E_PERMISSION_DENIED else fin E_OK.

(** [err] first, else [k]; [bad] fills the out parameters on an error. *)
Definition guarded {A} (check : M Z) (bad : Z -> A) (k : M A) : M A :=
  let! err := check in if negb (err =? E_OK) then sret (bad err) else k.
Definition out_none {A} (err : Z) : Z * option A := (err, None).

(** ** Volumes *)
(* @src services/disk_manager/src/ipc/disk_manager_provider.cpp 265-283 DiskManagerProvider::Mount *)
Definition Provider_Mount (volumeId : string) (mountParam : MountParam) : M Z :=
  guarded (auth_manager PERMISSION_MOUNT_MANAGER) id
    (if negb (IsVolumeIdValid volumeId) then fin E_NON_EXIST else Mount volumeId mountParam).
(* @src services/disk_manager/src/ipc/disk_manager_provider.cpp 285-303 DiskManagerProvider::Unmount *)
Definition Provider_Unmount (volumeId : string) : M Z :=
  guarded (auth_manager PERMISSION_MOUNT_MANAGER) id
    (if negb (IsVolumeIdValid volumeId) then fin E_NON_EXIST else Unmount volumeId).

(* @src services/disk_manager/src/ipc/disk_manager_provider.cpp 305-319 DiskManagerProvider::IsDataDisk *)
Definition IsDataDisk (volumeId : string) : M bool :=
  let! vol := GetVolumeById volumeId in
  match vol with
  | None => sret false
  | Some vol =>
      do! yield lk_none in
      let! disk := GetDiskById (vol_diskId vol) in
      sret (match disk with Some d => IsInternalDataDisk d | None => false end)
  end.
(* @src services/disk_manager/src/ipc/disk_manager_provider.cpp 321-329 DiskManagerProvider::IsDataDiskByDiskId *)
Definition IsDataDiskByDiskId (diskId : string) : M bool :=
  let! disk := GetDiskById diskId in
  sret (match disk with Some d => IsInternalDataDisk d | None => false end).

(** The answer to [WaitAuthorization]: [an_bool] when the callback came in time,
    [an_int] 0 when its result is a success ([FormatAuth.wait_answer]). *)
(* @src services/disk_manager/src/ipc/disk_manager_provider.cpp 331-361 DiskManagerProvider::CheckAdminAuthorization *)
Definition CheckAdminAuthorization : M Z :=
  let! acquireRet := call lk_none (AcquireAuthorization FORMAT_DATA_DISK_PRIVILEGE) in
  if negb (an_ret acquireRet =? ERR_OK) then fin E_PERMISSION_DENIED
  else
    let! a := call lk_none WaitAuthorization in
    if negb (an_bool a) then fin E_PERMISSION_DENIED
    else if negb (an_int a =? 0) then fin E_PERMISSION_DENIED
    else fin E_OK.

(** [dataDiskFormatBusy_.exchange(true)] *)
Definition exchange_busy : M bool :=
  let! busy := get_sh (fun sh => pv_formatBusy (sh_prov sh)) in
  do! set_prov (pv_set_busy true) in sret busy.
(** A destructive operation on a data disk: one at a time and with the user's
    consent; the authorisation is released afterwards. *)
Definition with_admin_auth (needAdminAuth : bool) (op : M Z) : M Z :=
  if needAdminAuth then
    let! busy := exchange_busy in
    if busy then fin E_BUSY
    else
      let! authRet := CheckAdminAuthorization in
      if negb (authRet =? E_OK) then do! set_prov (pv_set_busy false) in sret authRet
      else
        let! err := op in
        let! _ := call lk_none (ReleaseAuthorization FORMAT_DATA_DISK_PRIVILEGE) in
        do! set_prov (pv_set_busy false) in
        sret err
  else op.

(* @src services/disk_manager/src/ipc/disk_manager_provider.cpp 363-402 DiskManagerProvider::Format *)
Definition Provider_Format (volumeId fsType : string) : M Z :=
  guarded (auth_manager PERMISSION_FORMAT_MANAGER) id
    (if negb (IsVolumeIdValid volumeId) then fin E_PARAMS_INVALID
     else
       let! needAdminAuth := IsDataDisk volumeId in
       with_admin_auth needAdminAuth (Format volumeId fsType)).
(* @src services/disk_manager/src/ipc/disk_manager_provider.cpp 404-422 DiskManagerProvider::TryToFix *)
Definition Provider_TryToFix (volumeId : string) : M Z :=
  guarded (auth_manager PERMISSION_MOUNT_MANAGER) id
    (if negb (IsVolumeIdValid volumeId) then fin E_PARAMS_INVALID else TryToFix volumeId).
(* @src services/disk_manager/src/ipc/disk_manager_provider.cpp 424-442 DiskManagerProvider::SetVolumeDescription *)
Definition Provider_SetVolumeDescription (fsUuid description : string) : M Z :=
  guarded (auth_manager PERMISSION_MOUNT_MANAGER) id
    (if negb (IsUuidValid fsUuid) then fin E_PARAMS_INVALID else SetVolumeDescription fsUuid description).
(* @src services/disk_manager/src/ipc/disk_manager_provider.cpp 444-458 DiskManagerProvider::GetAllVolumes *)
Definition Provider_GetAllVolumes : M (Z * option (list VolumeExternal)) :=
  guarded (auth_manager PERMISSION_STORAGE_MANAGER) out_none
    (let! vols := GetAllVolumes in sret (errno E_OK, Some vols)).
(* @src services/disk_manager/src/ipc/disk_manager_provider.cpp 460-478 DiskManagerProvider::GetVolumeByUuid *)
Definition Provider_GetVolumeByUuid (fsUuid : string) : M (Z * option VolumeExternal) :=
  guarded (auth_manager PERMISSION_STORAGE_MANAGER) out_none
    (if negb (IsUuidValid fsUuid) then sret (out_none (errno E_PARAMS_INVALID))
     else let! v := GetVolumeByUuid fsUuid in
          sret (match v with Some v => (errno E_OK, Some v) | None => out_none (errno E_NON_EXIST) end)).
(* @src services/disk_manager/src/ipc/disk_manager_provider.cpp 480-498 DiskManagerProvider::GetVolumeById *)
Definition Provider_GetVolumeById (volumeId : string) : M (Z * option VolumeExternal) :=
  guarded (auth_manager PERMISSION_STORAGE_MANAGER) out_none
    (if negb (IsVolumeIdValid volumeId) then sret (out_none (errno E_PARAMS_INVALID))
     else let! v := GetVolumeById volumeId in
          sret (match v with Some v => (errno E_OK, Some v) | None => out_none (errno E_NON_EXIST) end)).
(* @src services/disk_manager/src/ipc/disk_manager_provider.cpp 500-517 DiskManagerProvider::GetFreeSizeOfVolume *)
Definition Provider_GetFreeSizeOfVolume (volumeUuid : string) : M (Z * option Z) :=
  guarded (auth_manager PERMISSION_STORAGE_MANAGER) out_none
    (if negb (IsUuidValid volumeUuid) then sret (out_none (errno E_PARAMS_INVALID))
     else let! (err, freeSize) := GetFreeSizeOfVolume volumeUuid in sret (err, Some freeSize)).
(* @src services/disk_manager/src/ipc/disk_manager_provider.cpp 519-536 DiskManagerProvider::GetTotalSizeOfVolume *)
Definition Provider_GetTotalSizeOfVolume (volumeUuid : string) : M (Z * option Z) :=
  guarded (auth_manager PERMISSION_STORAGE_MANAGER) out_none
    (if negb (IsUuidValid volumeUuid) then sret (out_none (errno E_PARAMS_INVALID))
     else let! (err, totalSize) := GetTotalSizeOfVolume volumeUuid in sret (err, Some totalSize)).

(** ** Disks and partitions *)
(* @src services/disk_manager/src/ipc/disk_manager_provider.cpp 538-577 DiskManagerProvider::Partition *)
Definition Provider_Partition (diskId : string) : M Z :=
  guarded (auth_manager PERMISSION_FORMAT_MANAGER) id
    (if negb (IsDiskIdValid diskId) then fin E_PARAMS_INVALID
     else
       let! needAdminAuth := IsDataDiskByDiskId diskId in
       with_admin_auth needAdminAuth (Partition diskId)).
(* @src services/disk_manager/src/ipc/disk_manager_provider.cpp 637-651 DiskManagerProvider::GetAllDisks *)
Definition Provider_GetAllDisks : M (Z * option (list Disk)) :=
  guarded (auth_manager PERMISSION_MOUNT_MANAGER) out_none
    (let! disks := GetAllDisks in sret (errno E_OK, Some disks)).
(* @src services/disk_manager/src/ipc/disk_manager_provider.cpp 653-675 DiskManagerProvider::GetDiskById *)
Definition Provider_GetDiskById (diskId : string) : M (Z * option Disk) :=
  guarded (auth_manager PERMISSION_MOUNT_MANAGER) out_none
    (if str_empty diskId then sret (out_none (errno E_PARAMS_INVALID))
     else if negb (IsDiskIdValid diskId) then sret (out_none (errno E_NON_EXIST))
     else let! d := GetDiskById diskId in
          sret (match d with Some d => (errno E_OK, Some d) | None => out_none (errno E_NON_EXIST) end)).
(** The answer to [RealPath]: [an_bool] when it resolves, the path in [an_str]. *)
(* @src services/disk_manager/src/ipc/disk_manager_provider.cpp 677-700 DiskManagerProvider::QueryUsbIsInUse *)
Definition Provider_QueryUsbIsInUse (diskPath : string) : M (Z * option bool) :=
  guarded (auth_permission PERMISSION_MOUNT_MANAGER) out_none
    (if negb (IsMountPathValid diskPath) then sret (out_none (errno E_PARAMS_INVALID))
     else
       let! r := call lk_none (RealPath diskPath) in
       if negb (an_bool r) then sret (out_none (errno E_PARAMS_INVALID))
       else
         let! (err, isInUse) := Sd_QueryUsbIsInUse lk_none (an_str r) in
         sret (if negb (err =? E_OK) then errno E_QUERY_VOLUME_IN_USE_ERROR else errno E_OK, Some isInUse)).
(* @src services/disk_manager/src/ipc/disk_manager_provider.cpp 872-894 DiskManagerProvider::GetPartitionTable *)
Definition Provider_GetPartitionTable (diskId : string) : M (Z * option PartitionTableInfo) :=
  guarded (auth_permission PERMISSION_FORMAT_MANAGER) out_none
    (if str_empty diskId then sret (out_none (errno E_PARAMS_INVALID))
     else if negb (IsDiskIdValid diskId) then sret (out_none (errno E_NON_EXIST))
     else let! (err, info) := GetPartitionTable diskId PartitionTableInfo_default in sret (err, Some info)).
(* @src services/disk_manager/src/ipc/disk_manager_provider.cpp 896-927 DiskManagerProvider::CreatePartition *)
Definition Provider_CreatePartition (diskId : string) (params : PartitionParams) : M Z :=
  guarded (auth_permission PERMISSION_FORMAT_MANAGER) id
    (if negb (IsDiskIdValid diskId) then fin E_PARAMS_INVALID
     else if pp_partitionNum params <=? 0 then fin E_PARAMS_INVALID
     else if (pp_startSector params <=? 0) || (pp_endSector params <=? 0) || (pp_endSector params <=? pp_startSector params)
     then fin E_PARAMS_INVALID
     else if str_empty (pp_typeCode params) then fin E_PARAMS_INVALID
     else CreatePartition diskId params).
(* @src services/disk_manager/src/ipc/disk_manager_provider.cpp 929-951 DiskManagerProvider::DeletePartition *)
Definition Provider_DeletePartition (diskId : string) (partitionNum : Z) : M Z :=
  guarded (auth_permission PERMISSION_FORMAT_MANAGER) id
    (if negb (IsDiskIdValid diskId) then fin E_PARAMS_INVALID
     else if partitionNum <=? 0 then fin E_PARAMS_INVALID
     else DeletePartition diskId partitionNum).
(* @src services/disk_manager/src/ipc/disk_manager_provider.cpp 953-985 DiskManagerProvider::FormatPartition *)
Definition Provider_FormatPartition (diskId : string) (partitionNum : Z) (params : FormatParams) : M Z :=
  guarded (auth_permission PERMISSION_FORMAT_MANAGER) id
    (if negb (IsDiskIdValid diskId) then fin E_PARAMS_INVALID
     else if partitionNum <=? 0 then fin E_PARAMS_INVALID
     else if str_empty (fp_fsType params) then fin E_PARAMS_INVALID
     else if negb (fp_quickFormat params) then fin E_PARAMS_INVALID
     else FormatPartition diskId partitionNum params).
(* @src services/disk_manager/src/ipc/disk_manager_provider.cpp 987-997 DiskManagerProvider::GetExternalDiskInfos *)
Definition Provider_GetExternalDiskInfos : M (Z * option (list ExternalDiskInfo)) :=
  let! ok := VerifyCallerPermission PERMISSION_GET_STORAGE_VOLUME_INFO in
  if negb ok then sret (out_none (errno E_PERMISSION_DENIED))
  else let! infos := GetExternalDiskInfos in sret (errno E_OK, Some infos).
(* @src services/disk_manager/src/ipc/disk_manager_provider.cpp 999-1009 DiskManagerProvider::GetExternalVolumeInfos *)
Definition Provider_GetExternalVolumeInfos : M (Z * option (list ExternalVolumeInfo)) :=
  let! ok := VerifyCallerPermission PERMISSION_GET_STORAGE_VOLUME_INFO in
  if negb ok then sret (out_none (errno E_PERMISSION_DENIED))
  else let! infos := GetExternalVolumeInfos in sret (errno E_OK, Some infos).

(** ** Optical discs *)
(* @src services/disk_manager/src/ipc/disk_manager_provider.cpp 762-780 DiskManagerProvider::Erase *)
Definition Provider_Erase (volumeId : string) : M Z :=
  guarded (auth_permission PERMISSION_MOUNT_MANAGER) id
    (if negb (IsVolumeIdValid volumeId) then fin E_PARAMS_INVALID else Erase volumeId).
(* @src services/disk_manager/src/ipc/disk_manager_provider.cpp 782-800 DiskManagerProvider::Eject *)
Definition Provider_Eject (diskId : string) : M Z :=
  guarded (auth_permission PERMISSION_MOUNT_MANAGER) id
    (if negb (IsDiskIdValid diskId) then fin E_PARAMS_INVALID else Eject diskId).
(* @src services/disk_manager/src/ipc/disk_manager_provider.cpp 802-824 DiskManagerProvider::CreateIsoImage *)
Definition Provider_CreateIsoImage (volumeId filePath : string) : M Z :=
  guarded (auth_permission PERMISSION_MOUNT_MANAGER) id
    (if negb (IsVolumeIdValid volumeId) then fin E_PARAMS_INVALID
     else if IsFilePathInvalid filePath then fin E_PARAMS_INVALID
     else CreateIsoImage volumeId filePath).
(* @src services/disk_manager/src/ipc/disk_manager_provider.cpp 826-850 DiskManagerProvider::Burn *)
Definition Provider_Burn (volumeId burnOptions : string) : M Z :=
  guarded (auth_permission PERMISSION_MOUNT_MANAGER) id
    (if negb (IsVolumeIdValid volumeId) then fin E_PARAMS_INVALID
     else if negb (ValidateBurnOptionsSubfields burnOptions) then fin E_PARAMS_INVALID
     else
       let! callerBundle := GetCallingBundleOrNativeProcessName in
       let! callerUserId := GetCallingUserId in
       Burn volumeId burnOptions callerBundle callerUserId).
(* @src services/disk_manager/src/ipc/disk_manager_provider.cpp 852-870 DiskManagerProvider::GetVolumeOpProcess *)
Definition Provider_GetVolumeOpProcess (volumeId : string) (progressPct : Z) : M (Z * Z) :=
  guarded (auth_permission PERMISSION_MOUNT_MANAGER) (fun err => (err, progressPct))
    (if negb (IsVolumeIdValid volumeId) then sret (errno E_PARAMS_INVALID, progressPct)
     else GetVolumeOpProcess volumeId progressPct).

(** ** Loop and dm-crypt devices, for one system service of the desktop variant *)
Definition auth_crypto : M Z :=
  let! uid := Auth_GetCallingUid in
  if negb (uid =? CRYPTO_USB_MGR_SERVICE_UID) then fin E_PERMISSION_DENIED
  else let! ok := VerifyCallerPermission PERMISSION_MOUNT_MANAGER in if negb ok then fin E_PERMISSION_DENIED else fin E_OK.
(** Every failure is reported as the operation's own error. *)
Definition mapped_error (e : DiskManagerErrNo) (op : M Z) : M Z :=
  let! ret := op in if negb (ret =? E_OK) then fin e else fin E_OK.
(* @src services/disk_manager/src/ipc/disk_manager_provider.cpp 1011-1044 DiskManagerProvider::BindBlockLoopDev *)
Definition Provider_BindBlockLoopDev (diskId : string) (offset sizeLimit : Z) : M (Z * option string) :=
  if PC_MANAGER then
    guarded auth_crypto out_none
      (if (offset =? 0) || (sizeLimit =? 0) then sret (out_none (errno E_PARAMS_INVALID))
       else if negb (IsDiskIdValid diskId) then sret (out_none (errno E_PARAMS_INVALID))
       else
         let! (ret, loopPath) := BindBlockLoopDev diskId offset sizeLimit in
         sret (if negb (ret =? E_OK) then errno E_BIND_LOOP_DEV_FAILED else errno E_OK, loopPath))
  else sret (out_none (errno E_NOT_SUPPORT)).
(* @src services/disk_manager/src/ipc/disk_manager_provider.cpp 1046-1079 DiskManagerProvider::CreateDmCryptVolume *)
Definition Provider_CreateDmCryptVolume (param : CryptParam) (loopPath mapperName : string) : M (Z * string) :=
  if PC_MANAGER then
    guarded auth_crypto (fun err => (err, mapperName))
      (if negb (is_loop_path loopPath) then sret (errno E_PARAMS_INVALID, mapperName)
       else if negb (is_mapper_name 127 mapperName) then sret (errno E_PARAMS_INVALID, mapperName)
       else
         let! (ret, mapperName) := CreateDmCryptVolume param loopPath mapperName in
         sret (if negb (ret =? E_OK) then errno E_CREATE_DM_CRYPT_VOLUME_FAILED else errno E_OK, mapperName))
  else sret (errno E_NOT_SUPPORT, mapperName).
(* @src services/disk_manager/src/ipc/disk_manager_provider.cpp 1081-1109 DiskManagerProvider::DestroyDmCryptVolume *)
Definition Provider_DestroyDmCryptVolume (mapperName : string) : M Z :=
  if PC_MANAGER then
    guarded auth_crypto id
      (if negb (is_mapper_name 128 mapperName) then fin E_PARAMS_INVALID
       else mapped_error E_DESTROY_DM_CRYPT_VOLUME_FAILED (DestroyDmCryptVolume mapperName))
  else fin E_NOT_SUPPORT.
(* @src services/disk_manager/src/ipc/disk_manager_provider.cpp 1111-1138 DiskManagerProvider::UnbindBlockLoopDev *)
Definition Provider_UnbindBlockLoopDev (loopPath : string) : M Z :=
  if PC_MANAGER then
    guarded auth_crypto id
      (if negb (is_loop_path loopPath) then fin E_PARAMS_INVALID
       else mapped_error E_UNBIND_LOOP_DEV_FAILED (UnbindBlockLoopDev loopPath))
  else fin E_NOT_SUPPORT.
(* @src services/disk_manager/src/ipc/disk_manager_provider.cpp 1140-1174 DiskManagerProvider::MountVolumeByPath *)
Definition Provider_MountVolumeByPath (diskId volPath : string) (param : MountParam) : M Z :=
  if PC_MANAGER then
    guarded auth_crypto id
      (if negb (IsDiskIdValid diskId) then fin E_PARAMS_INVALID
       else if negb (is_crypt_path volPath) then fin E_PARAMS_INVALID
       else mapped_error E_MOUNT_VOL_BY_PATH_FAILED (MountVolumeByPath diskId volPath param))
  else fin E_NOT_SUPPORT.
(* @src services/disk_manager/src/ipc/disk_manager_provider.cpp 1176-1208 DiskManagerProvider::UmountVolumeByPath *)
Definition Provider_UmountVolumeByPath (diskId volPath : string) : M Z :=
  if PC_MANAGER then
    guarded auth_crypto id
      (if negb (IsDiskIdValid diskId) then fin E_PARAMS_INVALID
       else if negb (is_crypt_path volPath) then fin E_PARAMS_INVALID
       else mapped_error E_UMOUNT_VOL_BY_PATH_FAILED (UmountVolumeByPath diskId volPath))
  else fin E_NOT_SUPPORT.

(** ** Calls from storage_daemon *)
(* @src services/disk_manager/src/ipc/disk_manager_provider.cpp 188-191 DiskManagerProvider::BeginPendingStorageDaemonCallback *)
Definition BeginPendingStorageDaemonCallback : M unit := set_prov (pv_add_pending 1).
(* @src services/disk_manager/src/ipc/disk_manager_provider.cpp 193-196 DiskManagerProvider::EndPendingStorageDaemonCallback *)
Definition EndPendingStorageDaemonCallback : M unit := set_prov (pv_add_pending (-1)).
(** A callback: counted while it runs, and only for storage_daemon. *)
Definition daemon_callback (op : M Z) : M Z :=
  do! BeginPendingStorageDaemonCallback in
  let! ok := CheckStorageDaemonPermission in
  let! ret := (if negb ok then fin E_PERMISSION_DENIED else op) in
  do! EndPendingStorageDaemonCallback in
  sret ret.

(* @src services/disk_manager/src/ipc/disk_manager_provider.cpp 579-615 DiskManagerProvider::OnBlockDiskUevent *)
Definition Provider_OnBlockDiskUevent (rawUeventMsg : string) : M Z :=
  let! unloading := get_sh (fun sh => pv_isUnloading (sh_prov sh)) in
  if unloading then fin E_SA_IS_UNLOADING
  else
    do! yield lk_none in
    let! unloading := get_sh (fun sh => pv_isUnloading (sh_prov sh)) in
    if unloading then fin E_SA_IS_UNLOADING
    else
      daemon_callback
        (if (UEVENT_RAW_MAX_LEN <? String.length rawUeventMsg)%nat then fin E_PARAMS_INVALID
         else if IsFilePathInvalid rawUeventMsg then fin E_PARAMS_INVALID
         else OnBlockDiskUevent rawUeventMsg).
(** What is done with a valid report is a fault log, the request [ReportDiag]. *)
(* @src services/disk_manager/src/ipc/disk_manager_provider.cpp 617-635 DiskManagerProvider::ReportVolumeOpDiag *)
Definition Provider_ReportVolumeOpDiag (opDiag : string) : M Z :=
  daemon_callback
    (if str_empty opDiag || (OP_DIAG_RAW_MAX_LEN <? String.length opDiag)%nat then fin E_OK
     else let! _ := call lk_none (ReportDiag opDiag) in fin E_OK).
(* @src services/disk_manager/src/ipc/disk_manager_provider.cpp 702-740 DiskManagerProvider::NotifyMtpMounted *)
Definition Provider_NotifyMtpMounted (id path desc uuid fsType : string) : M Z :=
  daemon_callback
    (if negb (IsVolumeIdValid id) then fin E_PARAMS_INVALID
     else if negb (IsUuidValid uuid) then fin E_PARAMS_INVALID
     else if negb (IsMountPathValid path) then fin E_PARAMS_INVALID
     else
       let! r := call lk_none (RealPath path) in
       if negb (an_bool r) then fin E_PARAMS_INVALID
       else NotifyMtpMounted id (an_str r) desc uuid fsType).
(* @src services/disk_manager/src/ipc/disk_manager_provider.cpp 742-760 DiskManagerProvider::NotifyMtpUnmounted *)
Definition Provider_NotifyMtpUnmounted (id : string) (isBadRemove : bool) : M Z :=
  daemon_callback
    (if negb (IsVolumeIdValid id) then fin E_PARAMS_INVALID else NotifyMtpUnmounted id isBadRemove).

(** ** Life cycle *)
(* @src services/disk_manager/src/ipc/disk_manager_provider.cpp 154-170 DiskManagerProvider::StartIdleMonitor *)
Definition StartIdleMonitor : M unit := do! set_prov (pv_set_stopped false) in set_prov (pv_set_timer true).
(* @src services/disk_manager/src/ipc/disk_manager_provider.cpp 172-186 DiskManagerProvider::StopIdleMonitor *)
Definition StopIdleMonitor : M unit := do! set_prov (pv_set_stopped true) in set_prov (pv_set_timer false).
(* @src services/disk_manager/src/ipc/disk_manager_provider.cpp 131-145 DiskManagerProvider::OnStart *)
Definition OnStart : M unit :=
  do! Bootstrap_Init in
  let! _ := ReloadFromDaemon in
  let! _ := store ps_Init in
  let! _ := call lk_none PublishService in
  StartIdleMonitor.
(* @src services/disk_manager/src/ipc/disk_manager_provider.cpp 147-152 DiskManagerProvider::OnStop *)
Definition OnStop : M unit := StopIdleMonitor.

(** The answer to [RGetSystemAbilityManager]: [an_bool] when the manager was found. *)
(* @src services/disk_manager/src/ipc/disk_manager_provider.cpp 198-229 DiskManagerProvider::CheckAndUnloadIfIdle *)
Definition CheckAndUnloadIfIdle : M unit :=
  let! stopped := get_sh (fun sh => pv_idleMonitorStopped (sh_prov sh)) in
  if stopped then sret tt
  else
    let! managed := HasManagedResources in
    if managed then sret tt
    else
      do! yield lk_none in
      let! pendingCallbacks := get_sh (fun sh => pv_pendingCallbacks (sh_prov sh)) in
      if 0 <? pendingCallbacks then sret tt
      else
        do! set_prov (pv_set_unloading true) in
        let! samgr := call lk_none RGetSystemAbilityManager in
        if negb (an_bool samgr) then set_prov (pv_set_unloading false)
        else
          let! a := call lk_none UnloadSystemAbility in
          if negb (an_ret a =? ERR_OK) then set_prov (pv_set_unloading false)
          else sret tt.
End provider.
