(* ===== verification/Paths.v ===== *)
(** * Paths and ids the service passes to the root daemon: shapes

    The exact shape of a mount point ([mount_target]), of a device node
    ([node_path]) and of the ids they are made from, with the lemmas that the
    code's checks ([IsUuidValid], [IsDiskIdValid], [IsVolumeIdValid]) and its id
    constructors give these shapes, and that no [".."] component gets in. *)
From S2P Require Import Prelude CppString Types State Utils World DmQuery DmOptical Bootstrap.

(** ** Components *)
Lemma components_dir a s : no_char SLASH a = true -> components (a +:+ "/" +:+ s) = a :: components s.
Proof. apply split_char_app. Qed.
Lemma components_single s : no_char SLASH s = true -> components s = [s].
Proof. apply split_char_none. Qed.
Lemma digits_no_slash s : sforall is_digit s = true -> no_char SLASH s = true.
Proof. by apply digits_no_char. Qed.

(** An id without a [".."] component. *)
Definition id_plain (id : string) : Prop := ~ (".." ∈ components id).
Lemma id_plain_single s : no_char SLASH s = true -> s <> ".." -> id_plain s.
Proof. intros Hs Hn. unfold id_plain. rewrite components_single by done. set_solver. Qed.

(** The node of an id, below [/dev/block/] and with no [".."] component. *)
Definition node_path (path : string) : Prop :=
  starts_with DEV_BLOCK_PREFIX path = true /\ ~ (".." ∈ components path).
Lemma node_path_dev_block id : id_plain id -> node_path (dev_block id).
Proof.
  intros Hid. split; [apply starts_with_app|].
  assert (components (dev_block id) = "" :: "dev" :: "block" :: components id) as -> by reflexivity.
  unfold id_plain in Hid. set_solver.
Qed.

(** ** Ids *)
Lemma id_plain_empty : id_plain "".
Proof. by apply id_plain_single. Qed.
Lemma no_slash_to_string z : no_char SLASH (to_string z) = true.
Proof.
  assert (Hp : forall p, no_char SLASH (to_string (Z.pos p)) = true).
  { intros p. apply digits_no_slash, to_string_digits. lia. }
  destruct z as [|p|p]; [done|apply Hp|]. exact (Hp p).
Qed.
Lemma no_slash_app a b : no_char SLASH a = true -> no_char SLASH b = true -> no_char SLASH (a +:+ b) = true.
Proof. unfold no_char. rewrite sforall_app. by intros -> ->. Qed.
Lemma DiskIdFrom_plain maj min : id_plain (DiskIdFrom maj min).
Proof. apply id_plain_single; [|done]. unfold DiskIdFrom. repeat apply no_slash_app; auto using no_slash_to_string. Qed.
Lemma VolIdFromDev_plain d : id_plain (VolIdFromDev d).
Proof. apply id_plain_single; [|done]. unfold VolIdFromDev. repeat apply no_slash_app; auto using no_slash_to_string. Qed.
Lemma IsDiskIdValid_plain d : IsDiskIdValid d = true -> id_plain d.
Proof.
  intros (a & b & -> & [_ Ha] & [_ Hb])%IsDiskIdValid_spec. apply id_plain_single; [|done].
  repeat apply no_slash_app; auto using digits_no_slash.
Qed.
Lemma IsVolumeIdValid_plain v : IsVolumeIdValid v = true -> id_plain v.
Proof.
  intros (Hp & Hv)%IsVolumeIdValid_spec Hdd. apply IsFilePathInvalid_iff in Hp as (_ & Hp & _). rewrite (Hp Hdd) in Hv.
  destruct Hv as [?|[?|[?|(a & b & ? & _)]]]; done.
Qed.

Lemma srfind_schar_None c s : srfind (schar c) s = None -> no_char c s = true.
Proof. rewrite srfind_None. intros H. apply sfind_schar_None. by rewrite sfind_None. Qed.
Lemma base_name_no_slash path : no_char SLASH (base_name path) = true.
Proof.
  assert (Hs : forall i, srfind "/" path = Some i -> no_char SLASH (sdrop (S i) path) = true).
  { induction path as [|c s IH]; intros i; [done|]. cbn [srfind]. destruct (srfind "/" s) as [j|] eqn:Hj.
    - intros [= <-]. by apply IH.
    - case_match; [|done]. intros [= <-]. destruct s; by apply srfind_schar_None. }
  unfold base_name. destruct (srfind "/" path) as [i|] eqn:Hi; [by apply Hs|by apply srfind_schar_None].
Qed.
Lemma crypt_volume_id_plain loopPath : id_plain (crypt_volume_id loopPath).
Proof. apply id_plain_single; [|done]. by apply no_slash_app, base_name_no_slash. Qed.

(** ** Mount points *)
(** A uuid that passed [IsUuidValid], or such a uuid with a number appended. *)
Definition checked_uuid (u : string) : Prop :=
  exists u0, IsUuidValid u0 = true /\ (u = u0 \/ exists n, 0 <= n /\ u = dedup_candidate u0 n).
(** A path of the uuid store: the prefix and a slot number. *)
Definition voldata_path (path : string) : Prop :=
  exists ds, path = VOLDATA_PATH_PREFIX +:+ ds /\ ds <> "" /\ sforall is_digit ds = true.
Definition mount_roots : list string := [EXTERNAL_MOUNT_ROOT; EXTERNAL_FUSE_DATA_ROOT; EXTERNAL_DVR_ROOT].
Definition mount_target (path : string) : Prop :=
  voldata_path path \/ exists root u, root ∈ mount_roots /\ checked_uuid u /\ path = root +:+ u.
(** Below [/mnt/data/]: no component climbs, unless the uuid is [".."] itself. *)
Definition confined (path : string) : Prop :=
  starts_with "/mnt/data/" path = true /\
  (".." ∈ components path -> exists root, root ∈ mount_roots /\ path = root +:+ "..").

Lemma IsUuidValid_path u : IsUuidValid u = true -> u <> "" /\ (".." ∈ components u -> u = "..").
Proof. unfold IsUuidValid. destruct (IsFilePathInvalid u) eqn:H; [done|]. intros _. apply IsFilePathInvalid_iff in H as (? & ? & _). done. Qed.
Lemma components_last s t : no_char SLASH t = true -> t <> "" ->
  exists cs c, components s = cs ++ [c] /\ components (s +:+ t) = cs ++ [c +:+ t].
Proof.
  intros Ht Hne. induction s as [|d s (cs & c & Hs & Hst)].
  - exists [], "". cbn [String.append]. by rewrite (components_single t).
  - unfold components in *. cbn [split_char String.append]. rewrite Hs, Hst. destruct (char_eqb d SLASH).
    + by exists ("" :: cs), c.
    + destruct cs as [|c0 cs]; cbn; [by exists [], (String d c)|by exists (String d c0 :: cs), c].
Qed.
Lemma checked_uuid_path u : checked_uuid u -> u <> "" /\ (".." ∈ components u -> u = "..").
Proof.
  intros (u0 & (Hne & Hdd)%IsUuidValid_path & [->|(n & Hn & ->)]); [done|]. split; [by destruct u0|].
  unfold dedup_candidate. set (t := UUID_SEQ_SEPARATOR +:+ to_string n).
  assert (Ht : no_char SLASH t = true) by (apply no_slash_app; [done|apply no_slash_to_string]).
  destruct (components_last u0 t Ht ltac:(done)) as (cs & c & Hs & ->). intros [Hin|Hin]%elem_of_app.
  - exfalso. assert (u0 = "..") as -> by (apply Hdd; rewrite Hs; set_solver).
    change (components "..") with [".."] in Hs. destruct cs as [|? [|]]; [by apply elem_of_nil in Hin|done..].
  - exfalso. apply list_elem_of_singleton in Hin. unfold t in Hin. destruct c as [|? [|? [|? ?]]]; cbn in Hin; try done.
Qed.
Lemma root_components root u : root ∈ mount_roots -> ".." ∈ components (root +:+ u) -> ".." ∈ components u.
Proof.
  intros Hr. unfold mount_roots in Hr. assert (exists cs, components (root +:+ u) = cs ++ components u /\ ".." ∉ cs) as (cs & -> & Hn).
  { repeat (apply elem_of_cons in Hr as [->|Hr]; [|]); [| | |by apply elem_of_nil in Hr].
    - exists [""; "mnt"; "data"; "external"]. split; [reflexivity|set_solver].
    - exists [""; "mnt"; "data"; "external_fuse"]. split; [reflexivity|set_solver].
    - exists [""; "mnt"; "data"; "dvr"]. split; [reflexivity|set_solver]. }
  rewrite elem_of_app. intros [?|?]; done.
Qed.
Lemma root_prefix root u : root ∈ mount_roots -> starts_with "/mnt/data/" (root +:+ u) = true.
Proof. unfold mount_roots. intros H. repeat (apply elem_of_cons in H as [->|H]; [reflexivity|]). by apply elem_of_nil in H. Qed.
Lemma mount_target_confined path : mount_target path -> confined path.
Proof.
  intros [(ds & -> & Hne & Hd)|(root & u & Hr & (Hu & Hdd)%checked_uuid_path & ->)].
  - split; [reflexivity|]. intros Hin. exfalso. revert Hin.
    assert (components (VOLDATA_PATH_PREFIX +:+ ds) = ["" ; "mnt"; "data"; "voldata"] ++ components ("data" +:+ ds)) as -> by reflexivity.
    rewrite components_single by (apply no_slash_app; [done|by apply digits_no_slash]).
    intros Hin. repeat (apply elem_of_cons in Hin as [Hin|Hin]; [discriminate Hin|]). by apply elem_of_nil in Hin.
  - split; [by apply root_prefix|]. intros Hin. exists root. split; [done|]. by rewrite (Hdd (root_components _ _ Hr Hin)).
Qed.
Lemma mount_target_root root u : root ∈ mount_roots -> checked_uuid u -> mount_target (root +:+ u).
Proof. intros. right. by exists root, u. Qed.
Lemma IsUuidValid_checked u : IsUuidValid u = true -> checked_uuid u.
Proof. exists u. auto. Qed.
Lemma fuse_mount_confined u : IsUuidValid u = true -> confined (EXTERNAL_MOUNT_ROOT +:+ u).
Proof. intros. apply mount_target_confined, mount_target_root; [unfold mount_roots; set_solver|by apply IsUuidValid_checked]. Qed.
Lemma mount_target_voldata path : voldata_path path -> mount_target path.
Proof. by left. Qed.
Lemma voldata_path_slot n : 0 <= n -> voldata_path (VOLDATA_PATH_PREFIX +:+ to_string n).
Proof. intros. exists (to_string n). split; [done|]. split; [by apply to_string_nonempty|by apply to_string_digits]. Qed.

(** The number a taken uuid gets is a [uint32_t]. *)
Lemma dedup_loop_candidate fuel vols id u k c :
  0 <= k -> dedup_loop fuel vols id u k = Some c -> exists n, 0 <= n /\ c = dedup_candidate u n.
Proof.
  revert k; induction fuel as [|fuel IH]; intros k Hk; cbn [dedup_loop]; [done|].
  destruct (negb _); [intros [= <-]; eauto|]. apply IH. unfold u32. apply Z.mod_pos_bound. lia.
Qed.
Lemma DedupFsUuid_checked vols id u : IsUuidValid u = true -> checked_uuid (DedupFsUuidUnlocked vols id u).
Proof.
  intros H. exists u. split; [done|]. unfold DedupFsUuidUnlocked. destruct (negb _); [by left|].
  destruct (dedup_loop _ _ _ _ _) as [c|] eqn:Hc; [|by left]. right. by apply dedup_loop_candidate in Hc.
Qed.
