(* ===== verification/Safety.v ===== *)
(** * Invariant of the service and safety of its requests: the rules

    [WInv] is the invariant of a world: the tables are well formed, the uuid store
    maps to voldata paths, and every request sent so far satisfies [req_safe],
    what the root daemon may rely on. [spec m Q]: from a world with the invariant
    [m] ends in one, with a result in [Q]. Other threads are assumed to keep the
    invariant of the shared members ([Rely]), which the theorems show every
    operation to do in turn. *)
From S2P Require Import Prelude CppString Types State Utils Json BlockInfo World Adapters DmQuery Events DmMount.
From S2P Require Import DmPartition DmOptical SysfsReader Bootstrap Provider Paths.

(** ** What the daemon may rely on *)
Definition req_safe (r : Req) : Prop :=
  match r with
  | SdMount _ path _ flags data =>
      mount_target path /\ confined path /\ (flags = 0 \/ flags = MS_RDONLY \/ flags = HMFS_FLAG) /\
      (data = "" \/ data = "bb_retry")
  | SdMountFuseDevice path => confined path /\ exists u, IsUuidValid u = true /\ path = EXTERNAL_MOUNT_ROOT +:+ u
  | SdSetLabel _ fsType label =>
      LABEL_SUPPORTED_FS_TYPES fsType = true /\ label <> "" /\ (String.length label <= VOLUME_DESCRIPTION_MAX_LEN)%nat
  | SdCreatePartition _ num startSector endSector code =>
      0 < num /\ 1 <= startSector < endSector /\ (code = "0x0700" \/ code = "0x8300")
  | SdDeletePartitionInfo _ diskId num => IsDiskIdValid diskId = true /\ 0 < num
  | SdFormatPartition _ fsType _ cmd quick =>
      (fsType = "ext4" \/ fsType = "exfat" \/ fsType = "vfat") /\ quick = true /\ head cmd = Some "sgdisk"
  | SdBurn _ burnOptions fsType => IsOddFsType fsType = true /\ ValidateBurnOptionsSubfields burnOptions = true
  | SdCreateIsoImage _ filePath fsType _ => IsOddFsType fsType = true /\ IsFilePathInvalid filePath = false
  | SdExecuteCommand cmd => head cmd = Some "loopctl" \/ head cmd = Some "cryptsetup"
  | SdCreateBlockDeviceNode path mode _ _ =>
      node_path path /\
      (mode = K_DISK_BLOCK_DEVICE_NODE_MODE \/ mode = K_VOLUME_BLOCK_DEVICE_NODE_MODE)
  | SdDestroyBlockDeviceNode path => node_path path
  | SdPartition path type => node_path path /\ type = "hmfs"
  | SdCreateDmLinear path startSector count => starts_with DEV_BLOCK_PREFIX path = true /\ startSector = 0 /\ 0 < count
  | SdErase path => node_path path
  | _ => True
  end.
Definition act_safe (a : Act) : Prop := match a with AReq r _ => req_safe r | AEvt _ => True end.

(** ** Well-formed tables *)
Definition valid_state (z : Z) : Prop := exists s : VolumeState, z = s.
Definition valid_fs (z : Z) : Prop := exists f : FsType, z = f.
Definition valid_type (z : Z) : Prop := exists t : DiskType, z = t.
Definition vol_good (v : VolumeExternal) : Prop :=
  valid_state (vol_state v) /\ valid_fs (vol_fsType v) /\ id_plain (vol_id v).
(** Data disks, and only they, are not removable. *)
Definition disk_good (d : Disk) : Prop :=
  valid_type (disk_diskType d) /\ disk_removable d = negb (IsInternalDataDisk d).
Definition table_good (t : PartitionTableInfo) : Prop :=
  1 <= pti_sectorSize t < INT32_MAX /\ 1 <= pti_alignSector t < INT32_MAX /\
  Forall (fun p => 1 <= pi_partitionNum p < INT32_MAX) (pti_partitions t).
Definition vols_ok (m : gmap string VolumeExternal) : Prop := map_Forall (fun k v => vol_id v = k /\ vol_good v) m.
Definition disks_ok (m : gmap string Disk) : Prop := map_Forall (fun k d => disk_diskId d = k /\ disk_good d) m.
Definition tables_ok (m : gmap string PartitionTableInfo) : Prop :=
  map_Forall (fun k t => pti_diskId t = k /\ table_good t) m.
Definition blocks_ok (m : gmap string BlockInfo) : Prop :=
  (size m <= BLOCK_INFO_MAX_COUNT)%nat /\ map_Forall (fun k b => bi_diskId b = k /\ k <> "") m.
Definition SharedInv (sh : Shared) : Prop :=
  disks_ok (sh_disks sh) /\ vols_ok (sh_vols sh) /\ tables_ok (sh_partitionTable sh) /\ blocks_ok (sh_blockInfo sh).

(** ** What a path store promises to its clients *)
Class PathStoreLaws (St : Type) {PS : PathStore St} : Type := {
  ps_inv : St -> Prop;
  ps_Init_inv s : ps_inv s -> ps_inv (ps_Init s).2;
  ps_TryGet_inv u s : ps_inv s -> ps_inv (ps_TryGetMountPath u s).2;
  ps_Resolve_inv u s : ps_inv s -> ps_inv (ps_ResolveMountPath u s).2;
  ps_Remove_inv u s : ps_inv s -> ps_inv (ps_RemoveByFsUuid u s).2;
  ps_Replace_inv a b s : ps_inv s -> ps_inv (ps_ReplaceFsUuid a b s).2;
  ps_TryGet_path u s p : ps_inv s -> (ps_TryGetMountPath u s).1 = Some p -> voldata_path p;
  ps_Resolve_path u s p : ps_inv s -> (ps_ResolveMountPath u s).1.1.2 = Some p -> voldata_path p;
}.

Class Rely (E : Type) {EV : Env E} : Prop :=
  rely (e : E) (sh : Shared) : SharedInv sh -> SharedInv ((env_others e).1 sh).

(** ** Facts about the records *)
Create HintDb spec discriminated.
#[export] Hint Constants Opaque : spec.

Lemma GetFsTypeByStr_valid s : valid_fs (GetFsTypeByStr s).
Proof.
  unfold GetFsTypeByStr. destruct (find_if _ _) as [kv|] eqn:H; [|by exists UNDEFINED].
  apply find_if_Some in H as [H _]. unfold FS_TYPE_MAP in H.
  repeat (apply elem_of_cons in H as [->|H]; [eexists; reflexivity|]). by apply elem_of_nil in H.
Qed.
Lemma vol_good_set_state s v : valid_state s -> vol_good v -> vol_good (Vol_SetState s v).
Proof. by intros ? [_ ?]. Qed.
Lemma vol_good_set_fs s v : vol_good v -> vol_good (Vol_SetFsType (GetFsTypeByStr s) v).
Proof. intros (? & _ & ?). split; [done|]. split; [apply GetFsTypeByStr_valid|done]. Qed.
(** The setters that touch neither the state nor the file-system type. *)
Lemma vol_good_ext v v' : vol_state v' = vol_state v -> vol_fsType v' = vol_fsType v -> vol_id v' = vol_id v ->
  vol_good v -> vol_good v'.
Proof. unfold vol_good. by intros -> -> ->. Qed.
Lemma vol_good_new id t d : id_plain id -> vol_good (VolumeExternal_of_core (VolumeCore_new id t d UNMOUNTED)).
Proof. intros. split; [by exists UNMOUNTED|]. split; [by exists UNDEFINED|done]. Qed.
Lemma vol_good_default : vol_good VolumeExternal_default.
Proof. split; [by exists UNMOUNTED|]. split; [by exists UNDEFINED|exact id_plain_empty]. Qed.

Lemma vol_default_description_id f v : vol_id (ApplyDefaultVolumeDescriptionIfUnset f v) = vol_id v.
Proof. unfold ApplyDefaultVolumeDescriptionIfUnset. by repeat case_match. Qed.
Lemma vol_good_default_description f v : vol_good v -> vol_good (ApplyDefaultVolumeDescriptionIfUnset f v).
Proof. unfold ApplyDefaultVolumeDescriptionIfUnset. repeat case_match; intros; by apply (vol_good_ext v). Qed.

#[export] Hint Resolve VolIdFromDev_plain DiskIdFrom_plain crypt_volume_id_plain IsDiskIdValid_plain IsVolumeIdValid_plain : spec.

(** [vol_tac] proves that a chain of setters keeps a volume good. *)
Ltac vol_tac :=
  repeat first
    [ assumption
    | apply vol_good_set_state; [first [assumption | eexists; reflexivity]|]
    | apply vol_good_set_fs
    | apply vol_good_new; solve [eauto with spec]
    | apply vol_good_default
    | apply vol_good_default_description
    | lazymatch goal with
      | |- vol_good (Vol_SetState _ _) => fail
      | |- vol_good (if ?b then _ else _) => destruct b
      | |- vol_good (match ?o with _ => _ end) => destruct o
      | |- vol_good (?f _ ?v) => apply (vol_good_ext v); [reflexivity|reflexivity|reflexivity|]
      end ].

Lemma disk_good_ext d d' : disk_diskType d' = disk_diskType d -> disk_removable d' = disk_removable d -> disk_good d -> disk_good d'.
Proof. unfold disk_good, IsInternalDataDisk. by intros -> ->. Qed.
Ltac disk_tac :=
  repeat first
    [ assumption
    | lazymatch goal with
      | |- disk_good (?f _ ?d) => apply (disk_good_ext d); [reflexivity|reflexivity|]
      end ].

(** The results of lookups. *)
Definition found_vol (id : string) (o : option VolumeExternal) : Prop := forall v, o = Some v -> vol_id v = id /\ vol_good v.
Definition good_vol (o : option VolumeExternal) : Prop := forall v, o = Some v -> vol_good v.
Definition good_disk (o : option Disk) : Prop := forall d, o = Some d -> disk_good d.
Lemma good_disk_Some d : disk_good d -> good_disk (Some d).
Proof. by intros H ? [= <-]. Qed.
Lemma good_disk_None : good_disk None.
Proof. by intros ?. Qed.
Lemma good_vol_Some v : vol_good v -> good_vol (Some v).
Proof. by intros H ? [= <-]. Qed.
Lemma good_vol_None : good_vol None.
Proof. by intros ?. Qed.
Lemma found_good id o : found_vol id o -> good_vol o.
Proof. intros H v Hv. by apply (H v). Qed.
#[export] Hint Resolve good_disk_Some good_disk_None good_vol_Some good_vol_None : spec.

Lemma UpdateRemovable_good d : valid_type (disk_diskType d) -> disk_good (UpdateRemovableFromDiskType d).
Proof. intros H. split; [done|]. unfold IsInternalDataDisk. cbn. by destruct (IsInternalDataDiskType _). Qed.

Lemma ClassifyFromSysfs_valid t u p r : valid_type (ClassifyFromSysfs t u p r).
Proof. by eexists. Qed.
Lemma RefreshClassification_good p rot d : disk_good (RefreshClassificationFromSysfs p rot d).
Proof.
  unfold RefreshClassificationFromSysfs. destruct (disk_diskType d =? DVR_USB) eqn:Hd.
  { apply UpdateRemovable_good. bsimp. rewrite Hd. by eexists. }
  destruct (negb (str_empty p)); apply UpdateRemovable_good; cbn [disk_diskType Disk_put_diskType Disk_SetUsbBus];
    repeat case_match; bsimp; try (by eexists); destruct_or?; try (by eexists);
    match goal with H : disk_diskType d = _ |- _ => rewrite H; by eexists end.
Qed.

(** ** Facts about the tables *)
Lemma vols_ok_lookup m k v : vols_ok m -> m !! k = Some v -> vol_id v = k /\ vol_good v.
Proof. intros H. apply H. Qed.
Lemma vols_ok_insert k v m : vol_id v = k -> vol_good v -> vols_ok m -> vols_ok (<[k := v]> m).
Proof. intros. by apply map_Forall_insert_2. Qed.
Lemma vols_ok_delete k m : vols_ok m -> vols_ok (delete k m).
Proof. intros. by apply map_Forall_delete. Qed.
Lemma vols_ok_alter f k m :
  (forall v, vol_good v -> vol_good (f v)) -> (forall v, vol_id (f v) = vol_id v) -> vols_ok m -> vols_ok (alter f k m).
Proof.
  intros Hf Hi H i v. destruct (decide (i = k)) as [->|Hne].
  - rewrite lookup_alter_eq. destruct (m !! k) as [v0|] eqn:E; [|done]. intros [= <-]. destruct (H _ _ E) as [? ?].
    rewrite Hi. auto.
  - rewrite lookup_alter_ne by done. apply H.
Qed.
Lemma vols_ok_map_insert v m : vol_good v -> vols_ok m -> vols_ok (map_insert v m).
Proof. intros. unfold map_insert. destruct (m !! vol_id v); [done|]. by apply vols_ok_insert. Qed.
Lemma vols_ok_delete_all ks m : vols_ok m -> vols_ok (fold_left (fun m k => delete k m) ks m).
Proof. revert m; induction ks as [|k ks IH]; intros m H; simpl; [done|]. apply IH. by apply vols_ok_delete. Qed.
Lemma vols_ok_entry m kv : vols_ok m -> kv ∈ sorted_entries m -> vol_id kv.2 = kv.1 /\ vol_good kv.2.
Proof. destruct kv as [k v]. intros H Hin%elem_of_sorted_entries. by apply (H k v). Qed.
Lemma disks_ok_lookup m k d : disks_ok m -> m !! k = Some d -> disk_diskId d = k /\ disk_good d.
Proof. intros H. apply H. Qed.
(** A good volume with id [id]. *)
Definition good_at (id : string) (v : VolumeExternal) : Prop := vol_id v = id /\ vol_good v.
Lemma lookup_uuid_good m u v : vols_ok m -> LookupVolumeByUuidUnlocked m u = Some v -> vol_good v.
Proof.
  unfold LookupVolumeByUuidUnlocked. intros H Hf. destruct (find_if _ _) as [kv|] eqn:E; [|done]. injection Hf as <-.
  apply find_if_Some in E as [E _]. by apply (vols_ok_entry m kv H).
Qed.

(** ** The rules *)
Section rules.
Context {E St : Type} {EV : Env E} {PS : PathStore St} {PL : PathStoreLaws St} {JT : JsonText} {RL : Rely E}.
Notation M := (State (World E St)).

Definition WInv (w : World E St) : Prop :=
  SharedInv (w_sh w) /\ ps_inv (w_store w) /\ Forall act_safe (w_trace w).
Definition spec {A} (m : M A) (Q : A -> Prop) : Prop := forall w, WInv w -> WInv (m w).2 /\ Q (m w).1.

Lemma spec_ret {A} (a : A) (Q : A -> Prop) : Q a -> spec (sret a) Q.
Proof. intros H w Hw. done. Qed.
Lemma spec_bind {A B} (m : M A) (f : A -> M B) (P : A -> Prop) (Q : B -> Prop) :
  spec m P -> (forall a, P a -> spec (f a) Q) -> spec (sbind m f) Q.
Proof.
  intros Hm Hf w Hw. unfold sbind. destruct (Hm w Hw) as [Hw' Hp]. destruct (m w) as [a w']. by apply Hf.
Qed.
Lemma spec_assoc {A B C} (m : M A) (f : A -> M B) (g : B -> M C) Q :
  spec (sbind m (fun a => sbind (f a) g)) Q -> spec (sbind (sbind m f) g) Q.
Proof. intros H w Hw. specialize (H w Hw). unfold sbind in *. by destruct (m w). Qed.
Lemma spec_ret_bind {A B} (a : A) (f : A -> M B) Q : spec (f a) Q -> spec (sbind (sret a) f) Q.
Proof. done. Qed.
Lemma spec_conseq {A} (m : M A) (P Q : A -> Prop) : (forall a, P a -> Q a) -> spec m P -> spec m Q.
Proof. intros H Hm w Hw. destruct (Hm w Hw). auto. Qed.
Lemma spec_true {A} (m : M A) (P : A -> Prop) : spec m P -> spec m (fun _ => True).
Proof. by apply spec_conseq. Qed.

(** *** Reading *)
Lemma spec_get_disks : spec get_disks disks_ok.
Proof. intros w Hw. split; [done|]. apply Hw. Qed.
Lemma spec_get_vols : spec get_vols vols_ok.
Proof. intros w Hw. split; [done|]. apply Hw. Qed.
Lemma spec_get_tables : spec (get_sh sh_partitionTable) tables_ok.
Proof. intros w Hw. split; [done|]. apply Hw. Qed.
Lemma spec_get_sh {A} (f : Shared -> A) : spec (get_sh f) (fun _ => True).
Proof. intros w Hw. done. Qed.

(** *** Writing *)
Lemma spec_set_sh (f : Shared -> Shared) : (forall sh, SharedInv sh -> SharedInv (f sh)) -> spec (set_sh f) (fun _ => True).
Proof. intros H w (? & ? & ?). split; [|done]. split; [by apply H|done]. Qed.
Lemma spec_set_vols f : (forall m, vols_ok m -> vols_ok (f m)) -> spec (set_vols f) (fun _ => True).
Proof. intros H. apply spec_set_sh. intros sh (? & ? & ? & ?). split_and!; try apply H; done. Qed.
Lemma spec_set_disks f : (forall m, disks_ok m -> disks_ok (f m)) -> spec (set_disks f) (fun _ => True).
Proof. intros H. apply spec_set_sh. intros sh (? & ? & ? & ?). repeat (split; [try apply H; done|]). done. Qed.
Lemma spec_set_tables f : (forall m, tables_ok m -> tables_ok (f m)) -> spec (set_partitionTable f) (fun _ => True).
Proof. intros H. apply spec_set_sh. intros sh (? & ? & ? & ?). repeat (split; [try apply H; done|]). done. Qed.
Lemma spec_set_blockInfo m : blocks_ok m -> spec (set_blockInfo m) (fun _ => True).
Proof. intros H. apply spec_set_sh. by intros sh (? & ? & ? & ?). Qed.
Lemma spec_set_partitionDone f : spec (set_partitionDone f) (fun _ => True).
Proof. by apply spec_set_sh. Qed.
Lemma spec_set_partitioning f : spec (set_partitioning f) (fun _ => True).
Proof. by apply spec_set_sh. Qed.
Lemma spec_set_snapshot f : spec (set_snapshot f) (fun _ => True).
Proof. by apply spec_set_sh. Qed.
Lemma spec_set_sdReady b : spec (set_sdReady b) (fun _ => True).
Proof. by apply spec_set_sh. Qed.
Lemma spec_set_configs f : spec (set_configs f) (fun _ => True).
Proof. by apply spec_set_sh. Qed.
Lemma spec_set_prov f : spec (set_prov f) (fun _ => True).
Proof. by apply spec_set_sh. Qed.

(** *** Other threads, requests, events *)
Lemma interfere_inv lk f sh : SharedInv sh -> SharedInv (f sh) -> SharedInv (interfere lk f sh).
Proof.
  intros (? & ? & ? & ?) (? & ? & ? & ?). unfold interfere, SharedInv. cbn.
  destruct (lk_disk lk), (lk_vol lk), (lk_part lk); done.
Qed.
Lemma spec_yield lk : spec (yield lk) (fun _ => True).
Proof.
  intros w (Hs & Hp & Ht). unfold yield. pose proof (rely (w_env w) (w_sh w) Hs) as Hr.
  destruct (env_others (w_env w)) as [f e]. split; [|done]. split; [by apply interfere_inv|done].
Qed.
Lemma spec_request r : req_safe r -> spec (request r) (fun _ => True).
Proof.
  intros Hr w (Hs & Hp & Ht). unfold request. destruct (env_answer (w_env w) r) as [a e].
  split; [|done]. split; [done|]. split; [done|]. by constructor.
Qed.
Lemma spec_call lk r : req_safe r -> spec (call lk r) (fun _ => True).
Proof.
  intros Hr. eapply spec_bind; [by apply spec_request|]. intros a _. eapply spec_bind; [apply spec_yield|].
  intros [] _. by apply spec_ret.
Qed.
Lemma spec_publish lk e : spec (publish lk e) (fun _ => True).
Proof.
  eapply (spec_bind _ _ (fun _ => True)); [|intros _ _; apply spec_yield].
  intros w (Hs & Hp & Ht). split; [|done]. split; [done|]. split; [done|]. by constructor.
Qed.

(** *** The uuid store *)
Lemma spec_store {A} (m : State St A) (Q : A -> Prop) :
  (forall s, ps_inv s -> ps_inv (m s).2 /\ Q (m s).1) -> spec (store m) Q.
Proof.
  intros H w (Hs & Hp & Ht). unfold store, szoom. destruct (H _ Hp) as [Hi HQ]. destruct (m (w_store w)) as [a s].
  split; [|done]. done.
Qed.
Definition path_opt (o : option string) : Prop := forall p, o = Some p -> voldata_path p.
Lemma spec_store_Init : spec (store ps_Init) (fun _ => True).
Proof. apply spec_store. intros s H. split; [by apply ps_Init_inv|done]. Qed.
Lemma spec_store_TryGet u : spec (store (ps_TryGetMountPath u)) path_opt.
Proof. apply spec_store. intros s H. split; [by apply ps_TryGet_inv|]. intros p. by apply ps_TryGet_path. Qed.
Lemma spec_store_Resolve u : spec (store (ps_ResolveMountPath u)) (fun r => path_opt r.1.2).
Proof. apply spec_store. intros s H. split; [by apply ps_Resolve_inv|]. intros p. by apply ps_Resolve_path. Qed.
Lemma spec_store_Remove u : spec (store (ps_RemoveByFsUuid u)) (fun _ => True).
Proof. apply spec_store. intros s H. split; [by apply ps_Remove_inv|done]. Qed.
Lemma spec_store_Replace a b : spec (store (ps_ReplaceFsUuid a b)) (fun _ => True).
Proof. apply spec_store. intros s H. split; [by apply ps_Replace_inv|done]. Qed.

(** *** Loops *)
Lemma spec_for {A} (l : list A) (body : A -> M unit) :
  (forall x, x ∈ l -> spec (body x) (fun _ => True)) -> spec (sfor l body) (fun _ => True).
Proof.
  induction l as [|x l IH]; intros H; [by apply spec_ret|]. simpl. eapply spec_bind; [apply H; set_solver|].
  intros _ _. apply IH. intros. apply H. set_solver.
Qed.
Lemma spec_for_until {A B} (l : list A) (body : A -> M (option B)) :
  (forall x, x ∈ l -> spec (body x) (fun _ => True)) -> spec (sfor_until l body) (fun _ => True).
Proof.
  induction l as [|x l IH]; intros H; [by apply spec_ret|]. simpl. eapply spec_bind; [apply H; set_solver|].
  intros [r|] _; [by apply spec_ret|]. apply IH. intros. apply H. set_solver.
Qed.
Lemma spec_map_list {A B} (f : A -> M B) (Q : B -> Prop) (l : list A) :
  (forall x, x ∈ l -> spec (f x) Q) -> spec (smap_list f l) (Forall Q).
Proof.
  induction l as [|x l IH]; intros H; [apply spec_ret; constructor|]. simpl. eapply spec_bind; [apply H; set_solver|].
  intros y Hy. eapply spec_bind; [apply IH; intros; apply H; set_solver|]. intros ys Hys. apply spec_ret. by constructor.
Qed.
End rules.

#[export] Hint Resolve spec_get_disks spec_get_vols spec_get_tables spec_yield spec_publish
  spec_set_partitionDone spec_set_partitioning spec_set_snapshot spec_set_sdReady spec_set_configs spec_set_prov
  spec_store_Init spec_store_TryGet spec_store_Resolve spec_store_Remove spec_store_Replace : spec.

#[export] Hint Resolve spec_get_sh | 10 : spec.

(** Facts about the entries the context looks up. *)
Ltac learn :=
  repeat match goal with
  | H : _ /\ _ |- _ => destruct H
  | H : vols_ok ?m, E : ?m !! ?k = Some ?v |- _ =>
      lazymatch goal with
      | _ : vol_good v |- _ => fail
      | _ => let Hi := fresh "Hid" in let Hg := fresh "Hgood" in destruct (vols_ok_lookup m k v H E) as [Hi Hg]
      end
  | H : disks_ok ?m, E : ?m !! ?k = Some ?d |- _ =>
      lazymatch goal with
      | _ : disk_good d |- _ => fail
      | _ => let Hi := fresh "Hid" in let Hg := fresh "Hgood" in destruct (disks_ok_lookup m k d H E) as [Hi Hg]
      end
  | H : good_disk (Some ?d) |- _ =>
      lazymatch goal with _ : disk_good d |- _ => fail | _ => pose proof (H d eq_refl) end
  | H : good_vol (Some ?v) |- _ =>
      lazymatch goal with _ : vol_good v |- _ => fail | _ => pose proof (H v eq_refl) end
  | H : found_vol _ (Some ?v) |- _ =>
      lazymatch goal with
      | _ : vol_good v |- _ => fail
      | _ => let Hi := fresh "Hid" in let Hg := fresh "Hgood" in destruct (H v eq_refl) as [Hi Hg]
      end
  | H : good_at _ _ |- _ => let Hi := fresh "Hid" in let Hg := fresh "Hgood" in destruct H as [Hi Hg]
  end.
Ltac id_tac := first [ reflexivity | assumption | congruence | etrans; [apply vol_default_description_id|]; first [reflexivity | assumption] ].
Ltac at_tac := learn; split; [id_tac|vol_tac].
#[export] Hint Extern 1 (vol_good _) => solve [learn; vol_tac] : spec.
#[export] Hint Extern 1 (disk_good _) => solve [learn; disk_tac] : spec.
#[export] Hint Extern 1 (valid_state _) => solve [learn; first [assumption | eexists; reflexivity]] : spec.
#[export] Hint Extern 1 (good_at _ _) => solve [at_tac] : spec.

(** An update of the volume table keeps it well formed. *)
Ltac vols_tac :=
  learn;
  lazymatch goal with
  | |- vols_ok (alter _ _ _) => apply vols_ok_alter; [intros; vol_tac|intros; reflexivity|assumption]
  | |- vols_ok (<[_ := _]> _) => apply vols_ok_insert; [id_tac|vol_tac|assumption]
  | |- vols_ok (delete _ _) => apply vols_ok_delete; assumption
  | |- vols_ok (map_insert _ _) => apply vols_ok_map_insert; [vol_tac|assumption]
  | |- vols_ok (fold_left _ _ _) => apply vols_ok_delete_all; assumption
  end.

(** The node of a volume of the table, or of an id in the context. *)
Ltac node_tac :=
  apply node_path_dev_block; learn;
  first [ assumption | solve [eauto with spec]
        | match goal with H : vol_good ?v |- id_plain (vol_id ?v) => apply H end
        | match goal with H : vol_good ?v |- id_plain ?i =>
            replace i with (vol_id v) by (first [assumption | congruence]); apply H end ].
(** [req_tac]: a request is safe. *)
Ltac req_tac :=
  first [ exact I | solve [cbn; auto 6 using starts_with_app]
        | solve [cbn [req_safe]; first [node_tac | split; [node_tac|auto]]]
        | solve [cbn [req_safe]; bsimp; repeat (split; [done|]); done] ].

(** What solves a call that the hints do not know; completed below. *)
Ltac spec_hook := fail.

Ltac split_on x := first [is_var x; destruct x | destruct x eqn:?].

(** [spec_step] runs one construct; a [match] is split before the rest runs. *)
Ltac spec_step :=
  lazymatch goal with
  | |- spec (sret _) _ => apply spec_ret; first [exact I | solve [learn; cbn [fst snd] in *; eauto with spec] | idtac]
  | |- spec (fin _) _ => apply spec_ret; first [exact I | idtac]
  | |- spec (sbind (sret _) _) _ => apply spec_ret_bind
  | |- spec (sbind (fin _) _) _ => apply spec_ret_bind
  | |- spec (sbind (sbind _ _) _) _ => apply spec_assoc
  | |- spec (sbind (if ?b then _ else _) _) _ => destruct b eqn:?
  | |- spec (sbind (match ?x with _ => _ end) _) _ => split_on x
  | |- spec (sbind (let _ := _ in _) _) _ => cbv zeta
  | |- spec (let _ := _ in _) _ => cbv zeta
  | |- spec (sbind (call _ _) _) _ => eapply spec_bind; [apply spec_call; try req_tac|]
  | |- spec (sbind (request _) _) _ => eapply spec_bind; [apply spec_request; try req_tac|]
  | |- spec (sbind (set_vols _) _) _ => eapply spec_bind; [apply spec_set_vols; intros; try solve [vols_tac]|]
  | |- spec (sbind (set_disks _) _) _ => eapply spec_bind; [apply spec_set_disks; intros|]
  | |- spec (sbind _ _) _ => eapply spec_bind; [first [solve [eauto with spec] | spec_hook]|]
  | |- spec (if ?b then _ else _) _ => destruct b eqn:?
  | |- spec (match ?x with _ => _ end) _ => split_on x
  | |- spec (call _ _) _ => eapply spec_conseq; [|apply spec_call; try req_tac]; first [done | idtac]
  | |- spec (set_vols _) _ => apply spec_set_vols; intros; try solve [vols_tac]
  | |- spec (set_disks _) _ => apply spec_set_disks; intros
  | |- spec _ (fun _ => True) => first [solve [eapply spec_true; eauto with spec] | spec_hook]
  | |- spec _ _ => solve [eauto with spec]
  | |- forall _, _ => intros ?
  end.
Ltac spec_auto := repeat (spec_step; cbn [fst snd] in *); learn.

(** ** [StorageDaemonAdapter] *)
Section adapter.
Context {E St : Type} {EV : Env E} {PS : PathStore St} {PL : PathStoreLaws St} {RL : Rely E}.
Notation spec := (@spec E St PS PL).

Lemma Connect_spec lk : spec (Connect lk) (fun _ => True).
Proof. unfold Connect. spec_auto. Qed.
#[local] Hint Resolve Connect_spec : spec.
Lemma EnsureProxyReady_spec lk : spec (EnsureProxyReady lk) (fun _ => True).
Proof. unfold EnsureProxyReady. spec_auto. Qed.
#[local] Hint Resolve EnsureProxyReady_spec : spec.
Lemma sd_forward_spec lk d r : req_safe r -> spec (sd_forward lk d r) (fun _ => True).
Proof. intros. unfold sd_forward. spec_auto. Qed.
Lemma sd_simple_spec lk r : req_safe r -> spec (sd_simple lk r) (fun _ => True).
Proof. intros. unfold sd_simple. eapply spec_bind; [by apply sd_forward_spec|]. spec_auto. Qed.
Lemma Sd_ExecuteCommand_spec lk cmd : req_safe (SdExecuteCommand cmd) -> spec (Sd_ExecuteCommand lk cmd) (fun _ => True).
Proof. intros. unfold Sd_ExecuteCommand. spec_auto. Qed.
Lemma ResetSdProxy_spec : spec ResetSdProxy (fun _ => True).
Proof. unfold ResetSdProxy. spec_auto. Qed.
End adapter.
#[export] Hint Resolve Connect_spec EnsureProxyReady_spec ResetSdProxy_spec : spec.


(** Forwards to the daemon: the goal left, if any, is that the request is safe. *)
Ltac sd_open :=
  lazymatch goal with
  | |- spec (sd_simple _ _) _ => apply sd_simple_spec; try req_tac
  | |- spec (sd_forward _ _ _) _ => apply sd_forward_spec; try req_tac
  | |- spec (Sd_ExecuteCommand _ _) _ => apply Sd_ExecuteCommand_spec; try req_tac
  | |- spec ?m _ =>
      let h := head_of m in unfold h;
      lazymatch goal with
      | |- spec (sd_simple _ _) _ => apply sd_simple_spec; try req_tac
      | |- spec (sbind (sd_forward _ _ _) _) _ =>
          eapply (spec_bind _ _ _ (fun _ => True)); [apply sd_forward_spec; try req_tac|intros; apply spec_ret; exact I]
      end
  end.
Ltac spec_hook ::= sd_open.
