(* ===== verification/SafetyDm.v ===== *)
(** * The service's operations keep the invariant: adapters and queries

    One lemma per operation: from a world with the invariant it ends in one, and
    what it returns is well formed. *)
From S2P Require Import Prelude CppString Types State Utils Json BlockInfo World Adapters DmQuery Events DmMount.
From S2P Require Import DmPartition DmOptical SysfsReader Bootstrap Provider Paths Safety.

Section safety.
Context {E St : Type} {EV : Env E} {PS : PathStore St} {PL : PathStoreLaws St} {JT : JsonText} {RL : Rely E}.
Notation M := (State (World E St)).
Notation spec := (@spec E St PS PL).

(** ** Adapters *)
Lemma sys_GetParameter_spec lk k d : spec (sys_GetParameter lk k d) (fun _ => True).
Proof. unfold sys_GetParameter. spec_auto. Qed.
Lemma sys_GetBoolParameter_spec lk k : spec (sys_GetBoolParameter lk k) (fun _ => True).
Proof. unfold sys_GetBoolParameter. spec_auto. Qed.
#[local] Hint Resolve sys_GetParameter_spec sys_GetBoolParameter_spec : spec.
Lemma NotifyUsbFuseMount_spec fd v u : spec (NotifyUsbFuseMount fd v u) (fun _ => True).
Proof. unfold NotifyUsbFuseMount. spec_auto. Qed.
Lemma NotifyUsbFuseUmount_spec v : spec (NotifyUsbFuseUmount v) (fun _ => True).
Proof. unfold NotifyUsbFuseUmount. spec_auto. Qed.
Lemma IsUsbFuseByType_spec lk f : spec (IsUsbFuseByType lk f) (fun _ => True).
Proof. unfold IsUsbFuseByType. spec_auto. Qed.
#[local] Hint Resolve NotifyUsbFuseMount_spec NotifyUsbFuseUmount_spec IsUsbFuseByType_spec : spec.
Lemma IsUsbFuseEnabledForFsType_spec lk f : spec (IsUsbFuseEnabledForFsType lk f) (fun _ => True).
Proof. unfold IsUsbFuseEnabledForFsType. spec_auto. Qed.
Lemma QueryEncryptionStatus_spec lk p : spec (QueryEncryptionStatus lk p) (fun _ => True).
Proof. unfold QueryEncryptionStatus. spec_auto. Qed.
Lemma NotifyVolumeMounted_spec d v p : spec (NotifyVolumeMounted d v p) (fun _ => True).
Proof. unfold NotifyVolumeMounted. spec_auto. Qed.
Lemma IsEnterpriseDevice_spec : spec IsEnterpriseDevice (fun _ => True).
Proof. unfold IsEnterpriseDevice. spec_auto. Qed.
#[local] Hint Resolve IsUsbFuseEnabledForFsType_spec QueryEncryptionStatus_spec NotifyVolumeMounted_spec IsEnterpriseDevice_spec : spec.
Lemma IsInterceptEnabled_spec : spec IsInterceptEnabled (fun _ => True).
Proof. unfold IsInterceptEnabled. spec_auto. Qed.
Lemma IsSataOddBurnDisabled_spec : spec IsSataOddBurnDisabled (fun _ => True).
Proof. unfold IsSataOddBurnDisabled. spec_auto. Qed.
Lemma IsExternalOddBurnAllowed_spec u p v s : spec (IsExternalOddBurnAllowed u p v s) (fun _ => True).
Proof. unfold IsExternalOddBurnAllowed. spec_auto. Qed.
Lemma NotifyExternalStorageDeviceAdd_spec v d : spec (NotifyExternalStorageDeviceAdd v d) (fun _ => True).
Proof. unfold NotifyExternalStorageDeviceAdd. spec_auto. Qed.
#[local] Hint Resolve IsInterceptEnabled_spec IsSataOddBurnDisabled_spec IsExternalOddBurnAllowed_spec NotifyExternalStorageDeviceAdd_spec : spec.
Lemma ReloadFromDaemon_spec : spec ReloadFromDaemon (fun _ => True).
Proof.
  unfold ReloadFromDaemon. spec_auto.
  apply spec_set_blockInfo. eapply parse_reply_facts. eassumption.
Qed.
Lemma TryCopyByDiskId_spec d : spec (TryCopyByDiskId d) (fun _ => True).
Proof. unfold TryCopyByDiskId. spec_auto. Qed.
Lemma ReadExtDiskInfoFromDaemon_spec d i : spec (ReadExtDiskInfoFromDaemon d i) (fun _ => True).
Proof. unfold ReadExtDiskInfoFromDaemon. spec_auto. Qed.
#[local] Hint Resolve ReloadFromDaemon_spec TryCopyByDiskId_spec ReadExtDiskInfoFromDaemon_spec : spec.

(** ** Lookups and records *)
Lemma HasDisk_spec d : spec (HasDisk d) (fun _ => True).
Proof. unfold HasDisk. spec_auto. Qed.
Lemma HasManagedResources_spec : spec HasManagedResources (fun _ => True).
Proof. unfold HasManagedResources. spec_auto. Qed.
Lemma OnDiskCreated_spec d : disk_good d -> spec (OnDiskCreated d) (fun _ => True).
Proof. intros. unfold OnDiskCreated. spec_auto. by apply map_Forall_insert_2. Qed.
Lemma OnDiskDestroyed_spec d : spec (OnDiskDestroyed d) (fun _ => True).
Proof. unfold OnDiskDestroyed. spec_auto. by apply map_Forall_delete. Qed.
Lemma OnVolumeCreated_spec v : vol_good v -> spec (OnVolumeCreated v) (fun _ => True).
Proof. intros. unfold OnVolumeCreated. spec_auto. Qed.
Lemma OnVolumeDestroyed_spec v : spec (OnVolumeDestroyed v) (fun _ => True).
Proof. unfold OnVolumeDestroyed. spec_auto. Qed.
Lemma ReplacePartitionsForDisk_spec d l : spec (ReplacePartitionsForDisk d l) (fun _ => True).
Proof. unfold ReplacePartitionsForDisk. spec_auto. Qed.
Lemma UpdateDisk_spec d : disk_good d -> spec (UpdateDisk d) (fun _ => True).
Proof. intros. unfold UpdateDisk. spec_auto. by apply map_Forall_insert_2. Qed.
Lemma UpdateVolumeExternal_spec v : vol_good v -> spec (UpdateVolumeExternal v) (fun _ => True).
Proof. intros. unfold UpdateVolumeExternal. spec_auto. Qed.
Lemma SetVolumeStateLocked_spec v s : spec (SetVolumeStateLocked v s) (fun _ => True).
Proof. unfold SetVolumeStateLocked. spec_auto. Qed.
Lemma GetVolumeById_spec id : spec (GetVolumeById id) (found_vol id).
Proof. unfold GetVolumeById. spec_auto. intros v Hv. by apply (vols_ok_lookup a id). Qed.
Lemma GetVolumeByUuid_spec u : spec (GetVolumeByUuid u) good_vol.
Proof. unfold GetVolumeByUuid. spec_auto. intros v Hv. by eapply lookup_uuid_good. Qed.
Lemma GetVolumePath_spec u : spec (GetVolumePath u) (fun _ => True).
Proof. unfold GetVolumePath. spec_auto. Qed.
Lemma LookupVolumeByCryptPath_spec d p : spec (LookupVolumeByCryptPath d p) good_vol.
Proof.
  unfold LookupVolumeByCryptPath. spec_auto. intros v Hv.
  destruct (find_if _ _) as [kv|] eqn:Hf; [|done]. injection Hv as <-. apply find_if_Some in Hf as [Hf _].
  by apply (vols_ok_entry a kv).
Qed.
#[local] Hint Resolve HasDisk_spec HasManagedResources_spec OnDiskCreated_spec OnDiskDestroyed_spec OnVolumeCreated_spec
  OnVolumeDestroyed_spec ReplacePartitionsForDisk_spec UpdateDisk_spec UpdateVolumeExternal_spec SetVolumeStateLocked_spec
  GetVolumeById_spec GetVolumeByUuid_spec GetVolumePath_spec LookupVolumeByCryptPath_spec : spec.

Lemma QueryAndAppendEncryptionStatusUnlocked_spec d :
  disk_good d -> spec (QueryAndAppendEncryptionStatusUnlocked d) disk_good.
Proof. intros. unfold QueryAndAppendEncryptionStatusUnlocked. spec_auto; done. Qed.
#[local] Hint Resolve QueryAndAppendEncryptionStatusUnlocked_spec : spec.
Lemma GetDiskById_spec d : spec (GetDiskById d) good_disk.
Proof. unfold GetDiskById. spec_auto. Qed.
#[local] Hint Resolve GetDiskById_spec : spec.
Lemma GetAllDisks_spec : spec GetAllDisks (fun _ => True).
Proof.
  unfold GetAllDisks. spec_auto. eapply spec_true. apply (spec_map_list _ (fun _ => True)). intros d Hd. spec_auto.
  eapply spec_true, QueryAndAppendEncryptionStatusUnlocked_spec.
  apply list_elem_of_fmap in Hd as ([k d'] & -> & Hd%elem_of_sorted_entries). learn. by disk_tac.
Qed.
Lemma GetAllVolumes_spec : spec GetAllVolumes (Forall (fun v => vol_id v = "0" \/ vol_good v)).
Proof.
  unfold GetAllVolumes. spec_auto. apply Forall_app. split.
  - apply Forall_forall. intros v (kv & -> & Hkv)%list_elem_of_fmap. right. by apply (vols_ok_entry a0 kv).
  - apply Forall_forall. intros v (d & -> & _)%list_elem_of_fmap. by left.
Qed.
Lemma statvfs_spec p : spec (statvfs p) (fun _ => True).
Proof. unfold statvfs. spec_auto. Qed.
Lemma GetOddCapacity_spec p t f : spec (GetOddCapacity p t f) (fun _ => True).
Proof. unfold GetOddCapacity. spec_auto. Qed.
#[local] Hint Resolve statvfs_spec GetOddCapacity_spec GetAllDisks_spec GetAllVolumes_spec : spec.
Lemma GetOddFreeSize_spec e b i f : spec (GetOddFreeSize e b i f) (fun _ => True).
Proof. unfold GetOddFreeSize. spec_auto. Qed.
#[local] Hint Resolve GetOddFreeSize_spec : spec.
Lemma GetFreeSizeOfVolume_spec u : spec (GetFreeSizeOfVolume u) (fun _ => True).
Proof. unfold GetFreeSizeOfVolume. spec_auto. Qed.
Lemma GetTotalSizeOfVolume_spec u : spec (GetTotalSizeOfVolume u) (fun _ => True).
Proof. unfold GetTotalSizeOfVolume. spec_auto. Qed.
#[local] Hint Resolve GetFreeSizeOfVolume_spec GetTotalSizeOfVolume_spec : spec.
Lemma GetExternalDiskInfos_spec : spec GetExternalDiskInfos (fun _ => True).
Proof. unfold GetExternalDiskInfos. spec_auto. Qed.
Lemma GetExternalVolumeInfos_spec : spec GetExternalVolumeInfos (fun _ => True).
Proof.
  unfold GetExternalVolumeInfos. spec_auto. eapply spec_true. apply (spec_map_list _ (fun _ => True)). intros v Hv. spec_auto.
Qed.
Lemma UpdateVolumeMetadata_safe v u f d : spec (UpdateVolumeMetadata v u f d) (fun _ => True).
Proof. unfold UpdateVolumeMetadata. spec_auto. Qed.
Lemma SetVolumeDiscState_spec v s : spec (SetVolumeDiscState v s) (fun _ => True).
Proof. unfold SetVolumeDiscState. spec_auto. Qed.
Lemma IsPathMounted_spec p : spec (IsPathMounted p) (fun _ => True).
Proof. unfold IsPathMounted. spec_auto. Qed.
Lemma IsDiskSupported_spec d : spec (IsDiskSupported d) (fun _ => True).
Proof. unfold IsDiskSupported. spec_auto. Qed.
Lemma CheckVolId_spec v : spec (CheckVolId v) (fun _ => True).
Proof. unfold CheckVolId. spec_auto. Qed.
Lemma find_volume_spec p ids : spec (find_volume p ids) good_vol.
Proof. induction ids as [|i ids IH]; cbn [find_volume]; spec_auto; by eauto with spec. Qed.
#[local] Hint Resolve UpdateVolumeMetadata_safe SetVolumeDiscState_spec IsPathMounted_spec IsDiskSupported_spec CheckVolId_spec
  find_volume_spec GetExternalDiskInfos_spec GetExternalVolumeInfos_spec : spec.
Lemma IsDiskNotReady_spec d : spec (IsDiskNotReady d) (fun _ => True).
Proof. unfold IsDiskNotReady. spec_auto. Qed.
Lemma IsVolumeMounted_spec d n : spec (IsVolumeMounted d n) (fun _ => True).
Proof. unfold IsVolumeMounted. spec_auto. Qed.
Lemma FindVolumeForPartition_spec d n : spec (FindVolumeForPartition d n) vol_good.
Proof. unfold FindVolumeForPartition. spec_auto. destruct a; learn; [done|apply vol_good_default]. Qed.
Lemma GetFsTypeByDiskIdAndPartNum_spec d n : spec (GetFsTypeByDiskIdAndPartNum d n) (fun _ => True).
Proof. unfold GetFsTypeByDiskIdAndPartNum. spec_auto. Qed.
Lemma IsEdmEnableOddBurn_spec d u : spec (IsEdmEnableOddBurn d u) (fun _ => True).
Proof. unfold IsEdmEnableOddBurn. spec_auto. Qed.
Lemma IsEdmControlMountEnabled_spec v p : spec (IsEdmControlMountEnabled v p) (fun _ => True).
Proof. unfold IsEdmControlMountEnabled. spec_auto. Qed.
#[local] Hint Resolve IsDiskNotReady_spec IsVolumeMounted_spec FindVolumeForPartition_spec GetFsTypeByDiskIdAndPartNum_spec
  IsEdmEnableOddBurn_spec IsEdmControlMountEnabled_spec : spec.
End safety.
#[export] Hint Resolve sys_GetParameter_spec sys_GetBoolParameter_spec NotifyUsbFuseMount_spec NotifyUsbFuseUmount_spec
  IsUsbFuseByType_spec IsUsbFuseEnabledForFsType_spec QueryEncryptionStatus_spec NotifyVolumeMounted_spec
  IsEnterpriseDevice_spec IsInterceptEnabled_spec IsSataOddBurnDisabled_spec IsExternalOddBurnAllowed_spec
  NotifyExternalStorageDeviceAdd_spec ReloadFromDaemon_spec TryCopyByDiskId_spec ReadExtDiskInfoFromDaemon_spec
  HasDisk_spec HasManagedResources_spec OnDiskCreated_spec OnDiskDestroyed_spec OnVolumeCreated_spec
  OnVolumeDestroyed_spec ReplacePartitionsForDisk_spec UpdateDisk_spec UpdateVolumeExternal_spec
  SetVolumeStateLocked_spec GetVolumeById_spec GetVolumeByUuid_spec GetVolumePath_spec
  LookupVolumeByCryptPath_spec QueryAndAppendEncryptionStatusUnlocked_spec GetDiskById_spec statvfs_spec
  GetOddCapacity_spec GetAllDisks_spec GetAllVolumes_spec GetOddFreeSize_spec GetFreeSizeOfVolume_spec
  GetTotalSizeOfVolume_spec UpdateVolumeMetadata_safe SetVolumeDiscState_spec IsPathMounted_spec
  IsDiskSupported_spec CheckVolId_spec find_volume_spec GetExternalDiskInfos_spec GetExternalVolumeInfos_spec
  IsDiskNotReady_spec IsVolumeMounted_spec FindVolumeForPartition_spec GetFsTypeByDiskIdAndPartNum_spec
  IsEdmEnableOddBurn_spec IsEdmControlMountEnabled_spec : spec.
