(* ===== verification/SafetyMount.v ===== *)
(** * The service's operations keep the invariant: events, mount, unmount, repair, format

    The path, the flags and the options of every mount request, and the state of
    every volume written back to the table. *)
From S2P Require Import Prelude CppString Types State Utils Json BlockInfo World Adapters DmQuery Events DmMount.
From S2P Require Import DmPartition DmOptical SysfsReader Bootstrap Provider Paths Safety SafetyDm.

Section safety.
Context {E St : Type} {EV : Env E} {PS : PathStore St} {PL : PathStoreLaws St} {JT : JsonText} {RL : Rely E}.
Notation M := (State (World E St)).
Notation spec := (@spec E St PS PL).

(** ** Events *)
Lemma SetMountedEventParams_spec v : spec (SetMountedEventParams v) (fun _ => True).
Proof. unfold SetMountedEventParams. spec_auto. Qed.
#[local] Hint Resolve SetMountedEventParams_spec : spec.
Lemma PublishVolumeChange_spec lk s v : spec (PublishVolumeChange lk s v) (fun _ => True).
Proof. unfold PublishVolumeChange. destruct (STATE_INFOS s); destruct s; spec_auto. Qed.
Lemma PublishVolumeResult_spec lk s v : spec (PublishVolumeResult lk s v) (fun _ => True).
Proof. unfold PublishVolumeResult. spec_auto. Qed.
Lemma PublishVolumeAbnormal_spec v r : spec (PublishVolumeAbnormal v r) (fun _ => True).
Proof. unfold PublishVolumeAbnormal. spec_auto. Qed.
Lemma PublishDiskAbnormal_spec d r : spec (PublishDiskAbnormal d r) (fun _ => True).
Proof. unfold PublishDiskAbnormal. spec_auto. Qed.
Lemma PublishDiskChange_spec k d : spec (PublishDiskChange k d) (fun _ => True).
Proof. unfold PublishDiskChange. spec_auto. Qed.
#[local] Hint Resolve PublishVolumeChange_spec PublishVolumeResult_spec PublishVolumeAbnormal_spec PublishDiskAbnormal_spec PublishDiskChange_spec : spec.

(** ** Paths and flags of mounts *)
Definition data_path (p : string) : Prop := p = "" \/ mount_target p.
Lemma path_opt_data o : path_opt o -> data_path (match o with Some p => p | None => "" end).
Proof. intros H. destruct o as [p|]; [right; left; by apply H|by left]. Qed.
#[local] Hint Resolve path_opt_data : spec.

Lemma ReadPersistUsbReadonlyMountFlagBits_spec b :
  spec (ReadPersistUsbReadonlyMountFlagBits b) (fun f => f = 0 \/ f = MS_RDONLY).
Proof. unfold ReadPersistUsbReadonlyMountFlagBits. spec_auto; auto. Qed.
Lemma ResolveVoldataMountPath_spec u : spec (ResolveVoldataMountPath u) (fun r => data_path r.1).
Proof.
  unfold ResolveVoldataMountPath. spec_auto; try by left.
  right. left. auto.
Qed.
Lemma ResolveQueryUsbIsInUseMountPath_spec v b : spec (ResolveQueryUsbIsInUseMountPath v b) (fun _ => True).
Proof. unfold ResolveQueryUsbIsInUseMountPath. spec_auto. Qed.
Lemma UpdateVoldataMappingAfterFormat_spec d o n f : spec (UpdateVoldataMappingAfterFormat d o n f) (fun _ => True).
Proof. unfold UpdateVoldataMappingAfterFormat. spec_auto. Qed.
Lemma ComputeVolumeMountPolicy_spec d f : spec (ComputeVolumeMountPolicy d f) (fun _ => True).
Proof. unfold ComputeVolumeMountPolicy. spec_auto. Qed.
#[local] Hint Resolve ReadPersistUsbReadonlyMountFlagBits_spec ResolveVoldataMountPath_spec ResolveQueryUsbIsInUseMountPath_spec
  UpdateVoldataMappingAfterFormat_spec ComputeVolumeMountPolicy_spec : spec.
Lemma BuildMountDataPath_spec p u : checked_uuid u -> spec (BuildMountDataPath p u) (fun r => data_path r.1).
Proof. intros. unfold BuildMountDataPath. spec_auto; right; (apply mount_target_root; [unfold mount_roots; set_solver|done]). Qed.
#[local] Hint Resolve BuildMountDataPath_spec : spec.

(** The volume, and a uuid that passed the check unless an error is returned. *)
Definition uuid_ready (id : string) (r : Z * VolumeExternal * string) : Prop :=
  good_at id r.1.2 /\ (r.1.1 = E_OK -> checked_uuid r.2).
Lemma EnsureFsUuidReady_spec id v : good_at id v -> spec (EnsureFsUuidReady v) (uuid_ready id).
Proof.
  intros. unfold EnsureFsUuidReady. spec_auto; (split; [at_tac|cbn [fst snd]; try done]); intros; bsimp.
  - by apply IsUuidValid_checked.
  - done.
  - by apply DedupFsUuid_checked.
Qed.
Lemma MountUsbFuseIfNeeded_spec v f u b : spec (MountUsbFuseIfNeeded v f u b) (fun _ => True).
Proof. unfold MountUsbFuseIfNeeded. spec_auto. bsimp. split; [by apply fuse_mount_confined|by exists u]. Qed.
Lemma RollbackFuseMount_spec v u : spec (RollbackFuseMount v u) (fun _ => True).
Proof. unfold RollbackFuseMount. spec_auto. Qed.
Lemma UnmountVolumeMountPoints_spec v b : spec (UnmountVolumeMountPoints v b) (fun _ => True).
Proof. unfold UnmountVolumeMountPoints. spec_auto. Qed.
Lemma ResolveUnmountForceFlag_spec v b : spec (ResolveUnmountForceFlag v b) (fun _ => True).
Proof. unfold ResolveUnmountForceFlag. spec_auto. Qed.
Lemma MarkVolumeAbnormal_spec v r : spec (MarkVolumeAbnormal v r) (fun _ => True).
Proof. unfold MarkVolumeAbnormal. spec_auto. Qed.
Lemma MountVolumeSetPath_spec v p : spec (MountVolumeSetPath v p) (fun _ => True).
Proof. unfold MountVolumeSetPath. spec_auto. Qed.
#[local] Hint Resolve EnsureFsUuidReady_spec MountUsbFuseIfNeeded_spec RollbackFuseMount_spec UnmountVolumeMountPoints_spec
  ResolveUnmountForceFlag_spec MarkVolumeAbnormal_spec MountVolumeSetPath_spec : spec.
Lemma undo_data_mount_spec v p : spec (undo_data_mount v p) (fun _ => True).
Proof. unfold undo_data_mount. spec_auto. Qed.
#[local] Hint Resolve undo_data_mount_spec : spec.

(** ** Mount *)
Lemma data_mount_flags_safe b f u p : b = 0 \/ b = MS_RDONLY ->
  data_mount_flags b f u p = 0 \/ data_mount_flags b f u p = MS_RDONLY \/ data_mount_flags b f u p = HMFS_FLAG.
Proof. unfold data_mount_flags. intros [-> | ->]; repeat case_match; auto. Qed.
Lemma BuildMountDataOptions_safe b : BuildMountDataOptions b = "" \/ BuildMountDataOptions b = "bb_retry".
Proof. destruct b; auto. Qed.

Lemma data_path_nonempty p : data_path p -> str_empty p = false -> mount_target p.
Proof. by intros [-> | ?]. Qed.

Lemma ExecuteVolumeDataMount_spec id v f p :
  good_at id v -> mount_target (mdp_dataMountPath p) ->
  spec (ExecuteVolumeDataMount v f p) (fun r => good_at id r.2).
Proof.
  intros. unfold ExecuteVolumeDataMount. spec_auto.
  split; [done|]. split; [by apply mount_target_confined|].
  split; [by apply data_mount_flags_safe|apply BuildMountDataOptions_safe].
Qed.
Lemma MountVolumeFilesystem_spec id v f u b : good_at id v -> checked_uuid u -> spec (MountVolumeFilesystem v f u b) (fun r => good_at id r.2).
Proof.
  intros. unfold MountVolumeFilesystem. spec_auto. apply ExecuteVolumeDataMount_spec; [at_tac|by apply data_path_nonempty].
Qed.
#[local] Hint Resolve MountVolumeFilesystem_spec : spec.
Lemma set_state_both_spec id i s v : good_at id v -> spec (set_state_both i s v) (good_at id).
Proof. intros. unfold set_state_both. spec_auto. Qed.
#[local] Hint Resolve set_state_both_spec : spec.
Lemma check_before_mount_spec id v i f : good_at id v -> spec (check_before_mount v i f) (fun r => good_at id r.2).
Proof. intros. unfold check_before_mount. spec_auto. Qed.
#[local] Hint Resolve check_before_mount_spec : spec.
Lemma MountVolumeEntry_spec id v i b : good_at id v -> spec (MountVolumeEntry v i b) (fun r => good_at id r.2).
Proof.
  intros. unfold MountVolumeEntry. eapply spec_bind; [by apply EnsureFsUuidReady_spec|].
  intros [[err v'] u] [Hat Hu]. cbn [fst snd] in *. destruct (err =? E_OK) eqn:He; cbn [negb]; [|by spec_auto].
  bsimp. specialize (Hu He). spec_auto.
Qed.
#[local] Hint Resolve MountVolumeEntry_spec : spec.

Lemma InitVolume_spec id v p :
  good_at id v ->
  spec (InitVolume v p) (fun r => good_at id r.2 /\ (r.1 = E_OK -> mount_target (vol_path r.2))).
Proof.
  intros. unfold InitVolume. spec_auto; split; try at_tac.
  - by intros ->.
  - done.
  - intros _. bsimp. apply mount_target_root; [unfold mount_roots; set_solver|by apply IsUuidValid_checked].
Qed.
#[local] Hint Resolve InitVolume_spec : spec.
Lemma InitAndMountVolume_spec id v p f :
  good_at id v -> f = 0 \/ f = MS_RDONLY \/ f = HMFS_FLAG -> spec (InitAndMountVolume v p f) (fun r => good_at id r.2).
Proof.
  intros. unfold InitAndMountVolume. spec_auto. bsimp. assert (Hp : mount_target (vol_path v0)) by auto.
  split; [done|]. split; [by apply mount_target_confined|by auto].
Qed.
#[local] Hint Resolve InitAndMountVolume_spec : spec.
Lemma rdonly_flags_safe (b : bool) f : f = 0 \/ f = MS_RDONLY ->
  (if b then Z.lor f MS_RDONLY else f) = 0 \/ (if b then Z.lor f MS_RDONLY else f) = MS_RDONLY \/
  (if b then Z.lor f MS_RDONLY else f) = HMFS_FLAG.
Proof. intros [-> | ->]; destruct b; auto. Qed.
#[local] Hint Resolve rdonly_flags_safe : spec.
Lemma MountVolumeByPath_spec d p m : spec (MountVolumeByPath d p m) (fun _ => True).
Proof.
  unfold MountVolumeByPath. spec_auto.
Qed.
#[local] Hint Resolve MountVolumeByPath_spec : spec.
Lemma Mount_safe v p : spec (Mount v p) (fun _ => True).
Proof. unfold Mount. spec_auto. Qed.

(** ** Unmount *)
Lemma SaveVolumeFreeSize_spec id v : good_at id v -> spec (SaveVolumeFreeSize v) (good_at id).
Proof. intros. unfold SaveVolumeFreeSize. spec_auto. Qed.
Lemma NotifyVolumeEjecting_spec id i v r :
  good_at id v -> spec (NotifyVolumeEjecting i v r) (fun q => valid_state q.1 /\ good_at id q.2).
Proof. intros. unfold NotifyVolumeEjecting. spec_auto. split; [apply Hgood|at_tac]. Qed.
Lemma RestoreVolumeState_spec id i v s : good_at id v -> valid_state s -> spec (RestoreVolumeState i v s) (good_at id).
Proof. intros. unfold RestoreVolumeState. spec_auto. Qed.
#[local] Hint Resolve SaveVolumeFreeSize_spec NotifyVolumeEjecting_spec RestoreVolumeState_spec : spec.
Lemma DoUnmountVolume_spec v b : vol_good v -> spec (DoUnmountVolume v b) (fun _ => True).
Proof. intros. unfold DoUnmountVolume. spec_auto. Qed.
#[local] Hint Resolve DoUnmountVolume_spec : spec.
Lemma Unmount_safe v : spec (Unmount v) (fun _ => True).
Proof. unfold Unmount. spec_auto. Qed.
Lemma ForceUnmount_safe v : spec (ForceUnmount v) (fun _ => True).
Proof. unfold ForceUnmount. spec_auto. Qed.
Lemma UmountVolumeByPath_spec d p : spec (UmountVolumeByPath d p) (fun _ => True).
Proof. unfold UmountVolumeByPath. spec_auto. Qed.

(** ** Format *)
Lemma PublishFormatFailEvent_spec v : spec (PublishFormatFailEvent v) (fun _ => True).
Proof. unfold PublishFormatFailEvent. spec_auto. Qed.
Lemma UpdateVolumeAfterFormat_spec v f d o p : spec (UpdateVolumeAfterFormat v f d o p) (fun _ => True).
Proof. unfold UpdateVolumeAfterFormat. spec_auto. Qed.
#[local] Hint Resolve PublishFormatFailEvent_spec UpdateVolumeAfterFormat_spec : spec.
Lemma Format_safe v f : spec (Format v f) (fun _ => True).
Proof. unfold Format. spec_auto. Qed.

(** ** Repair *)
Lemma RepairAndCheckVolume_spec id v i : good_at id v -> spec (RepairAndCheckVolume v i) (fun r => good_at id r.2).
Proof. intros. unfold RepairAndCheckVolume. spec_auto. Qed.
Lemma unmount_for_fix_spec id v i : good_at id v -> spec (unmount_for_fix v i) (fun r => good_at id r.2).
Proof. intros. unfold unmount_for_fix. spec_auto. Qed.
#[local] Hint Resolve RepairAndCheckVolume_spec unmount_for_fix_spec : spec.
Lemma TryToFix_spec v : spec (TryToFix v) (fun _ => True).
Proof. unfold TryToFix. spec_auto. Qed.
Lemma SetVolumeDescription_spec u d : spec (SetVolumeDescription u d) (fun _ => True).
Proof. unfold SetVolumeDescription. spec_auto. Qed.
Lemma remove_mappings_spec l r : spec (remove_mappings l r) (fun _ => True).
Proof. revert r. induction l as [|u l IH]; intros r; cbn [remove_mappings]; spec_auto. Qed.
#[local] Hint Resolve remove_mappings_spec : spec.
Lemma PurgeVolumesForDisk_safe d : spec (PurgeVolumesForDisk d) (fun _ => True).
Proof. unfold PurgeVolumesForDisk. spec_auto. Qed.
Lemma NotifyMtpMounted_spec i p d u f : id_plain i -> spec (NotifyMtpMounted i p d u f) (fun _ => True).
Proof. intros. unfold NotifyMtpMounted. spec_auto. Qed.
Lemma NotifyMtpUnmounted_spec i b : spec (NotifyMtpUnmounted i b) (fun _ => True).
Proof. unfold NotifyMtpUnmounted. spec_auto. Qed.
End safety.
#[export] Hint Resolve SetMountedEventParams_spec PublishVolumeChange_spec PublishVolumeResult_spec PublishVolumeAbnormal_spec
  PublishDiskAbnormal_spec PublishDiskChange_spec ReadPersistUsbReadonlyMountFlagBits_spec
  ResolveVoldataMountPath_spec ResolveQueryUsbIsInUseMountPath_spec UpdateVoldataMappingAfterFormat_spec
  ComputeVolumeMountPolicy_spec BuildMountDataPath_spec EnsureFsUuidReady_spec MountUsbFuseIfNeeded_spec
  RollbackFuseMount_spec UnmountVolumeMountPoints_spec ResolveUnmountForceFlag_spec MarkVolumeAbnormal_spec
  MountVolumeSetPath_spec undo_data_mount_spec ExecuteVolumeDataMount_spec MountVolumeFilesystem_spec
  set_state_both_spec check_before_mount_spec MountVolumeEntry_spec InitVolume_spec InitAndMountVolume_spec
  MountVolumeByPath_spec Mount_safe SaveVolumeFreeSize_spec NotifyVolumeEjecting_spec RestoreVolumeState_spec
  DoUnmountVolume_spec Unmount_safe ForceUnmount_safe UmountVolumeByPath_spec PublishFormatFailEvent_spec
  UpdateVolumeAfterFormat_spec Format_safe RepairAndCheckVolume_spec unmount_for_fix_spec TryToFix_spec
  SetVolumeDescription_spec remove_mappings_spec PurgeVolumesForDisk_safe NotifyMtpMounted_spec
  NotifyMtpUnmounted_spec : spec.
