(* ===== verification/SafetyPart.v ===== *)
(** * The service's operations keep the invariant: partitions and optical discs

    What a parsed table gives for the sector size, the alignment and the partition
    numbers, and the arguments of every partition and disc request. *)
From S2P Require Import Prelude CppString Types State Utils Json BlockInfo World Adapters DmQuery Events DmMount.
From S2P Require Import DmPartition DmOptical SysfsReader Bootstrap Provider Paths Safety SafetyDm SafetyMount.

(** ** Parsing *)
Lemma ConvertStringToInt32_bound s n : ConvertStringToInt32 s = Some n -> 1 <= n < INT32_MAX.
Proof.
  unfold ConvertStringToInt32. destruct s as [|c ds]; [done|]. case_test; [done|].
  destruct (strtoll10 _) as [[[v e] rest]|]; [|done]. repeat case_test; [done|done|]. intros [= <-]. bsimp.
  rewrite i32_id; [lia|]. unfold_ints. lia.
Qed.
Lemma SetSectorSize_good c i i' : SetSectorSize c i = Some i' ->
  1 <= pti_sectorSize i' < INT32_MAX /\ pti_alignSector i' = pti_alignSector i /\ pti_partitions i' = pti_partitions i.
Proof.
  unfold SetSectorSize. destruct (first_line _ c) as [t|]; cbn; [|done]. destruct (regex_search _ t) as [r|]; cbn; [|done].
  destruct (ConvertStringToInt32 r) as [n|] eqn:H; cbn; [|done]. intros [= <-]. apply ConvertStringToInt32_bound in H. done.
Qed.
Lemma SetAlignSector_good c i i' : SetAlignSector c i = Some i' ->
  1 <= pti_alignSector i' < INT32_MAX /\ pti_sectorSize i' = pti_sectorSize i /\ pti_partitions i' = pti_partitions i.
Proof.
  unfold SetAlignSector. destruct (first_line _ c) as [t|]; cbn; [|done]. destruct (regex_search _ t) as [r|]; cbn; [|done].
  destruct (ConvertStringToInt32 r) as [n|] eqn:H; cbn; [|done]. intros [= <-]. apply ConvertStringToInt32_bound in H. done.
Qed.
Lemma SetUsableSector_good c i i' : SetUsableSector c i = Some i' ->
  pti_alignSector i' = pti_alignSector i /\ pti_sectorSize i' = pti_sectorSize i /\ pti_partitions i' = pti_partitions i.
Proof.
  unfold SetUsableSector. destruct (first_line _ c) as [t|]; cbn; [|done]. destruct (regex_search _ t) as [r|]; cbn; [|done].
  destruct (ConvertStringToInt r) as [n|]; cbn; [|done]. by intros [= <-].
Qed.
Lemma ParsePartitionInfo_num b i i' : ParsePartitionInfo b i = Some i' -> 1 <= pi_partitionNum i' < INT32_MAX.
Proof.
  unfold ParsePartitionInfo. destruct (str_empty b); [done|]. destruct (next_item _ _) as [it ws].
  destruct (str_empty it); [done|]. destruct (ConvertStringToInt32 it) as [n|] eqn:H; cbn; [|done].
  apply ConvertStringToInt32_bound in H. destruct (next_item _ ws) as [it2 ws2]. destruct (str_empty it2); [done|].
  destruct (ConvertStringToInt it2) as [a|]; cbn; [|done]. destruct (next_item _ ws2) as [it3 ws3].
  destruct (str_empty it3); [done|]. destruct (ConvertStringToInt it3) as [z|]; cbn; [|done]. by intros [= <-].
Qed.
Lemma IsParamsValid_start p i : table_good i -> IsParamsValid p i = true -> 1 <= pp_startSector p /\ 1 <= pp_endSector p.
Proof.
  intros (_ & Ha & _). unfold IsParamsValid. repeat case_test; try done. bsimp. lia.
Qed.
Lemma typeCodeMap_code t c : typeCodeMap !! t = Some c -> c = "0x0700" \/ c = "0x8300".
Proof. intros H%elem_of_list_to_map_2. repeat (apply elem_of_cons in H as [[= -> ->]|H]; [auto|]). by apply elem_of_nil in H. Qed.

Section safety.
Context {E St : Type} {EV : Env E} {PS : PathStore St} {PL : PathStoreLaws St} {JT : JsonText} {RL : Rely E}.
Notation M := (State (World E St)).
Notation spec := (@spec E St PS PL).

Lemma tables_ok_lookup m k t : tables_ok m -> m !! k = Some t -> table_good t.
Proof. intros H Hk. by apply (H _ _ Hk). Qed.

Lemma AddPartitioningDisk_spec d : spec (AddPartitioningDisk d) (fun _ => True).
Proof. unfold AddPartitioningDisk. spec_auto. Qed.
Lemma RemovePartitioningDisk_spec d : spec (RemovePartitioningDisk d) (fun _ => True).
Proof. unfold RemovePartitioningDisk. spec_auto. Qed.
Lemma IsPartitioning_spec d : spec (IsPartitioning d) (fun _ => True).
Proof. unfold IsPartitioning. spec_auto. Qed.
Lemma NotifyPartitionDone_spec d : spec (NotifyPartitionDone d) (fun _ => True).
Proof. unfold NotifyPartitionDone. spec_auto. Qed.
Lemma partitionDone_at_spec d : spec (partitionDone_at d) (fun _ => True).
Proof. unfold partitionDone_at. spec_auto. Qed.
#[local] Hint Resolve AddPartitioningDisk_spec RemovePartitioningDisk_spec IsPartitioning_spec NotifyPartitionDone_spec
  partitionDone_at_spec : spec.
Lemma wait_loop_spec n d : spec (wait_loop n d) (fun _ => True).
Proof. induction n as [|n IH]; cbn [wait_loop]; spec_auto. Qed.
#[local] Hint Resolve wait_loop_spec : spec.
Lemma WaitForPartitionDone_spec d : spec (WaitForPartitionDone d) (fun _ => True).
Proof. unfold WaitForPartitionDone. spec_auto. Qed.
#[local] Hint Resolve WaitForPartitionDone_spec : spec.

Definition nums_good (l : list PartitionInfo) : Prop := Forall (fun p => 1 <= pi_partitionNum p < INT32_MAX) l.
Lemma nums_good_default : nums_good (pti_partitions PartitionTableInfo_default).
Proof. constructor. Qed.
Lemma collect_partitions_spec rows t : spec (collect_partitions rows t) nums_good.
Proof.
  induction rows as [|b rows IH]; cbn [collect_partitions]; spec_auto; [by constructor|].
  constructor; [cbn [pi_partitionNum PI_SetFsType PI_SetSizeBytes]; by eapply ParsePartitionInfo_num|done].
Qed.
#[local] Hint Resolve collect_partitions_spec : spec.
Lemma SetPartitions_spec c t : table_good t -> spec (SetPartitions c t) (fun t' => table_good t' /\ pti_diskId t' = pti_diskId t).
Proof. intros (? & ? & ?). unfold SetPartitions. spec_auto; done. Qed.
Lemma GetPartitionTable_spec d i : nums_good (pti_partitions i) -> spec (GetPartitionTable d i) (fun _ => True).
Proof.
  intros Hn. unfold GetPartitionTable. spec_auto.
  match goal with H1 : SetSectorSize _ _ = Some _, H2 : SetAlignSector _ _ = Some _, H3 : SetUsableSector _ _ = Some _ |- _ =>
    apply SetSectorSize_good in H1 as (? & ? & Hp1); apply SetAlignSector_good in H2 as (? & Hs2 & Hp2);
    apply SetUsableSector_good in H3 as (Ha3 & Hs3 & Hp3) end.
  eapply spec_bind; [apply SetPartitions_spec|].
  { split; [|split]; cbn; [by rewrite Hs3, Hs2|by rewrite Ha3|]. rewrite Hp3, Hp2, Hp1. done. }
  intros info (Hg & Hd). cbn in Hd. eapply spec_bind; [apply spec_set_tables; intros m Hm|spec_auto].
  by apply map_Forall_insert_2.
Qed.
#[local] Hint Resolve GetPartitionTable_spec : spec.

Lemma CreatePartition_spec d p :
  0 < pp_partitionNum p -> pp_startSector p < pp_endSector p -> spec (CreatePartition d p) (fun _ => True).
Proof.
  intros. unfold CreatePartition. spec_auto.
  match goal with H : IsParamsValid _ _ = true |- _ => idtac | H : negb (IsParamsValid _ _) = false |- _ =>
    apply negb_false_iff, IsParamsValid_start in H; [|by eapply tables_ok_lookup] end.
  cbn [req_safe]. split; [done|]. split; [lia|]. by eapply typeCodeMap_code.
Qed.
Lemma DestroyVolumeByDiskIdAndPartNum_spec d n : spec (DestroyVolumeByDiskIdAndPartNum d n) (fun _ => True).
Proof. unfold DestroyVolumeByDiskIdAndPartNum. spec_auto. Qed.
#[local] Hint Resolve DestroyVolumeByDiskIdAndPartNum_spec : spec.
Lemma DeletePartition_spec d n : IsDiskIdValid d = true -> 0 < n -> spec (DeletePartition d n) (fun _ => True).
Proof. intros. unfold DeletePartition. spec_auto. Qed.
Lemma RefreshVolumeAfterFormatPartition_spec v f d : spec (RefreshVolumeAfterFormatPartition v f d) (fun _ => True).
Proof. unfold RefreshVolumeAfterFormatPartition. spec_auto. Qed.
#[local] Hint Resolve RefreshVolumeAfterFormatPartition_spec : spec.
Lemma FormatPartition_spec d n p : fp_quickFormat p = true -> spec (FormatPartition d n p) (fun _ => True).
Proof.
  intros. unfold FormatPartition. spec_auto. cbn [req_safe]. split; [|done].
  repeat match goal with H : (if ?b then _ else _) = Some _ |- _ => destruct b eqn:?; [clear H|] end; bsimp; [auto| |done].
  destruct_or!; auto.
Qed.

(** ** Optical discs *)
Lemma ReportBurnSecurityInfo_spec u a f e : spec (ReportBurnSecurityInfo u a f e) (fun _ => True).
Proof. unfold ReportBurnSecurityInfo. spec_auto. Qed.
Lemma Eject_spec d : spec (Eject d) (fun _ => True).
Proof. unfold Eject. spec_auto. Qed.
#[local] Hint Resolve ReportBurnSecurityInfo_spec Eject_spec : spec.
Lemma Erase_spec v : spec (Erase v) (fun _ => True).
Proof. unfold Erase. spec_auto. Qed.
Lemma CreateIsoImage_spec v f : IsFilePathInvalid f = false -> spec (CreateIsoImage v f) (fun _ => True).
Proof. intros. unfold CreateIsoImage. spec_auto. Qed.
Lemma PrepareBurn_spec v o u : spec (PrepareBurn v o u) (fun r => r.1.1 = E_OK -> IsOddFsType r.2 = true).
Proof. unfold PrepareBurn. spec_auto; bsimp; done. Qed.
#[local] Hint Resolve PrepareBurn_spec : spec.
Lemma Burn_spec v o c u : ValidateBurnOptionsSubfields o = true -> spec (Burn v o c u) (fun _ => True).
Proof. intros. unfold Burn. spec_auto. split; [bsimp; auto|done]. Qed.
Lemma GetVolumeOpProcess_spec v p : spec (GetVolumeOpProcess v p) (fun _ => True).
Proof. unfold GetVolumeOpProcess. spec_auto. Qed.

(** ** Loop and dm-crypt devices *)
Lemma IsVolumeBind_spec d o s : spec (IsVolumeBind d o s) (fun _ => True).
Proof. unfold IsVolumeBind. spec_auto. Qed.
#[local] Hint Resolve IsVolumeBind_spec : spec.
Lemma BindBlockLoopDev_spec d o s : spec (BindBlockLoopDev d o s) (fun _ => True).
Proof. unfold BindBlockLoopDev. spec_auto. Qed.
Lemma CreateDmCryptVolume_spec p l m : spec (CreateDmCryptVolume p l m) (fun _ => True).
Proof. unfold CreateDmCryptVolume. spec_auto. Qed.
Lemma DestroyDmCryptVolume_spec m : spec (DestroyDmCryptVolume m) (fun _ => True).
Proof.
  unfold DestroyDmCryptVolume. spec_auto. destruct (find_if _ _) as [[k v]|] eqn:Hf; [|done].
  apply find_if_Some in Hf as [Hf%elem_of_sorted_entries _]. vols_tac.
Qed.
Lemma UnbindBlockLoopDev_spec l : spec (UnbindBlockLoopDev l) (fun _ => True).
Proof. unfold UnbindBlockLoopDev. spec_auto. Qed.
End safety.
#[export] Hint Resolve nums_good_default AddPartitioningDisk_spec RemovePartitioningDisk_spec IsPartitioning_spec NotifyPartitionDone_spec
  partitionDone_at_spec wait_loop_spec WaitForPartitionDone_spec collect_partitions_spec SetPartitions_spec
  GetPartitionTable_spec CreatePartition_spec DestroyVolumeByDiskIdAndPartNum_spec DeletePartition_spec
  RefreshVolumeAfterFormatPartition_spec FormatPartition_spec ReportBurnSecurityInfo_spec Eject_spec Erase_spec
  CreateIsoImage_spec PrepareBurn_spec Burn_spec GetVolumeOpProcess_spec IsVolumeBind_spec BindBlockLoopDev_spec
  CreateDmCryptVolume_spec DestroyDmCryptVolume_spec UnbindBlockLoopDev_spec : spec.
