(* ===== verification/SafetyBoot.v ===== *)
(** * The service's operations keep the invariant: discovery

    What a kernel event leads to: the device nodes created and destroyed are below
    [/dev/block/], and every disk added is classified. *)
From S2P Require Import Prelude CppString Types State Utils Uevent PartitionTable Json BlockInfo World Adapters.
From S2P Require Import DmQuery Events DmMount DmPartition DmOptical SysfsReader Bootstrap Provider Paths Safety.
From S2P Require Import SafetyDm SafetyMount SafetyPart.

Lemma new_disk_good {JT : JsonText} env i t f u k l b : disk_good (new_disk env i t f u k l b).
Proof. apply RefreshClassification_good. Qed.
#[export] Hint Resolve new_disk_good : spec.
#[export] Hint Extern 1 (node_path _) => node_tac : spec.
Lemma NormalizeDiskBlockPath_node d : IsDiskIdValid d = true -> node_path (NormalizeDiskBlockPath d).
Proof.
  intros Hd. replace (NormalizeDiskBlockPath d) with (dev_block d); [by apply node_path_dev_block, IsDiskIdValid_plain|].
  apply IsDiskIdValid_spec in Hd as (a & b & -> & _). unfold NormalizeDiskBlockPath.
  change (starts_with DEV_BLOCK_PREFIX ("disk-" +:+ a +:+ "-" +:+ b)) with false. by rewrite andb_false_r.
Qed.

Section safety.
Context {E St : Type} {EV : Env E} {PS : PathStore St} {PL : PathStoreLaws St} {JT : JsonText} {RL : Rely E}.
Notation M := (State (World E St)).
Notation spec := (@spec E St PS PL).

(** ** Attributes and configuration *)
Lemma ReadSysfsFile_spec p : spec (ReadSysfsFile p) (fun _ => True).
Proof. unfold ReadSysfsFile. spec_auto. Qed.
Lemma ReadSubsystemSymlink_spec p : spec (ReadSubsystemSymlink p) (fun _ => True).
Proof. unfold ReadSubsystemSymlink. spec_auto. Qed.
Lemma ReadUeventField_spec p f : spec (ReadUeventField p f) (fun _ => True).
Proof. unfold ReadUeventField. spec_auto. Qed.
Lemma HasUeventFile_spec p : spec (HasUeventFile p) (fun _ => True).
Proof. unfold HasUeventFile. spec_auto. Qed.
#[local] Hint Resolve ReadSysfsFile_spec ReadSubsystemSymlink_spec ReadUeventField_spec HasUeventFile_spec : spec.
Lemma is_usb_device_spec p : spec (is_usb_device p) (fun _ => True).
Proof. unfold is_usb_device. spec_auto. Qed.
#[local] Hint Resolve is_usb_device_spec : spec.
Lemma walk_up_spec n p : spec (walk_up n p) (fun _ => True).
Proof. revert p. induction n as [|n IH]; intros p; cbn [walk_up]; spec_auto. Qed.
#[local] Hint Resolve walk_up_spec : spec.
Lemma ReadUsbInfo_spec p d : spec (ReadUsbInfo p d) (fun _ => True).
Proof. unfold ReadUsbInfo, WalkUpAndReadUsbAttrs. spec_auto. Qed.
Lemma ParasConfigFile_spec p : spec (ParasConfigFile p) (fun _ => True).
Proof. unfold ParasConfigFile. spec_auto. Qed.
Lemma IsMatch_spec c p : spec (IsMatch c p) (fun _ => True).
Proof. unfold IsMatch. spec_auto. Qed.
#[local] Hint Resolve ReadUsbInfo_spec ParasConfigFile_spec IsMatch_spec : spec.
Lemma Bootstrap_Init_spec : spec Bootstrap_Init (fun _ => True).
Proof. unfold Bootstrap_Init, ParasConfig. spec_auto. Qed.
Lemma MatchConfig_spec e : spec (MatchConfig e) (fun _ => True).
Proof.
  unfold MatchConfig. spec_auto. eapply spec_bind; [apply spec_for_until; intros x _|]; spec_auto.
Qed.
#[local] Hint Resolve Bootstrap_Init_spec MatchConfig_spec : spec.
Lemma ResolveInitialDiskFlag_spec e : spec (ResolveInitialDiskFlag e) (fun _ => True).
Proof. unfold ResolveInitialDiskFlag. spec_auto. Qed.
#[local] Hint Resolve ResolveInitialDiskFlag_spec : spec.

(** ** Removal *)
Lemma destroy_volume_spec v : vol_good v -> spec (destroy_volume v) (fun _ => True).
Proof. intros. unfold destroy_volume, BlockPathForId. spec_auto. Qed.
#[local] Hint Resolve destroy_volume_spec : spec.
Lemma DestroyALLVolume_spec d : spec (DestroyALLVolume d) (fun _ => True).
Proof.
  unfold DestroyALLVolume. eapply spec_bind; [apply GetAllVolumes_spec|]. intros vols Hv.
  eapply spec_bind; [apply spec_yield|]. intros [] _.
  apply spec_for. intros v [Hin Hf]%list_elem_of_In%filter_In. apply destroy_volume_spec. bsimp.
  rewrite Forall_forall in Hv. apply list_elem_of_In in Hin. by destruct (Hv v Hin).
Qed.
Lemma DestroyALLDisk_spec d : id_plain d -> spec (DestroyALLDisk d) (fun _ => True).
Proof. intros. unfold DestroyALLDisk, BlockPathForId. spec_auto. Qed.
#[local] Hint Resolve DestroyALLVolume_spec DestroyALLDisk_spec : spec.

(** ** Disks and volumes *)
Lemma BuildAndSyncPartitions_spec e d p :
  node_path p -> spec (BuildAndSyncPartitions e d p) (fun _ => True).
Proof. intros. unfold BuildAndSyncPartitions. spec_auto. Qed.
Lemma UpsertDiskAndPublishEvent_spec e d b t : spec (UpsertDiskAndPublishEvent e d b t) (fun _ => True).
Proof. unfold UpsertDiskAndPublishEvent. spec_auto. Qed.
Lemma GetMaxMinor_spec m : spec (GetMaxMinor m) (fun _ => True).
Proof.
  unfold GetMaxMinor. spec_auto. generalize (-1). induction (an_strs a) as [|n ns IH]; intros z; spec_auto.
Qed.
Lemma IsInternalDataDiskById_spec d : spec (IsInternalDataDiskById d) (fun _ => True).
Proof. unfold IsInternalDataDiskById. spec_auto. Qed.
Lemma TryLoadBlockInfoForVolume_spec d : spec (TryLoadBlockInfoForVolume d) (fun _ => True).
Proof. unfold TryLoadBlockInfoForVolume. spec_auto. Qed.
#[local] Hint Resolve BuildAndSyncPartitions_spec UpsertDiskAndPublishEvent_spec GetMaxMinor_spec IsInternalDataDiskById_spec
  TryLoadBlockInfoForVolume_spec : spec.
Lemma CreateAndSetupVolume_spec d p u n : spec (CreateAndSetupVolume d p u n) (fun _ => True).
Proof. unfold CreateAndSetupVolume, BlockPathForId. spec_auto. Qed.
Lemma ReadAndUpdateMetadata_spec v p : spec (ReadAndUpdateMetadata v p) (fun _ => True).
Proof. unfold ReadAndUpdateMetadata. spec_auto. Qed.
Lemma EvaluateVolumeMetadataAbnormal_spec v b u t e : spec (EvaluateVolumeMetadataAbnormal v b u t e) (fun _ => True).
Proof. unfold EvaluateVolumeMetadataAbnormal. spec_auto. Qed.
Lemma MountDiscoveredVolume_spec v d b u t : spec (MountDiscoveredVolume v d b u t) (fun _ => True).
Proof. unfold MountDiscoveredVolume. spec_auto. Qed.
Lemma CreateDmLinearForPartition_spec d n : spec (CreateDmLinearForPartition d n) (fun _ => True).
Proof.
  unfold CreateDmLinearForPartition. spec_auto. cbn [req_safe]. split; [apply starts_with_app|]. bsimp. split; [done|lia].
Qed.
#[local] Hint Resolve CreateAndSetupVolume_spec ReadAndUpdateMetadata_spec EvaluateVolumeMetadataAbnormal_spec
  MountDiscoveredVolume_spec CreateDmLinearForPartition_spec : spec.
Lemma ResolvePartitionDev_spec e d p b : spec (ResolvePartitionDev e d p b) (fun _ => True).
Proof. unfold ResolvePartitionDev. spec_auto. Qed.
#[local] Hint Resolve ResolvePartitionDev_spec : spec.
Lemma DiscoverSinglePartitionVolume_spec e d b p : spec (DiscoverSinglePartitionVolume e d b p) (fun _ => True).
Proof. unfold DiscoverSinglePartitionVolume. spec_auto. Qed.
Lemma DiscoverWholeDiskVolume_spec e d b t : spec (DiscoverWholeDiskVolume e d b t) (fun _ => True).
Proof. unfold DiscoverWholeDiskVolume. spec_auto. Qed.
#[local] Hint Resolve DiscoverSinglePartitionVolume_spec DiscoverWholeDiskVolume_spec : spec.

(** ** Optical drives *)
Lemma QueryCdromState_spec p : spec (QueryCdromState p) (fun _ => True).
Proof. unfold QueryCdromState. spec_auto. Qed.
Lemma random_uuid_spec d : spec (random_uuid d) (fun _ => True).
Proof. unfold random_uuid. spec_auto. Qed.
#[local] Hint Resolve QueryCdromState_spec random_uuid_spec : spec.
Lemma HandleAddCD_spec e d s : spec (HandleAddCD e d s) (fun _ => True).
Proof. unfold HandleAddCD. spec_auto. Qed.
Lemma EjectAndDestroyCdrom_spec d : spec (EjectAndDestroyCdrom d) (fun _ => True).
Proof. unfold EjectAndDestroyCdrom. spec_auto. Qed.
Lemma FindMountedVolumePath_spec d : spec (FindMountedVolumePath d) (fun _ => True).
Proof. unfold FindMountedVolumePath. spec_auto. Qed.
Lemma CanEjectMountedCdrom_spec d m : spec (CanEjectMountedCdrom d m) (fun _ => True).
Proof. unfold CanEjectMountedCdrom. spec_auto. Qed.
Lemma set_cdrom_state_spec d s : spec (set_cdrom_state d s) (fun _ => True).
Proof. unfold set_cdrom_state. spec_auto. Qed.
#[local] Hint Resolve HandleAddCD_spec EjectAndDestroyCdrom_spec FindMountedVolumePath_spec CanEjectMountedCdrom_spec
  set_cdrom_state_spec : spec.
Lemma TryEjectCdrom_spec d : spec (TryEjectCdrom d) (fun _ => True).
Proof. unfold TryEjectCdrom. spec_auto. Qed.
#[local] Hint Resolve TryEjectCdrom_spec : spec.
Lemma DiscoverSinglePartitionVolume4CD_spec e d : spec (DiscoverSinglePartitionVolume4CD e d) (fun _ => True).
Proof. unfold DiscoverSinglePartitionVolume4CD. spec_auto. Qed.
#[local] Hint Resolve DiscoverSinglePartitionVolume4CD_spec : spec.
Lemma DiscoverCdromVolumes_spec e d b : id_plain d -> spec (DiscoverCdromVolumes e d b) (fun _ => True).
Proof. intros. unfold DiscoverCdromVolumes, BlockPathForId. spec_auto. Qed.
#[local] Hint Resolve DiscoverCdromVolumes_spec : spec.

(** ** Events *)
Lemma ComputePartitionDiff_safe d l : spec (ComputePartitionDiff d l) (fun _ => True).
Proof. unfold ComputePartitionDiff. spec_auto. Qed.
Lemma ClearPartitionSnapshot_spec d : spec (ClearPartitionSnapshot d) (fun _ => True).
Proof. unfold ClearPartitionSnapshot. spec_auto. Qed.
#[local] Hint Resolve ComputePartitionDiff_safe ClearPartitionSnapshot_spec : spec.
Lemma discover_all_spec e d b l : spec (sfor l (DiscoverSinglePartitionVolume e d b)) (fun _ => True).
Proof. apply spec_for. intros. apply DiscoverSinglePartitionVolume_spec. Qed.
Lemma destroy_all_spec d l :
  spec (sfor l (fun rp => let! _ := DestroyVolumeByDiskIdAndPartNum d (i32 (pr_partitionNumber rp)) in sret tt)) (fun _ => True).
Proof. apply spec_for. intros. spec_auto. Qed.
#[local] Hint Resolve discover_all_spec destroy_all_spec : spec.
Lemma DiscoverPartitionsAndVolumes_spec e b : spec (DiscoverPartitionsAndVolumes e b) (fun _ => True).
Proof. unfold DiscoverPartitionsAndVolumes, BlockPathForId. spec_auto. Qed.
#[local] Hint Resolve DiscoverPartitionsAndVolumes_spec : spec.
Lemma HandleDiskRemove_safe e : spec (HandleDiskRemove e) (fun _ => True).
Proof. unfold HandleDiskRemove. spec_auto. Qed.
Lemma HandleDiskAdd_spec e : spec (HandleDiskAdd e) (fun _ => True).
Proof. unfold HandleDiskAdd. spec_auto. Qed.
Lemma HandleDiskChange_spec e : spec (HandleDiskChange e) (fun _ => True).
Proof. unfold HandleDiskChange. spec_auto. Qed.
Lemma RediscoverDiskVolumes_spec d : spec (RediscoverDiskVolumes d) (fun _ => True).
Proof. unfold RediscoverDiskVolumes. spec_auto. Qed.
#[local] Hint Resolve HandleDiskRemove_safe HandleDiskAdd_spec HandleDiskChange_spec RediscoverDiskVolumes_spec : spec.
Lemma OnBlockDiskUevent_spec r : spec (OnBlockDiskUevent r) (fun _ => True).
Proof. unfold OnBlockDiskUevent. spec_auto. Qed.
Lemma Partition_spec d : IsDiskIdValid d = true -> spec (Partition d) (fun _ => True).
Proof. intros. unfold Partition. spec_auto. split; [by apply NormalizeDiskBlockPath_node|done]. Qed.
End safety.
#[export] Hint Resolve ReadSysfsFile_spec ReadSubsystemSymlink_spec ReadUeventField_spec HasUeventFile_spec is_usb_device_spec
  walk_up_spec ReadUsbInfo_spec ParasConfigFile_spec IsMatch_spec Bootstrap_Init_spec MatchConfig_spec
  ResolveInitialDiskFlag_spec destroy_volume_spec DestroyALLVolume_spec DestroyALLDisk_spec
  BuildAndSyncPartitions_spec UpsertDiskAndPublishEvent_spec GetMaxMinor_spec IsInternalDataDiskById_spec
  TryLoadBlockInfoForVolume_spec CreateAndSetupVolume_spec ReadAndUpdateMetadata_spec
  EvaluateVolumeMetadataAbnormal_spec MountDiscoveredVolume_spec CreateDmLinearForPartition_spec
  ResolvePartitionDev_spec DiscoverSinglePartitionVolume_spec DiscoverWholeDiskVolume_spec QueryCdromState_spec
  random_uuid_spec HandleAddCD_spec EjectAndDestroyCdrom_spec FindMountedVolumePath_spec
  CanEjectMountedCdrom_spec set_cdrom_state_spec TryEjectCdrom_spec DiscoverSinglePartitionVolume4CD_spec
  DiscoverCdromVolumes_spec ComputePartitionDiff_safe ClearPartitionSnapshot_spec discover_all_spec
  destroy_all_spec DiscoverPartitionsAndVolumes_spec HandleDiskRemove_safe HandleDiskAdd_spec
  HandleDiskChange_spec RediscoverDiskVolumes_spec OnBlockDiskUevent_spec Partition_spec : spec.
