(* ===== verification/SafetyProv.v ===== *)
(** * The service's operations keep the invariant: entry points

    The checks an entry point makes on its arguments are what the requests of the
    operation behind it need. *)
From S2P Require Import Prelude CppString Types State Utils Json BlockInfo World Adapters DmQuery Events DmMount.
From S2P Require Import DmPartition DmOptical SysfsReader Bootstrap Provider Paths Safety SafetyDm SafetyMount.
From S2P Require Import SafetyPart SafetyBoot.

Section safety.
Context {E St : Type} {EV : Env E} {PS : PathStore St} {PL : PathStoreLaws St} {JT : JsonText} {RL : Rely E}.
Context (PC_MANAGER : bool).
Notation M := (State (World E St)).
Notation spec := (@spec E St PS PL).

(** ** The caller *)
Lemma VerifyCallerPermission_spec p : spec (VerifyCallerPermission p) (fun _ => True).
Proof. unfold VerifyCallerPermission. spec_auto. Qed.
Lemma IsCallingSystemApp_spec : spec IsCallingSystemApp (fun _ => True).
Proof. unfold IsCallingSystemApp. spec_auto. Qed.
Lemma VerifyNativeCallerMatches_spec n u : spec (VerifyNativeCallerMatches n u) (fun _ => True).
Proof. unfold VerifyNativeCallerMatches. spec_auto. Qed.
Lemma Auth_GetCallingUid_spec : spec Auth_GetCallingUid (fun _ => True).
Proof. unfold Auth_GetCallingUid. spec_auto. Qed.
Lemma GetCallingBundle_spec : spec GetCallingBundleOrNativeProcessName (fun _ => True).
Proof. unfold GetCallingBundleOrNativeProcessName. spec_auto. Qed.
#[local] Hint Resolve VerifyCallerPermission_spec IsCallingSystemApp_spec VerifyNativeCallerMatches_spec Auth_GetCallingUid_spec
  GetCallingBundle_spec : spec.
Lemma GetCallingUserId_spec : spec GetCallingUserId (fun _ => True).
Proof. unfold GetCallingUserId. spec_auto. Qed.
Lemma auth_permission_spec p : spec (auth_permission p) (fun _ => True).
Proof. unfold auth_permission. spec_auto. Qed.
Lemma auth_manager_spec p : spec (auth_manager p) (fun _ => True).
Proof. unfold auth_manager, IsStorageManagerCaller. spec_auto. Qed.
Lemma auth_crypto_spec : spec auth_crypto (fun _ => True).
Proof. unfold auth_crypto. spec_auto. Qed.
#[local] Hint Resolve GetCallingUserId_spec auth_permission_spec auth_manager_spec auth_crypto_spec : spec.
Lemma guarded_spec {A} check (bad : Z -> A) k :
  spec check (fun _ => True) -> spec k (fun _ => True) -> spec (guarded check bad k) (fun _ => True).
Proof. intros. unfold guarded. eapply spec_bind; [eassumption|]. intros err _. by destruct (negb _); [apply spec_ret|]. Qed.
Lemma CheckAdminAuthorization_spec : spec CheckAdminAuthorization (fun _ => True).
Proof. unfold CheckAdminAuthorization. spec_auto. Qed.
Lemma exchange_busy_spec : spec exchange_busy (fun _ => True).
Proof. unfold exchange_busy. spec_auto. Qed.
#[local] Hint Resolve CheckAdminAuthorization_spec exchange_busy_spec : spec.
Lemma with_admin_auth_spec b op : spec op (fun _ => True) -> spec (with_admin_auth b op) (fun _ => True).
Proof. intros. unfold with_admin_auth. spec_auto. Qed.
Lemma mapped_error_spec e op : spec op (fun _ => True) -> spec (mapped_error e op) (fun _ => True).
Proof. intros. unfold mapped_error. spec_auto. Qed.
Lemma daemon_callback_spec op : spec op (fun _ => True) -> spec (daemon_callback op) (fun _ => True).
Proof.
  intros. unfold daemon_callback, BeginPendingStorageDaemonCallback, EndPendingStorageDaemonCallback, CheckStorageDaemonPermission.
  spec_auto.
Qed.
Lemma IsDataDisk_spec v : spec (IsDataDisk v) (fun _ => True).
Proof. unfold IsDataDisk. spec_auto. Qed.
Lemma IsDataDiskByDiskId_spec d : spec (IsDataDiskByDiskId d) (fun _ => True).
Proof. unfold IsDataDiskByDiskId. spec_auto. Qed.
#[local] Hint Resolve IsDataDisk_spec IsDataDiskByDiskId_spec : spec.

Ltac entry := repeat
  (lazymatch goal with
   | |- spec (guarded _ _ _) _ => apply guarded_spec; [eauto with spec|]
   | |- spec (daemon_callback _) _ => apply daemon_callback_spec
   | |- spec (with_admin_auth _ _) _ => apply with_admin_auth_spec
   | |- spec (mapped_error _ _) _ => apply mapped_error_spec
   | _ => spec_step
   end); learn.

(** ** The entry points *)
Lemma Provider_Mount_spec v p : spec (Provider_Mount v p) (fun _ => True).
Proof. unfold Provider_Mount. entry. Qed.
Lemma Provider_Unmount_spec v : spec (Provider_Unmount v) (fun _ => True).
Proof. unfold Provider_Unmount. entry. Qed.
Lemma Provider_Format_spec v f : spec (Provider_Format v f) (fun _ => True).
Proof. unfold Provider_Format. entry. Qed.
Lemma Provider_TryToFix_spec v : spec (Provider_TryToFix v) (fun _ => True).
Proof. unfold Provider_TryToFix. entry. Qed.
Lemma Provider_SetVolumeDescription_spec u d : spec (Provider_SetVolumeDescription u d) (fun _ => True).
Proof. unfold Provider_SetVolumeDescription. entry. Qed.
Lemma Provider_GetAllVolumes_spec : spec Provider_GetAllVolumes (fun _ => True).
Proof. unfold Provider_GetAllVolumes. entry. Qed.
Lemma Provider_GetVolumeByUuid_spec u : spec (Provider_GetVolumeByUuid u) (fun _ => True).
Proof. unfold Provider_GetVolumeByUuid. entry. Qed.
Lemma Provider_GetVolumeById_spec v : spec (Provider_GetVolumeById v) (fun _ => True).
Proof. unfold Provider_GetVolumeById. entry. Qed.
Lemma Provider_GetFreeSizeOfVolume_spec u : spec (Provider_GetFreeSizeOfVolume u) (fun _ => True).
Proof. unfold Provider_GetFreeSizeOfVolume. entry. Qed.
Lemma Provider_GetTotalSizeOfVolume_spec u : spec (Provider_GetTotalSizeOfVolume u) (fun _ => True).
Proof. unfold Provider_GetTotalSizeOfVolume. entry. Qed.
Lemma Provider_Partition_spec d : spec (Provider_Partition d) (fun _ => True).
Proof. unfold Provider_Partition. entry. apply Partition_spec. by bsimp. Qed.
Lemma Provider_GetAllDisks_spec : spec Provider_GetAllDisks (fun _ => True).
Proof. unfold Provider_GetAllDisks. entry. Qed.
Lemma Provider_GetDiskById_spec d : spec (Provider_GetDiskById d) (fun _ => True).
Proof. unfold Provider_GetDiskById. entry. Qed.
Lemma Provider_QueryUsbIsInUse_spec p : spec (Provider_QueryUsbIsInUse p) (fun _ => True).
Proof. unfold Provider_QueryUsbIsInUse. entry. Qed.
Lemma Provider_GetPartitionTable_spec d : spec (Provider_GetPartitionTable d) (fun _ => True).
Proof. unfold Provider_GetPartitionTable. entry. Qed.
Lemma Provider_CreatePartition_spec d p : spec (Provider_CreatePartition d p) (fun _ => True).
Proof. unfold Provider_CreatePartition. entry. apply CreatePartition_spec; bsimp; lia. Qed.
Lemma Provider_DeletePartition_spec d n : spec (Provider_DeletePartition d n) (fun _ => True).
Proof. unfold Provider_DeletePartition. entry. apply DeletePartition_spec; bsimp; [done|lia]. Qed.
Lemma Provider_FormatPartition_spec d n p : spec (Provider_FormatPartition d n p) (fun _ => True).
Proof. unfold Provider_FormatPartition. entry. apply FormatPartition_spec. by bsimp. Qed.
Lemma Provider_GetExternalDiskInfos_spec : spec Provider_GetExternalDiskInfos (fun _ => True).
Proof. unfold Provider_GetExternalDiskInfos. entry. Qed.
Lemma Provider_GetExternalVolumeInfos_spec : spec Provider_GetExternalVolumeInfos (fun _ => True).
Proof. unfold Provider_GetExternalVolumeInfos. entry. Qed.
Lemma Provider_Erase_spec v : spec (Provider_Erase v) (fun _ => True).
Proof. unfold Provider_Erase. entry. Qed.
Lemma Provider_Eject_spec d : spec (Provider_Eject d) (fun _ => True).
Proof. unfold Provider_Eject. entry. Qed.
Lemma Provider_CreateIsoImage_spec v p : spec (Provider_CreateIsoImage v p) (fun _ => True).
Proof. unfold Provider_CreateIsoImage. entry. Qed.
Lemma Provider_Burn_spec v o : spec (Provider_Burn v o) (fun _ => True).
Proof. unfold Provider_Burn. entry. apply Burn_spec. by bsimp. Qed.
Lemma Provider_GetVolumeOpProcess_spec v p : spec (Provider_GetVolumeOpProcess v p) (fun _ => True).
Proof. unfold Provider_GetVolumeOpProcess. entry. Qed.
Lemma Provider_BindBlockLoopDev_spec d o l : spec (Provider_BindBlockLoopDev PC_MANAGER d o l) (fun _ => True).
Proof. unfold Provider_BindBlockLoopDev. entry. Qed.
Lemma Provider_CreateDmCryptVolume_spec c l m : spec (Provider_CreateDmCryptVolume PC_MANAGER c l m) (fun _ => True).
Proof. unfold Provider_CreateDmCryptVolume. entry. Qed.
Lemma Provider_DestroyDmCryptVolume_spec m : spec (Provider_DestroyDmCryptVolume PC_MANAGER m) (fun _ => True).
Proof. unfold Provider_DestroyDmCryptVolume. entry. Qed.
Lemma Provider_UnbindBlockLoopDev_spec l : spec (Provider_UnbindBlockLoopDev PC_MANAGER l) (fun _ => True).
Proof. unfold Provider_UnbindBlockLoopDev. entry. Qed.
Lemma Provider_MountVolumeByPath_spec d p m : spec (Provider_MountVolumeByPath PC_MANAGER d p m) (fun _ => True).
Proof. unfold Provider_MountVolumeByPath. entry. Qed.
Lemma Provider_UmountVolumeByPath_spec d p : spec (Provider_UmountVolumeByPath PC_MANAGER d p) (fun _ => True).
Proof. unfold Provider_UmountVolumeByPath. entry. Qed.
Lemma Provider_OnBlockDiskUevent_spec r : spec (Provider_OnBlockDiskUevent r) (fun _ => True).
Proof. unfold Provider_OnBlockDiskUevent. entry. Qed.
Lemma Provider_ReportVolumeOpDiag_spec o : spec (Provider_ReportVolumeOpDiag o) (fun _ => True).
Proof. unfold Provider_ReportVolumeOpDiag. entry. Qed.
Lemma Provider_NotifyMtpMounted_spec i p d u f : spec (Provider_NotifyMtpMounted i p d u f) (fun _ => True).
Proof.
  unfold Provider_NotifyMtpMounted. entry. apply NotifyMtpMounted_spec, IsVolumeIdValid_plain. by bsimp.
Qed.
Lemma Provider_NotifyMtpUnmounted_spec i b : spec (Provider_NotifyMtpUnmounted i b) (fun _ => True).
Proof. unfold Provider_NotifyMtpUnmounted. entry. Qed.

(** ** Life cycle *)
Lemma OnStart_spec : spec OnStart (fun _ => True).
Proof. unfold OnStart, StartIdleMonitor. spec_auto. Qed.
Lemma OnStop_spec : spec OnStop (fun _ => True).
Proof. unfold OnStop, StopIdleMonitor. spec_auto. Qed.
Lemma CheckAndUnloadIfIdle_safe : spec CheckAndUnloadIfIdle (fun _ => True).
Proof. unfold CheckAndUnloadIfIdle. spec_auto. Qed.
End safety.
