(* ===== verification/VoldataStore.v ===== *)
(** * The uuid store implements the interface its clients use

    The clients of [Voldata] are proved against [PathStore] and its laws
    [PathStoreLaws]; here the store discharges them, whatever the files hold,
    whatever fails, and in whatever order the unordered map iterates. *)
From S2P Require Import Prelude CppString Types State Utils Json BlockInfo Voldata World DmQuery Paths Safety.

(** Every path of the map is a voldata path. *)
Definition paths_ok (m : UuidMap) : Prop := map_Forall (fun _ e => voldata_path (ve_mountPath e)) m.
Lemma paths_ok_empty : paths_ok ∅.
Proof. apply map_Forall_empty. Qed.
Lemma paths_ok_insert k e m : voldata_path (ve_mountPath e) -> paths_ok m -> paths_ok (<[k := e]> m).
Proof. intros. by apply map_Forall_insert_2. Qed.
Lemma paths_ok_delete k m : paths_ok m -> paths_ok (delete k m).
Proof. intros. by apply map_Forall_delete. Qed.
Lemma FromJson_path j e : VoldataUuidEntry_FromJson j = Some e -> voldata_path (ve_mountPath e).
Proof.
  unfold VoldataUuidEntry_FromJson. destruct (negb _); [done|]. destruct (json_member "fsUuid" j) as [[| | | | |u| |]|]; try done.
  destruct (json_member "mountPath" j) as [[| | | | |p| |]|]; try done.
  destruct (ParseVoldataSlotFromMountPath p) as [s|] eqn:Hp; [|done]. destruct (IsUuidValid u); [|done]. intros [= <-]. cbn.
  unfold ParseVoldataSlotFromMountPath in Hp. destruct (_ || _) eqn:Hb; [done|]. bsimp.
  destruct (negb (sforall is_digit _)) eqn:Hd; [done|]. bsimp.
  match goal with H : starts_with _ _ = true |- _ => apply starts_with_spec in H as (ds & ->) end.
  exists ds. split; [done|]. rewrite sdrop_app in Hd. split; [|done]. intros ->. rewrite slen_app in *. simpl in *. lia.
Qed.
Lemma load_items_paths items m : paths_ok m -> paths_ok (load_items items m).
Proof.
  revert m; induction items as [|i items IH]; intros m Hm; cbn [load_items]; [done|]. case_test; [done|].
  destruct (VoldataUuidEntry_FromJson i) as [e|] eqn:He; [|by apply IH]. apply IH, paths_ok_insert; [by eapply FromJson_path|done].
Qed.
Section store.
Context {E : Type} {FS : FsEnv E} {JT : JsonText}.
Notation VM := (State (VState E)).

Lemma load_text_paths t m m' : load_text t m = Some m' -> paths_ok m -> paths_ok m'.
Proof.
  unfold load_text. destruct (str_empty t); [by intros [= <-]|]. destruct (json_parse t) as [[]|]; try done.
  intros [= <-]. apply load_items_paths.
Qed.

(** [pspec m Q]: [m] keeps [paths_ok], and its result is in [Q]. *)
Definition pspec {A} (m : VM A) (Q : A -> Prop) : Prop :=
  forall st, paths_ok (v_map st) -> paths_ok (v_map (m st).2) /\ Q (m st).1.
Lemma pspec_ret {A} (a : A) (Q : A -> Prop) : Q a -> pspec (sret a) Q.
Proof. by intros ? st. Qed.
Lemma pspec_bind {A B} (m : VM A) (f : A -> VM B) (P : A -> Prop) (Q : B -> Prop) :
  pspec m P -> (forall a, P a -> pspec (f a) Q) -> pspec (sbind m f) Q.
Proof. intros Hm Hf st Hs. unfold sbind. destruct (Hm st Hs). destruct (m st) as [a st']. by apply Hf. Qed.
Lemma pspec_map : pspec (sget v_map) paths_ok.
Proof. by intros st. Qed.
Lemma pspec_get {A} (f : VState E -> A) : pspec (sget f) (fun _ => True).
Proof. by intros st. Qed.
Lemma pspec_set_map m : paths_ok m -> pspec (v_set_map m) (fun _ => True).
Proof. by intros ? st. Qed.
Lemma pspec_set_initialized b : pspec (v_set_initialized b) (fun _ => True).
Proof. by intros st. Qed.
Lemma pspec_set_path p : pspec (v_set_jsonFilePath p) (fun _ => True).
Proof. by intros st. Qed.
Lemma pspec_set_files f : pspec (v_set_files f) (fun _ => True).
Proof. by intros st. Qed.
Lemma pspec_call op : pspec (fs_call op) (fun _ => True).
Proof. intros st H. unfold fs_call. by destruct (fs_answer _ op). Qed.
#[local] Hint Resolve pspec_map pspec_set_initialized pspec_set_path pspec_set_files pspec_call paths_ok_empty
  paths_ok_delete paths_ok_insert pspec_set_map : pspec.
#[local] Hint Resolve pspec_get | 10 : pspec.

Ltac pspec_tac := repeat
  (lazymatch goal with
   | |- pspec (sret _) _ => apply pspec_ret; try done
   | |- pspec (sbind (if ?b then _ else _) _) _ => destruct b
   | |- pspec (sbind (sret _) _) _ => eapply pspec_bind; [by apply (pspec_ret _ (fun _ => True))|]
   | |- pspec (sbind (sbind _ _) _) _ => apply (pspec_bind _ _ (fun _ => True))
   | |- pspec (sbind _ _) _ => eapply pspec_bind; [solve [eauto with pspec]|]
   | |- pspec (let _ := _ in _) _ => cbv zeta
   | |- pspec (if ?b then _ else _) _ => destruct b eqn:?
   | |- pspec (match ?x with _ => _ end) _ => destruct x eqn:?
   | |- pspec _ _ => solve [eauto with pspec]
   | |- forall _, _ => intros ?
   end).

Lemma fs_remove_p p : pspec (fs_remove p) (fun _ => True).
Proof. unfold fs_remove. pspec_tac. Qed.
Lemma fs_exists_p p : pspec (fs_exists p) (fun _ => True).
Proof. unfold fs_exists. pspec_tac. Qed.
Lemma fs_read_p p : pspec (fs_read p) (fun _ => True).
Proof. unfold fs_read. pspec_tac. Qed.
#[local] Hint Resolve fs_remove_p fs_exists_p fs_read_p : pspec.
Lemma SaveJsonToFile_p p j : pspec (SaveJsonToFile p j) (fun _ => True).
Proof. unfold SaveJsonToFile. pspec_tac. Qed.
#[local] Hint Resolve SaveJsonToFile_p : pspec.
Lemma SaveToFile_p : pspec SaveToFile (fun _ => True).
Proof. unfold SaveToFile. pspec_tac. Qed.
Lemma LoadJsonFromPath_p p : pspec (LoadJsonFromPath p) (fun _ => True).
Proof.
  unfold LoadJsonFromPath. pspec_tac. eapply pspec_bind; [apply pspec_set_map; by eapply load_text_paths|]. pspec_tac.
Qed.
#[local] Hint Resolve SaveToFile_p LoadJsonFromPath_p : pspec.
Lemma LoadFromFile_p : pspec LoadFromFile (fun _ => True).
Proof. unfold LoadFromFile. pspec_tac. Qed.
#[local] Hint Resolve LoadFromFile_p : pspec.
Lemma Voldata_Init_p : pspec Voldata_Init (fun _ => True).
Proof. unfold Voldata_Init. pspec_tac. Qed.
#[local] Hint Resolve Voldata_Init_p : pspec.

Lemma EvictSlotOne_paths pairs m : paths_ok m -> paths_ok (EvictSlotOneIfFullLocked pairs m).
Proof. intros. unfold EvictSlotOneIfFullLocked. repeat case_match; by try apply paths_ok_delete. Qed.
#[local] Hint Resolve EvictSlotOne_paths : pspec.
Lemma find_slot_pos n slot pairs : 1 <= slot -> 1 <= find_slot n slot pairs.
Proof. revert slot; induction n as [|n IH]; intros slot Hs; cbn [find_slot]; [lia|]. destruct (existsb _ _); [apply IH; lia|done]. Qed.
Lemma pspec_get_slot (f : VState E -> list (string * VoldataUuidEntry)) :
  pspec (sget (fun st => FindMinimumFreeSlotLocked (f st))) (fun n => 0 <= n).
Proof. intros st Hs. split; [done|]. assert (1 <= (sget (fun st => FindMinimumFreeSlotLocked (f st)) st).1); [|lia]. by apply find_slot_pos. Qed.
Lemma AllocateNextSlotLocked_p : pspec AllocateNextSlotLocked (fun n => 0 <= n).
Proof. unfold AllocateNextSlotLocked. pspec_tac; apply pspec_get_slot. Qed.
#[local] Hint Resolve AllocateNextSlotLocked_p : pspec.

Definition path_ok (o : option string) : Prop := forall p, o = Some p -> voldata_path p.
Lemma path_ok_entry m u : paths_ok m -> path_ok (ve_mountPath <$> m !! u).
Proof. intros H p. destruct (m !! u) as [e|] eqn:He; [|done]. intros [= <-]. by apply (H u). Qed.
Lemma BuildMountPathForSlot_prefix n : 0 <= n -> voldata_path (BuildMountPathForSlot n).
Proof. apply voldata_path_slot. Qed.
#[local] Hint Resolve BuildMountPathForSlot_prefix : pspec.

Lemma ResolveMountPath_p u : pspec (Voldata_ResolveMountPath u) (fun r => path_ok r.1.2).
Proof.
  unfold Voldata_ResolveMountPath. pspec_tac.
  - intros p [= <-]. by apply (H0 u).
  - eapply pspec_bind; [apply pspec_set_map, paths_ok_insert; [by apply BuildMountPathForSlot_prefix|done]|]. pspec_tac.
    intros p [= <-]. by apply BuildMountPathForSlot_prefix.
Qed.
Lemma RemoveByFsUuid_p u : pspec (Voldata_RemoveByFsUuid u) (fun _ => True).
Proof. unfold Voldata_RemoveByFsUuid. pspec_tac. Qed.
Lemma ReplaceFsUuid_p a b : pspec (Voldata_ReplaceFsUuid a b) (fun _ => True).
Proof.
  unfold Voldata_ReplaceFsUuid. pspec_tac.
  eapply pspec_bind; [apply pspec_set_map, paths_ok_insert; [exact (H0 a _ Heqo)|by apply paths_ok_delete]|]. pspec_tac.
Qed.
Lemma TryGetMountPath_p u : pspec (Voldata_TryGetMountPath u) path_ok.
Proof. unfold Voldata_TryGetMountPath. pspec_tac. by apply path_ok_entry. Qed.

#[export] Instance voldata_store : PathStore (VState E) := {|
  ps_Init := Voldata_Init;
  ps_TryGetMountPath := Voldata_TryGetMountPath;
  ps_ResolveMountPath := Voldata_ResolveMountPath;
  ps_RemoveByFsUuid := Voldata_RemoveByFsUuid;
  ps_ReplaceFsUuid := Voldata_ReplaceFsUuid;
|}.
#[export] Program Instance voldata_store_laws : PathStoreLaws (VState E) := {| ps_inv st := paths_ok (v_map st) |}.
Next Obligation. intros s H. by apply Voldata_Init_p. Qed.
Next Obligation. intros u s H. by apply TryGetMountPath_p. Qed.
Next Obligation. intros u s H. by apply ResolveMountPath_p. Qed.
Next Obligation. intros u s H. by apply RemoveByFsUuid_p. Qed.
Next Obligation. intros a b s H. by apply ReplaceFsUuid_p. Qed.
Next Obligation. intros u s p H. by apply TryGetMountPath_p. Qed.
Next Obligation. intros u s p H. by apply ResolveMountPath_p. Qed.
End store.
