(* ===== verification/Seq.v ===== *)
(** * Sequential runs

    What an operation does when no other thread interferes: [runs m Q sh st tr] says
    that [m], run from the tables [sh], the store [st] and the trace [tr], ends with
    a result, tables, store and trace in [Q], whatever the environment answers. *)
From S2P Require Import Prelude CppString Types State Utils Json BlockInfo World Adapters DmQuery.

Class Sequential (E : Type) {EV : Env E} : Prop :=
  sequential (e : E) (sh : Shared) : (env_others e).1 sh = sh.

(** New actions, all in [R], on top of the trace. *)
Definition grows (R : Act -> Prop) (tr tr' : list Act) : Prop := exists new, tr' = new ++ tr /\ Forall R new.
#[export] Instance grows_preorder R : PreOrder (grows R).
Proof.
  split.
  - intros tr. by exists [].
  - intros a b c (n1 & -> & H1) (n2 & -> & H2). exists (n2 ++ n1). split; [by rewrite app_assoc|]. by apply Forall_app.
Qed.
Lemma grows_cons (R : Act -> Prop) a tr tr' : R a -> grows R tr tr' -> grows R tr (a :: tr').
Proof. intros Ha (n & -> & Hn). exists (a :: n). split; [done|by constructor]. Qed.
Lemma grows_refl R tr : grows R tr tr.
Proof. reflexivity. Qed.
Lemma grows_mono (R R' : Act -> Prop) tr tr' : (forall a, R a -> R' a) -> grows R tr tr' -> grows R' tr tr'.
Proof. intros H (n & -> & Hn). exists n. split; [done|]. eapply Forall_impl; eauto. Qed.
(** The action [x] was added between [tr] and [tr']. *)
Definition during (tr tr' : list Act) (x : Act) : Prop := exists new, tr' = new ++ tr /\ x ∈ new.
Lemma during_cons tr x : during tr (x :: tr) x.
Proof. exists [x]. split; [done|by left]. Qed.
Lemma during_after R a b c x : grows R b c -> during a b x -> during a c x.
Proof. intros (n2 & -> & _) (n1 & -> & H). exists (n2 ++ n1). split; [by rewrite app_assoc|]. apply elem_of_app. by right. Qed.
Lemma during_before R a b c x : grows R a b -> during b c x -> during a c x.
Proof. intros (n1 & -> & _) (n2 & -> & H). exists (n2 ++ n1). split; [by rewrite app_assoc|]. apply elem_of_app. by left. Qed.

(** ** Classes of requests *)
Definition conn_req (r : Req) : bool :=
  match r with RGetSystemAbilityManager | RGetSystemAbility | RIfaceCast | RNewDeathRecipient => true | _ => false end.
(** Requests to storage_daemon. *)
Definition sd_req (r : Req) : bool :=
  match r with
  | SdQueryUsbIsInUse _ | SdCreateBlockDeviceNode _ _ _ _ | SdDestroyBlockDeviceNode _ | SdReadPartitionTable _
  | SdQueryCDStatus _ | SdMount _ _ _ _ _ | SdUnmount _ _ _ | SdFormatVolume _ _ _ _ _ | SdCheck _ _ | SdRepair _ _
  | SdSetLabel _ _ _ | SdReadMetadata _ | SdGetCapacity _ | SdMountFuseDevice _ | SdPartition _ _
  | SdGetBlockInfoByType _ _ | SdGetPartitionTableInfo _ | SdCreatePartition _ _ _ _ _ | SdDeletePartitionInfo _ _ _
  | SdFormatPartition _ _ _ _ _ | SdErase _ | SdEject _ | SdCreateIsoImage _ _ _ _ | SdBurn _ _ _
  | SdGetVolumeOpProcess _ | SdGetDiskSize _ | SdExecuteCommand _ | SdCreateDmLinear _ _ _ => true
  | _ => false
  end.
Definition is_conn (a : Act) : Prop := match a with AReq r _ => conn_req r = true | AEvt _ => False end.
(** Neither a request to storage_daemon nor an event. *)
Definition is_local (a : Act) : Prop := match a with AReq r _ => sd_req r = false | AEvt _ => False end.
Lemma conn_local a : is_conn a -> is_local a.
Proof. destruct a as [r ret|e]; [|done]. by destruct r. Qed.

(** A forwarded request with result [ret]: it was sent, or the daemon could not be reached. *)
Definition fwd (r : Req) (ret : Z) (tr tr' : list Act) : Prop :=
  exists tr0, grows is_conn tr tr0 /\ (tr' = AReq r ret :: tr0 \/ ret <> E_OK /\ tr' = tr0).
Lemma fwd_grows (R : Act -> Prop) r ret tr tr' :
  (forall a, is_conn a -> R a) -> R (AReq r ret) -> fwd r ret tr tr' -> grows R tr tr'.
Proof.
  intros Hc Hr (tr0 & H0 & H). apply (grows_mono _ R) in H0; [|done]. destruct H as [-> | [_ ->]]; [|done]. by apply grows_cons.
Qed.
Lemma fwd_ok r tr tr' : fwd r E_OK tr tr' -> during tr tr' (AReq r E_OK).
Proof. intros (tr0 & Hg & [-> | [? _]]); [|done]. eapply during_before; [exact Hg|apply during_cons]. Qed.

(** The tables with the connection flag set to [b]. *)
Definition with_ready (b : bool) (sh : Shared) : Shared := upd_sdReady (fun _ => b) sh.

Section rules.
Context {E St : Type} {EV : Env E} {PS : PathStore St} {SQ : Sequential E}.
Notation M := (State (World E St)).

Definition runs {A} (m : M A) (Q : A -> Shared -> St -> list Act -> Prop) (sh : Shared) (st : St) (tr : list Act) : Prop :=
  forall e, Q (m (mkWorld sh st e tr)).1 (w_sh (m (mkWorld sh st e tr)).2) (w_store (m (mkWorld sh st e tr)).2)
              (w_trace (m (mkWorld sh st e tr)).2).

Lemma runs_ret {A} (a : A) Q sh st tr : Q a sh st tr -> runs (sret a) Q sh st tr.
Proof. by intros H e. Qed.
Lemma runs_bind {A B} (m : M A) (f : A -> M B) Q sh st tr :
  runs m (fun a => runs (f a) Q) sh st tr -> runs (sbind m f) Q sh st tr.
Proof.
  intros H e. specialize (H e). unfold sbind. destruct (m _) as [a [sh' st' e' tr']]. apply (H e').
Qed.
Lemma runs_conseq {A} (m : M A) (P Q : A -> Shared -> St -> list Act -> Prop) sh st tr :
  runs m P sh st tr -> (forall a sh' st' tr', P a sh' st' tr' -> Q a sh' st' tr') -> runs m Q sh st tr.
Proof. intros H HQ e. apply HQ, H. Qed.
Lemma runs_run {A} (m : M A) Q w : runs m Q (w_sh w) (w_store w) (w_trace w) ->
  Q (m w).1 (w_sh (m w).2) (w_store (m w).2) (w_trace (m w).2).
Proof. intros H. destruct w as [sh st e tr]. apply (H e). Qed.

Lemma runs_get_sh {A} (f : Shared -> A) Q sh st tr : Q (f sh) sh st tr -> runs (get_sh f) Q sh st tr.
Proof. by intros H e. Qed.
Lemma runs_set_sh f Q sh st tr : Q tt (f sh) st tr -> runs (set_sh f) Q sh st tr.
Proof. by intros H e. Qed.
Lemma runs_store {A} (m : State St A) Q sh st tr : Q (m st).1 sh (m st).2 tr -> runs (store m) Q sh st tr.
Proof. intros H e. unfold store, szoom. cbn [w_store]. by destruct (m st). Qed.
Lemma interfere_seq lk (e : E) sh : interfere lk (env_others e).1 sh = sh.
Proof. unfold interfere. rewrite sequential. destruct sh. cbn. by destruct (lk_disk lk), (lk_vol lk), (lk_part lk). Qed.
Lemma runs_yield lk Q sh st tr : Q tt sh st tr -> runs (yield lk) Q sh st tr.
Proof.
  intros H e. unfold yield. cbn [w_env w_sh w_store w_trace]. pose proof (interfere_seq lk e sh) as Hi.
  destruct (env_others e) as [f e']. cbn in *. by rewrite Hi.
Qed.
Lemma runs_request r Q sh st tr : (forall a, Q a sh st (AReq r (an_ret a) :: tr)) -> runs (request r) Q sh st tr.
Proof. intros H e. unfold request. cbn [w_env]. destruct (env_answer e r) as [a e']. apply H. Qed.
Lemma runs_call lk r Q sh st tr : (forall a, Q a sh st (AReq r (an_ret a) :: tr)) -> runs (call lk r) Q sh st tr.
Proof.
  intros H. apply runs_bind, runs_request. intros a. apply runs_bind, runs_yield. apply runs_ret, H.
Qed.
(** The rule for a call whose answer matters. *)
Lemma runs_call_answer lk r Q sh st tr :
  (forall e, Q (env_answer e r).1 sh st (AReq r (an_ret (env_answer e r).1) :: tr)) -> runs (call lk r) Q sh st tr.
Proof.
  intros H. apply runs_bind. intros e. unfold request. cbn [w_env]. specialize (H e). destruct (env_answer e r) as [a e'].
  cbn in *. by apply runs_bind, runs_yield, runs_ret.
Qed.
Lemma runs_publish lk ev Q sh st tr : Q tt sh st (AEvt ev :: tr) -> runs (publish lk ev) Q sh st tr.
Proof. intros H. apply runs_bind. intros e. cbn. by apply runs_yield. Qed.
End rules.

(** [seq_step] runs one construct; [seq_hook] is what runs a call. *)
Ltac seq_hook := fail.
Ltac seq_step :=
  lazymatch goal with
  | |- runs (sbind _ _) _ _ _ _ => apply runs_bind
  | |- runs (sret _) _ _ _ _ => apply runs_ret
  | |- runs (fin _) _ _ _ _ => apply runs_ret
  | |- runs (get_sh _) _ _ _ _ => apply runs_get_sh
  | |- runs get_disks _ _ _ _ => apply runs_get_sh
  | |- runs get_vols _ _ _ _ => apply runs_get_sh
  | |- runs (set_sh _) _ _ _ _ => apply runs_set_sh
  | |- runs (set_vols _) _ _ _ _ => apply runs_set_sh
  | |- runs (set_disks _) _ _ _ _ => apply runs_set_sh
  | |- runs (set_prov _) _ _ _ _ => apply runs_set_sh
  | |- runs (set_partitionDone _) _ _ _ _ => apply runs_set_sh
  | |- runs (set_partitioning _) _ _ _ _ => apply runs_set_sh
  | |- runs (set_snapshot _) _ _ _ _ => apply runs_set_sh
  | |- runs (set_blockInfo _) _ _ _ _ => apply runs_set_sh
  | |- runs (set_sdReady _) _ _ _ _ => apply runs_set_sh
  | |- runs (set_configs _) _ _ _ _ => apply runs_set_sh
  | |- runs (set_partitionTable _) _ _ _ _ => apply runs_set_sh
  | |- runs (store _) _ _ _ _ => apply runs_store
  | |- runs (yield _) _ _ _ _ => apply runs_yield
  | |- runs (request _) _ _ _ _ => apply runs_request; intros
  | |- runs (call _ _) _ _ _ _ => apply runs_call; intros
  | |- runs (publish _ _) _ _ _ _ => apply runs_publish
  | |- runs (let _ := _ in _) _ _ _ _ => cbv zeta
  | |- runs (if ?b then _ else _) _ _ _ _ => destruct b eqn:?
  | |- runs (match ?x with _ => _ end) _ _ _ _ => first [is_var x; destruct x | destruct x eqn:?]
  | |- runs _ _ _ _ _ => seq_hook
  end.
Ltac seq_auto := repeat (seq_step; cbn beta).

(** ** [StorageDaemonAdapter] *)
Section adapter.
Context {E St : Type} {EV : Env E} {PS : PathStore St} {SQ : Sequential E}.
Implicit Types (sh : Shared) (st : St) (tr : list Act).

Lemma with_ready_twice b b' sh : with_ready b (with_ready b' sh) = with_ready b sh.
Proof. done. Qed.
Lemma with_ready_self sh : with_ready (sh_sdReady sh) sh = sh.
Proof. by destruct sh. Qed.

Lemma runs_Connect lk (Q : Z -> Shared -> St -> list Act -> Prop) sh st tr :
  (forall ret b tr', grows is_conn tr tr' -> Q ret (with_ready b sh) st tr') -> runs (E := E) (Connect lk) Q sh st tr.
Proof.
  intros H. unfold Connect. seq_auto.
  all: try (rewrite <- (with_ready_self sh); apply H; repeat (apply grows_cons; [done|]); apply grows_refl).
  all: apply (H _ true); repeat (apply grows_cons; [done|]); apply grows_refl.
Qed.
Lemma runs_EnsureProxyReady lk (Q : Z -> Shared -> St -> list Act -> Prop) sh st tr :
  (forall ret b tr', grows is_conn tr tr' -> Q ret (with_ready b sh) st tr') -> runs (E := E) (EnsureProxyReady lk) Q sh st tr.
Proof. intros H. unfold EnsureProxyReady. apply runs_bind, runs_Connect. intros ret b tr' Hg. seq_auto; by apply H. Qed.
Lemma runs_sd_forward lk d r (Q : Ans -> Shared -> St -> list Act -> Prop) sh st tr :
  (forall a b tr', fwd r (an_ret a) tr tr' -> Q a (with_ready b sh) st tr') -> runs (E := E) (sd_forward lk d r) Q sh st tr.
Proof.
  intros H. unfold sd_forward. apply runs_bind, runs_EnsureProxyReady. intros ret b tr' Hg. seq_auto; apply H.
  - exists tr'. split; [done|]. right. split; [|done]. cbn. by bsimp.
  - exists tr'. split; [done|]. by left.
Qed.
(** The rule for a forwarded request whose answer matters: the daemon's answer, or an
    error and the defaults when the daemon could not be reached. *)
Definition unreached (err : Z) (d : Ans) : Ans :=
  mkAns err (an_int d) (an_int2 d) (an_int3 d) (an_bool d) (an_str d) (an_str2 d) (an_str3 d) (an_strs d).
Lemma runs_sd_forward_answer lk d r (Q : Ans -> Shared -> St -> list Act -> Prop) sh st tr :
  (forall e b tr0, grows is_conn tr tr0 ->
     Q (env_answer e r).1 (with_ready b sh) st (AReq r (an_ret (env_answer e r).1) :: tr0)) ->
  (forall (err : Z) b tr0, err <> E_OK -> grows is_conn tr tr0 -> Q (unreached err d) (with_ready b sh) st tr0) ->
  runs (E := E) (sd_forward lk d r) Q sh st tr.
Proof.
  intros Hans Herr. unfold sd_forward. apply runs_bind, runs_EnsureProxyReady. intros ret b tr' Hg. seq_step.
  - bsimp. by apply runs_ret, Herr.
  - apply runs_call_answer. intros e. by apply Hans.
Qed.
Lemma runs_sd_simple lk r (Q : Z -> Shared -> St -> list Act -> Prop) sh st tr :
  (forall ret b tr', fwd r ret tr tr' -> Q ret (with_ready b sh) st tr') -> runs (E := E) (sd_simple lk r) Q sh st tr.
Proof. intros H. unfold sd_simple. apply runs_bind, runs_sd_forward. intros a b tr' Hf. apply runs_ret. by apply H. Qed.
End adapter.

(** ** Local operations

    Operations that change no table and reach no other service than the local ones:
    they only grow the trace. *)
Section local.
Context {E St : Type} {EV : Env E} {PS : PathStore St} {SQ : Sequential E}.
Notation M := (State (World E St)).

Definition local_op {A} (m : M A) : Prop :=
  forall (Q : A -> Shared -> St -> list Act -> Prop) sh st tr,
    (forall a tr', grows is_local tr tr' -> Q a sh st tr') -> runs m Q sh st tr.
Lemma local_ret {A} (a : A) : local_op (sret a).
Proof. intros Q sh st tr H. apply runs_ret, H, grows_refl. Qed.
Lemma local_bind {A B} (m : M A) (f : A -> M B) : local_op m -> (forall a, local_op (f a)) -> local_op (sbind m f).
Proof.
  intros Hm Hf Q sh st tr H. apply runs_bind, Hm. intros a tr1 H1. apply Hf. intros b tr2 H2. apply H. by transitivity tr1.
Qed.
Lemma local_get {A} (f : Shared -> A) : local_op (get_sh f).
Proof. intros Q sh st tr H. apply runs_get_sh, H, grows_refl. Qed.
Lemma local_call lk r : sd_req r = false -> local_op (call lk r).
Proof. intros Hr Q sh st tr H. apply runs_call. intros a. apply H. apply grows_cons; [done|apply grows_refl]. Qed.
Lemma local_yield lk : local_op (yield lk).
Proof. intros Q sh st tr H. apply runs_yield, H, grows_refl. Qed.
End local.

Create HintDb local discriminated.
#[export] Hint Constants Opaque : local.
Ltac local_step :=
  lazymatch goal with
  | |- local_op (sbind _ _) => apply local_bind; [|intro]
  | |- local_op (sret _) => apply local_ret
  | |- local_op (fin _) => apply local_ret
  | |- local_op (get_sh _) => apply local_get
  | |- local_op get_disks => apply local_get
  | |- local_op get_vols => apply local_get
  | |- local_op (yield _) => apply local_yield
  | |- local_op (call _ _) => apply local_call; reflexivity
  | |- local_op (if ?b then _ else _) => destruct b
  | |- local_op (match ?x with _ => _ end) => destruct x
  | |- local_op (let _ := _ in _) => cbv zeta
  | |- local_op ?m => first [solve [eauto with local] | let h := head_of m in unfold h]
  end.
Ltac local_tac := repeat local_step.

Section queries.
Context {E St : Type} {EV : Env E} {PS : PathStore St} {JT : JsonText} {SQ : Sequential E}.
Notation local_op := (local_op (E := E) (St := St)).

Lemma GetDiskById_local d : local_op (GetDiskById d).
Proof. local_tac. Qed.
Lemma CheckVolId_local v : local_op (CheckVolId v).
Proof. local_tac. Qed.
Lemma IsEdmControlMountEnabled_local v p : local_op (IsEdmControlMountEnabled v p).
Proof. local_tac. Qed.
Lemma IsDiskSupported_local d : local_op (IsDiskSupported d).
Proof. local_tac. Qed.
Lemma IsUsbFuseEnabled_local lk f : local_op (IsUsbFuseEnabledForFsType lk f).
Proof. local_tac. Qed.
End queries.
#[export] Hint Resolve GetDiskById_local CheckVolId_local IsEdmControlMountEnabled_local IsDiskSupported_local IsUsbFuseEnabled_local : local.

(** ** Operations that change no table

    Up to the connection flag: they may use the uuid store, forward requests and
    publish events. *)
Definition Any (a : Act) : Prop := True.
Lemma fwd_any r ret tr tr' : fwd r ret tr tr' -> grows Any tr tr'.
Proof. by apply fwd_grows. Qed.
Ltac any := repeat first [ assumption | apply grows_refl | apply grows_cons; [done|] | match goal with
  | H : grows Any ?a ?b |- grows Any _ ?b => etrans; [|exact H] end ].

Section tables.
Context {E St : Type} {EV : Env E} {PS : PathStore St} {SQ : Sequential E}.
Notation M := (State (World E St)).

Definition tables_op {A} (m : M A) : Prop :=
  forall (Q : A -> Shared -> St -> list Act -> Prop) sh st tr,
    (forall a b st' tr', grows Any tr tr' -> Q a (with_ready b sh) st' tr') -> runs m Q sh st tr.
Lemma tables_local {A} (m : M A) : local_op m -> tables_op m.
Proof.
  intros Hm Q sh st tr H. apply Hm. intros a tr' Hg. rewrite <- (with_ready_self sh). apply H.
  by apply (grows_mono is_local).
Qed.
Lemma tables_ret {A} (a : A) : tables_op (sret a).
Proof. apply tables_local, local_ret. Qed.
Lemma tables_bind {A B} (m : M A) (f : A -> M B) : tables_op m -> (forall a, tables_op (f a)) -> tables_op (sbind m f).
Proof.
  intros Hm Hf Q sh st tr H. apply runs_bind, Hm. intros a b st1 tr1 H1. apply Hf. intros a' b' st2 tr2 H2.
  rewrite with_ready_twice. apply H. by transitivity tr1.
Qed.
Lemma tables_get {A} (f : Shared -> A) : tables_op (get_sh f).
Proof. apply tables_local, local_get. Qed.
Lemma tables_yield lk : tables_op (yield lk).
Proof. apply tables_local, local_yield. Qed.
Lemma tables_call lk r : tables_op (call lk r).
Proof.
  intros Q sh st tr H. apply runs_call. intros a. rewrite <- (with_ready_self sh). apply H. by apply grows_cons.
Qed.
Lemma tables_publish lk e : tables_op (publish lk e).
Proof. intros Q sh st tr H. apply runs_publish. rewrite <- (with_ready_self sh). apply H. by apply grows_cons. Qed.
Lemma tables_store {A} (m : State St A) : tables_op (store m).
Proof. intros Q sh st tr H. apply runs_store. rewrite <- (with_ready_self sh). apply H, grows_refl. Qed.
Lemma tables_sd_forward lk d r : tables_op (sd_forward lk d r).
Proof. intros Q sh st tr H. apply runs_sd_forward. intros a b tr' Hf%fwd_any. by apply H. Qed.
Lemma tables_sd_simple lk r : tables_op (sd_simple lk r).
Proof. intros Q sh st tr H. apply runs_sd_simple. intros a b tr' Hf%fwd_any. by apply H. Qed.
Lemma tables_Ensure lk : tables_op (EnsureProxyReady lk).
Proof. intros Q sh st tr H. apply runs_EnsureProxyReady. intros a b tr' Hf. apply H. by apply (grows_mono is_conn). Qed.
End tables.

Create HintDb tables discriminated.
#[export] Hint Constants Opaque : tables.
Ltac tables_step :=
  lazymatch goal with
  | |- tables_op (sbind _ _) => apply tables_bind; [|intro]
  | |- tables_op (sret _) => apply tables_ret
  | |- tables_op (fin _) => apply tables_ret
  | |- tables_op (get_sh _) => apply tables_get
  | |- tables_op get_disks => apply tables_get
  | |- tables_op get_vols => apply tables_get
  | |- tables_op (yield _) => apply tables_yield
  | |- tables_op (call _ _) => apply tables_call
  | |- tables_op (publish _ _) => apply tables_publish
  | |- tables_op (store _) => apply tables_store
  | |- tables_op (sd_forward _ _ _) => apply tables_sd_forward
  | |- tables_op (sd_simple _ _) => apply tables_sd_simple
  | |- tables_op (EnsureProxyReady _) => apply tables_Ensure
  | |- tables_op (if ?b then _ else _) => destruct b
  | |- tables_op (match ?x with _ => _ end) => destruct x
  | |- tables_op (let _ := _ in _) => cbv zeta
  | |- tables_op ?m => first [solve [eauto with tables] | let h := head_of m in unfold h]
  end.
Ltac tables_tac := repeat tables_step.
