(* ===== verification/Scenario.v ===== *)
(** * A concrete environment

    Used to run the operations on examples: requests are answered by a function,
    and no other thread runs. [usb_answers] is a storage_daemon with one USB stick
    [disk-8-0] that has one [vfat] partition. *)
From S2P Require Import Prelude CppString Types State Utils Uevent Json BlockInfo Voldata VoldataFacts.
From S2P Require Import VoldataStore World Adapters DmQuery DmMount Bootstrap Safety Seq.

Definition Answers : Type := Req -> Ans.
#[export] Instance quiet : Env Answers := {|
  env_answer e r := (e r, e);
  env_others e := (fun sh => sh, e);
  env_ERR_INVALID_DATA := 5;
|}.
#[export] Instance quiet_rely : Rely Answers.
Proof. by intros e sh H. Qed.

#[export] Instance quiet_sequential : Sequential Answers.
Proof. by intros e sh. Qed.

#[export] Instance ex_fs : FsEnv unit := fs_always.
#[export] Instance ex_json : JsonText := coded_json.
Definition ExWorld : Type := World Answers (VState unit).
Definition ex_store : VState unit := mkVState ∅ false "" ∅ [∅] tt.

(** Answers that only differ from [Ans_ok] in a few members. *)
Definition a_true : Ans := mkAns 0 0 0 0 true "" "" "" [].
Definition a_str (s : string) : Ans := mkAns 0 0 0 0 true s "" "" [].
Definition a_meta (uuid type label : string) : Ans := mkAns 0 0 0 0 true uuid type label [].
Definition a_err (e : Z) : Ans := mkAns e 0 0 0 false "" "" "" [].
Definition a_int (n : Z) : Ans := mkAns 0 n 0 0 true "" "" "" [].

Definition usb_answers : Answers := fun r =>
  match r with
  | SdReadPartitionTable _ => a_str (unlines ["DISK gpt"; "PART 1"])
  | SdReadMetadata _ => a_meta "1234-ABCD" "vfat" "KINGSTON"
  | RGetSystemAbilityManager | RGetSystemAbility | RIfaceCast | RNewDeathRecipient => a_true
  | GetNativeTokenInfo => a_str "storage_daemon"
  | VerifyAccessToken _ => a_true
  | RealPath p => a_str p
  | FuseIsByType _ | GetParameter _ | GetBoolParameter _ | FindParameter _ => Ans_ok
  | _ => Ans_ok
  end.
Definition usb_uevent : string :=
  unlines ["ACTION=add"; "SUBSYSTEM=block"; "DEVTYPE=disk"; "MAJOR=8"; "MINOR=0";
           "DEVPATH=/devices/platform/usbhost/1-1/block/sda"; "DEVNAME=sda"].

(** After the stick was plugged in, and after its volume was unmounted. *)
Definition ex_mounted : ExWorld := (OnBlockDiskUevent usb_uevent (World_initial ex_store usb_answers)).2.
Definition ex_unmounted : ExWorld := (Unmount "vol-8-1" ex_mounted).2.
(** The same stick as an internal data disk. *)
Definition ex_internal : ExWorld :=
  mkWorld (upd_disks (alter (Disk_SetDiskType DATA_DISK_SSD) "disk-8-0") (w_sh ex_mounted)) (w_store ex_mounted) usb_answers [].
