(* ===== verification/Service.v ===== *)
(** * The service as a transition system

    A step is one call of an entry point, the start or the stop of the service, a
    tick of the idle timer, or the death of storage_daemon; while it runs, other
    threads may change the tables at every point where the code holds no lock.
    Every reachable world satisfies the invariant of [Safety], whatever the
    environment answers. *)
From stdpp Require Import relations.
From S2P Require Import Prelude CppString Types State Utils Json BlockInfo Voldata World Adapters DmQuery Events.
From S2P Require Import DmMount DmPartition DmOptical SysfsReader Bootstrap Provider Safety SafetyDm SafetyMount.
From S2P Require Import SafetyPart SafetyBoot SafetyProv VoldataStore Scenario.

Inductive ServiceCall : Type :=
  | CMount (volumeId : string) (mountParam : MountParam)
  | CUnmount (volumeId : string)
  | CFormat (volumeId : string) (fsType : string)
  | CTryToFix (volumeId : string)
  | CSetVolumeDescription (fsUuid : string) (description : string)
  | CGetAllVolumes
  | CGetVolumeByUuid (fsUuid : string)
  | CGetVolumeById (volumeId : string)
  | CGetFreeSizeOfVolume (volumeUuid : string)
  | CGetTotalSizeOfVolume (volumeUuid : string)
  | CPartition (diskId : string)
  | CGetAllDisks
  | CGetDiskById (diskId : string)
  | CQueryUsbIsInUse (diskPath : string)
  | CGetPartitionTable (diskId : string)
  | CCreatePartition (diskId : string) (params : PartitionParams)
  | CDeletePartition (diskId : string) (partitionNum : Z)
  | CFormatPartition (diskId : string) (partitionNum : Z) (params : FormatParams)
  | CGetExternalDiskInfos
  | CGetExternalVolumeInfos
  | CErase (volumeId : string)
  | CEject (diskId : string)
  | CCreateIsoImage (volumeId : string) (filePath : string)
  | CBurn (volumeId : string) (burnOptions : string)
  | CGetVolumeOpProcess (volumeId : string) (progressPct : Z)
  | CBindBlockLoopDev (diskId : string) (offset : Z) (sizeLimit : Z)
  | CCreateDmCryptVolume (param : CryptParam) (loopPath : string) (mapperName : string)
  | CDestroyDmCryptVolume (mapperName : string)
  | CUnbindBlockLoopDev (loopPath : string)
  | CMountVolumeByPath (diskId : string) (volPath : string) (param : MountParam)
  | CUmountVolumeByPath (diskId : string) (volPath : string)
  | COnBlockDiskUevent (rawUeventMsg : string)
  | CReportVolumeOpDiag (opDiag : string)
  | CNotifyMtpMounted (id : string) (path : string) (desc : string) (uuid : string) (fsType : string)
  | CNotifyMtpUnmounted (id : string) (isBadRemove : bool)
  | SvcStart | SvcStop | SvcIdleTick | SvcDaemonDied.

(** The call discards its out parameters: they go to the client. *)
Definition run_call {E St : Type} {EV : Env E} {PS : PathStore St} {JT : JsonText} (PC_MANAGER : bool) (c : ServiceCall)
  : State (World E St) unit :=
  let out {A} (m : State (World E St) A) : State (World E St) unit := let! _ := m in sret tt in
  match c with
  | CMount volumeId mountParam => out (Provider_Mount volumeId mountParam)
  | CUnmount volumeId => out (Provider_Unmount volumeId)
  | CFormat volumeId fsType => out (Provider_Format volumeId fsType)
  | CTryToFix volumeId => out (Provider_TryToFix volumeId)
  | CSetVolumeDescription fsUuid description => out (Provider_SetVolumeDescription fsUuid description)
  | CGetAllVolumes => out (Provider_GetAllVolumes)
  | CGetVolumeByUuid fsUuid => out (Provider_GetVolumeByUuid fsUuid)
  | CGetVolumeById volumeId => out (Provider_GetVolumeById volumeId)
  | CGetFreeSizeOfVolume volumeUuid => out (Provider_GetFreeSizeOfVolume volumeUuid)
  | CGetTotalSizeOfVolume volumeUuid => out (Provider_GetTotalSizeOfVolume volumeUuid)
  | CPartition diskId => out (Provider_Partition diskId)
  | CGetAllDisks => out (Provider_GetAllDisks)
  | CGetDiskById diskId => out (Provider_GetDiskById diskId)
  | CQueryUsbIsInUse diskPath => out (Provider_QueryUsbIsInUse diskPath)
  | CGetPartitionTable diskId => out (Provider_GetPartitionTable diskId)
  | CCreatePartition diskId params => out (Provider_CreatePartition diskId params)
  | CDeletePartition diskId partitionNum => out (Provider_DeletePartition diskId partitionNum)
  | CFormatPartition diskId partitionNum params => out (Provider_FormatPartition diskId partitionNum params)
  | CGetExternalDiskInfos => out (Provider_GetExternalDiskInfos)
  | CGetExternalVolumeInfos => out (Provider_GetExternalVolumeInfos)
  | CErase volumeId => out (Provider_Erase volumeId)
  | CEject diskId => out (Provider_Eject diskId)
  | CCreateIsoImage volumeId filePath => out (Provider_CreateIsoImage volumeId filePath)
  | CBurn volumeId burnOptions => out (Provider_Burn volumeId burnOptions)
  | CGetVolumeOpProcess volumeId progressPct => out (Provider_GetVolumeOpProcess volumeId progressPct)
  | CBindBlockLoopDev diskId offset sizeLimit => out (Provider_BindBlockLoopDev PC_MANAGER diskId offset sizeLimit)
  | CCreateDmCryptVolume param loopPath mapperName => out (Provider_CreateDmCryptVolume PC_MANAGER param loopPath mapperName)
  | CDestroyDmCryptVolume mapperName => out (Provider_DestroyDmCryptVolume PC_MANAGER mapperName)
  | CUnbindBlockLoopDev loopPath => out (Provider_UnbindBlockLoopDev PC_MANAGER loopPath)
  | CMountVolumeByPath diskId volPath param => out (Provider_MountVolumeByPath PC_MANAGER diskId volPath param)
  | CUmountVolumeByPath diskId volPath => out (Provider_UmountVolumeByPath PC_MANAGER diskId volPath)
  | COnBlockDiskUevent rawUeventMsg => out (Provider_OnBlockDiskUevent rawUeventMsg)
  | CReportVolumeOpDiag opDiag => out (Provider_ReportVolumeOpDiag opDiag)
  | CNotifyMtpMounted id path desc uuid fsType => out (Provider_NotifyMtpMounted id path desc uuid fsType)
  | CNotifyMtpUnmounted id isBadRemove => out (Provider_NotifyMtpUnmounted id isBadRemove)
  | SvcStart => OnStart
  | SvcStop => OnStop
  | SvcIdleTick => CheckAndUnloadIfIdle
  | SvcDaemonDied => out ResetSdProxy
  end.

Inductive service_step {E St : Type} {EV : Env E} {PS : PathStore St} {JT : JsonText} (PC_MANAGER : bool)
  : World E St -> World E St -> Prop :=
  | service_step_call c w : service_step PC_MANAGER w (run_call PC_MANAGER c w).2.

Fixpoint run_calls {E St : Type} {EV : Env E} {PS : PathStore St} {JT : JsonText} (PC_MANAGER : bool) (cs : list ServiceCall)
  (w : World E St) : World E St :=
  match cs with [] => w | c :: cs => run_calls PC_MANAGER cs (run_call PC_MANAGER c w).2 end.
Lemma run_calls_steps {E St : Type} {EV : Env E} {PS : PathStore St} {JT : JsonText} b cs (w : World E St) :
  rtc (service_step b) w (run_calls b cs w).
Proof. revert w; induction cs as [|c cs IH]; intros w; [apply rtc_refl|]. eapply rtc_l; [apply service_step_call|apply IH]. Qed.

Lemma SharedInv_initial : SharedInv Shared_initial.
Proof.
  do 3 (split; [apply map_Forall_empty|]). split; [|apply map_Forall_empty].
  cbn. rewrite map_size_empty. unfold BLOCK_INFO_MAX_COUNT. lia.
Qed.

Section service.
Context {E St : Type} {EV : Env E} {PS : PathStore St} {PL : PathStoreLaws St} {JT : JsonText} {RL : Rely E}.
Context (PC_MANAGER : bool).
Notation W := (World E St).

Lemma run_call_spec (c : ServiceCall) : @spec E St PS PL _ (run_call PC_MANAGER c) (fun _ => True).
Proof.
  destruct c; cbn [run_call]; try (eapply spec_bind; [|intros; by apply spec_ret]).
  - apply Provider_Mount_spec.
  - apply Provider_Unmount_spec.
  - apply Provider_Format_spec.
  - apply Provider_TryToFix_spec.
  - apply Provider_SetVolumeDescription_spec.
  - apply Provider_GetAllVolumes_spec.
  - apply Provider_GetVolumeByUuid_spec.
  - apply Provider_GetVolumeById_spec.
  - apply Provider_GetFreeSizeOfVolume_spec.
  - apply Provider_GetTotalSizeOfVolume_spec.
  - apply Provider_Partition_spec.
  - apply Provider_GetAllDisks_spec.
  - apply Provider_GetDiskById_spec.
  - apply Provider_QueryUsbIsInUse_spec.
  - apply Provider_GetPartitionTable_spec.
  - apply Provider_CreatePartition_spec.
  - apply Provider_DeletePartition_spec.
  - apply Provider_FormatPartition_spec.
  - apply Provider_GetExternalDiskInfos_spec.
  - apply Provider_GetExternalVolumeInfos_spec.
  - apply Provider_Erase_spec.
  - apply Provider_Eject_spec.
  - apply Provider_CreateIsoImage_spec.
  - apply Provider_Burn_spec.
  - apply Provider_GetVolumeOpProcess_spec.
  - apply Provider_BindBlockLoopDev_spec.
  - apply Provider_CreateDmCryptVolume_spec.
  - apply Provider_DestroyDmCryptVolume_spec.
  - apply Provider_UnbindBlockLoopDev_spec.
  - apply Provider_MountVolumeByPath_spec.
  - apply Provider_UmountVolumeByPath_spec.
  - apply Provider_OnBlockDiskUevent_spec.
  - apply Provider_ReportVolumeOpDiag_spec.
  - apply Provider_NotifyMtpMounted_spec.
  - apply Provider_NotifyMtpUnmounted_spec.
  - apply OnStart_spec.
  - apply OnStop_spec.
  - apply CheckAndUnloadIfIdle_safe.
  - apply ResetSdProxy_spec.
Qed.

Lemma service_steps_inv (w w' : W) : WInv w -> rtc (service_step PC_MANAGER) w w' -> WInv w'.
Proof. intros H Hr. induction Hr as [|w w1 w2 [c w0] _ IH]; [done|]. apply IH. by apply run_call_spec. Qed.
Lemma WInv_initial (st : St) (e : E) : ps_inv st -> WInv (World_initial st e).
Proof. intros. split; [apply SharedInv_initial|]. split; [done|constructor]. Qed.

(** C2: In every reachable world the tables are well formed: every
    volume, disk, partition table and device record is stored under its own id;
    a volume's state and file-system type, and a disk's type, are values of
    their enumerations, and its id has no [".."] component; a disk is removable exactly when it is not an internal data
    disk; a parsed table has positive sector and alignment sizes and positive
    partition numbers; and at most [BLOCK_INFO_MAX_COUNT] device records are kept. *)
Theorem service_tables_wellformed (st : St) (e : E) (w : W) :
  ps_inv st -> rtc (service_step PC_MANAGER) (World_initial st e) w -> SharedInv (w_sh w).
Proof. intros Hs Hr. by apply (service_steps_inv _ _ (WInv_initial st e Hs) Hr). Qed.

(** C1: Whatever the clients, the kernel and the other processes do,
    every request the service has sent to the root daemon satisfies [req_safe]. A
    data mount goes to a slot of the uuid store or to one of the three mount roots
    followed by a uuid that passed [IsUuidValid] (or such a uuid with a number
    appended), and a FUSE mount to the external root followed by one that passed; so
    the path is below [/mnt/data/] and climbs by no [".."] component, except that
    the uuid [".."] itself passes the check. Mount flags and options are the known ones. The device nodes
    created, destroyed, erased and partitioned are below [/dev/block/] with no [".."]
    component (the linear mapping of a partition, whose name the kernel gives, has
    the prefix only). Partitions are created with a positive number and an increasing
    range, labels are set only on supported file systems, only [loopctl] and
    [cryptsetup] are executed, and burn options and image paths have passed their
    checks. The other requests are not restricted. *)
Theorem service_requests_safe (st : St) (e : E) (w : W) (r : Req) (ret : Z) :
  ps_inv st -> rtc (service_step PC_MANAGER) (World_initial st e) w -> AReq r ret ∈ w_trace w -> req_safe r.
Proof.
  intros Hs Hr Hin. destruct (service_steps_inv _ _ (WInv_initial st e Hs) Hr) as (_ & _ & Ht).
  rewrite Forall_forall in Ht. exact (Ht _ Hin).
Qed.
End service.

(** ** Other threads that run whole calls

    An environment in which each time a lock is free another thread completes one
    call of the service: what [Rely] asks of other threads is what every call does. *)
Record Threads : Type := mkThreads { th_answers : Answers; th_calls : list ServiceCall }.
Definition thread_effect (a : Answers) (c : ServiceCall) (sh : Shared) : Shared :=
  w_sh (run_call true c (mkWorld sh ex_store a [])).2.
#[export] Instance threads : Env Threads := {|
  env_answer t r := (th_answers t r, t);
  env_others t := match th_calls t with
                  | [] => (fun sh => sh, t)
                  | c :: cs => (thread_effect (th_answers t) c, mkThreads (th_answers t) cs)
                  end;
  env_ERR_INVALID_DATA := 5;
|}.
#[export] Instance threads_rely : Rely Threads.
Proof.
  intros [a [|c cs]] sh Hsh; cbn; [done|]. unfold thread_effect. apply (run_call_spec true c). split; [done|].
  split; [apply map_Forall_empty|constructor].
Qed.

(** The stick is plugged in; meanwhile an MTP device appears and a client mounts,
    and afterwards a client unmounts. *)
Definition ex_threads : Threads :=
  mkThreads usb_answers
    [CNotifyMtpMounted "vol-1-20" "/mnt/data/external/mtp1" "Phone" "mtp1" "mtpfs"; CGetAllVolumes;
     CMount "vol-8-1" MountParam_default].
Definition ex_service_start : World Threads (VState unit) := World_initial ex_store ex_threads.
Definition ex_service_end : World Threads (VState unit) :=
  run_calls true [COnBlockDiskUevent usb_uevent; CUnmount "vol-8-1"] ex_service_start.
Definition ex_mount : Req := SdMount "/dev/block/vol-8-1" "/mnt/data/external/1234-ABCD" "vfat" 0 "".
Lemma ex_service_steps : rtc (service_step true) ex_service_start ex_service_end.
Proof. apply run_calls_steps. Qed.
Lemma ex_store_inv : ps_inv ex_store.
Proof. apply map_Forall_empty. Qed.

Lemma service_tables_wellformed_witness :
  map (fun kv => (kv.1, vol_state kv.2)) (sorted_entries (sh_vols (w_sh ex_service_end))) =
    [("vol-1-20", VolumeState_val MOUNTED); ("vol-8-1", VolumeState_val UNMOUNTED)] /\
  SharedInv (w_sh ex_service_end).
Proof.
  split; [vm_compute; reflexivity|].
  exact (service_tables_wellformed true ex_store ex_threads ex_service_end ex_store_inv ex_service_steps).
Defined.

Lemma service_requests_safe_witness : AReq ex_mount 0 ∈ w_trace ex_service_end /\ req_safe ex_mount.
Proof.
  assert (H : AReq ex_mount 0 ∈ w_trace ex_service_end).
  { apply (list_elem_of_lookup_2 _ 10). vm_compute. reflexivity. }
  split; [exact H|].
  exact (service_requests_safe true ex_store ex_threads ex_service_end ex_mount 0 ex_store_inv ex_service_steps H).
Defined.
