(* ===== verification/MountFacts.v ===== *)
(** * Mounting and unmounting, sequentially

    What [Mount], [Unmount] and [ForceUnmount] do to the table and which
    requests they send, on every branch, when no other thread runs in between. *)
From S2P Require Import Prelude CppString Types State Utils Json BlockInfo World Adapters DmQuery Events DmMount.
From S2P Require Import Seq Voldata VoldataStore Scenario.

(** A forced unmount is only sent when [b]. *)
Definition force_le (b : bool) (a : Act) : Prop :=
  match a with AReq (SdUnmount _ _ force) _ => force = true -> b = true | _ => True end.
Lemma force_le_conn b a : is_conn a -> force_le b a.
Proof. destruct a as [r ret|e]; [|done]. by destruct r. Qed.
#[export] Hint Resolve force_le_conn : core.

Ltac grow :=
  repeat first
    [ assumption
    | apply grows_refl
    | apply grows_cons; [done|]
    | match goal with
      | H : grows ?R ?a ?b |- grows ?R _ ?b => etrans; [|exact H]
      | H : fwd ?r ?ret ?a ?b |- grows ?R _ ?b => transitivity a; [|apply (fwd_grows R) in H; [exact H|by auto|by cbn; auto]]
      end ].

Section unmount.
Context {E St : Type} {EV : Env E} {PS : PathStore St} {JT : JsonText} {SQ : Sequential E}.
Implicit Types (sh : Shared) (st : St) (tr : list Act).

Lemma runs_GetFreeSize u (Q : Z * Z -> Shared -> St -> list Act -> Prop) sh st tr :
  (forall r b tr', grows (force_le false) tr tr' -> Q r (with_ready b sh) st tr') -> runs (E := E) (GetFreeSizeOfVolume u) Q sh st tr.
Proof.
  intros H. unfold GetFreeSizeOfVolume, GetOddFreeSize, GetOddCapacity, statvfs, Sd_GetCapacity.
  assert (H0 : forall r tr', grows (force_le false) tr tr' -> Q r sh st tr').
  { intros r tr' Hg. rewrite <- (with_ready_self sh). by apply H. }
  seq_auto; try (apply H0; grow).
  all: apply runs_sd_forward; intros a' b tr' Hf; seq_auto; apply H; grow.
Qed.

Lemma force_le_weaken b b' a : (b = true -> b' = true) -> force_le b a -> force_le b' a.
Proof. destruct a as [r ret|e]; [|done]. destruct r; cbn; auto. Qed.

Lemma runs_UnmountVolumeMountPoints v force (Q : Z -> Shared -> St -> list Act -> Prop) sh st tr :
  (forall r b tr', grows (force_le force) tr tr' -> Q r (with_ready b sh) st tr') ->
  runs (E := E) (UnmountVolumeMountPoints v force) Q sh st tr.
Proof.
  intros H. unfold UnmountVolumeMountPoints, NotifyUsbFuseUmount, Sd_Unmount.
  assert (H0 : forall r tr', grows (force_le force) tr tr' -> Q r sh st tr').
  { intros r tr' Hg. rewrite <- (with_ready_self sh). by apply H. }
  seq_auto; try (apply H0; grow).
  all: apply runs_sd_simple; intros r1 b1 tr1 Hf1; seq_auto; try (apply H; grow).
  all: apply runs_sd_simple; intros r2 b2 tr2 Hf2; rewrite ?with_ready_twice; seq_auto; apply H; grow.
Qed.

(** Whether the disk of a volume is an internal data disk. *)
Definition on_internal_disk sh (v : VolumeExternal) : bool :=
  match sh_disks sh !! vol_diskId v with Some d => IsInternalDataDisk d | None => false end.

Lemma runs_ResolveUnmountForceFlag v force (Q : Z * bool -> Shared -> St -> list Act -> Prop) sh st tr :
  (forall (r : Z * bool) b st' tr', grows (force_le false) tr tr' -> (r.1 = E_OK -> r.2 = force && negb (on_internal_disk sh v)) ->
     Q r (with_ready b sh) st' tr') ->
  runs (E := E) (ResolveUnmountForceFlag v force) Q sh st tr.
Proof.
  intros H. unfold ResolveUnmountForceFlag, ResolveQueryUsbIsInUseMountPath, Sd_QueryUsbIsInUse.
  assert (H0 : forall (r : Z * bool) st' tr', grows (force_le false) tr tr' -> (r.1 = E_OK -> r.2 = force && negb (on_internal_disk sh v)) ->
     Q r sh st' tr').
  { intros r st' tr' Hg. rewrite <- (with_ready_self sh). by apply H. }
  unfold on_internal_disk in *.
  seq_auto; bsimp; try (apply H0; [grow|cbn; try done; by rewrite ?andb_true_r]).
  all: apply runs_sd_forward; intros a b tr' Hf; seq_auto; (apply H; [grow|cbn; intros; bsimp; try done; by rewrite andb_false_r]).
Qed.

(** *** [DoUnmountVolume] *)
Lemma runs_SaveVolumeFreeSize v (Q : VolumeExternal -> Shared -> St -> list Act -> Prop) sh st tr :
  (forall n b tr', grows (force_le false) tr tr' -> Q (Vol_SetFreeSize n v) (with_ready b sh) st tr') ->
  runs (E := E) (SaveVolumeFreeSize v) Q sh st tr.
Proof.
  intros H. unfold SaveVolumeFreeSize. apply runs_bind, runs_GetFreeSize. intros [ret n] b tr' Hg.
  assert (Hv : Vol_SetFreeSize (vol_freeSize v) v = v) by by destruct v.
  seq_auto; try (rewrite <- Hv at 1); by apply H.
Qed.

(** What a started unmount leaves in the table: the entry unmounted or gone, or its
    previous state with the failure noted. *)
Definition unmounted_entry (v : VolumeExternal) : VolumeExternal :=
  Vol_SetState UNMOUNTED (Vol_SetPath "" (Vol_SetUmountResult "" v)).
Definition unmount_failed_entry (v : VolumeExternal) : VolumeExternal := Vol_SetUmountResult "umountFail" v.
Definition unmount_result (v : VolumeExternal) (r : Z) (vols vols' : gmap string VolumeExternal) : Prop :=
  (r = E_OK /\ vols' = (if is_mtp_ptp (vol_fsType v) then delete (vol_id v) vols else <[vol_id v := unmounted_entry v]> vols)) \/
  (r <> E_OK /\ vols' = <[vol_id v := unmount_failed_entry v]> vols).

Lemma runs_NotifyVolumeEjecting id v res (Q : Z * VolumeExternal -> Shared -> St -> list Act -> Prop) sh st tr :
  (let eject v := Vol_SetUmountResult res (Vol_SetState EJECTING v) in
   forall a, Q (vol_state v, eject v) (upd_vols (alter eject id) sh) st (AEvt a :: tr)) ->
  runs (E := E) (NotifyVolumeEjecting id v res) Q sh st tr.
Proof. intros H. unfold NotifyVolumeEjecting, PublishVolumeChange. cbn [STATE_INFOS]. seq_auto. apply H. Qed.
Lemma runs_PublishUnmounted lk v (Q : unit -> Shared -> St -> list Act -> Prop) sh st tr :
  (forall a, Q tt sh st (AEvt a :: tr)) -> runs (E := E) (PublishVolumeChange lk UNMOUNTED v) Q sh st tr.
Proof. intros H. unfold PublishVolumeChange. cbn [STATE_INFOS]. seq_auto. apply H. Qed.

Lemma alter_lookup (f : VolumeExternal -> VolumeExternal) k v (m : gmap string VolumeExternal) :
  m !! k = Some v -> alter f k m = <[k := f v]> m.
Proof.
  intros H. apply map_eq. intros j. destruct (decide (j = k)) as [->|].
  - by rewrite lookup_alter_eq, lookup_insert_eq, H.
  - by rewrite lookup_alter_ne, lookup_insert_ne.
Qed.
Lemma insert_twice k (x y : VolumeExternal) (m : gmap string VolumeExternal) : <[k := x]> (<[k := y]> m) = <[k := x]> m.
Proof. apply insert_insert_eq. Qed.

Definition ejected_entry (v : VolumeExternal) : VolumeExternal := Vol_SetUmountResult "" (Vol_SetState EJECTING v).
Lemma restore_entry v vols (vols2 : gmap string VolumeExternal) :
  vols2 = <[vol_id v := ejected_entry v]> vols ->
  alter (Vol_SetState (vol_state v)) (vol_id v)
    (alter (fun v => Vol_SetUmountResult "umountFail" (Vol_SetState EJECTING v)) (vol_id v) vols2) =
  <[vol_id v := unmount_failed_entry v]> vols.
Proof.
  intros ->. rewrite (alter_lookup _ (vol_id v) (ejected_entry v) (<[_ := _]> _)) by apply lookup_insert_eq. rewrite insert_twice.
  erewrite alter_lookup by apply lookup_insert_eq. rewrite insert_twice. f_equal. by destruct v as [[]].
Qed.

(** The end of a failed unmount. *)
Lemma runs_unmount_fail v w (ret : Z) (Q : Z -> Shared -> St -> list Act -> Prop) sh st tr vols :
  sh_vols sh = <[vol_id v := ejected_entry v]> vols ->
  (forall sh' a, sh_disks sh' = sh_disks sh -> sh_vols sh' = <[vol_id v := unmount_failed_entry v]> vols -> Q ret sh' st (AEvt a :: tr)) ->
  runs (E := E) (let! (_, x) := NotifyVolumeEjecting (vol_id v) w "umountFail" in
                 let! _ := RestoreVolumeState (vol_id v) x (vol_state v) in sret ret) Q sh st tr.
Proof.
  intros Hs H. apply runs_bind, runs_NotifyVolumeEjecting. intros eject2 ev2. unfold RestoreVolumeState. seq_auto.
  apply H; [done|]. by apply restore_entry.
Qed.

Lemma runs_DoUnmountVolume v force (Q : Z -> Shared -> St -> list Act -> Prop) sh st tr :
  sh_vols sh !! vol_id v = Some v ->
  (forall r sh' st' tr', sh_disks sh' = sh_disks sh -> unmount_result v r (sh_vols sh) (sh_vols sh') ->
     grows (force_le (force && negb (on_internal_disk sh v))) tr tr' -> Q r sh' st' tr') ->
  runs (E := E) (DoUnmountVolume v force) Q sh st tr.
Proof.
  intros Hv H. unfold DoUnmountVolume. apply runs_bind, runs_SaveVolumeFreeSize. intros n b tr1 Hg1.
  change (vol_id (Vol_SetFreeSize n v)) with (vol_id v).
  apply runs_bind, runs_NotifyVolumeEjecting. intros eject ev1. cbn beta iota.
  set (sh2 := upd_vols _ _). apply runs_bind, runs_get_sh, runs_bind.
  assert (Hsh2 : sh_vols sh2 = <[vol_id v := ejected_entry v]> (sh_vols sh)) by exact (alter_lookup eject _ v _ Hv).
  assert (Hd2 : sh_disks sh2 = sh_disks sh) by done.
  assert (Hpause : forall (Q' : unit -> Shared -> St -> list Act -> Prop) (c : bool) tr2,
    (forall tr3, grows (force_le false) tr2 tr3 -> Q' tt sh2 st tr3) ->
    runs (E := E) (if c then let! _ := call lk_none (SleepSeconds 1) in sret tt else yield lk_none) Q' sh2 st tr2).
  { intros Q' c tr2 HQ. seq_auto; apply HQ; grow. }
  apply Hpause. intros tr3 Hg3. apply runs_bind, runs_ResolveUnmountForceFlag. intros [err1 f] b2 st4 tr4 Hg4 Hf. cbn in Hf.
  assert (Hg : grows (force_le (force && negb (on_internal_disk sh v))) tr tr4).
  { apply (grows_mono (force_le false)); [intros a; by apply force_le_weaken|]. grow. }
  seq_step.
  - apply (runs_unmount_fail v _ _ _ _ _ _ (sh_vols sh)); [done|]. intros sh' a Hd Hs. bsimp.
    apply H; [exact Hd|by right|by apply grows_cons].
  - bsimp. specialize (Hf ltac:(done)). apply runs_bind, runs_UnmountVolumeMountPoints. intros err b3 tr5 Hg5.
    assert (Hg' : grows (force_le (force && negb (on_internal_disk sh v))) tr tr5).
    { etrans; [exact Hg|]. rewrite Hf in Hg5. exact Hg5. }
    seq_step.
    + apply (runs_unmount_fail v _ _ _ _ _ _ (sh_vols sh)); [done|]. intros sh' a Hd Hs. bsimp.
      apply H; [exact Hd|by right|by apply grows_cons].
    + apply runs_bind, runs_PublishUnmounted. intros ev2. seq_step. seq_step. cbn [sh_vols with_ready upd_sdReady].
      rewrite Hsh2, lookup_insert_eq. change (is_mtp_ptp _) with (is_mtp_ptp (vol_fsType v)). apply runs_bind.
      destruct (is_mtp_ptp (vol_fsType v)) eqn:Hm; apply runs_set_sh, runs_ret; apply H; try done; try by apply grows_cons.
      * left. split; [done|]. rewrite Hm. transitivity (delete (vol_id v) (sh_vols sh2)); [done|]. rewrite Hsh2. apply delete_insert_eq.
      * left. split; [done|]. rewrite Hm. transitivity (<[vol_id v := Vol_SetState UNMOUNTED (Vol_SetPath "" (ejected_entry v))]> (sh_vols sh2)); [done|].
        rewrite Hsh2, insert_twice. f_equal.
Qed.
End unmount.

(** ** Mount *)
(** Only the entry [id] may differ, and it is still there. *)
Definition touches (id : string) (sh sh' : Shared) : Prop :=
  sh_disks sh' = sh_disks sh /\ (forall j, j <> id -> sh_vols sh' !! j = sh_vols sh !! j) /\
  (is_Some (sh_vols sh !! id) -> is_Some (sh_vols sh' !! id)).
(** Its state is still one a mount may start from. *)
Definition keeps_mountable (id : string) (sh sh' : Shared) : Prop :=
  forall v, sh_vols sh !! id = Some v -> mountable_state (vol_state v) = true ->
    exists v', sh_vols sh' !! id = Some v' /\ mountable_state (vol_state v') = true.
Lemma touches_refl id sh b : touches id sh (with_ready b sh).
Proof. done. Qed.
Lemma touches_trans id a b c : touches id a b -> touches id b c -> touches id a c.
Proof.
  intros (Hd & Ho & Hi) (Hd' & Ho' & Hi'). split; [congruence|]. split; [|auto]. intros j Hj. rewrite Ho' by done. by apply Ho.
Qed.
Lemma keeps_mountable_trans id a b c : keeps_mountable id a b -> keeps_mountable id b c -> keeps_mountable id a c.
Proof. intros H H' v Hv Hm. destruct (H v Hv Hm) as (v' & Hv' & Hm'). by apply (H' v'). Qed.
Lemma touches_alter id f b sh : touches id sh (upd_vols (alter f id) (with_ready b sh)).
Proof.
  split; [done|]. split; cbn.
  - intros j Hj. by apply lookup_alter_ne.
  - intros [v Hv]. rewrite lookup_alter_eq, Hv. by eexists.
Qed.
Lemma keeps_mountable_alter id f b sh :
  (forall v, mountable_state (vol_state v) = true -> mountable_state (vol_state (f v)) = true) ->
  keeps_mountable id sh (upd_vols (alter f id) (with_ready b sh)).
Proof. intros Hf v Hv Hm. exists (f v). cbn. rewrite lookup_alter_eq, Hv. split; [done|]. by apply Hf. Qed.
Lemma keeps_mountable_refl id b sh : keeps_mountable id sh (with_ready b sh).
Proof. intros v Hv Hm. by exists v. Qed.

Section mount.
Context {E St : Type} {EV : Env E} {PS : PathStore St} {JT : JsonText} {SQ : Sequential E}.
Implicit Types (sh : Shared) (st : St) (tr : list Act).

Lemma runs_EnsureFsUuidReady v (Q : Z * VolumeExternal * string -> Shared -> St -> list Act -> Prop) sh st tr :
  (forall err v' u sh' tr', touches (vol_id v) sh sh' -> keeps_mountable (vol_id v) sh sh' -> grows Any tr tr' ->
     vol_id v' = vol_id v -> vol_diskId v' = vol_diskId v -> vol_state v' = vol_state v -> Q (err, v', u) sh' st tr') ->
  runs (E := E) (EnsureFsUuidReady v) Q sh st tr.
Proof.
  intros H. unfold EnsureFsUuidReady, Sd_ReadMetadata.
  assert (H0 : forall err u tr', grows Any tr tr' -> Q (err, v, u) sh st tr').
  { intros err u tr' Hg. rewrite <- (with_ready_self sh). apply H; [apply touches_refl|apply keeps_mountable_refl|done..]. }
  seq_auto; try (apply H0, grows_refl).
  apply runs_sd_forward. intros a b tr' Hf. apply fwd_any in Hf.
  seq_auto; apply H; try done; try apply keeps_mountable_refl; [apply touches_alter|by apply keeps_mountable_alter].
Qed.

Lemma ComputeVolumeMountPolicy_local d f : local_op (E := E) (St := St) (ComputeVolumeMountPolicy d f).
Proof. local_tac. Qed.

Lemma runs_set_state_both id (s : VolumeState) v (Q : VolumeExternal -> Shared -> St -> list Act -> Prop) sh st tr :
  Q (Vol_SetState s v) (upd_vols (alter (Vol_SetState s) id) sh) st tr -> runs (E := E) (set_state_both id s v) Q sh st tr.
Proof. intros H. unfold set_state_both, SetVolumeStateLocked. by seq_auto. Qed.
Lemma runs_PublishVolumeResult lk (s : VolumeState) v (Q : unit -> Shared -> St -> list Act -> Prop) sh st tr :
  (forall tr', grows Any tr tr' -> Q tt sh st tr') -> runs (E := E) (PublishVolumeResult lk s v) Q sh st tr.
Proof. intros H. unfold PublishVolumeResult. seq_auto; apply H; [by apply grows_cons|apply grows_refl]. Qed.

(** A check before a mount: on success the entry is [UNMOUNTED] again. *)
Lemma touches_set_state id (s : VolumeState) sh sh' : touches id sh sh' -> touches id sh (upd_vols (alter (Vol_SetState s) id) sh').
Proof. intros H. eapply touches_trans; [exact H|]. rewrite <- (with_ready_self sh') at 2. apply touches_alter. Qed.
Lemma keeps_mountable_unmounted id sh sh' :
  touches id sh sh' -> keeps_mountable id sh (upd_vols (alter (Vol_SetState UNMOUNTED) id) sh').
Proof.
  intros (_ & _ & Hi) v Hv Hm. destruct (Hi (mk_is_Some _ _ Hv)) as [v' Hv'].
  exists (Vol_SetState UNMOUNTED v'). cbn. by rewrite lookup_alter_eq, Hv'.
Qed.

Lemma touches_id id sh : touches id sh sh.
Proof. done. Qed.
Lemma touches_ready id b sh sh' : touches id sh sh' -> touches id sh (with_ready b sh').
Proof. intros H. eapply touches_trans; [exact H|apply touches_refl]. Qed.
Ltac touch := repeat first [ apply touches_set_state | apply touches_ready | assumption | apply touches_id ].
Ltac seq_hook ::=
  lazymatch goal with
  | |- runs (set_state_both _ _ _) _ _ _ _ => apply runs_set_state_both
  | |- runs (PublishVolumeResult _ _ _) _ _ _ _ => apply runs_PublishVolumeResult; intros
  | |- runs (sd_simple _ _) _ _ _ _ =>
      apply runs_sd_simple; let r := fresh "ret" in let b := fresh "b" in let t := fresh "tr" in let H := fresh "Hf" in
      intros r b t H; apply fwd_any in H
  end.

Lemma runs_check_before_mount v id f (Q : Z * VolumeExternal -> Shared -> St -> list Act -> Prop) sh st tr :
  (forall (err : Z) v' sh' tr', touches id sh sh' -> (err = E_OK -> keeps_mountable id sh sh') -> grows Any tr tr' ->
     vol_id v' = vol_id v -> vol_diskId v' = vol_diskId v -> Q (err, v') sh' st tr') ->
  runs (E := E) (check_before_mount v id f) Q sh st tr.
Proof.
  intros H. unfold check_before_mount, Sd_Check, Sd_Repair. seq_auto.
  all: apply H; try done; [touch| |any].
  all: intros; bsimp; try done; apply keeps_mountable_unmounted; touch.
Qed.

Lemma ResolveVoldataMountPath_tables u : tables_op (E := E) (St := St) (ResolveVoldataMountPath u).
Proof. tables_tac. Qed.
Lemma BuildMountDataPath_tables p u : tables_op (E := E) (St := St) (BuildMountDataPath p u).
Proof. tables_tac. Qed.
Lemma MountUsbFuseIfNeeded_tables v f u b : tables_op (E := E) (St := St) (MountUsbFuseIfNeeded v f u b).
Proof. tables_tac. Qed.
Lemma RollbackFuseMount_tables v u : tables_op (E := E) (St := St) (RollbackFuseMount v u).
Proof. tables_tac. Qed.
Lemma undo_data_mount_tables v p : tables_op (E := E) (St := St) (undo_data_mount v p).
Proof. tables_tac. Qed.
Lemma PublishVolumeChange_tables lk s v : tables_op (E := E) (St := St) (PublishVolumeChange lk s v).
Proof. tables_tac. Qed.
Lemma ReadPersist_tables b : tables_op (E := E) (St := St) (ReadPersistUsbReadonlyMountFlagBits b).
Proof. tables_tac. Qed.
Lemma NotifyVolumeMounted_tables d v p : tables_op (E := E) (St := St) (NotifyVolumeMounted d v p).
Proof. tables_tac. Qed.

Lemma keeps_mountable_id id sh : keeps_mountable id sh sh.
Proof. intros v Hv Hm. by exists v. Qed.
Lemma keeps_mountable_ready id b sh sh' : keeps_mountable id sh sh' -> keeps_mountable id sh (with_ready b sh').
Proof. intros H. eapply keeps_mountable_trans; [exact H|apply keeps_mountable_refl]. Qed.
Ltac keepm := repeat first [ apply keeps_mountable_ready | assumption | apply keeps_mountable_id ].

Ltac seq_tables :=
  lazymatch goal with
  | |- runs ?m _ _ _ _ => let H := fresh in assert (H : tables_op m) by (tables_tac; eauto with tables); apply H; clear H
  end.

(** The mount request that succeeded, for the device of [v] at the path of [v']. *)
Definition mount_sent (v v' : VolumeExternal) tr tr' : Prop :=
  exists fs flags data, during tr tr' (AReq (SdMount (dev_block (vol_id v)) (vol_path v') fs flags data) E_OK).
Definition mounted_as (v v' : VolumeExternal) tr tr' : Prop := vol_state v' = MOUNTED /\ mount_sent v v' tr tr'.
Lemma mounted_as_before R v v' a b c : grows R a b -> mounted_as v v' b c -> mounted_as v v' a c.
Proof. intros Hg (Hs & fs & fl & d & H). split; [done|]. exists fs, fl, d. by eapply during_before. Qed.

Lemma default_description_keeps f v :
  let v' := ApplyDefaultVolumeDescriptionIfUnset f v in
  vol_id v' = vol_id v /\ vol_state v' = vol_state v /\ vol_path v' = vol_path v /\ vol_diskId v' = vol_diskId v.
Proof. unfold ApplyDefaultVolumeDescriptionIfUnset. by repeat case_match. Qed.

Lemma touches_set_path v p sh x :
  sh_vols sh !! vol_id v = Some x ->
  let sh' := upd_vols (<[vol_id v := Vol_SetPath p x]>) sh in touches (vol_id v) sh sh' /\ keeps_mountable (vol_id v) sh sh'.
Proof.
  intros Hx. split.
  - split; [done|]. split; cbn; [intros; by apply lookup_insert_ne|]. intros _. rewrite lookup_insert_eq. by eexists.
  - intros v0 Hv Hm. rewrite Hx in Hv. injection Hv as <-. exists (Vol_SetPath p x). cbn. by rewrite lookup_insert_eq.
Qed.

Lemma runs_ExecuteVolumeDataMount v f p (Q : Z * VolumeExternal -> Shared -> St -> list Act -> Prop) sh st tr :
  (forall (err : Z) v' sh' st' tr', touches (vol_id v) sh sh' -> keeps_mountable (vol_id v) sh sh' -> grows Any tr tr' ->
     vol_id v' = vol_id v -> (err = E_OK -> mounted_as v v' tr tr') -> Q (err, v') sh' st' tr') ->
  runs (E := E) (ExecuteVolumeDataMount v f p) Q sh st tr.
Proof.
  intros H. unfold ExecuteVolumeDataMount, Sd_Mount, Sd_Unmount, MountVolumeSetPath.
  apply runs_bind, ReadPersist_tables. intros bits b1 st1 tr1 H1. cbv zeta. apply runs_bind, runs_sd_simple.
  intros err b2 tr2 Hf. pose proof (fwd_any _ _ _ _ Hf) as H2. seq_step.
  { apply runs_bind, undo_data_mount_tables. intros [] b3 st3 tr3 H3. seq_auto. bsimp.
    apply H; [touch|keepm|any|done|done]. }
  bsimp. subst err. apply fwd_ok in Hf. apply runs_bind.
  set (v1 := Vol_SetState MOUNTED _). change (vol_id v1) with (vol_id v). seq_step. seq_step.
  cbn [sh_vols with_ready upd_sdReady]. destruct (sh_vols sh !! vol_id v) as [x|] eqn:Hx.
  - seq_step. seq_step. seq_step. seq_step. seq_step. change (negb (ERR_OK =? ERR_OK)) with false. cbv iota.
    destruct (touches_set_path v (mdp_dataMountPath p) sh x Hx) as [Ht Hk].
    set (sh3 := upd_vols _ (with_ready b2 (with_ready b1 sh))).
    assert (Ht3 : touches (vol_id v) sh sh3) by exact Ht. assert (Hk3 : keeps_mountable (vol_id v) sh sh3) by exact Hk.
    clearbody sh3. apply runs_bind. seq_tables. intros [] b4 st4 tr4 H4. cbv zeta. apply runs_bind, PublishVolumeChange_tables.
    intros [] b5 st5 tr5 H5. apply runs_ret.
    destruct (default_description_keeps (mdp_diskFlag p) (Vol_SetFlags (mdp_diskFlag p) v1)) as (Hi & Hs & Hp & _).
    apply H; [touch|keepm|any|by rewrite Hi|]. intros _. split; [by rewrite Hs|]. exists f. do 2 eexists.
    rewrite Hp. apply (during_after Any _ tr2); [any|]. apply (during_before Any _ tr1); [any|exact Hf].
  - seq_step. change (negb _) with true. cbv iota. seq_auto.
    apply undo_data_mount_tables. intros [] b4 st4 tr4 H4. seq_auto. apply H; [touch|keepm|any|done|done].
Qed.

Definition mount_post v sh tr (Q : Z * VolumeExternal -> Shared -> St -> list Act -> Prop) : Prop :=
  forall (err : Z) v' sh' st' tr', touches (vol_id v) sh sh' -> (err = E_OK -> keeps_mountable (vol_id v) sh sh') ->
    grows Any tr tr' -> vol_id v' = vol_id v -> (err = E_OK -> mounted_as v v' tr tr') -> Q (err, v') sh' st' tr'.

Lemma runs_MountVolumeFilesystem v f u b (Q : Z * VolumeExternal -> Shared -> St -> list Act -> Prop) sh st tr :
  mount_post v sh tr Q -> runs (E := E) (MountVolumeFilesystem v f u b) Q sh st tr.
Proof.
  intros H. unfold MountVolumeFilesystem. apply runs_bind, ComputeVolumeMountPolicy_local. intros p tr1 H1%(grows_mono _ Any); [|done].
  apply runs_bind, MountUsbFuseIfNeeded_tables. intros [fuseErr fuse] b2 st2 tr2 H2. seq_step.
  { bsimp. apply runs_ret, H; [touch|done|any|done|done]. }
  apply runs_bind, BuildMountDataPath_tables. intros [path created] b3 st3 tr3 H3. seq_step.
  { apply runs_bind. seq_tables. intros [] b4 st4 tr4 H4. apply runs_ret, H; [touch|done|any|done|done]. }
  seq_step. seq_step. cbv zeta. apply runs_ExecuteVolumeDataMount. intros err v' sh' st' tr' Ht Hk Hg Hi Hm.
  apply H; [exact Ht|intros _; exact Hk|any|done|]. intros He. apply (mounted_as_before Any _ _ _ tr3); [any|auto].
Qed.

Lemma runs_MountVolumeEntry v b (Q : Z * VolumeExternal -> Shared -> St -> list Act -> Prop) sh st tr :
  mount_post v sh tr Q -> runs (E := E) (MountVolumeEntry v (vol_id v) b) Q sh st tr.
Proof.
  intros H. unfold MountVolumeEntry. apply runs_bind, runs_EnsureFsUuidReady. intros err v1 u sh1 tr1 Ht1 Hk1 H1 Hi1 Hd1 Hs1.
  cbv zeta. seq_step.
  { bsimp. apply runs_ret, H; [done|by intros|done|done|done]. }
  apply runs_bind, ComputeVolumeMountPolicy_local. intros p tr2 H2%(grows_mono _ Any); [|done]. apply runs_bind.
  assert (Hcheck : forall Q' : Z * VolumeExternal -> Shared -> St -> list Act -> Prop,
    (forall (err : Z) v2 sh' tr', touches (vol_id v) sh sh' -> (err = E_OK -> keeps_mountable (vol_id v) sh sh') -> grows Any tr tr' ->
     vol_id v2 = vol_id v -> Q' (err, v2) sh' st tr') ->
    runs (E := E) (if useVoldataPath p then check_before_mount v1 (vol_id v) (GetFsTypeString v1) else sret (errno E_OK, v1)) Q' sh1 st tr2).
  { intros Q' HQ. destruct (useVoldataPath p).
    - apply runs_check_before_mount. intros e v2 sh2 tr3 Ht2 Hk2 H3 Hi2 Hd2. apply HQ; [by eapply touches_trans| |any|congruence].
      intros He. eapply keeps_mountable_trans; eauto.
    - apply runs_ret, HQ; [done|done|any|done]. }
  apply Hcheck. intros checkErr v2 sh2 tr3 Ht2 Hk2 H3 Hi2. seq_step.
  { bsimp. apply runs_ret, H; [done|by intros|done|done|done]. }
  bsimp. specialize (Hk2 ltac:(done)).
  apply runs_bind, runs_MountVolumeFilesystem. intros e3 v3 sh3 st3 tr4 Ht3 Hk3 H4 Hi3 Hm3. rewrite Hi2 in *.
  assert (Htr : grows Any tr tr4) by any.
  seq_step; bsimp; apply runs_ret, H; try done; try congruence; try (by eapply touches_trans).
  - intros He. eapply keeps_mountable_trans; [exact Hk2|auto].
  - intros He. apply (mounted_as_before Any _ _ _ tr3); [any|]. destruct (Hm3 He) as (Hst & fs & fl & dt & Hin).
    split; [done|]. exists fs, fl, dt. by rewrite <- Hi2.
Qed.
End mount.

(** * Properties *)
Section theorems.
Context {E St : Type} {EV : Env E} {PS : PathStore St} {JT : JsonText} {SQ : Sequential E}.
Implicit Types (w : World E St).

(** ** Device management takes the mount over *)
(** The system parameter was read as ["true"]. *)
Definition param_true (key : string) : Prop :=
  exists e : E, let a := (env_answer e (GetParameter key)).1 in an_bool a = true /\ an_str a = "true".
Definition edm_notice (v : VolumeExternal) (d : Disk) : Req :=
  EdmNotifyDevice (disk_diskType d) (vol_path v) (vol_id v) (vol_state v =? MOUNTED) (disk_vendorId d) (disk_productId d)
    (disk_serialNumber d).
(** The device is an enterprise device that intercepts mounts, the call does not come from
    device management, the volume is on an SD card, USB or CD disk, and the device management
    service was told about it and answered that it is responsible. *)
Definition taken_over (p : MountParam) (v : VolumeExternal) (sh : Shared) (tr tr' : list Act) : Prop :=
  param_true "const.edm.is_enterprise_device" /\ param_true "persist.edm.enable_external_storage_mount_intercept" /\
  mp_fromEdmMount p = false /\
  exists d (e : E), sh_disks sh !! vol_diskId v = Some d /\ IsEdmManagedDiskType (disk_diskType d) = true /\
    an_bool (env_answer e (edm_notice v d)).1 = true /\ an_ret (env_answer e (edm_notice v d)).1 = ERR_OK /\
    during tr tr' (AReq (edm_notice v d) ERR_OK).
Lemma taken_over_before R p v sh a b c : grows R a b -> taken_over p v sh b c -> taken_over p v sh a c.
Proof.
  intros Hg (H1 & H2 & H3 & d & e & Hd & Ht & Ha & Hr & Hin). split; [done|]. split; [done|]. split; [done|].
  exists d, e. do 4 (split; [done|]). by eapply during_before.
Qed.
Lemma runs_sys_GetParameter lk key (Q : string -> Shared -> St -> list Act -> Prop) sh st tr :
  (forall s tr', grows is_local tr tr' -> (s = "true" -> param_true key) -> Q s sh st tr') ->
  runs (E := E) (sys_GetParameter lk key "") Q sh st tr.
Proof.
  intros H. unfold sys_GetParameter. apply runs_bind, runs_call_answer. intros e. apply runs_ret, H.
  - apply grows_cons; [done|apply grows_refl].
  - destruct (an_bool _) eqn:Hb; [|done]. intros Hs. by exists e.
Qed.
Lemma runs_IsEnterpriseDevice (Q : bool -> Shared -> St -> list Act -> Prop) sh st tr :
  (forall b tr', grows is_local tr tr' -> (b = true -> param_true "const.edm.is_enterprise_device") -> Q b sh st tr') ->
  runs (E := E) IsEnterpriseDevice Q sh st tr.
Proof.
  intros H. apply runs_bind, runs_sys_GetParameter. intros s tr' Hg Hs. apply runs_ret, H; [done|]. intros. bsimp. auto.
Qed.
Lemma runs_IsInterceptEnabled (Q : bool -> Shared -> St -> list Act -> Prop) sh st tr :
  (forall b tr', grows is_local tr tr' -> (b = true -> param_true "persist.edm.enable_external_storage_mount_intercept") ->
     Q b sh st tr') ->
  runs (E := E) IsInterceptEnabled Q sh st tr.
Proof.
  intros H. apply runs_bind, runs_IsEnterpriseDevice. intros [] tr1 H1 _; [|by apply runs_ret, H].
  apply runs_bind, runs_sys_GetParameter. intros s tr2 H2 Hs. apply runs_ret, H; [by transitivity tr1|]. intros. bsimp. auto.
Qed.
Lemma QueryAndAppend_type d (w : World E St) : disk_diskType (QueryAndAppendEncryptionStatusUnlocked d w).1 = disk_diskType d.
Proof.
  unfold QueryAndAppendEncryptionStatusUnlocked, sbind, get_vols, get_sh, sget, sret. destruct (disk_volumeIds d); [done|].
  destruct (str_empty _); [done|]. destruct (QueryEncryptionStatus _ _ w) as [[z|] w']; [|done].
  unfold TryCopyByDiskId, get_sh, sget. by destruct (sh_blockInfo _ !! _).
Qed.
Lemma runs_GetDiskById_managed d (Q : option Disk -> Shared -> St -> list Act -> Prop) sh st tr :
  (forall o tr', grows is_local tr tr' ->
     (forall out, o = Some out -> IsEdmManagedDiskType (disk_diskType out) = true ->
       exists disk, sh_disks sh !! d = Some disk /\ forall v, edm_notice v out = edm_notice v disk /\ disk_diskType out = disk_diskType disk) ->
     Q o sh st tr') ->
  runs (E := E) (GetDiskById d) Q sh st tr.
Proof.
  intros H. unfold GetDiskById. seq_step. seq_step. seq_step. seq_step. destruct (sh_disks sh !! d) as [disk|] eqn:Hd.
  2:{ apply runs_ret, H; [apply grows_refl|done]. }
  cbv zeta. seq_step.
  - assert (Hl : local_op (E := E) (St := St) (QueryAndAppendEncryptionStatusUnlocked (AttachVolumeIdsToDisk (sh_vols sh) disk))).
    { local_tac. }
    apply runs_bind.
    assert (Ht : runs (E := E) (QueryAndAppendEncryptionStatusUnlocked (AttachVolumeIdsToDisk (sh_vols sh) disk))
       (fun out sh' st' tr' => disk_diskType out = disk_diskType disk /\ sh' = sh /\ st' = st /\ grows is_local tr tr') sh st tr).
    { intros e. split; [|by apply (Hl (fun _ sh' st' tr' => sh' = sh /\ st' = st /\ grows is_local tr tr'))].
      exact (QueryAndAppend_type _ (mkWorld sh st e tr)). }
    eapply runs_conseq; [exact Ht|]. cbn beta. intros out sh' st' tr' (Hout & -> & -> & Hg).
    apply runs_bind, runs_yield, runs_ret, H; [done|]. intros out' [= <-]. rewrite Hout.
    change (disk_diskType (AttachVolumeIdsToDisk (sh_vols sh) disk)) with (disk_diskType disk) in *. intros Hm. exfalso.
    apply orb_true_iff in Heqb as [Hd'|Hd']; apply Z.eqb_eq in Hd'; rewrite Hd' in Hm; discriminate Hm.
  - apply runs_bind, runs_yield, runs_ret, H; [apply grows_refl|]. intros out [= <-] _. exists disk. split; [done|]. by intros v.
Qed.
Lemma runs_IsEdmControlMountEnabled v p (Q : bool -> Shared -> St -> list Act -> Prop) sh st tr :
  (forall b tr', grows is_local tr tr' -> (b = true -> taken_over p v sh tr tr') -> Q b sh st tr') ->
  runs (E := E) (IsEdmControlMountEnabled v p) Q sh st tr.
Proof.
  intros H. apply runs_bind, runs_IsEnterpriseDevice. intros [] tr1 H1 He; cbn [negb]; [|by apply runs_ret, H].
  apply runs_bind, runs_IsInterceptEnabled. intros [] tr2 H2 Hi; cbn [negb].
  2:{ apply runs_ret, H; [by transitivity tr1|done]. }
  destruct (mp_fromEdmMount p) eqn:Hp; [apply runs_ret, H; [by transitivity tr1|done]|].
  apply runs_bind, runs_GetDiskById_managed. intros o tr3 H3 Hd.
  assert (H13 : grows is_local tr tr3) by (transitivity tr1; [done|by transitivity tr2]).
  destruct o as [out|]; [|by apply runs_ret, H]. destruct (IsEdmManagedDiskType (disk_diskType out)) eqn:Hm; cbn [negb].
  2:{ by apply runs_ret, H. }
  destruct (Hd out eq_refl Hm) as (disk & Hdisk & Heq). destruct (Heq v) as [Hn Ht].
  apply runs_bind, runs_bind. fold (edm_notice v out). apply runs_call_answer. intros e. set (a := (env_answer e (edm_notice v out)).1).
  assert (Hg : grows is_local tr (AReq (edm_notice v out) (an_ret a) :: tr3)) by by apply grows_cons.
  seq_step; [by apply runs_ret, runs_ret, H|]. seq_step.
  { apply runs_ret, runs_ret, H; [done|]. intros. by bsimp. }
  apply runs_ret, runs_ret, H; [done|]. intros _. bsimp. split; [by apply He|]. split; [by apply Hi|]. split; [done|]. exists disk, e. split; [done|].
  rewrite <- Ht, <- Hn. do 3 (split; [done|]). apply (during_before is_local _ tr3); [done|]. unfold a in *.
  match goal with H : an_ret _ = _ |- _ => rewrite H end. apply during_cons.
Qed.

Definition mount_outcome (id : string) (p : MountParam) (r : Z) w w' : Prop :=
  match sh_vols (w_sh w) !! id with
  | None => r = E_NON_EXIST /\ w_sh w' = w_sh w /\ grows is_local (w_trace w) (w_trace w')
  | Some v =>
      if mountable_state (vol_state v) then
        touches id (w_sh w) (w_sh w') /\
        (r = E_OK -> (w_sh w' = w_sh w /\ grows is_local (w_trace w) (w_trace w') /\
                      taken_over p v (w_sh w) (w_trace w) (w_trace w')) \/
                     exists v', sh_vols (w_sh w') !! id = Some v' /\ mounted_as v v' (w_trace w) (w_trace w'))
      else (r = E_VOL_MOUNT_ERR \/ r = E_NON_EXIST) /\ w_sh w' = w_sh w /\ grows is_local (w_trace w) (w_trace w')
  end.

Lemma Mount_outcome_holds id p w :
  starts_with "vol-crypt-" id = false -> (forall v, sh_vols (w_sh w) !! id = Some v -> vol_id v = id) ->
  mount_outcome id p (Mount id p w).1 w (Mount id p w).2.
Proof.
  intros Hcrypt Hid. apply (runs_run (Mount id p)
    (fun r sh' st' tr' => mount_outcome id p r w (mkWorld sh' st' (w_env w) tr'))).
  unfold mount_outcome, Mount. cbn [w_sh w_store w_trace]. set (sh := w_sh w) in *. set (tr := w_trace w).
  unfold sys_GetParameter. seq_step. seq_step. seq_step. intros. seq_step. seq_step.
  { apply runs_ret. destruct (sh_vols sh !! id) as [v|]; [destruct (mountable_state (vol_state v))|].
    - split; [done|]. done.
    - split; [by right|]. split; [done|]. by apply grows_cons.
    - split; [done|]. split; [done|]. by apply grows_cons. }
  seq_step. seq_step. destruct (sh_vols sh !! id) as [v|] eqn:Hv; cbv iota.
  2:{ apply runs_ret. split; [done|]. split; [done|]. by apply grows_cons. }
  specialize (Hid v eq_refl). destruct (mountable_state (vol_state v)) eqn:Hm; cbn [negb].
  2:{ apply runs_ret. split; [by left|]. split; [done|]. by apply grows_cons. }
  apply runs_bind, runs_yield, runs_bind, CheckVolId_local. intros dev tr1 H1.
  apply runs_bind, runs_IsEdmControlMountEnabled. intros [] tr2 H2 Hedm.
  { assert (Hg : grows is_local tr tr1) by (etrans; [|exact H1]; by apply grows_cons).
    apply runs_ret. split; [done|]. intros _. left. split; [done|]. split; [by transitivity tr1|].
    apply (taken_over_before is_local _ _ _ _ tr1); [done|by apply Hedm]. }
  rewrite Hcrypt, andb_false_r. cbv iota. apply runs_bind. rewrite <- Hid at 1. apply runs_MountVolumeEntry.
  intros err v' sh' st' tr' Ht Hk Hg Hi Hmnt. rewrite Hid in *. destruct Ht as (Hd & Ho & Hs). cbn beta iota.
  seq_step. seq_step. destruct (sh_vols sh' !! id) as [it|] eqn:Hit; cbv iota.
  2:{ apply runs_ret. split; [|done]. split; [done|]. split; [done|]. rewrite Hit. exact Hs. }
  assert (Hok : err = E_OK -> mountable_state (vol_state it) = true).
  { intros He. destruct (Hk He v Hv Hm) as (v2 & Hv2 & Hm2). rewrite Hit in Hv2. by injection Hv2 as <-. }
  seq_step.
  { bsimp. exfalso. rewrite Hok in *; done. }
  apply runs_bind, runs_set_sh, runs_ret. split.
  - split; [done|]. split; cbn; [intros j Hj; rewrite lookup_insert_ne by done; by apply Ho|]. rewrite lookup_insert_eq. by eexists.
  - intros He. right. exists v'. cbn. rewrite lookup_insert_eq. split; [done|].
    eapply mounted_as_before; [|by apply Hmnt]. etrans; [|exact H2]. etrans; [|exact H1]. by apply grows_cons.
Qed.

(** C6: What [Mount] does with a volume whose id does not start with
    ["vol-crypt-"] and that is stored under its own id, when no other thread runs in
    between. An unknown volume, and one that is not in a state a
    mount starts from, is refused: the tables do not change and nothing is sent to
    storage_daemon. Otherwise at most the volume's own entry changes, and success means
    one of two things. Either storage_daemon mounted the volume's own device at the path
    that the entry, now [MOUNTED], records. Or device management took the mount over: on an
    enterprise device that intercepts mounts its service was told about the volume and
    answered yes; then nothing changes and nothing is sent to storage_daemon. *)
Theorem Mount_spec id p w :
  starts_with "vol-crypt-" id = false -> (forall v, sh_vols (w_sh w) !! id = Some v -> vol_id v = id) ->
  mount_outcome id p (Mount id p w).1 w (Mount id p w).2.
Proof. apply Mount_outcome_holds. Qed.

Definition unmount_outcome (b : bool) (v : VolumeExternal) (r : Z) w w' : Prop :=
  sh_disks (w_sh w') = sh_disks (w_sh w) /\ unmount_result v r (sh_vols (w_sh w)) (sh_vols (w_sh w')) /\
  grows (force_le b) (w_trace w) (w_trace w').

(** C7: [Unmount] refuses an unknown volume and one that is not mounted
    without touching anything. Otherwise it ends in one of two ways: the entry is
    unmounted, with its path cleared, or removed when it is an MTP or PTP volume; or
    an error is returned and the entry has its previous state and path again, with the
    failure noted. No other entry changes, and the unmount is never forced. *)
Theorem Unmount_spec id w :
  (forall v, sh_vols (w_sh w) !! id = Some v -> vol_id v = id) ->
  match sh_vols (w_sh w) !! id with
  | None => Unmount id w = (errno E_NON_EXIST, w)
  | Some v => if unmountable_state (vol_state v) then unmount_outcome false v (Unmount id w).1 w (Unmount id w).2
              else Unmount id w = (errno E_VOL_UMOUNT_ERR, w)
  end.
Proof.
  intros Hid. destruct (sh_vols (w_sh w) !! id) as [v|] eqn:Hv.
  2:{ unfold Unmount, sbind, get_vols, get_sh, sget. by rewrite Hv. }
  destruct (unmountable_state (vol_state v)) eqn:Hs.
  2:{ unfold Unmount, sbind, get_vols, get_sh, sget. by rewrite Hv, Hs. }
  apply (runs_run (Unmount id) (fun r sh' st' tr' => unmount_outcome false v r w (mkWorld sh' st' (w_env w) tr'))).
  unfold Unmount. seq_step. seq_step. rewrite Hv, Hs. cbn [negb]. apply runs_bind, runs_yield.
  specialize (Hid v eq_refl). subst id. apply runs_DoUnmountVolume; [done|]. done.
Qed.

(** C22: An internal data disk is never unmounted by force: when the
    volume's disk is one, even [ForceUnmount] sends no forced unmount to
    storage_daemon; and it leaves the table as [Unmount] does. *)
Theorem ForceUnmount_spec id v w :
  sh_vols (w_sh w) !! id = Some v -> vol_id v = id ->
  unmount_outcome (negb (on_internal_disk (w_sh w) v)) v (ForceUnmount id w).1 w (ForceUnmount id w).2.
Proof.
  intros Hv <-.
  apply (runs_run (ForceUnmount (vol_id v)) (fun r sh' st' tr' => unmount_outcome _ v r w (mkWorld sh' st' (w_env w) tr'))).
  unfold ForceUnmount. seq_step. seq_step. rewrite Hv. apply runs_bind, runs_yield.
  apply runs_DoUnmountVolume; [done|]. done.
Qed.
End theorems.

Definition is_mounted (w : ExWorld) (id : string) : option (Z * string) :=
  v ← sh_vols (w_sh w) !! id; Some (vol_state v, vol_path v).
Lemma Mount_spec_witness :
  (Mount "vol-8-1" MountParam_default ex_unmounted).1 = E_OK /\
  is_mounted (Mount "vol-8-1" MountParam_default ex_unmounted).2 "vol-8-1" = Some (VolumeState_val MOUNTED, "/mnt/data/external/1234-ABCD") /\
  mount_outcome "vol-8-1" MountParam_default (Mount "vol-8-1" MountParam_default ex_unmounted).1 ex_unmounted
    (Mount "vol-8-1" MountParam_default ex_unmounted).2.
Proof.
  split; [vm_compute; reflexivity|]. split; [vm_compute; reflexivity|].
  apply (Mount_spec "vol-8-1" MountParam_default ex_unmounted).
  - reflexivity.
  - intros v H. vm_compute in H. injection H as <-. reflexivity.
Defined.
Lemma some_pair {A B} (a c : A) (b d : B) : Some (a, b) = Some (c, d) -> a = c /\ b = d.
Proof. by intros [= -> ->]. Qed.
Lemma Unmount_spec_witness :
  exists v, sh_vols (w_sh ex_mounted) !! "vol-8-1" = Some v /\ (Unmount "vol-8-1" ex_mounted).1 = E_OK /\
    unmount_outcome false v (Unmount "vol-8-1" ex_mounted).1 ex_mounted (Unmount "vol-8-1" ex_mounted).2.
Proof.
  assert (Hs : (fun v => (unmountable_state (vol_state v), vol_id v)) <$> sh_vols (w_sh ex_mounted) !! "vol-8-1" =
               Some (true, "vol-8-1")) by (vm_compute; reflexivity).
  pose proof (Unmount_spec "vol-8-1" ex_mounted) as H.
  destruct (sh_vols (w_sh ex_mounted) !! "vol-8-1") as [v|] eqn:Hv; [|discriminate Hs].
  destruct (some_pair _ _ _ _ Hs) as [Hs' Hi]. rewrite Hs' in H. exists v. split; [reflexivity|]. split; [vm_compute; reflexivity|].
  apply H. intros v0 Hv0. injection Hv0 as <-. exact Hi.
Defined.
Lemma ForceUnmount_spec_witness :
  exists v, sh_vols (w_sh ex_internal) !! "vol-8-1" = Some v /\ on_internal_disk (w_sh ex_internal) v = true /\
    unmount_outcome (negb (on_internal_disk (w_sh ex_internal) v)) v (ForceUnmount "vol-8-1" ex_internal).1 ex_internal
      (ForceUnmount "vol-8-1" ex_internal).2.
Proof.
  assert (Hs : (fun v => (on_internal_disk (w_sh ex_internal) v, vol_id v)) <$> sh_vols (w_sh ex_internal) !! "vol-8-1" =
               Some (true, "vol-8-1")) by (vm_compute; reflexivity).
  pose proof (ForceUnmount_spec "vol-8-1") as H.
  destruct (sh_vols (w_sh ex_internal) !! "vol-8-1") as [v|] eqn:Hv; [|discriminate Hs].
  destruct (some_pair _ _ _ _ Hs) as [Hs' Hi]. exists v. split; [reflexivity|]. split; [exact Hs'|]. exact (H v ex_internal Hv Hi).
Defined.
