(* ===== verification/AccessFacts.v ===== *)
(** * Access control and life cycle of the service

    What a caller without permission can achieve, how data-disk formatting is
    authorised, and when the service may unload itself. *)
From S2P Require Import Prelude CppString Types State Utils Json BlockInfo World Adapters DmQuery Events DmMount.
From S2P Require Import DmPartition DmOptical Bootstrap Provider Safety SafetyProv Seq Voldata VoldataStore.
From S2P Require Import Scenario Service.

(** The caller holds no permission, and is neither storage_daemon nor
    storage_manager: when it is a native process at all, its name or its user is
    another one. *)
Class Denied (E : Type) {EV : Env E} : Prop := {
  denied_token (e : E) p : an_bool (env_answer e (VerifyAccessToken p)).1 = false;
  denied_native (e e' : E) : an_ret (env_answer e GetNativeTokenInfo).1 = ERR_OK ->
    (an_str (env_answer e GetNativeTokenInfo).1, an_int (env_answer e' GetCallingUid).1) ∉
      [("storage_daemon", STORAGEDAEMON_UID); ("storage_manager", STORAGE_MANAGER_UID)];
}.
(** Equal but for the counters of the provider. *)
Definition same_tables (sh sh' : Shared) : Prop := exists p, sh' = upd_prov (fun _ => p) sh.
Lemma same_tables_refl sh : same_tables sh sh.
Proof. exists (sh_prov sh). by destruct sh. Qed.

Section denied.
Context {E St : Type} {EV : Env E} {PS : PathStore St} {JT : JsonText} {SQ : Sequential E} {DN : Denied E}.
Implicit Types (sh : Shared) (st : St) (tr : list Act).
Notation M := (State (World E St)).

(** [m] is refused: an error, and only local requests. *)
Definition refused {A} (m : M A) (bad : A -> Prop) : Prop :=
  forall (Q : A -> Shared -> St -> list Act -> Prop) sh st tr,
    (forall a tr', bad a -> grows is_local tr tr' -> Q a sh st tr') -> runs m Q sh st tr.
Lemma VerifyCallerPermission_refused p : refused (VerifyCallerPermission p) (fun b => b = false).
Proof.
  intros Q sh st tr H. apply runs_bind, runs_call_answer. intros e. apply runs_ret, H; [apply denied_token|].
  apply grows_cons; [done|apply grows_refl].
Qed.
Lemma VerifyNativeCallerMatches_refused n u :
  (n, u) ∈ [("storage_daemon", STORAGEDAEMON_UID); ("storage_manager", STORAGE_MANAGER_UID)] ->
  refused (VerifyNativeCallerMatches n u) (fun b => b = false).
Proof.
  intros Hnu Q sh st tr H. apply runs_bind, runs_call_answer. intros e. seq_step.
  { apply runs_ret, H; [done|]. apply grows_cons; [done|apply grows_refl]. }
  apply runs_bind, runs_call_answer. intros e'. bsimp. pose proof (denied_native e e' Heqb) as Hd.
  assert (Hg : grows is_local tr (AReq GetCallingUid (an_ret (env_answer e' GetCallingUid).1) ::
    AReq GetNativeTokenInfo (an_ret (env_answer e GetNativeTokenInfo).1) :: tr)).
  { repeat (apply grows_cons; [done|]). apply grows_refl. }
  seq_step; apply runs_ret; [by apply H|]. exfalso. bsimp. apply Hd. naive_solver.
Qed.
Lemma IsCallingSystemApp_local : local_op (E := E) (St := St) IsCallingSystemApp.
Proof. local_tac. Qed.
Lemma Auth_GetCallingUid_local : local_op (E := E) (St := St) Auth_GetCallingUid.
Proof. local_tac. Qed.

Lemma auth_permission_refused p : refused (auth_permission p) (fun r => r <> E_OK).
Proof.
  intros Q sh st tr H. apply runs_bind, IsCallingSystemApp_local. intros [] tr1 H1; cbn [negb]; [|by apply runs_ret, H].
  apply runs_bind, VerifyCallerPermission_refused. intros b tr2 -> H2. apply runs_ret, H; [done|]. by transitivity tr1.
Qed.
Lemma auth_manager_refused p : refused (auth_manager p) (fun r => r <> E_OK).
Proof.
  intros Q sh st tr H. apply runs_bind, IsCallingSystemApp_local. intros [] tr1 H1; cbn [negb]; [|by apply runs_ret, H].
  apply runs_bind, VerifyNativeCallerMatches_refused; [set_solver|]. intros b tr2 -> H2.
  apply runs_bind, VerifyCallerPermission_refused. intros b tr3 -> H3. apply runs_ret, H; [done|].
  transitivity tr1; [done|]. by transitivity tr2.
Qed.
Lemma auth_crypto_refused : refused auth_crypto (fun r => r <> E_OK).
Proof.
  intros Q sh st tr H. apply runs_bind, Auth_GetCallingUid_local. intros u tr1 H1. seq_step; [by apply runs_ret, H|].
  apply runs_bind, VerifyCallerPermission_refused. intros b tr2 -> H2. apply runs_ret, H; [done|]. by transitivity tr1.
Qed.

(** Whatever is behind the check does not run. *)
Lemma guarded_refused {A} (check : M Z) (bad : Z -> A) (k : M A) :
  refused check (fun r : Z => r <> E_OK) -> refused (guarded check bad k) (fun a => exists r : Z, r <> E_OK /\ a = bad r).
Proof.
  intros Hc Q sh st tr H. apply runs_bind, Hc. intros r tr' Hr Hg. apply Z.eqb_neq in Hr. seq_step; [|by bsimp].
  bsimp. apply runs_ret, H; [by exists r|done].
Qed.

Definition harmless {A} (m : M A) : Prop := forall (Q : A -> Shared -> St -> list Act -> Prop) sh st tr,
  (forall a sh' tr', same_tables sh sh' -> grows is_local tr tr' -> Q a sh' st tr') -> runs m Q sh st tr.
Lemma refused_harmless {A} (m : M A) bad : refused m bad -> harmless m.
Proof. intros Hm Q sh st tr H. apply Hm. intros a tr' _ Hg. apply H; [apply same_tables_refl|done]. Qed.
Lemma local_harmless {A} (m : M A) : local_op m -> harmless m.
Proof. intros Hm Q sh st tr H. apply Hm. intros a tr' Hg. apply H; [apply same_tables_refl|done]. Qed.
Lemma daemon_callback_harmless op : harmless (daemon_callback op).
Proof.
  intros Q sh st tr H. unfold daemon_callback, BeginPendingStorageDaemonCallback, EndPendingStorageDaemonCallback.
  seq_step. seq_step. seq_step. apply VerifyNativeCallerMatches_refused; [set_solver|]. intros b tr' -> Hg. cbn [negb].
  seq_auto. apply H; [|done]. by eexists.
Qed.
Lemma out_harmless {A} (m : M A) : harmless m -> harmless (let! _ := m in sret tt).
Proof. intros Hm Q sh st tr H. apply runs_bind, Hm. intros a sh' tr' Hs Hg. by apply runs_ret, H. Qed.
Lemma fin_harmless e : harmless (fin e).
Proof. apply local_harmless, local_ret. Qed.
Lemma sret_harmless {A} (a : A) : harmless (sret a).
Proof. apply local_harmless, local_ret. Qed.

Definition client_call (c : ServiceCall) : bool :=
  match c with SvcStart | SvcStop | SvcIdleTick | SvcDaemonDied => false | _ => true end.

Lemma external_infos_harmless {A} (k : M A) a0 :
  harmless (let! ok := VerifyCallerPermission PERMISSION_GET_STORAGE_VOLUME_INFO in if negb ok then sret a0 else k).
Proof.
  intros Q sh st tr H. apply runs_bind, VerifyCallerPermission_refused. intros b tr' -> Hg. apply runs_ret, H; [|done].
  apply same_tables_refl.
Qed.
Lemma uevent_harmless r : harmless (Provider_OnBlockDiskUevent r).
Proof.
  intros Q sh st tr H. unfold Provider_OnBlockDiskUevent.
  assert (H0 : Q (errno E_SA_IS_UNLOADING) sh st tr) by (apply H; [apply same_tables_refl|apply grows_refl]).
  seq_step. seq_step. seq_step; [by apply runs_ret|]. seq_step. seq_step. seq_step. seq_step. seq_step; [by apply runs_ret|].
  apply daemon_callback_harmless. exact H.
Qed.
Lemma client_call_harmless (pc : bool) (c : ServiceCall) : client_call c = true -> harmless (run_call pc c).
Proof.
  destruct c; try done; intros _; cbn [run_call]; apply out_harmless;
    first [ apply uevent_harmless | apply daemon_callback_harmless | apply external_infos_harmless
          | eapply refused_harmless, guarded_refused;
            first [apply auth_manager_refused | apply auth_permission_refused | apply auth_crypto_refused]
          | destruct pc; [|first [apply fin_harmless | apply sret_harmless]]; eapply refused_harmless, guarded_refused, auth_crypto_refused ].
Qed.

(** C3: A caller without permission achieves nothing: a caller that holds no
    permission and is neither storage_daemon nor storage_manager (a native process with another
    name or another user is such a caller), whatever entry point it calls with whatever
    arguments: no request reaches storage_daemon, no event is published, the uuid store
    is not used, and no table of the service changes. What other threads of
    the service do during the call is not counted: none runs in between. *)
Theorem unauthorised_call_harmless (pc : bool) (c : ServiceCall) (w : World E St) :
  client_call c = true ->
  let w' := (run_call pc c w).2 in
  same_tables (w_sh w) (w_sh w') /\ w_store w' = w_store w /\ grows is_local (w_trace w) (w_trace w').
Proof.
  intros Hc.
  apply (runs_run (run_call pc c) (fun _ sh' st' tr' => same_tables (w_sh w) sh' /\ st' = w_store w /\ grows is_local (w_trace w) tr')).
  apply client_call_harmless; [done|]. done.
Qed.
End denied.

(** ** Data-disk formatting needs the user's consent *)
Section consent.
Context {E St : Type} {EV : Env E} {PS : PathStore St} {JT : JsonText} {SQ : Sequential E}.
Notation M := (State (World E St)).

Definition busy (w : World E St) : bool := pv_formatBusy (sh_prov (w_sh w)).
Definition is_auth (a : Act) : Prop :=
  match a with AReq (AcquireAuthorization _) _ | AReq WaitAuthorization _ => True | _ => False end.
(** The world in which the authorisation is asked for, and the answers to the request
    for it and to the wait for its callback. *)
Definition asking (w : World E St) : World E St := (exchange_busy w).2.
Definition acquired (w : World E St) : Ans * World E St := call lk_none (AcquireAuthorization FORMAT_DATA_DISK_PRIVILEGE) (asking w).
Definition waited (w : World E St) : Ans * World E St := call lk_none WaitAuthorization (acquired w).2.
(** The request was taken, the callback came in time, and it reported a success. *)
Definition granted (w : World E St) : bool :=
  (an_ret (acquired w).1 =? ERR_OK) && an_bool (waited w).1 && (an_int (waited w).1 =? 0).
Definition consent_outcome (op : M Z) (r : Z) (w w' : World E St) : Prop :=
  if busy w then r = E_BUSY /\ w_trace w' = w_trace w /\ same_tables (w_sh w) (w_sh w') /\ w_store w' = w_store w
  else busy w' = false /\
    if granted w then
      exists w1 ret1 ret2 ret3, w_sh w1 = upd_prov (pv_set_busy true) (w_sh w) /\ w_store w1 = w_store w /\
        w_trace w1 = AReq WaitAuthorization ret2 :: AReq (AcquireAuthorization FORMAT_DATA_DISK_PRIVILEGE) ret1 :: w_trace w /\
        r = (op w1).1 /\ w_sh w' = upd_prov (pv_set_busy false) (w_sh (op w1).2) /\ w_store w' = w_store (op w1).2 /\
        w_trace w' = AReq (ReleaseAuthorization FORMAT_DATA_DISK_PRIVILEGE) ret3 :: w_trace (op w1).2
    else r = E_PERMISSION_DENIED /\ same_tables (w_sh w) (w_sh w') /\ w_store w' = w_store w /\ grows is_auth (w_trace w) (w_trace w').

Lemma call_world lk r (w : World E St) :
  exists a e', call lk r w = (a, mkWorld (w_sh w) (w_store w) e' (AReq r (an_ret a) :: w_trace w)).
Proof.
  unfold call, sbind, request, yield, sret. destruct (env_answer (w_env w) r) as [a e]. cbn [w_env w_sh w_store w_trace].
  pose proof (interfere_seq lk e (w_sh w)) as Hi. destruct (env_others e) as [f e']. cbn in *. rewrite Hi. by exists a, e'.
Qed.
Lemma asking_world (w : World E St) : exchange_busy w = (busy w, asking w) /\
  asking w = mkWorld (upd_prov (pv_set_busy true) (w_sh w)) (w_store w) (w_env w) (w_trace w).
Proof. by destruct w. Qed.
(** The check answers [E_OK] exactly when the authorisation was granted. *)
Lemma CheckAdminAuthorization_world (w : World E St) :
  exists r e new, CheckAdminAuthorization (asking w) = (r, mkWorld (w_sh (asking w)) (w_store w) e (new ++ w_trace w)) /\
    Forall is_auth new /\
    if granted w then r = E_OK /\ exists ret1 ret2, new = [AReq WaitAuthorization ret2; AReq (AcquireAuthorization FORMAT_DATA_DISK_PRIVILEGE) ret1]
    else r = E_PERMISSION_DENIED.
Proof.
  unfold granted, waited, acquired, CheckAdminAuthorization, sbind. destruct (asking_world w) as [_ ->].
  set (w0 := mkWorld _ _ _ _). destruct (call_world lk_none (AcquireAuthorization FORMAT_DATA_DISK_PRIVILEGE) w0) as (a & e1 & ->).
  cbn [fst snd]. destruct (an_ret a =? ERR_OK); cbn [negb andb].
  2:{ exists (errno E_PERMISSION_DENIED), e1. eexists [_]. split; [reflexivity|]. by repeat constructor. }
  set (w1 := mkWorld _ _ e1 _). destruct (call_world lk_none WaitAuthorization w1) as (b & e2 & ->). cbn [fst snd].
  destruct (an_bool b); cbn [negb andb].
  2:{ exists (errno E_PERMISSION_DENIED), e2. eexists [_; _]. split; [reflexivity|]. by repeat constructor. }
  destruct (an_int b =? 0); cbn [negb].
  - exists (errno E_OK), e2. eexists [_; _]. split; [reflexivity|]. split; [by repeat constructor|]. eauto.
  - exists (errno E_PERMISSION_DENIED), e2. eexists [_; _]. split; [reflexivity|]. by repeat constructor.
Qed.

(** C23: A destructive operation on a data disk ([op]) runs exactly when no other
    such operation runs and the user grants the authorisation: the request for it is
    taken, the callback comes in time, and it reports a success. Otherwise the caller gets [E_BUSY] or
    [E_PERMISSION_DENIED] and nothing happens. Afterwards the authorisation has been given
    back and the next operation may start; the result is the operation's. No
    other thread of the service runs in between. *)
Theorem with_admin_auth_consent (op : M Z) (w : World E St) :
  consent_outcome op (with_admin_auth true op w).1 w (with_admin_auth true op w).2.
Proof.
  destruct (with_admin_auth true op w) as [r w'] eqn:Hrun. cbn [fst snd]. unfold with_admin_auth in Hrun.
  destruct (asking_world w) as [Hx Hw]. rewrite (sbind_run _ _ _ _ _ Hx) in Hrun. unfold consent_outcome. destruct (busy w).
  { injection Hrun as <- <-. rewrite Hw. cbn. split; [done|]. split; [done|]. split; [by eexists|done]. }
  destruct (CheckAdminAuthorization_world w) as (r0 & e & new & Hc & Hnew & H). rewrite (sbind_run _ _ _ _ _ Hc) in Hrun.
  rewrite Hw in Hrun. cbn [w_sh] in Hrun. destruct (granted w).
  - destruct H as (-> & ret1 & ret2 & ->). change (negb (E_OK =? E_OK)) with false in Hrun. cbv iota in Hrun.
    set (w1 := mkWorld _ _ _ _) in *. destruct (op w1) as [err w2] eqn:Hop. rewrite (sbind_run _ _ _ _ _ Hop) in Hrun.
    destruct (call_world lk_none (ReleaseAuthorization FORMAT_DATA_DISK_PRIVILEGE) w2) as (a & e' & Hr).
    rewrite (sbind_run _ _ _ _ _ Hr) in Hrun. injection Hrun as <- <-.
    split; [reflexivity|]. exists w1, ret1, ret2, (an_ret a). by rewrite Hop.
  - subst r0. injection Hrun as <- <-. cbn. split; [reflexivity|].
    split; [done|]. split; [by eexists|]. split; [done|]. by exists new.
Qed.
End consent.

(** ** Unloading *)
Section unload.
Context {E St : Type} {EV : Env E} {PS : PathStore St} {JT : JsonText} {SQ : Sequential E}.
Implicit Types (w : World E St).

Definition idle w : bool :=
  negb (pv_idleMonitorStopped (sh_prov (w_sh w))) && bool_decide (sh_disks (w_sh w) = ∅) && bool_decide (sh_vols (w_sh w) = ∅) &&
  negb (0 <? pv_pendingCallbacks (sh_prov (w_sh w))).
(** The mark that the service is unloading. *)
Definition unloading w : bool := pv_isUnloading (sh_prov (w_sh w)).
Definition unload_outcome w w' : Prop :=
  if idle w then
    same_tables (w_sh w) (w_sh w') /\ w_store w' = w_store w /\
    exists e ret0, let found := an_bool (env_answer e RGetSystemAbilityManager).1 in
      if found then
        exists ret, w_trace w' = AReq UnloadSystemAbility ret :: AReq RGetSystemAbilityManager ret0 :: w_trace w /\
          (unloading w' = true <-> ret = ERR_OK)
      else w_trace w' = AReq RGetSystemAbilityManager ret0 :: w_trace w /\ unloading w' = false
  else w_trace w' = w_trace w /\ w_sh w' = w_sh w /\ w_store w' = w_store w.

(** C35: The service asks to be unloaded exactly when its monitor runs, it
    knows no disk and no volume and no callback of storage_daemon is pending, and the
    system ability manager is found. Afterwards it is marked as unloading exactly when
    the request succeeded: the mark is set, and taken back when the manager is not found
    or the request fails. In every other case nothing changes. No other
    thread of the service runs in between. *)
Theorem CheckAndUnloadIfIdle_spec w : unload_outcome w (CheckAndUnloadIfIdle w).2.
Proof.
  apply (runs_run CheckAndUnloadIfIdle (fun _ sh' st' tr' => unload_outcome w (mkWorld sh' st' (w_env w) tr'))).
  unfold CheckAndUnloadIfIdle, HasManagedResources, unload_outcome, idle, unloading. cbn [w_sh w_trace w_store].
  destruct w as [sh st e tr]. cbn [w_sh w_trace w_store].
  seq_step. seq_step. destruct (pv_idleMonitorStopped (sh_prov sh)) eqn:Hs; cbn [negb andb]; [by apply runs_ret|].
  seq_step. seq_step. seq_step. seq_step. seq_step. seq_step.
  destruct (bool_decide (sh_disks sh = ∅)); cbn [negb orb andb]; [|by apply runs_ret].
  destruct (bool_decide (sh_vols sh = ∅)); cbn [negb andb]; [|by apply runs_ret].
  seq_step. seq_step. seq_step. seq_step. destruct (0 <? pv_pendingCallbacks (sh_prov sh)) eqn:Hp; cbn [negb]; [by apply runs_ret|].
  seq_step. seq_step. apply runs_bind, runs_call_answer. intros e1. set (a := (env_answer e1 RGetSystemAbilityManager).1).
  destruct (an_bool a) eqn:Hf; cbn [negb].
  - seq_auto; (split; [by eexists|]); (split; [done|]); exists e1, (an_ret a); fold a; rewrite Hf; exists (an_ret a0); (split; [done|]); cbn;
      bsimp; split; done.
  - seq_auto. split; [by eexists|]. split; [done|]. exists e1, (an_ret a). fold a. by rewrite Hf.
Qed.
End unload.

(** * Examples *)
(** A native process that took the name of storage_daemon, but not its user, and that is
    granted nothing. *)
Definition Guest : Type := unit.
Definition guest_answers : Answers := fun r =>
  match r with
  | VerifyAccessToken _ => Ans_ok
  | GetNativeTokenInfo => a_str "storage_daemon"
  | GetCallingUid => a_int 20010
  | _ => usb_answers r
  end.
#[export] Instance guest : Env Guest := {|
  env_answer e r := (guest_answers r, e); env_others e := (fun sh => sh, e); env_ERR_INVALID_DATA := 5 |}.
#[export] Instance guest_sequential : Sequential Guest.
Proof. by intros e sh. Qed.
#[export] Instance guest_denied : Denied Guest.
Proof. split; [done|]. intros e e' _. cbn. set_solver. Qed.
Definition ex_guest : World Guest (VState unit) := mkWorld (w_sh ex_mounted) (w_store ex_mounted) tt [].

Lemma unauthorised_call_harmless_witness :
  client_call (CFormat "vol-8-1" "ntfs") = true /\
  let w' := (run_call true (CFormat "vol-8-1" "ntfs") ex_guest).2 in
  same_tables (w_sh ex_guest) (w_sh w') /\ w_store w' = w_store ex_guest /\ grows is_local (w_trace ex_guest) (w_trace w').
Proof. split; [reflexivity|]. exact (unauthorised_call_harmless true (CFormat "vol-8-1" "ntfs") ex_guest eq_refl). Defined.

(** The user consents to formatting the internal disk. *)
Definition consent_answers : Answers := fun r => match r with WaitAuthorization => a_int 0 | _ => usb_answers r end.
Definition ex_consent : ExWorld := mkWorld (w_sh ex_internal) (w_store ex_internal) consent_answers [].
Lemma with_admin_auth_consent_witness :
  granted ex_consent = true /\ (with_admin_auth true (Format "vol-8-1" "f2fs") ex_consent).1 = E_VOL_STATE /\
  consent_outcome (Format "vol-8-1" "f2fs") (with_admin_auth true (Format "vol-8-1" "f2fs") ex_consent).1 ex_consent
    (with_admin_auth true (Format "vol-8-1" "f2fs") ex_consent).2.
Proof. split; [vm_compute; reflexivity|]. split; [vm_compute; reflexivity|]. exact (with_admin_auth_consent (Format "vol-8-1" "f2fs") ex_consent). Defined.

Definition ex_idle : ExWorld := World_initial ex_store usb_answers.
Lemma CheckAndUnloadIfIdle_spec_witness : idle ex_idle = true /\ unload_outcome ex_idle (CheckAndUnloadIfIdle ex_idle).2.
Proof. split; [vm_compute; reflexivity|]. exact (CheckAndUnloadIfIdle_spec ex_idle). Defined.
