(* ===== verification/QueryFacts.v ===== *)
(** * Uuids in the volume table

    [DedupFsUuidUnlocked] always finds a free uuid, and the updates that use it keep
    the uuids of the table distinct, so that a lookup by uuid finds the volume. *)
From S2P Require Import Prelude CppString Types State Utils Json BlockInfo World Adapters DmQuery Seq Voldata.
From S2P Require Import VoldataStore DmMount Scenario.

(** ** The search for a free suffix *)
Lemma occupied_spec vols id u :
  IsUuidOccupiedUnlocked vols id u = true <-> exists k v, vols !! k = Some v /\ k <> id /\ vol_fsUuid v = u.
Proof.
  unfold IsUuidOccupiedUnlocked. rewrite existsb_elem_of. split.
  - intros ([k v] & Hin%elem_of_sorted_entries & Hb). cbn in Hb. bsimp. by exists k, v.
  - intros (k & v & Hk & Hne & Hu). exists (k, v). rewrite elem_of_sorted_entries. split; [done|]. cbn. by bsimp.
Qed.
Lemma dedup_candidate_inj u : Inj (=) (=) (dedup_candidate u).
Proof.
  intros a b H. unfold dedup_candidate in H. apply (inj to_string).
  assert (Hd : forall n, to_string n = sdrop (String.length (u +:+ UUID_SEQ_SEPARATOR)) (u +:+ UUID_SEQ_SEPARATOR +:+ to_string n)).
  { intros n. rewrite sapp_assoc. by rewrite sdrop_app. }
  rewrite (Hd a), (Hd b). by rewrite H.
Qed.

Lemma dedup_loop_None fuel vols id u seq :
  0 <= seq -> seq + Z.of_nat fuel <= UINT32_MAX + 1 -> dedup_loop fuel vols id u seq = None ->
  forall n, seq <= n < seq + Z.of_nat fuel -> IsUuidOccupiedUnlocked vols id (dedup_candidate u n) = true.
Proof.
  revert seq; induction fuel as [|fuel IH]; intros seq H0 Hb H n Hn; [lia|]. cbn [dedup_loop] in H.
  destruct (IsUuidOccupiedUnlocked vols id (dedup_candidate u seq)) eqn:Ho; cbn [negb] in H; [|done].
  destruct (decide (n = seq)) as [->|Hne]; [done|]. destruct fuel as [|fuel]; [lia|].
  rewrite u32_id in H by (unfold_ints; lia). apply (IH (seq + 1)); [lia|lia|done|lia].
Qed.
Lemma dedup_loop_Some fuel vols id u seq c :
  0 <= seq -> seq + Z.of_nat fuel <= UINT32_MAX + 1 -> dedup_loop fuel vols id u seq = Some c ->
  exists n, seq <= n < seq + Z.of_nat fuel /\ c = dedup_candidate u n /\ IsUuidOccupiedUnlocked vols id c = false /\
    forall i, seq <= i < n -> IsUuidOccupiedUnlocked vols id (dedup_candidate u i) = true.
Proof.
  revert seq; induction fuel as [|fuel IH]; intros seq H0 Hb H; [done|]. cbn [dedup_loop] in H.
  destruct (IsUuidOccupiedUnlocked vols id (dedup_candidate u seq)) eqn:Ho; cbn [negb] in H.
  - destruct fuel as [|fuel]; [done|]. rewrite u32_id in H by (unfold_ints; lia).
    destruct (IH (seq + 1)) as (n & Hn & Hc & Hf & Hall); [lia|lia|done|]. exists n. split; [lia|]. split; [done|].
    split; [done|]. intros i Hi. destruct (decide (i = seq)) as [->|]; [done|]. apply Hall. lia.
  - injection H as <-. exists seq. split; [lia|]. split; [done|]. split; [done|]. lia.
Qed.

(** Pigeonhole: the table cannot hold one more uuid than it has entries. *)
Lemma uuids_bounded vols id (cs : list string) :
  NoDup cs -> (forall c, c ∈ cs -> IsUuidOccupiedUnlocked vols id c = true) -> (List.length cs <= size vols)%nat.
Proof.
  intros Hnd Hocc. transitivity (List.length (map (fun kv => vol_fsUuid kv.2) (map_to_list vols))).
  - apply submseteq_length, NoDup_submseteq; [done|]. intros c (k & v & Hk & _ & Hu)%Hocc%occupied_spec.
    apply list_elem_of_fmap. exists (k, v). split; [done|]. by apply elem_of_map_to_list.
  - rewrite length_map. by rewrite length_map_to_list.
Qed.
Lemma dedup_loop_enough vols id u :
  Z.of_nat (size vols) < UINT32_MAX -> dedup_loop (S (size vols)) vols id u 1 <> None.
Proof.
  intros Hs H. pose proof (dedup_loop_None (S (size vols)) vols id u 1 ltac:(lia) ltac:(unfold_ints; lia) H) as Hall.
  set (cs := map (fun i => dedup_candidate u (1 + Z.of_nat i)) (seq 0 (S (size vols)))).
  assert (List.length cs <= size vols)%nat as Hlen; [|unfold cs in Hlen; rewrite length_map, length_seq in Hlen; lia].
  apply (uuids_bounded vols id).
  - apply NoDup_fmap_2; [|apply NoDup_seq]. intros i j Hij%dedup_candidate_inj. lia.
  - intros c (i & -> & Hi)%list_elem_of_fmap. apply Hall. apply elem_of_seq in Hi. lia.
Qed.

Definition dedup_choice (vols : gmap string VolumeExternal) (id u u' : string) : Prop :=
  u' = u \/ IsUuidOccupiedUnlocked vols id u = true /\
    exists n, 1 <= n <= Z.of_nat (size vols) + 1 /\ u' = dedup_candidate u n /\
      forall i, 1 <= i < n -> IsUuidOccupiedUnlocked vols id (dedup_candidate u i) = true.
Lemma dedup_free vols id u :
  Z.of_nat (size vols) < UINT32_MAX ->
  (forall k v, vols !! k = Some v -> k <> id -> vol_fsUuid v <> DedupFsUuidUnlocked vols id u) /\
  dedup_choice vols id u (DedupFsUuidUnlocked vols id u).
Proof.
  intros Hs. assert (Hfree : forall x, IsUuidOccupiedUnlocked vols id x = false ->
    forall k v, vols !! k = Some v -> k <> id -> vol_fsUuid v <> x).
  { intros x Hf k v Hk Hne Hu. apply not_true_iff_false in Hf. apply Hf. apply occupied_spec. by exists k, v. }
  unfold DedupFsUuidUnlocked. destruct (IsUuidOccupiedUnlocked vols id u) eqn:Ho; cbn [negb]; [|by split; [apply Hfree|left]].
  destruct (dedup_loop _ vols id u 1) as [c|] eqn:Hc; [|by apply dedup_loop_enough in Hc].
  apply dedup_loop_Some in Hc as (n & Hn & -> & Hf & Hall); [|lia|unfold_ints; lia].
  split; [by apply Hfree|]. right. split; [done|]. exists n. split; [lia|]. done.
Qed.

(** C33: [DedupFsUuidUnlocked] always finds a free uuid: the result belongs to
    no other volume, and it is the uuid asked for, or, when that is taken, the first
    free one of [uuid_1], [uuid_2], ... The loop, unbounded in the code, needs at most
    one turn more than the table has entries. *)
Theorem DedupFsUuid_total vols id u :
  Z.of_nat (size vols) < UINT32_MAX ->
  let u' := DedupFsUuidUnlocked vols id u in
  (forall k v, vols !! k = Some v -> k <> id -> vol_fsUuid v <> u') /\ dedup_choice vols id u u'.
Proof. apply dedup_free. Qed.

(** ** Distinct uuids *)
Definition uuids_distinct (vols : gmap string VolumeExternal) : Prop :=
  forall k1 k2 v1 v2, vols !! k1 = Some v1 -> vols !! k2 = Some v2 -> vol_fsUuid v1 = vol_fsUuid v2 -> vol_fsUuid v1 <> "" -> k1 = k2.
Lemma uuids_distinct_insert vols k v :
  (forall j w, vols !! j = Some w -> j <> k -> vol_fsUuid w <> vol_fsUuid v) -> uuids_distinct vols -> uuids_distinct (<[k := v]> vols).
Proof.
  intros Hf Hd k1 k2 v1 v2 [[<- <-]|[Hn1 H1]]%lookup_insert_Some [[<- <-]|[Hn2 H2]]%lookup_insert_Some Hu Hne; [done| | |].
  - exfalso. by apply (Hf k2 v2 H2); [congruence|].
  - exfalso. by apply (Hf k1 v1 H1); [congruence|].
  - by apply (Hd k1 k2 v1 v2).
Qed.
Lemma lookup_by_uuid vols k v :
  uuids_distinct vols -> vols !! k = Some v -> vol_fsUuid v <> "" -> LookupVolumeByUuidUnlocked vols (vol_fsUuid v) = Some v.
Proof.
  intros Hd Hk Hne. unfold LookupVolumeByUuidUnlocked. destruct (find_if _ (sorted_entries vols)) as [[k' v']|] eqn:Hf.
  - apply find_if_Some in Hf as [Hin%elem_of_sorted_entries Hu]. cbn in *. bsimp. f_equal.
    assert (k' = k) as -> by (apply (Hd k' k v' v); congruence). congruence.
  - pose proof (proj1 (find_if_None _ _) Hf (k, v)) as Hn. rewrite elem_of_sorted_entries in Hn. specialize (Hn Hk).
    cbn in Hn. bsimp. done.
Qed.
Lemma dedup_nonempty vols id u u' : u <> "" -> dedup_choice vols id u u' -> u' <> "".
Proof. intros Hu [-> | (_ & n & _ & -> & _)]; [done|]. unfold dedup_candidate. by intros [? _]%sapp_eq_nil. Qed.

Section metadata.
Context {E St : Type} {EV : Env E} {PS : PathStore St}.
Implicit Types (w : World E St).

(** Recording a volume's metadata keeps the uuids of the table distinct,
    changes only that volume, and afterwards a lookup by the recorded uuid (the given one, or
    its first free variant) finds this volume with the given type and description. *)
Theorem UpdateVolumeMetadata_spec id u fs desc w :
  Z.of_nat (size (sh_vols (w_sh w))) < UINT32_MAX -> uuids_distinct (sh_vols (w_sh w)) -> u <> "" ->
  let vols := sh_vols (w_sh w) in
  let (r, w') := UpdateVolumeMetadata id u fs desc w in
  match vols !! id with
  | None => r = E_NON_EXIST /\ w' = w
  | Some v =>
      let u' := DedupFsUuidUnlocked vols id u in
      let v' := Vol_SetDescription desc (Vol_SetFsType (GetFsTypeByStr fs) (Vol_SetFsUuid u' v)) in
      r = E_OK /\ w_sh w' = upd_vols (<[id := v']>) (w_sh w) /\ uuids_distinct (sh_vols (w_sh w')) /\
      LookupVolumeByUuidUnlocked (sh_vols (w_sh w')) u' = Some v'
  end.
Proof.
  intros Hs Hd Hu vols. unfold UpdateVolumeMetadata, get_vols, sbind, get_sh, sget. fold vols.
  destruct (vols !! id) as [v|] eqn:Hv; [|done]. cbn. destruct (dedup_free vols id u Hs) as [Hf Hc].
  set (u' := DedupFsUuidUnlocked vols id u) in *. set (v' := Vol_SetDescription desc _).
  assert (Hd' : uuids_distinct (<[id := v']> vols)) by by apply uuids_distinct_insert.
  split; [done|]. split; [done|]. split; [done|]. apply (lookup_by_uuid _ id v'); [done|apply lookup_insert_eq|].
  by eapply dedup_nonempty.
Qed.
End metadata.

(** The MTP notification does not go through [DedupFsUuidUnlocked]: a device that
    reports the uuid of a mounted volume gets it too, and lookups by uuid then find
    only one of them. *)
Lemma NotifyMtpMounted_shares_uuid :
  let w := (NotifyMtpMounted "vol-1-20" "/mnt/data/external/mtp1" "Phone" "1234-ABCD" "mtpfs" ex_mounted).2 in
  map (fun kv => (kv.1, vol_fsUuid kv.2)) (sorted_entries (sh_vols (w_sh w))) =
    [("vol-1-20", "1234-ABCD"); ("vol-8-1", "1234-ABCD")].
Proof. vm_compute. reflexivity. Qed.

(** * Examples *)
Definition ex_vol (id uuid : string) : VolumeExternal :=
  Vol_SetFsUuid uuid (VolumeExternal_of_core (VolumeCore_new id 0 "disk-8-0" UNMOUNTED)).
Definition ex_vols : gmap string VolumeExternal :=
  {[ "vol-8-1" := ex_vol "vol-8-1" "AA"; "vol-8-2" := ex_vol "vol-8-2" "AA_1"; "vol-8-3" := ex_vol "vol-8-3" "" ]}.
Lemma DedupFsUuid_total_witness :
  DedupFsUuidUnlocked ex_vols "vol-8-3" "AA" = "AA_2" /\
  let u' := DedupFsUuidUnlocked ex_vols "vol-8-3" "AA" in
  (forall k v, ex_vols !! k = Some v -> k <> "vol-8-3" -> vol_fsUuid v <> u') /\ dedup_choice ex_vols "vol-8-3" "AA" u'.
Proof. split; [vm_compute; reflexivity|]. apply (DedupFsUuid_total ex_vols "vol-8-3" "AA"). vm_compute. reflexivity. Defined.

Definition ex_vols_world : ExWorld := mkWorld (upd_vols (fun _ => ex_vols) Shared_initial) ex_store usb_answers [].
Lemma ex_vols_distinct : uuids_distinct ex_vols.
Proof.
  intros k1 k2 v1 v2 H1 H2 Hu Hne. unfold ex_vols in *.
  repeat match goal with
  | H : <[_ := _]> _ !! _ = Some _ |- _ => apply lookup_insert_Some in H as [[<- <-]|[_ H]]
  | H : {[_ := _]} !! _ = Some _ |- _ => apply lookup_singleton_Some in H as [<- <-]
  end; cbn in *; congruence.
Qed.
Lemma UpdateVolumeMetadata_spec_witness :
  (UpdateVolumeMetadata "vol-8-3" "AA" "vfat" "USB" ex_vols_world).1 = E_OK /\ uuids_distinct ex_vols /\
  uuids_distinct (sh_vols (w_sh (UpdateVolumeMetadata "vol-8-3" "AA" "vfat" "USB" ex_vols_world).2)).
Proof.
  split; [vm_compute; reflexivity|]. split; [exact ex_vols_distinct|].
  pose proof (UpdateVolumeMetadata_spec "vol-8-3" "AA" "vfat" "USB" ex_vols_world eq_refl ex_vols_distinct ltac:(discriminate)) as H.
  cbn zeta in H. destruct (UpdateVolumeMetadata "vol-8-3" "AA" "vfat" "USB" ex_vols_world) as [r w'].
  change (sh_vols (w_sh ex_vols_world) !! "vol-8-3") with (Some (ex_vol "vol-8-3" "")) in H.
  destruct H as (_ & _ & H & _). exact H.
Defined.
