(* ===== verification/PartFacts.v ===== *)
(** * Partition tables and new partitions

    The parser of the [sgdisk -p] dump reads back what is printed, and the checks of a
    new partition admit exactly the aligned ranges inside the usable area that are
    large enough for the file system. *)
From S2P Require Import Prelude CppString Types State Utils PartitionTable Json World DmQuery DmPartition.
From S2P Require Import SafetyPart.

(** ** Decimal numbers as the parser accepts them *)
Definition starts_nonzero (s : string) : Prop := exists c r, s = String c r /\ is_digit c = true /\ char_eqb c "0" = false.
Lemma pretty_char_nonzero n : (0 < n < 10)%N -> char_eqb (pretty_N_char n) "0" = false.
Proof.
  intros Hn. apply char_eqb_false. intros He. assert (Hd : digit_val (pretty_N_char n) = 0) by by rewrite He.
  rewrite digit_val_pretty in Hd by lia. lia.
Qed.
Lemma pretty_go_head x s : (0 < x)%N -> starts_nonzero (pretty_N_go x s).
Proof.
  enough (H : (x = 0%N -> pretty_N_go x s = s) /\ ((0 < x)%N -> starts_nonzero (pretty_N_go x s))) by apply H.
  revert x s. apply (pretty_N_go_ind (fun x s r => (x = 0%N -> r = s) /\ ((0 < x)%N -> starts_nonzero r))).
  - intros s. split; [done|lia].
  - intros x s r Hx [IH0 IH1]. split; [lia|]. intros _. destruct (decide (x / 10 = 0)%N) as [Hq|Hq]; [|by apply IH1, N.neq_0_lt_0].
    rewrite (IH0 Hq). assert (Hlt : (x < 10)%N) by (apply N.div_small_iff in Hq; [exact Hq|lia]).
    rewrite N.mod_small by done. eexists _, _. split; [reflexivity|]. split; [apply is_digit_pretty|by apply pretty_char_nonzero].
Qed.
Lemma to_string_head n : 0 < n -> starts_nonzero (to_string n).
Proof. intros. destruct n as [|p|p]; [lia| |lia]. rewrite to_string_pos. apply pretty_go_head. lia. Qed.

Lemma digit_val_range c : is_digit c = true -> 0 <= digit_val c <= 9.
Proof. unfold is_digit, digit_val. intros H. bsimp. lia. Qed.
Lemma dec_val_lower s acc : sforall is_digit s = true -> 0 <= acc -> acc * 10 ^ Z.of_nat (String.length s) <= dec_val acc s.
Proof.
  revert acc; induction s as [|c s IH]; intros acc Hd Ha; cbn [String.length dec_val].
  - rewrite Z.pow_0_r. lia.
  - cbn in Hd. apply andb_true_iff in Hd as [Hc Hd]. apply digit_val_range in Hc.
    etrans; [|apply IH; [done|lia]]. rewrite Nat2Z.inj_succ, Z.pow_succ_r by lia.
    assert (0 < 10 ^ Z.of_nat (String.length s)) by (apply Z.pow_pos_nonneg; lia). nia.
Qed.
Lemma nonzero_digit c : is_digit c = true -> char_eqb c "0" = false -> 1 <= digit_val c.
Proof.
  intros Hd H0. pose proof (digit_val_range c Hd). apply char_eqb_false in H0.
  destruct (decide (digit_val c = 0)) as [He|]; [|lia]. exfalso. apply H0. unfold digit_val in He.
  assert (Hn : char_code c = 48%N) by lia. unfold char_code in Hn. rewrite <- (ascii_N_embedding c), Hn. reflexivity.
Qed.

(** The parser of 32-bit numbers reads back what is printed. *)
Lemma ConvertStringToInt32_to_string n : 1 <= n < INT32_MAX -> ConvertStringToInt32 (to_string n) = Some n.
Proof.
  intros Hn. destruct (to_string_head n) as (c & ds & He & Hc & H0); [lia|].
  pose proof (to_string_digits n ltac:(lia)) as Hd. pose proof (dec_val_to_string n ltac:(lia)) as Hv.
  pose proof (strtoll10_to_string n ltac:(unfold_ints; lia)) as Hs. rewrite He in *. cbn in Hd. apply andb_true_iff in Hd as [_ Hd].
  cbn [dec_val] in Hv. pose proof (dec_val_lower ds (10 * 0 + digit_val c) Hd) as Hl. pose proof (nonzero_digit c Hc H0) as H1.
  assert (Hlen : (String.length ds <= 9)%nat).
  { destruct (decide (String.length ds <= 9)%nat) as [|Hgt]; [done|]. exfalso.
    assert (10 ^ 10 <= 10 ^ Z.of_nat (String.length ds)) by (apply Z.pow_le_mono_r; lia). specialize (Hl ltac:(lia)).
    unfold_ints. nia. }
  unfold ConvertStringToInt32. rewrite Hc, H0, Hd, (proj2 (Nat.leb_le _ _) Hlen). cbn [negb andb].
  rewrite Hs. cbn [orb negb str_empty]. destruct (Z.leb_spec n 0); [lia|]. destruct (Z.leb_spec INT32_MAX n); [lia|].
  cbn. rewrite i32_id; [done|]. unfold_ints. lia.
Qed.
Lemma ConvertStringToInt_to_string n : 0 <= n <= INT64_MAX -> ConvertStringToInt (to_string n) = Some n.
Proof.
  intros Hn. unfold ConvertStringToInt. destruct (str_empty (to_string n)) eqn:He.
  - apply str_empty_true in He. by apply to_string_nonempty in He; [|lia].
  - by rewrite strtoll10_to_string.
Qed.

(** ** The dump *)
(** One row: number, first and last sector, and the columns the code does not read. *)
Record Row : Type := mkRow { row_num : Z; row_start : Z; row_end : Z }.
Definition print_row (r : Row) : string :=
  "   " +:+ to_string (row_num r) +:+ " " +:+ to_string (row_start r) +:+ " " +:+ to_string (row_end r) +:+ "   1024.0 MiB  0700".
(** The dump of a disk of [last] usable sectors, as [sgdisk -p] prints it. *)
Definition print_dump (sector align first last : Z) (mbr : bool) (rows : list Row) : list string :=
  (if mbr then ["Found invalid GPT and valid MBR; converting MBR to GPT format"] else []) ++
  ["Sector size (logical): " +:+ to_string sector +:+ " bytes";
   "First usable sector is " +:+ to_string first +:+ ", last usable sector is " +:+ to_string last;
   "Partitions will be aligned on " +:+ to_string align +:+ "-sector boundaries";
   "Number  Start (sector)    End (sector)  Size       Code  Name"] ++ map print_row rows.
Definition row_info (r : Row) : PartitionInfo :=
  PI_SetEndSector (row_end r) (PI_SetStartSector (row_start r) (PI_SetPartitionNum (row_num r) PartitionInfo_default)).
Definition row_ok (r : Row) : Prop :=
  1 <= row_num r < INT32_MAX /\ 0 <= row_start r <= INT64_MAX /\ 0 <= row_end r <= INT64_MAX.

Lemma digits_stop (n : Z) t : 0 <= n -> stake_while is_digit t = "" -> stake_while is_digit (to_string n +:+ t) = to_string n.
Proof. intros. apply stake_while_all; [by apply to_string_digits|done]. Qed.
Lemma ParsePartitionInfo_row r : row_ok r -> ParsePartitionInfo (print_row r) PartitionInfo_default = Some (row_info r).
Proof.
  intros (Hn & Hs & He). unfold ParsePartitionInfo, print_row.
  assert (Ht : tokens ("   " +:+ to_string (row_num r) +:+ " " +:+ to_string (row_start r) +:+ " " +:+ to_string (row_end r) +:+
                       "   1024.0 MiB  0700") =
               [to_string (row_num r); to_string (row_start r); to_string (row_end r); "1024.0"; "MiB"; "0700"]).
  { change (tokens ("   " +:+ ?x)) with (tokens x).
    change (to_string (row_num r) +:+ " " +:+ to_string (row_start r) +:+ " " +:+ to_string (row_end r) +:+ "   1024.0 MiB  0700") with
      (to_string (row_num r) +:+ String " " (to_string (row_start r) +:+ String " " (to_string (row_end r) +:+ String " " "  1024.0 MiB  0700"))).
    rewrite !tokens_word; try (apply to_string_nonempty; lia); try (apply digits_not_space, to_string_digits; lia). reflexivity. }
  rewrite Ht. cbn [str_empty String.append next_item].
  assert (Hne : forall n, 0 <= n -> str_empty (to_string n) = false).
  { intros n H. apply str_empty_false. by apply to_string_nonempty. }
  rewrite !Hne by lia. rewrite ConvertStringToInt32_to_string by done. cbn [mbind option_bind next_item].
  rewrite ConvertStringToInt_to_string by done. cbn [mbind option_bind]. by rewrite ConvertStringToInt_to_string by done.
Qed.

(** A search skips text the matcher rejects at each position. *)
Lemma regex_search_skip m (pre s : string) :
  (forall c t, c <> "l"%char -> m (String c t) = None) -> sforall is_digit pre = true ->
  regex_search m (pre +:+ s) = regex_search m s.
Proof.
  intros Hm. induction pre as [|c pre IH]; intros Hd; [done|]. cbn in Hd. apply andb_true_iff in Hd as [Hc Hd].
  cbn [String.append regex_search]. rewrite Hm; [by apply IH|]. intros ->. done.
Qed.
Lemma re_digits_found lit lit' (n : Z) t :
  0 <= n -> stake_while is_digit t = "" -> starts_with lit' t = true -> re_digits lit lit' (lit +:+ to_string n +:+ t) = Some (to_string n).
Proof.
  intros Hn Ht Hl. unfold re_digits. rewrite starts_with_app, sdrop_app. pose proof (to_string_digits n Hn) as Hd.
  rewrite stake_while_all, sdrop_while_all by done. rewrite Hl.
  destruct (str_empty (to_string n)) eqn:He; [|done]. apply str_empty_true in He. by apply to_string_nonempty in He.
Qed.
Lemma regex_search_first m s r : m s = Some r -> regex_search m s = Some r.
Proof. destruct s; cbn; by intros ->. Qed.

Lemma search_sector (n : Z) : 0 <= n -> regex_search re_sector_size ("Sector size (logical): " +:+ to_string n +:+ " bytes") = Some (to_string n).
Proof.
  intros Hn. apply regex_search_first. unfold re_sector_size. cbn [String.append starts_with char_eqb].
  change (re_sector_size ("Sector size (logical): " +:+ to_string n +:+ " bytes") = Some (to_string n)). unfold re_sector_size.
  assert (Hsp : forall t, sdrop_while is_space (" " +:+ (to_string n +:+ t)) = to_string n +:+ t).
  { intros t. pose proof (to_string_digits n Hn) as Hd. pose proof (to_string_nonempty n Hn) as Hne.
    destruct (to_string n) as [|c s]; [done|]. cbn [sforall] in Hd. apply andb_true_iff in Hd as [Hc _].
    change (sdrop_while is_space (" " +:+ (String c s +:+ t))) with (sdrop_while is_space (String c (s +:+ t))). cbn [sdrop_while].
    by rewrite digit_not_space. }
  change (starts_with "Sector size" _) with true. cbv iota.
  change (sdrop_while is_space (sdrop 11 ("Sector size (logical): " +:+ to_string n +:+ " bytes"))) with ("(logical): " +:+ to_string n +:+ " bytes").
  cbv zeta. change (starts_with "(logical" _) with true. cbv iota.
  change (sdrop 8 ("(logical): " +:+ to_string n +:+ " bytes")) with ("): " +:+ to_string n +:+ " bytes").
  change (starts_with "/physical" _) with false. cbv iota. change (starts_with "):" _) with true. cbv iota.
  change (sdrop 2 ("): " +:+ to_string n +:+ " bytes")) with (" " +:+ (to_string n +:+ " bytes")).
  rewrite Hsp, digits_stop by done. destruct (str_empty (to_string n)) eqn:He; [|done].
  apply str_empty_true in He. by apply to_string_nonempty in He.
Qed.
Lemma search_align (n : Z) : 0 <= n ->
  regex_search (re_digits "Partitions will be aligned on " "-sector boundaries") ("Partitions will be aligned on " +:+ to_string n +:+ "-sector boundaries")
  = Some (to_string n).
Proof. intros. apply regex_search_first. by apply re_digits_found. Qed.
Lemma search_last (a b : Z) : 0 <= a -> 0 <= b ->
  regex_search (re_digits "last usable sector is " "") ("First usable sector is " +:+ to_string a +:+ ", last usable sector is " +:+ to_string b)
  = Some (to_string b).
Proof.
  intros Ha Hb.
  change (regex_search (re_digits "last usable sector is " "") (to_string a +:+ ", last usable sector is " +:+ to_string b) = Some (to_string b)).
  rewrite regex_search_skip; [| |by apply to_string_digits].
  - change (regex_search (re_digits "last usable sector is " "") ("last usable sector is " +:+ to_string b) = Some (to_string b)).
    apply regex_search_first. rewrite <- (sapp_nil_r (to_string b)) at 1. by apply re_digits_found.
  - intros c t Hc. unfold re_digits. cbn [starts_with]. apply not_eq_sym in Hc. apply char_eqb_false in Hc. by rewrite Hc.
Qed.

(** *** Lines *)
Definition clean (s : string) : bool := no_char NL s.
Lemma clean_app a b : clean (a +:+ b) = clean a && clean b.
Proof. apply sforall_app. Qed.
Lemma clean_to_string n : 0 <= n -> clean (to_string n) = true.
Proof.
  intros. apply (sforall_impl is_digit); [|by apply to_string_digits]. intros c Hc. apply negb_true_iff, char_eqb_false. by intros ->.
Qed.
(** *** The lines of a dump: the loop over positions gives the lines that are not empty *)
Definition filled_lines (s : string) : list string := List.filter (fun l => negb (str_empty l)) (split_char NL s).
Lemma sfind_char c s :
  match sfind (schar c) s with
  | Some i => exists a b, s = a +:+ String c b /\ String.length a = i /\ no_char c a = true
  | None => no_char c s = true
  end.
Proof.
  induction s as [|d s IH]; cbn; [done|]. unfold no_char in *. cbn [sforall].
  destruct (char_eqb c d) eqn:Hcd; cbn.
  - apply char_eqb_true in Hcd as ->. by exists "", s.
  - assert (Hd : char_eqb d c = false) by (apply char_eqb_false in Hcd; apply char_eqb_false; congruence).
    destruct (sfind (schar c) s) as [i|]; cbn; [|by rewrite Hd, IH].
    destruct IH as (a & b & -> & <- & Ha). exists (String d a), b. cbn. by rewrite Hd, Ha.
Qed.
Lemma split_dump_loop_lines fuel raw start lines :
  (start <= String.length raw)%nat -> (String.length raw - start <= fuel)%nat ->
  split_dump_loop fuel raw start (sfind_from (schar NL) start raw) lines = lines ++ filled_lines (sdrop start raw).
Proof.
  revert start lines. induction fuel as [|fuel IH]; intros start lines Hs Hf.
  - assert (start = String.length raw) as -> by lia. unfold sfind_from. rewrite Nat.leb_refl.
    assert (Hend : sdrop (String.length raw) raw = "").
    { assert (H := sdrop_length (String.length raw) raw). destruct (sdrop _ raw); [done|]. cbn in H. lia. }
    rewrite Hend. cbn [split_dump_loop sfind starts_with schar fmap option_fmap option_map filled_lines]. rewrite Nat.ltb_irrefl. unfold filled_lines. by rewrite app_nil_r.
  - unfold sfind_from at 1. rewrite (proj2 (Nat.leb_le _ _) Hs). assert (Hlen := sdrop_length start raw).
    assert (Hfind := sfind_char NL (sdrop start raw)). destruct (sfind (schar NL) (sdrop start raw)) as [i|]; cbn [fmap option_fmap option_map split_dump_loop].
    + destruct Hfind as (a & b & Hab & <- & Ha). rewrite Hab in *. rewrite slen_app in Hlen. cbn [String.length] in Hlen.
      rewrite IH by lia.
      assert (Hb : sdrop (S (start + String.length a)) raw = b).
      { replace (S (start + String.length a)) with (start + S (String.length a))%nat by lia. rewrite <- sdrop_sdrop, Hab.
        replace (S (String.length a)) with (String.length (a +:+ schar NL)) by (rewrite slen_app; cbn; lia).
        rewrite sapp_cons, sapp_assoc. apply sdrop_app. }
      rewrite Hb. unfold filled_lines. rewrite split_char_app by done. cbn [List.filter].
      unfold substr. rewrite Hab. replace (start + String.length a - start)%nat with (String.length a) by lia. rewrite stake_app.
      destruct a as [|d a]; cbn [str_empty negb String.length].
      * by rewrite Nat.add_0_r, Nat.ltb_irrefl.
      * rewrite (proj2 (Nat.ltb_lt _ _)) by lia. by rewrite <- app_assoc.
    + unfold filled_lines. rewrite split_char_none by done. cbn [List.filter].
      destruct (sdrop start raw) as [|d t]; cbn [String.length str_empty negb] in *.
      * rewrite (proj2 (Nat.ltb_ge _ _)) by lia. by rewrite app_nil_r.
      * by rewrite (proj2 (Nat.ltb_lt _ _)) by lia.
Qed.
Lemma SplitRawDumpToLines_lines raw : SplitRawDumpToLines raw = filled_lines raw.
Proof.
  unfold SplitRawDumpToLines. destruct raw as [|c raw]; [done|]. cbn [str_empty].
  assert (H : sfind (schar NL) (String c raw) = sfind_from (schar NL) 0 (String c raw)).
  { unfold sfind_from. cbn [sdrop]. by destruct (sfind _ _). }
  rewrite H, split_dump_loop_lines by lia. done.
Qed.
Lemma SplitRawDumpToLines_unlines ls :
  Forall (fun l => clean l = true /\ str_empty l = false) ls -> SplitRawDumpToLines (unlines ls) = ls.
Proof.
  intros H. rewrite SplitRawDumpToLines_lines. unfold filled_lines. rewrite split_unlines by (eapply Forall_impl; [exact H|]; by intros l [? _]).
  rewrite List.filter_app. cbn [List.filter str_empty negb]. rewrite app_nil_r.
  induction H as [|l ls [_ Hl] _ IH]; [done|]. cbn [List.filter]. rewrite Hl. cbn [negb]. by rewrite IH.
Qed.
Lemma print_row_line r : row_ok r -> clean (print_row r) = true /\ str_empty (print_row r) = false.
Proof. intros (? & ? & ?). split; [|done]. unfold print_row. rewrite !clean_app, !clean_to_string by lia. done. Qed.
Lemma print_dump_lines sector align first last mbr rows :
  0 <= sector -> 0 <= align -> 0 <= first -> 0 <= last -> Forall row_ok rows ->
  SplitRawDumpToLines (unlines (print_dump sector align first last mbr rows)) = print_dump sector align first last mbr rows.
Proof.
  intros Hs Ha Hf Hl Hr. apply SplitRawDumpToLines_unlines. unfold print_dump. apply Forall_app. split; [by destruct mbr; repeat constructor|].
  apply Forall_app. split.
  - repeat constructor; rewrite ?clean_app, ?clean_to_string by done; done.
  - apply Forall_map. eapply Forall_impl; [exact Hr|]. apply print_row_line.
Qed.

(** C28: Every field of a printed partition table is read back, and every row with its
    partition number and sectors, in order: the sector size, the alignment and the
    last usable sector within the accepted ranges, the table type, and the rows. *)
Theorem partition_dump_roundtrip sector align first last mbr rows info :
  1 <= sector < INT32_MAX -> 1 <= align < INT32_MAX -> 0 <= first -> 0 <= last <= INT64_MAX -> Forall row_ok rows ->
  let content := SplitRawDumpToLines (unlines (print_dump sector align first last mbr rows)) in
  SetSectorSize content info = Some (PTI_SetSectorSize sector info) /\
  SetAlignSector content info = Some (PTI_SetAlignSector align info) /\
  SetUsableSector content info = Some (PTI_SetTotalSector last (PTI_SetLastUsableSector last info)) /\
  SetTableType content info = PTI_SetTableType (if mbr then "MBR" else "GPT") info /\
  omap (fun row => ParsePartitionInfo row PartitionInfo_default) (partition_rows content) = map row_info rows.
Proof.
  intros Hs Ha Hf Hl Hr content. unfold content. rewrite print_dump_lines by (done || lia). clear content.
  split; [|split; [|split; [|split]]].
  - unfold SetSectorSize. replace (first_line _ _) with (Some ("Sector size (logical): " +:+ to_string sector +:+ " bytes")) by (destruct mbr; reflexivity).
    cbn [mbind option_bind]. rewrite search_sector by lia. cbn [mbind option_bind]. by rewrite ConvertStringToInt32_to_string.
  - unfold SetAlignSector.
    replace (first_line _ _) with (Some ("Partitions will be aligned on " +:+ to_string align +:+ "-sector boundaries")) by (destruct mbr; reflexivity).
    cbn [mbind option_bind]. rewrite search_align by lia. cbn [mbind option_bind]. by rewrite ConvertStringToInt32_to_string.
  - unfold SetUsableSector.
    replace (first_line _ _) with (Some ("First usable sector is " +:+ to_string first +:+ ", last usable sector is " +:+ to_string last))
      by (destruct mbr; reflexivity).
    cbn [mbind option_bind]. rewrite search_last by lia. cbn [mbind option_bind]. by rewrite ConvertStringToInt_to_string.
  - unfold SetTableType. destruct mbr; [done|]. replace (first_line _ _) with (@None string); [done|].
    change (None = first_line "Found invalid GPT and valid MBR" (map print_row rows)). clear Hr. by induction rows.
  - replace (partition_rows _) with (map print_row rows) by (destruct mbr; reflexivity).
    induction Hr as [|r rows Hr _ IH]; [done|]. cbn [map omap list_omap]. rewrite ParsePartitionInfo_row by done. f_equal. exact IH.
Qed.

(** ** The checks of a new partition *)
(** C29: For a file system with a minimum size, and on a disk whose sector size and alignment
    are positive and whose last usable sector, in bytes, fits into 63 bits, the parameters
    of a new partition are accepted exactly when both ends lie between the alignment value and the
    last usable sector, the
    byte offset of the first sector is a multiple of the alignment value, and the size
    in bytes, both ends included, is at least the minimum. The right-hand side is exact
    arithmetic: on such a disk no product that wraps around decides. *)
Theorem IsParamsValid_iff (p : PartitionParams) (t : PartitionTableInfo) :
  1 <= pti_sectorSize t -> 1 <= pti_alignSector t -> pti_lastUsableSector t * pti_sectorSize t <= INT64_MAX ->
  has_min_partition_size (pp_typeCode p) = true ->
  IsParamsValid p t = true <->
  pti_alignSector t <= pp_startSector p <= pti_lastUsableSector t /\
  pti_alignSector t <= pp_endSector p <= pti_lastUsableSector t /\
  (pti_alignSector t | pp_startSector p * pti_sectorSize t) /\
  min_partition_size (pp_typeCode p) <= (pp_endSector p - pp_startSector p + 1) * pti_sectorSize t.
Proof.
  intros Hs Ha Hov Hm. unfold IsParamsValid. rewrite Hm. cbn [andb].
  set (a := pti_alignSector t) in *. set (l := pti_lastUsableSector t) in *. set (s := pti_sectorSize t) in *.
  set (x := pp_startSector p). set (y := pp_endSector p). set (mn := min_partition_size _).
  destruct (Z.ltb_spec l x); cbn [orb]; [split; [done|lia]|]. destruct (Z.ltb_spec x a); [split; [done|lia]|].
  assert (Hx : i64 (x * s) = x * s) by (apply i64_id; unfold_ints; nia). rewrite Hx.
  destruct (Z.eqb_spec (Z.rem (x * s) a) 0) as [Hrem|Hrem]; cbn [negb].
  2:{ split; [done|]. intros (_ & _ & Hd & _). exfalso. apply Hrem, Z.rem_divide; [lia|done]. }
  destruct (Z.ltb_spec l y); cbn [orb]; [split; [done|lia]|]. destruct (Z.ltb_spec y a); [split; [done|lia]|].
  assert (Hsz : i64 (i64 (i64 (y - x) + 1) * s) = (y - x + 1) * s).
  { assert (l <= INT64_MAX) by (unfold_ints; nia). rewrite (i64_id (y - x)), (i64_id (y - x + 1)) by (unfold_ints; lia).
    apply i64_id. unfold_ints. nia. }
  rewrite Hsz. destruct (Z.ltb_spec ((y - x + 1) * s) mn); split; try done; try lia.
  intros _. split; [lia|]. split; [lia|]. split; [|lia]. apply Z.rem_divide; [lia|done].
Qed.

(** The byte offset is compared with the alignment in sectors: a partition that starts
    at sector 2052 is accepted on a disk aligned on 2048-sector boundaries. *)
Definition ex_table : PartitionTableInfo :=
  PTI_SetTotalSector 1000000 (PTI_SetLastUsableSector 1000000 (PTI_SetDiskId "disk-8-0" PartitionTableInfo_default)).
Lemma IsParamsValid_accepts_unaligned :
  pti_alignSector ex_table = 2048 /\ IsParamsValid (mkPartitionParams 1 2052 100000 "vfat") ex_table = true.
Proof. vm_compute. done. Qed.

(** * Examples *)
Definition ex_rows : list Row := [mkRow 1 2048 1050623; mkRow 5 1050624 2097118].
Lemma ex_rows_ok : Forall row_ok ex_rows.
Proof. repeat constructor; cbn; unfold_ints; lia. Qed.
Lemma partition_dump_roundtrip_witness :
  let content := SplitRawDumpToLines (unlines (print_dump 512 2048 34 2097118 true ex_rows)) in
  SetTableType content PartitionTableInfo_default = PTI_SetTableType "MBR" PartitionTableInfo_default /\
  SetSectorSize content PartitionTableInfo_default = Some (PTI_SetSectorSize 512 PartitionTableInfo_default) /\
  omap (fun row => ParsePartitionInfo row PartitionInfo_default) (partition_rows content) = map row_info ex_rows.
Proof.
  destruct (partition_dump_roundtrip 512 2048 34 2097118 true ex_rows PartitionTableInfo_default) as (H1 & _ & _ & H4 & H5);
    [unfold_ints; lia|unfold_ints; lia|lia|unfold_ints; lia|exact ex_rows_ok|].
  split; [exact H4|]. split; [exact H1|exact H5].
Defined.
Lemma IsParamsValid_iff_witness :
  IsParamsValid (mkPartitionParams 1 2048 67583 "exfat") ex_table = true /\
  (2048 <= 2048 <= 1000000 /\ 2048 <= 67583 <= 1000000 /\ (2048 | 2048 * 512) /\ EXFAT_TYPECODE_MIN_SIZE <= (67583 - 2048 + 1) * 512).
Proof.
  assert (H : IsParamsValid (mkPartitionParams 1 2048 67583 "exfat") ex_table = true) by (vm_compute; reflexivity).
  split; [exact H|]. apply (IsParamsValid_iff (mkPartitionParams 1 2048 67583 "exfat") ex_table);
    [vm_compute; discriminate|vm_compute; discriminate|vm_compute; discriminate|reflexivity|exact H].
Defined.
