(* ===== verification/Parcel.v ===== *)
(** * Parcels

    [Parcel] is the platform's buffer of an IPC call: a queue of typed values. It is
    not part of the repository: the class [Parcel] has its writes and reads, and
    [ParcelLaws] what its documentation says of them: a value written is read back, by
    a read of its type, in the order of writing. [queue_parcel] is a parcel of bounded
    capacity that satisfies the laws. *)
From S2P Require Import Prelude CppString State.

(** The types of the values. [KToken] is the interface token, [KString16] a string of
    UTF-16 code units and [KFd] a file descriptor. *)
Inductive Kind : Set := KInt32 | KUint32 | KInt64 | KUint64 | KBool | KString | KString16 | KToken | KFd.
#[export] Instance Kind_eq_dec : EqDecision Kind.
Proof. solve_decision. Defined.
Definition carrier (k : Kind) : Type :=
  match k with
  | KInt32 | KUint32 | KInt64 | KUint64 | KFd => Z
  | KBool => bool
  | KString | KToken => string
  | KString16 => list Z
  end.
(** The values of the C++ type. *)
Definition kind_ok (k : Kind) : carrier k -> Prop :=
  match k with
  | KInt32 => in_i32 | KUint32 => in_u32 | KInt64 => in_i64 | KUint64 => in_u64
  | _ => fun _ => True
  end.
(** What a read gives when there is no such value. *)
Definition kind_default (k : Kind) : carrier k :=
  match k with
  | KInt32 | KUint32 | KInt64 | KUint64 => 0
  | KBool => false
  | KFd => -1
  | KString | KToken => ""
  | KString16 => []
  end.
Definition Datum : Type := {k : Kind & carrier k}.
Definition datum (k : Kind) (x : carrier k) : Datum := existT k x.

Class Parcel (P : Type) : Type := {
  pwrite (k : Kind) (x : carrier k) : State P bool;
  pread (k : Kind) : State P (carrier k);
  (* the reads that report failure: [bool ReadInt64(int64_t &)] *)
  ptry (k : Kind) : State P (option (carrier k));
  pnew : P;
}.

Class ParcelLaws (P : Type) {PA : Parcel P} : Type := {
  (* the values not yet read *)
  unread : P -> list Datum;
  unread_new : unread pnew = [];
  unread_write (k : Kind) (x : carrier k) (p : P) :
    kind_ok k x -> (pwrite k x p).1 = true -> unread (pwrite k x p).2 = unread p ++ [datum k x];
  read_unread (k : Kind) (x : carrier k) (p : P) (rest : list Datum) :
    kind_ok k x -> unread p = datum k x :: rest -> (pread k p).1 = x /\ unread (pread k p).2 = rest;
  try_unread (k : Kind) (x : carrier k) (p : P) (rest : list Datum) :
    kind_ok k x -> unread p = datum k x :: rest -> (ptry k p).1 = Some x /\ unread (ptry k p).2 = rest;
}.

(** ** A parcel of at most [cap] values *)
Record Queue : Type := mkQueue { q_cap : nat; q_data : list Datum }.
Definition queue_write (k : Kind) (x : carrier k) : State Queue bool := fun q =>
  if (List.length (q_data q) <? q_cap q)%nat then (true, mkQueue (q_cap q) (q_data q ++ [datum k x])) else (false, q).
Definition datum_as (k : Kind) (d : Datum) : option (carrier k) :=
  match decide (projT1 d = k) with left e => Some (eq_rect _ carrier (projT2 d) _ e) | right _ => None end.
Definition queue_try (k : Kind) : State Queue (option (carrier k)) := fun q =>
  match q_data q with
  | d :: rest => match datum_as k d with
                 | Some x => (Some x, mkQueue (q_cap q) rest)
                 | None => (None, q)
                 end
  | [] => (None, q)
  end.
Definition queue_read (k : Kind) : State Queue (carrier k) :=
  let! x := queue_try k in sret (default (kind_default k) x).
#[export] Instance queue_parcel : Parcel Queue := {|
  pwrite := queue_write; pread := queue_read; ptry := queue_try; pnew := mkQueue 4096 [] |}.

Lemma datum_as_same k (x : carrier k) : datum_as k (datum k x) = Some x.
Proof. unfold datum_as. cbn. destruct (decide (k = k)) as [e|]; [|done]. by rewrite (proof_irrel e eq_refl). Qed.
#[export] Instance queue_laws : ParcelLaws Queue.
Proof.
  refine {| unread := q_data |}.
  - done.
  - intros k x q _. cbn. unfold queue_write. by destruct (_ <? _)%nat.
  - intros k x q rest _ Hq. cbn. unfold queue_read, sbind, queue_try. rewrite Hq, datum_as_same. done.
  - intros k x q rest _ Hq. cbn. unfold queue_try. rewrite Hq, datum_as_same. done.
Defined.

(** ** Writing and reading structures *)
Section wire.
Context {P : Type} {PA : Parcel P}.
Notation M := (State P).

(** [if (!parcel.Write...(x)) { return false; }] *)
Definition write_then (k : Kind) (x : carrier k) (cont : M bool) : M bool :=
  let! ok := pwrite k x in if ok then cont else sret false.
(** A read that refuses strings longer than [PARCEL_STRING_MAX_LEN]. *)
Definition PARCEL_STRING_MAX_LEN : nat := 4096.
Definition read_string {A} (cont : string -> M (option A)) : M (option A) :=
  let! s := pread KString in
  if (PARCEL_STRING_MAX_LEN <? String.length s)%nat then sret None else cont s.

(** A loop of writes, and a counted loop of reads. *)
Fixpoint write_all {A} (wr : A -> M bool) (l : list A) : M bool :=
  match l with
  | [] => sret true
  | x :: l => let! ok := wr x in if ok then write_all wr l else sret false
  end.
Fixpoint read_n {A} (n : nat) (rd : M (option A)) : M (option (list A)) :=
  match n with
  | O => sret (Some [])
  | S n =>
      let! x := rd in
      match x with
      | None => sret None
      | Some x => let! l := read_n n rd in sret (match l with Some l => Some (x :: l) | None => None end)
      end
  end.
Definition read_one_string : M (option string) := read_string (fun s => sret (Some s)).
End wire.
Notation "'write!' k x 'then' m" := (write_then k x m) (at level 200, k at level 9, x at level 9, m at level 200) : state_scope.
Notation "'string!' s 'in' m" := (read_string (fun s => m)) (at level 200, s name, m at level 200) : state_scope.

(** ** Reasoning

    [writes m enc]: when [m] succeeds it has appended [enc]. [reads m enc a]: from a
    parcel that starts with [enc], [m] gives [a] and consumes [enc]. *)
Section laws.
Context {P : Type} {PA : Parcel P} {PL : ParcelLaws P}.
Notation M := (State P).
Implicit Types (p : P) (enc : list Datum).

Definition writes (m : M bool) (enc : list Datum) : Prop :=
  forall p, (m p).1 = true -> unread (m p).2 = unread p ++ enc.
Definition reads {A} (m : M A) (enc : list Datum) (a : A) : Prop :=
  forall p rest, unread p = enc ++ rest -> (m p).1 = a /\ unread (m p).2 = rest.

Lemma writes_ret : writes (sret true) [].
Proof. intros p _. cbn. by rewrite app_nil_r. Qed.
Lemma writes_refuse enc : writes (sret false) enc.
Proof. by intros p H. Qed.
Lemma writes_bind m cont enc enc' :
  writes m enc -> writes cont enc' -> writes (let! ok := m in if ok then cont else sret false) (enc ++ enc').
Proof.
  intros Hm Hc p H. specialize (Hm p). unfold sbind in *. destruct (m p) as [[] p1]; [|done]. cbn in *.
  rewrite Hc, Hm by done. by rewrite app_assoc.
Qed.
Lemma writes_one k x : kind_ok k x -> writes (pwrite k x) [datum k x].
Proof. intros Hk p H. by apply unread_write. Qed.
Lemma writes_then k x cont enc : kind_ok k x -> writes cont enc -> writes (write_then k x cont) (datum k x :: enc).
Proof. intros Hk Hc. apply (writes_bind _ _ [_]); [|done]. by apply writes_one. Qed.
Lemma writes_all {A} (wr : A -> M bool) (enc : A -> list Datum) l :
  (forall x, x ∈ l -> writes (wr x) (enc x)) -> writes (write_all wr l) (List.concat (map enc l)).
Proof.
  induction l as [|x l IH]; intros H; cbn; [apply writes_ret|]. apply writes_bind; [apply H, list_elem_of_here|].
  apply IH. intros y Hy. by apply H, list_elem_of_further.
Qed.

Lemma reads_ret {A} (a : A) : reads (sret a) [] a.
Proof. by intros p rest H. Qed.
Lemma reads_bind {A B} (m : M A) (f : A -> M B) enc enc' a b :
  reads m enc a -> reads (f a) enc' b -> reads (sbind m f) (enc ++ enc') b.
Proof.
  intros Hm Hf p rest H. unfold sbind. rewrite <- app_assoc in H. apply Hm in H as [Ha H]. destruct (m p) as [a' p1].
  cbn in *. subst a'. by apply Hf.
Qed.
Lemma reads_one k x : kind_ok k x -> reads (pread k) [datum k x] x.
Proof. intros Hk p rest H. by apply read_unread. Qed.
Lemma reads_then {B} k x (f : carrier k -> M B) enc b :
  kind_ok k x -> reads (f x) enc b -> reads (sbind (pread k) f) (datum k x :: enc) b.
Proof. intros Hk Hf. apply (reads_bind _ _ [_] _ x); [|done]. by apply reads_one. Qed.
Lemma reads_try {B} k x (f : option (carrier k) -> M B) enc b :
  kind_ok k x -> reads (f (Some x)) enc b -> reads (sbind (ptry k) f) (datum k x :: enc) b.
Proof. intros Hk Hf. apply (reads_bind _ _ [_] _ (Some x)); [|done]. intros p rest Hp. by apply try_unread. Qed.
Lemma reads_string {B} s (f : string -> M (option B)) enc b :
  (String.length s <= PARCEL_STRING_MAX_LEN)%nat -> reads (f s) enc b -> reads (read_string f) (datum KString s :: enc) b.
Proof.
  intros Hs Hf. apply reads_then; [done|]. destruct (_ <? _)%nat eqn:Hl; [|done]. apply Nat.ltb_lt in Hl. lia.
Qed.
Lemma reads_n {A} (rd : M (option A)) (enc : A -> list Datum) (out : A -> A) l :
  (forall x, x ∈ l -> reads rd (enc x) (Some (out x))) ->
  reads (read_n (List.length l) rd) (List.concat (map enc l)) (Some (map out l)).
Proof.
  induction l as [|x l IH]; intros H; cbn; [apply reads_ret|]. apply reads_bind with (Some (out x)); [apply H, list_elem_of_here|].
  cbn. rewrite <- (app_nil_r (List.concat _)). eapply reads_bind; [apply IH|].
  - intros y Hy. by apply H, list_elem_of_further.
  - apply reads_ret.
Qed.
Lemma reads_one_string s : (String.length s <= PARCEL_STRING_MAX_LEN)%nat -> reads read_one_string [datum KString s] (Some s).
Proof. intros Hs. apply reads_string; [done|]. apply reads_ret. Qed.

(** Transfer: what one side wrote into a fresh parcel, the other side reads. *)
Lemma transfer {A} (wr : M bool) (rd : M A) enc a :
  writes wr enc -> reads rd enc a -> (wr pnew).1 = true -> (rd (wr pnew).2).1 = a /\ unread (rd (wr pnew).2).2 = [].
Proof. intros Hw Hr Hok. apply Hr. rewrite Hw by done. by rewrite unread_new, app_nil_r. Qed.
End laws.

(** One step of a structure's writes or reads. *)
Ltac wire_step :=
  lazymatch goal with
  | |- writes (write_then _ _ _) _ => apply writes_then
  | |- writes (sret true) _ => apply writes_ret
  | |- reads (read_string _) _ _ => apply reads_string
  | |- reads (sbind (pread _) _) _ _ => apply reads_then
  | |- reads (sbind (ptry _) _) _ _ => apply reads_try
  | |- reads (sret _) _ _ => apply reads_ret
  end.

(** Values written and read one after the other. *)
Ltac wire_ok := solve [ assumption | exact I | done | tauto ].
Ltac wire_flat := repeat (wire_step; try wire_ok).

(** ** What a reader accepts from any parcel *)
Section any.
Context {P : Type} {PA : Parcel P}.
Notation M := (State P).

(** Whatever the parcel holds, an object that [m] gives is in [Q]. *)
Definition accepts {A} (m : M (option A)) (Q : A -> Prop) : Prop := forall p a, (m p).1 = Some a -> Q a.
Lemma accepts_none {A} (Q : A -> Prop) : accepts (sret None) Q.
Proof. by intros p a H. Qed.
Lemma accepts_some {A} (a : A) (Q : A -> Prop) : Q a -> accepts (sret (Some a)) Q.
Proof. intros H p b Hb. cbn in Hb. congruence. Qed.
Lemma accepts_bind {A B} (m : M A) (f : A -> M (option B)) Q : (forall a, accepts (f a) Q) -> accepts (sbind m f) Q.
Proof. intros H p b Hb. unfold sbind in Hb. destruct (m p) as [a p1]. by apply (H a) in Hb. Qed.
Lemma accepts_string {B} (f : string -> M (option B)) Q :
  (forall s, (String.length s <= PARCEL_STRING_MAX_LEN)%nat -> accepts (f s) Q) -> accepts (read_string f) Q.
Proof.
  intros H. apply accepts_bind. intros s. destruct (_ <? _)%nat eqn:Hl; [apply accepts_none|].
  apply H. apply Nat.ltb_ge in Hl. lia.
Qed.
Lemma accepts_opt_bind {A B} (m : M (option A)) (f : option A -> M (option B)) (R : A -> Prop) Q :
  accepts m R -> accepts (f None) Q -> (forall a, R a -> accepts (f (Some a)) Q) -> accepts (sbind m f) Q.
Proof.
  intros Hm Hn Hs p b Hb. unfold sbind in Hb. destruct (m p) as [[a|] p1] eqn:Hp.
  - apply (Hs a) in Hb; [done|]. apply (Hm p a). by rewrite Hp.
  - by apply Hn in Hb.
Qed.
Lemma accepts_n {A} n (rd : M (option A)) Q :
  accepts rd Q -> accepts (read_n n rd) (fun l => List.length l = n /\ Forall Q l).
Proof.
  intros Hr. induction n as [|n IH]; cbn; [by apply accepts_some|].
  eapply accepts_opt_bind; [apply Hr|apply accepts_none|]. intros x Hx. cbn.
  eapply accepts_opt_bind; [apply IH|apply accepts_none|]. intros l [Hl HQ]. apply accepts_some. split; cbn; [by rewrite Hl|].
  by constructor.
Qed.
End any.
Ltac accept_step :=
  lazymatch goal with
  | |- accepts (read_string _) _ => apply accepts_string; intros ? ?
  | |- accepts (sbind (pread _) _) _ => apply accepts_bind; intros ?
  | |- accepts (sret None) _ => apply accepts_none
  | |- accepts (sret (Some _)) _ => apply accepts_some
  | |- accepts (if ?b then _ else _) _ => destruct b eqn:?
  end.
