(* ===== verification/Marshal.v ===== *)
(** * Marshalling of the innerkits' types

    [interfaces/innerkits/src/*.cpp]: the [Marshalling] and [Unmarshalling] members
    of the types that cross the IPC boundary. [new (std::nothrow)] is taken to
    succeed. Members that are not written keep the value of the default constructor. *)
From S2P Require Import Prelude CppString State Types Parcel.

Definition PARTITION_COUNT_MAX : Z := 256.
Definition DISK_VOLUME_IDS_PARCEL_MAX : Z := 256.
Definition EXTERNAL_DISK_VOLUME_IDS_PARCEL_MAX : Z := 256.
Definition size32 {A} (l : list A) : Z := u32 (Z.of_nat (List.length l)).

Section marshal.
Context {P : Type} {PA : Parcel P}.
Notation M := (State P).

(* @src interfaces/innerkits/src/partition_types.cpp 101-122 PartitionInfo::Marshalling *)
Definition PartitionInfo_Marshalling (o : PartitionInfo) : M bool :=
  write! KInt32 (pi_partitionNum o) then
  write! KString (pi_diskId o) then
  write! KInt64 (pi_startSector o) then
  write! KInt64 (pi_endSector o) then
  write! KInt64 (pi_sizeBytes o) then
  write! KString (pi_fsType o) then sret true.
(* @src interfaces/innerkits/src/partition_types.cpp 124-145 PartitionInfo::Unmarshalling *)
Definition PartitionInfo_Unmarshalling : M (option PartitionInfo) :=
  let! partitionNum := pread KInt32 in
  string! diskId in
  let! startSector := pread KInt64 in
  let! endSector := pread KInt64 in
  let! sizeBytes := pread KInt64 in
  string! fsType in
  sret (Some (mkPartitionInfo partitionNum diskId startSector endSector sizeBytes fsType)).

(* @src interfaces/innerkits/src/partition_types.cpp 234-267 PartitionTableInfo::Marshalling *)
Definition PartitionTableInfo_Marshalling (o : PartitionTableInfo) : M bool :=
  write! KString (pti_diskId o) then
  write! KString (pti_tableType o) then
  write! KInt32 (pti_partitionCount o) then
  write! KInt64 (pti_totalSector o) then
  write! KInt32 (pti_sectorSize o) then
  write! KInt32 (pti_alignSector o) then
  let nPartitions := size32 (pti_partitions o) in
  if PARTITION_COUNT_MAX <? nPartitions then sret false
  else
    write! KUint32 nPartitions then
    write_all PartitionInfo_Marshalling (pti_partitions o).
(* @src interfaces/innerkits/src/partition_types.cpp 269-306 PartitionTableInfo::Unmarshalling *)
Definition PartitionTableInfo_Unmarshalling : M (option PartitionTableInfo) :=
  string! diskId in
  string! tableType in
  let! partitionCount := pread KInt32 in
  let! totalSector := pread KInt64 in
  let! sectorSize := pread KInt32 in
  let! alignSector := pread KInt32 in
  let! nPartitions := pread KUint32 in
  if PARTITION_COUNT_MAX <? nPartitions then sret None
  else
    let! parts := read_n (Z.to_nat nPartitions) PartitionInfo_Unmarshalling in
    match parts with
    | None => sret None
    | Some parts =>
        let d := PartitionTableInfo_default in
        sret (Some (mkPartitionTableInfo diskId tableType partitionCount totalSector sectorSize alignSector (pti_lastUsableSector d) parts))
    end.

(* @src interfaces/innerkits/src/partition_types.cpp 354-369 PartitionParams::Marshalling *)
Definition PartitionParams_Marshalling (o : PartitionParams) : M bool :=
  write! KInt32 (pp_partitionNum o) then
  write! KInt64 (pp_startSector o) then
  write! KInt64 (pp_endSector o) then
  write! KString (pp_typeCode o) then sret true.
(* @src interfaces/innerkits/src/partition_types.cpp 371-386 PartitionParams::Unmarshalling *)
Definition PartitionParams_Unmarshalling : M (option PartitionParams) :=
  let! partitionNum := pread KInt32 in
  let! startSector := pread KInt64 in
  let! endSector := pread KInt64 in
  string! typeCode in
  sret (Some (mkPartitionParams partitionNum startSector endSector typeCode)).

(* @src interfaces/innerkits/src/partition_types.cpp 423-435 FormatParams::Marshalling *)
Definition FormatParams_Marshalling (o : FormatParams) : M bool :=
  write! KString (fp_fsType o) then
  write! KBool (fp_quickFormat o) then
  write! KString (fp_volumeName o) then sret true.
(* @src interfaces/innerkits/src/partition_types.cpp 437-455 FormatParams::Unmarshalling *)
Definition FormatParams_Unmarshalling : M (option FormatParams) :=
  string! fsType in
  let! quickFormat := pread KBool in
  string! volumeName in
  sret (Some (mkFormatParams fsType quickFormat volumeName)).

(* @src interfaces/innerkits/src/mount_param.cpp 43-49 MountParam::Marshalling *)
Definition MountParam_Marshalling (o : MountParam) : M bool :=
  write! KBool (mp_readOnly o) then
  write! KBool (mp_fromEdmMount o) then sret true.
(* @src interfaces/innerkits/src/mount_param.cpp 51-60 MountParam::Unmarshalling *)
Definition MountParam_Unmarshalling : M (option MountParam) :=
  let! readOnly := pread KBool in
  let! fromEdmMount := pread KBool in
  sret (Some (mkMountParam readOnly fromEdmMount)).

(* @src interfaces/innerkits/src/crypt_param.cpp 68-83 CryptParam::Marshalling *)
Definition CryptParam_Marshalling (o : CryptParam) : M bool :=
  write! KString (cp_type o) then
  write! KString (cp_cipher o) then
  write! KInt32 (cp_keySize o) then
  write! KString (cp_keyFile o) then sret true.
(* @src interfaces/innerkits/src/crypt_param.cpp 85-108 CryptParam::Unmarshalling *)
Definition CryptParam_Unmarshalling : M (option CryptParam) :=
  string! type in
  string! cipher in
  let! keySize := pread KInt32 in
  string! keyFile in
  sret (Some (mkCryptParam type cipher keySize keyFile)).

(* @src interfaces/innerkits/src/external_disk_info.cpp 26-50 ExternalDiskInfo::Marshalling *)
Definition ExternalDiskInfo_Marshalling (o : ExternalDiskInfo) : M bool :=
  write! KString (edi_diskId o) then
  write! KInt32 (edi_diskType o) then
  write! KUint32 (size32 (edi_volumeIds o)) then
  let! ok := write_all (pwrite KString) (edi_volumeIds o) in
  if ok then
    write! KInt32 (edi_vendorId o) then
    write! KInt32 (edi_productId o) then sret true
  else sret false.
(* @src interfaces/innerkits/src/external_disk_info.cpp 52-82 ExternalDiskInfo::Unmarshalling *)
Definition ExternalDiskInfo_Unmarshalling : M (option ExternalDiskInfo) :=
  string! diskId in
  let! diskType := pread KInt32 in
  let! nVolumes := pread KUint32 in
  if EXTERNAL_DISK_VOLUME_IDS_PARCEL_MAX <? nVolumes then sret None
  else
    let! volumeIds := read_n (Z.to_nat nVolumes) read_one_string in
    match volumeIds with
    | None => sret None
    | Some volumeIds =>
        let! vendorId := pread KInt32 in
        let! productId := pread KInt32 in
        sret (Some (mkExternalDiskInfo diskId diskType volumeIds vendorId productId))
    end.

(* @src interfaces/innerkits/src/external_volume_info.cpp 25-55 ExternalVolumeInfo::Marshalling *)
Definition ExternalVolumeInfo_Marshalling (o : ExternalVolumeInfo) : M bool :=
  write! KString (evi_volumeId o) then
  write! KString (evi_uuid o) then
  write! KString (evi_diskId o) then
  write! KString (evi_description o) then
  write! KInt32 (evi_state o) then
  write! KInt64 (evi_totalSize o) then
  write! KInt64 (evi_freeSize o) then
  write! KString (evi_path o) then
  write! KString (evi_fsType o) then sret true.
(* @src interfaces/innerkits/src/external_volume_info.cpp 57-97 ExternalVolumeInfo::Unmarshalling *)
Definition ExternalVolumeInfo_Unmarshalling : M (option ExternalVolumeInfo) :=
  string! volumeId in
  string! uuid in
  string! diskId in
  string! description in
  let! state := pread KInt32 in
  let! totalSize := pread KInt64 in
  let! freeSize := pread KInt64 in
  string! path in
  string! fsType in
  sret (Some (mkExternalVolumeInfo volumeId uuid diskId description state totalSize freeSize path fsType)).

(* @src interfaces/innerkits/src/volume_core.cpp 95-125 VolumeCore::Marshalling *)
Definition VolumeCore_Marshalling (o : VolumeCore) : M bool :=
  write! KString (core_id o) then
  write! KInt32 (core_type o) then
  write! KString (core_diskId o) then
  write! KInt32 (core_state o) then
  write! KBool (core_errorFlag o) then
  write! KString (core_fsType o) then
  write! KString (core_extraInfo o) then sret true.
(* @src interfaces/innerkits/src/volume_core.cpp 156-186 VolumeCore::Unmarshalling *)
Definition VolumeCore_Unmarshalling : M (option VolumeCore) :=
  string! id in
  let! type := pread KInt32 in
  string! diskId in
  let! state := pread KInt32 in
  let! errorFlag := pread KBool in
  string! fsType in
  string! extraInfo in
  sret (Some (mkVolumeCore id type diskId state errorFlag fsType extraInfo)).

(* @src interfaces/innerkits/src/volume_core.cpp 127-154 VolumeInfoStr::Marshalling *)
Definition VolumeInfoStr_Marshalling (o : VolumeInfoStr) : M bool :=
  write! KString (vis_volumeId o) then
  write! KString (vis_fsTypeStr o) then
  write! KString (vis_fsUuid o) then
  write! KString (vis_path o) then
  write! KString (vis_description o) then
  write! KBool (vis_isDamaged o) then sret true.
(* @src interfaces/innerkits/src/volume_core.cpp 188-221 VolumeInfoStr::Unmarshalling *)
Definition VolumeInfoStr_Unmarshalling : M (option VolumeInfoStr) :=
  string! volumeId in
  string! fsTypeStr in
  string! fsUuid in
  string! path in
  string! description in
  let! isDamaged := pread KBool in
  sret (Some (mkVolumeInfoStr volumeId fsTypeStr fsUuid path description isDamaged)).

(* @src interfaces/innerkits/src/volume_external.cpp 220-271 VolumeExternal::Marshalling *)
Definition VolumeExternal_Marshalling (o : VolumeExternal) : M bool :=
  let! ok := VolumeCore_Marshalling (vol_core o) in
  if ok then
    write! KInt32 (vol_flags o) then
    write! KInt32 (vol_fsType o) then
    write! KString (vol_fsUuid o) then
    write! KString (vol_path o) then
    write! KString (vol_description o) then
    write! KInt32 (vol_partitionNum o) then
    write! KString (vol_loopPath o) then
    write! KString (vol_mapperPath o) then
    write! KBool (vol_mountFlag o) then
    write! KUint64 (vol_offset o) then
    write! KUint64 (vol_sizeLimit o) then sret true
  else sret false.
(** The core is copied by the constructor [VolumeExternal(VolumeCore)]. *)
(* @src interfaces/innerkits/src/volume_external.cpp 195-218 VolumeExternal::Unmarshalling *)
Definition VolumeExternal_Unmarshalling : M (option VolumeExternal) :=
  let! core := VolumeCore_Unmarshalling in
  match core with
  | None => sret None
  | Some core =>
      let obj := VolumeExternal_of_core core in
      let! flags := pread KInt32 in
      let! fsType := pread KInt32 in
      let! fsUuid := pread KString in
      let! path := pread KString in
      let! description := pread KString in
      let! partitionNum := pread KInt32 in
      let! loopPath := pread KString in
      let! mapperPath := pread KString in
      let! mountFlag := pread KBool in
      let! offset := pread KUint64 in
      let! sizeLimit := pread KUint64 in
      sret (Some (mkVolumeExternal (vol_core obj) fsType flags fsUuid path description (vol_isUserData obj) (vol_umountResult obj)
                    partitionNum (vol_freeSize obj) mountFlag loopPath mapperPath offset sizeLimit))
  end.

(* @src interfaces/innerkits/src/disk.cpp 298-340 Disk::Marshalling *)
Definition Disk_Marshalling (o : Disk) : M bool :=
  write! KString (disk_diskId o) then
  write! KInt64 (disk_sizeBytes o) then
  write! KInt32 (disk_diskType o) then
  write! KBool (disk_removable o) then
  write! KUint32 (size32 (disk_volumeIds o)) then
  let! ok := write_all (pwrite KString) (disk_volumeIds o) in
  if ok then
    write! KString (disk_extraInfo o) then
    write! KInt32 (disk_vendorId o) then
    write! KInt32 (disk_productId o) then
    write! KString (disk_serialNumber o) then
    write! KInt32 (disk_busnum o) then
    write! KInt32 (disk_devAddress o) then sret true
  else sret false.
(* @src interfaces/innerkits/src/disk.cpp 342-386 Disk::Unmarshalling *)
Definition Disk_Unmarshalling : M (option Disk) :=
  string! diskId in
  let! sizeBytes := pread KInt64 in
  let! diskType := pread KInt32 in
  let! removable := pread KBool in
  let! nVolumes := pread KUint32 in
  if DISK_VOLUME_IDS_PARCEL_MAX <? nVolumes then sret None
  else
    let! volumeIds := read_n (Z.to_nat nVolumes) read_one_string in
    match volumeIds with
    | None => sret None
    | Some volumeIds =>
        string! extraInfo in
        let! vendorId := pread KInt32 in
        let! productId := pread KInt32 in
        string! serialNumber in
        let! busnum := pread KInt32 in
        let! devAddress := pread KInt32 in
        let d := Disk_default in
        sret (Some (mkDisk diskId sizeBytes diskType removable volumeIds extraInfo (disk_cdromState d) (disk_isUsbBus d)
          (disk_sysPath d) (disk_devName d) (disk_vendor d) (disk_partitionType d) vendorId productId serialNumber busnum devAddress))
    end.
End marshal.
