(* ===== verification/MarshalFacts.v ===== *)
(** * Round trips of the marshalled types

    [Wire T] is what one type promises to the code that sends it: what it writes when
    it succeeds is what its reader needs to rebuild [received]. Every type of
    [Marshal] is an instance, and a structure's proof uses its members'. The condition
    [sendable] has two parts: integers are values of their C++ type, which holds of
    any object, and strings and vectors are within the reader's limits. *)
From S2P Require Import Prelude CppString State Types Parcel Marshal.

Definition short (s : string) : Prop := (String.length s <= PARCEL_STRING_MAX_LEN)%nat.
Definition few {A} (max : Z) (l : list A) : Prop := Z.of_nat (List.length l) <= max.

Section wire.
Context {P : Type} {PA : Parcel P} {PL : ParcelLaws P}.

Class Wire (T : Type) (marshal : T -> State P bool) (unmarshal : State P (option T)) : Type := {
  sendable : T -> Prop;
  received : T -> T;
  wire : T -> list Datum;
  wire_writes (o : T) : sendable o -> writes (marshal o) (wire o);
  wire_reads (o : T) : sendable o -> reads unmarshal (wire o) (Some (received o));
}.

Lemma wire_transfer {T m u} `{!Wire T m u} (o : T) :
  sendable o -> (m o pnew).1 = true -> (u (m o pnew).2).1 = Some (received o) /\ unread (u (m o pnew).2).2 = [].
Proof. intros Hs. apply (transfer _ _ (wire o)); [by apply wire_writes|by apply wire_reads]. Qed.

Lemma size32_few {A} max (l : list A) : max <= UINT32_MAX -> few max l -> size32 l = Z.of_nat (List.length l).
Proof. unfold few, size32. intros. apply u32_id. unfold_ints. lia. Qed.

(** Vectors of strings. *)
Definition strings_wire (l : list string) : list Datum := List.concat (map (fun s => [datum KString s]) l).
Lemma strings_write l : writes (write_all (pwrite KString) l) (strings_wire l).
Proof. apply writes_all. intros s _. by apply writes_one. Qed.
Lemma strings_read l : Forall short l -> reads (read_n (List.length l) read_one_string) (strings_wire l) (Some l).
Proof.
  intros Hl. rewrite <- (map_id l) at 3. apply (reads_n _ _ id). intros s Hs. rewrite Forall_forall in Hl.
  by apply reads_one_string, Hl.
Qed.
End wire.

Section instances.
Context {P : Type} {PA : Parcel P} {PL : ParcelLaws P}.
Notation Wire := (Wire (P := P)).

#[export] Instance PartitionInfo_wire : Wire PartitionInfo PartitionInfo_Marshalling PartitionInfo_Unmarshalling.
Proof.
  refine {| sendable o := in_i32 (pi_partitionNum o) /\ short (pi_diskId o) /\ in_i64 (pi_startSector o) /\
                          in_i64 (pi_endSector o) /\ in_i64 (pi_sizeBytes o) /\ short (pi_fsType o);
            received o := o;
            wire o := [datum KInt32 (pi_partitionNum o); datum KString (pi_diskId o); datum KInt64 (pi_startSector o);
                       datum KInt64 (pi_endSector o); datum KInt64 (pi_sizeBytes o); datum KString (pi_fsType o)] |}.
  - intros o Hs. unfold PartitionInfo_Marshalling. wire_flat.
  - intros o Hs. unfold PartitionInfo_Unmarshalling. destruct o; cbn in *. wire_flat.
Defined.
#[export] Instance PartitionParams_wire : Wire PartitionParams PartitionParams_Marshalling PartitionParams_Unmarshalling.
Proof.
  refine {| sendable o := in_i32 (pp_partitionNum o) /\ in_i64 (pp_startSector o) /\ in_i64 (pp_endSector o) /\ short (pp_typeCode o);
            received o := o;
            wire o := [datum KInt32 (pp_partitionNum o); datum KInt64 (pp_startSector o); datum KInt64 (pp_endSector o);
                       datum KString (pp_typeCode o)] |}.
  - intros o Hs. unfold PartitionParams_Marshalling. wire_flat.
  - intros o Hs. unfold PartitionParams_Unmarshalling. destruct o; cbn in *. wire_flat.
Defined.
#[export] Instance FormatParams_wire : Wire FormatParams FormatParams_Marshalling FormatParams_Unmarshalling.
Proof.
  refine {| sendable o := short (fp_fsType o) /\ short (fp_volumeName o);
            received o := o;
            wire o := [datum KString (fp_fsType o); datum KBool (fp_quickFormat o); datum KString (fp_volumeName o)] |}.
  - intros o Hs. unfold FormatParams_Marshalling. wire_flat.
  - intros o Hs. unfold FormatParams_Unmarshalling. destruct o; cbn in *. wire_flat.
Defined.
#[export] Instance MountParam_wire : Wire MountParam MountParam_Marshalling MountParam_Unmarshalling.
Proof.
  refine {| sendable o := True; received o := o;
            wire o := [datum KBool (mp_readOnly o); datum KBool (mp_fromEdmMount o)] |}.
  - intros o Hs. unfold MountParam_Marshalling. wire_flat.
  - intros o Hs. unfold MountParam_Unmarshalling. destruct o; cbn in *. wire_flat.
Defined.
#[export] Instance CryptParam_wire : Wire CryptParam CryptParam_Marshalling CryptParam_Unmarshalling.
Proof.
  refine {| sendable o := short (cp_type o) /\ short (cp_cipher o) /\ in_i32 (cp_keySize o) /\ short (cp_keyFile o);
            received o := o;
            wire o := [datum KString (cp_type o); datum KString (cp_cipher o); datum KInt32 (cp_keySize o); datum KString (cp_keyFile o)] |}.
  - intros o Hs. unfold CryptParam_Marshalling. wire_flat.
  - intros o Hs. unfold CryptParam_Unmarshalling. destruct o; cbn in *. wire_flat.
Defined.
#[export] Instance ExternalVolumeInfo_wire : Wire ExternalVolumeInfo ExternalVolumeInfo_Marshalling ExternalVolumeInfo_Unmarshalling.
Proof.
  refine {| sendable o := short (evi_volumeId o) /\ short (evi_uuid o) /\ short (evi_diskId o) /\ short (evi_description o) /\
                          in_i32 (evi_state o) /\ in_i64 (evi_totalSize o) /\ in_i64 (evi_freeSize o) /\ short (evi_path o) /\ short (evi_fsType o);
            received o := o;
            wire o := [datum KString (evi_volumeId o); datum KString (evi_uuid o); datum KString (evi_diskId o);
                       datum KString (evi_description o); datum KInt32 (evi_state o); datum KInt64 (evi_totalSize o);
                       datum KInt64 (evi_freeSize o); datum KString (evi_path o); datum KString (evi_fsType o)] |}.
  - intros o Hs. unfold ExternalVolumeInfo_Marshalling. wire_flat.
  - intros o Hs. unfold ExternalVolumeInfo_Unmarshalling. destruct o; cbn in *. wire_flat.
Defined.
#[export] Instance VolumeInfoStr_wire : Wire VolumeInfoStr VolumeInfoStr_Marshalling VolumeInfoStr_Unmarshalling.
Proof.
  refine {| sendable o := short (vis_volumeId o) /\ short (vis_fsTypeStr o) /\ short (vis_fsUuid o) /\ short (vis_path o) /\ short (vis_description o);
            received o := o;
            wire o := [datum KString (vis_volumeId o); datum KString (vis_fsTypeStr o); datum KString (vis_fsUuid o);
                       datum KString (vis_path o); datum KString (vis_description o); datum KBool (vis_isDamaged o)] |}.
  - intros o Hs. unfold VolumeInfoStr_Marshalling. wire_flat.
  - intros o Hs. unfold VolumeInfoStr_Unmarshalling. destruct o; cbn in *. wire_flat.
Defined.
#[export] Instance VolumeCore_wire : Wire VolumeCore VolumeCore_Marshalling VolumeCore_Unmarshalling.
Proof.
  refine {| sendable o := short (core_id o) /\ in_i32 (core_type o) /\ short (core_diskId o) /\ in_i32 (core_state o) /\
                          short (core_fsType o) /\ short (core_extraInfo o);
            received o := o;
            wire o := [datum KString (core_id o); datum KInt32 (core_type o); datum KString (core_diskId o); datum KInt32 (core_state o);
                       datum KBool (core_errorFlag o); datum KString (core_fsType o); datum KString (core_extraInfo o)] |}.
  - intros o Hs. unfold VolumeCore_Marshalling. wire_flat.
  - intros o Hs. unfold VolumeCore_Unmarshalling. destruct o; cbn in *. wire_flat.
Defined.
End instances.

(** The structures with vectors, and the volume with its core. *)
Section composite.
Context {P : Type} {PA : Parcel P} {PL : ParcelLaws P}.
Notation Wire := (Wire (P := P)).

#[export] Instance VolumeExternal_wire : Wire VolumeExternal VolumeExternal_Marshalling VolumeExternal_Unmarshalling.
Proof.
  refine {| sendable o := sendable (vol_core o) /\ in_i32 (vol_flags o) /\ in_i32 (vol_fsType o) /\ in_i32 (vol_partitionNum o) /\
                          in_u64 (vol_offset o) /\ in_u64 (vol_sizeLimit o);
            received o :=
              mkVolumeExternal (vol_core (VolumeExternal_of_core (vol_core o))) (vol_fsType o) (vol_flags o) (vol_fsUuid o) (vol_path o)
                (vol_description o) false "" (vol_partitionNum o) 0 (vol_mountFlag o) (vol_loopPath o) (vol_mapperPath o)
                (vol_offset o) (vol_sizeLimit o);
            wire o := wire (vol_core o) ++
              [datum KInt32 (vol_flags o); datum KInt32 (vol_fsType o); datum KString (vol_fsUuid o); datum KString (vol_path o);
               datum KString (vol_description o); datum KInt32 (vol_partitionNum o); datum KString (vol_loopPath o);
               datum KString (vol_mapperPath o); datum KBool (vol_mountFlag o); datum KUint64 (vol_offset o); datum KUint64 (vol_sizeLimit o)] |}.
  - intros o (Hc & Hs). apply writes_bind; [by apply wire_writes|]. wire_flat.
  - intros o (Hc & Hs). unfold VolumeExternal_Unmarshalling. eapply reads_bind; [by apply wire_reads|].
    destruct o; cbn in *. wire_flat.
Defined.

#[export] Instance PartitionTableInfo_wire : Wire PartitionTableInfo PartitionTableInfo_Marshalling PartitionTableInfo_Unmarshalling.
Proof.
  refine {| sendable o := short (pti_diskId o) /\ short (pti_tableType o) /\ in_i32 (pti_partitionCount o) /\ in_i64 (pti_totalSector o) /\
                          in_i32 (pti_sectorSize o) /\ in_i32 (pti_alignSector o) /\ few PARTITION_COUNT_MAX (pti_partitions o) /\
                          Forall sendable (pti_partitions o);
            received o := PTI_SetLastUsableSector 0 o;
            wire o := [datum KString (pti_diskId o); datum KString (pti_tableType o); datum KInt32 (pti_partitionCount o);
                       datum KInt64 (pti_totalSector o); datum KInt32 (pti_sectorSize o); datum KInt32 (pti_alignSector o);
                       datum KUint32 (size32 (pti_partitions o))] ++ List.concat (map wire (pti_partitions o)) |}.
  all: intros o (Hd & Ht & Hc & Hto & Hss & Ha & Hf & Hp); rewrite Forall_forall in Hp.
  all: assert (Hu : in_u32 (size32 (pti_partitions o))) by apply u32_range.
  all: pose proof (size32_few PARTITION_COUNT_MAX _ ltac:(done) Hf) as Hsz; unfold few in Hf.
  - unfold PartitionTableInfo_Marshalling. wire_flat. cbv zeta. destruct (_ <? _) eqn:Hl; [apply writes_refuse|].
    apply writes_then; [done|]. apply writes_all. intros x Hx. by apply wire_writes, Hp.
  - unfold PartitionTableInfo_Unmarshalling. wire_flat. destruct (_ <? _) eqn:Hl; [bsimp; lia|].
    rewrite Hsz, Nat2Z.id, <- (app_nil_r (List.concat _)). eapply reads_bind.
    + apply (reads_n _ _ received). intros x Hx. by apply wire_reads, Hp.
    + cbn. rewrite map_id. destruct o. apply reads_ret.
Defined.

#[export] Instance ExternalDiskInfo_wire : Wire ExternalDiskInfo ExternalDiskInfo_Marshalling ExternalDiskInfo_Unmarshalling.
Proof.
  refine {| sendable o := short (edi_diskId o) /\ in_i32 (edi_diskType o) /\ few EXTERNAL_DISK_VOLUME_IDS_PARCEL_MAX (edi_volumeIds o) /\
                          Forall short (edi_volumeIds o) /\ in_i32 (edi_vendorId o) /\ in_i32 (edi_productId o);
            received o := o;
            wire o := [datum KString (edi_diskId o); datum KInt32 (edi_diskType o); datum KUint32 (size32 (edi_volumeIds o))] ++
                      strings_wire (edi_volumeIds o) ++ [datum KInt32 (edi_vendorId o); datum KInt32 (edi_productId o)] |}.
  all: intros o (Hd & Ht & Hf & Hv & Hs).
  all: assert (Hu : in_u32 (size32 (edi_volumeIds o))) by apply u32_range.
  all: pose proof (size32_few EXTERNAL_DISK_VOLUME_IDS_PARCEL_MAX _ ltac:(done) Hf) as Hsz; unfold few in Hf.
  - unfold ExternalDiskInfo_Marshalling. wire_flat. apply writes_bind; [apply strings_write|]. wire_flat.
  - unfold ExternalDiskInfo_Unmarshalling. wire_flat. destruct (_ <? _) eqn:Hl; [bsimp; lia|].
    rewrite Hsz, Nat2Z.id. eapply reads_bind; [by apply strings_read|]. destruct o; cbn in *. wire_flat.
Defined.

#[export] Instance Disk_wire : Wire Disk Disk_Marshalling Disk_Unmarshalling.
Proof.
  refine {| sendable o := short (disk_diskId o) /\ in_i64 (disk_sizeBytes o) /\ in_i32 (disk_diskType o) /\
                          few DISK_VOLUME_IDS_PARCEL_MAX (disk_volumeIds o) /\ Forall short (disk_volumeIds o) /\ short (disk_extraInfo o) /\
                          in_i32 (disk_vendorId o) /\ in_i32 (disk_productId o) /\ short (disk_serialNumber o) /\
                          in_i32 (disk_busnum o) /\ in_i32 (disk_devAddress o);
            received o :=
              mkDisk (disk_diskId o) (disk_sizeBytes o) (disk_diskType o) (disk_removable o) (disk_volumeIds o) (disk_extraInfo o)
                NO_DISC false "" "" "" "" (disk_vendorId o) (disk_productId o) (disk_serialNumber o) (disk_busnum o) (disk_devAddress o);
            wire o := [datum KString (disk_diskId o); datum KInt64 (disk_sizeBytes o); datum KInt32 (disk_diskType o);
                       datum KBool (disk_removable o); datum KUint32 (size32 (disk_volumeIds o))] ++
                      strings_wire (disk_volumeIds o) ++
                      [datum KString (disk_extraInfo o); datum KInt32 (disk_vendorId o); datum KInt32 (disk_productId o);
                       datum KString (disk_serialNumber o); datum KInt32 (disk_busnum o); datum KInt32 (disk_devAddress o)] |}.
  all: intros o (Hd & Hb & Ht & Hf & Hv & Hs).
  all: assert (Hu : in_u32 (size32 (disk_volumeIds o))) by apply u32_range.
  all: pose proof (size32_few DISK_VOLUME_IDS_PARCEL_MAX _ ltac:(done) Hf) as Hsz; unfold few in Hf.
  - unfold Disk_Marshalling. wire_flat. apply writes_bind; [apply strings_write|]. wire_flat.
  - unfold Disk_Unmarshalling. wire_flat. destruct (_ <? _) eqn:Hl; [bsimp; lia|].
    rewrite Hsz, Nat2Z.id. eapply reads_bind; [by apply strings_read|]. destruct o; cbn in *. wire_flat.
Defined.
End composite.

(** ** Objects the receiver refuses *)
Section refuse.
Context {P : Type} {PA : Parcel P} {PL : ParcelLaws P}.

(** From a parcel that starts with [enc], [m] gives [a]; how much it consumes is left
    open. *)
Definition gives {A} (m : State P A) (enc : list Datum) (a : A) : Prop :=
  forall p rest, unread p = enc ++ rest -> (m p).1 = a.
Lemma reads_gives {A} (m : State P A) enc a : reads m enc a -> gives m enc a.
Proof. intros H p rest Hp. by apply (H p rest). Qed.
Lemma gives_then {B} k x (f : carrier k -> State P B) enc b :
  kind_ok k x -> gives (f x) enc b -> gives (sbind (pread k) f) (datum k x :: enc) b.
Proof.
  intros Hk Hf p rest Hp. apply read_unread in Hp as [Hx Hp]; [|done]. unfold sbind. destruct (pread k p) as [y p1].
  cbn in *. subst y. by apply (Hf p1 rest).
Qed.
Lemma gives_none {A} enc : gives (sret (@None A)) enc None.
Proof. by intros p rest _. Qed.
Lemma gives_string {B} s (f : string -> State P (option B)) enc b :
  (short s -> gives (f s) enc b) -> (~ short s -> b = None) -> gives (read_string f) (datum KString s :: enc) b.
Proof.
  intros Hs Hl. apply gives_then; [done|]. unfold short in *. destruct (_ <? _)%nat eqn:Hb.
  - apply Nat.ltb_lt in Hb. rewrite Hl by lia. apply gives_none.
  - apply Nat.ltb_ge in Hb. by apply Hs.
Qed.
Lemma gives_strings l {B} (f : option (list string) -> State P (option B)) enc b :
  (Forall short l -> gives (f (Some l)) enc b) -> (~ Forall short l -> b = None) -> (forall p, (f None p).1 = None) ->
  gives (sbind (read_n (List.length l) read_one_string) f) (strings_wire l ++ enc) b.
Proof.
  intros Hs Hl Hn. destruct (decide (Forall (fun s => (String.length s <= PARCEL_STRING_MAX_LEN)%nat) l)) as [Hd|Hd].
  - intros p rest Hp. rewrite <- app_assoc in Hp. destruct (strings_read l Hd p _ Hp) as [Hx Hp'].
    unfold sbind. destruct (read_n _ _ p) as [x p1]. cbn in *. subst x. by apply (Hs Hd p1 rest).
  - rewrite (Hl Hd). intros p rest Hp. clear Hl Hs.
    assert (Hx : (read_n (List.length l) read_one_string p).1 = None).
    { revert p Hp. induction l as [|s l IH]; intros p Hp; [by destruct Hd|]. cbn in Hp |- *. unfold sbind.
      destruct (decide (String.length s <= PARCEL_STRING_MAX_LEN)%nat) as [Hs|Hs].
      - destruct (reads_one_string s Hs p _ Hp) as [Hx Hp']. destruct (read_one_string p) as [x p1]. cbn in *. subst x.
        specialize (IH ltac:(intros H; apply Hd; by constructor) p1 Hp'). by destruct (read_n _ _ p1) as [x p2]; cbn in *; subst x.
      - assert (Hx : (read_one_string p).1 = None).
        { apply (gives_string s (fun s => sret (Some s)) [] None) with (rest := strings_wire l ++ enc ++ rest); [done|done|].
          cbn. by rewrite Hp, <- app_assoc. }
        destruct (read_one_string p) as [x p1]. cbn in *. by subst x. }
    unfold sbind. destruct (read_n _ _ p) as [x p1]. cbn in *. subst x. apply Hn.
Qed.
End refuse.

(** * Properties *)
Section properties.
Context {P : Type} {PA : Parcel P} {PL : ParcelLaws P}.

(** The C++ types of the members of a disk. *)
Definition disk_typed (o : Disk) : Prop :=
  in_i64 (disk_sizeBytes o) /\ in_i32 (disk_diskType o) /\ Z.of_nat (List.length (disk_volumeIds o)) <= UINT32_MAX /\
  in_i32 (disk_vendorId o) /\ in_i32 (disk_productId o) /\ in_i32 (disk_busnum o) /\ in_i32 (disk_devAddress o).
(** What the receiver's limits let through. *)
Definition disk_fits (o : Disk) : Prop :=
  short (disk_diskId o) /\ few DISK_VOLUME_IDS_PARCEL_MAX (disk_volumeIds o) /\ Forall short (disk_volumeIds o) /\
  short (disk_extraInfo o) /\ short (disk_serialNumber o).
#[local] Instance disk_fits_dec o : Decision (disk_fits o).
Proof. unfold disk_fits, short, few. apply _. Defined.
(** The members that are internal to the service are not sent. *)
Definition disk_on_wire (o : Disk) : Disk :=
  mkDisk (disk_diskId o) (disk_sizeBytes o) (disk_diskType o) (disk_removable o) (disk_volumeIds o) (disk_extraInfo o)
    NO_DISC false "" "" "" "" (disk_vendorId o) (disk_productId o) (disk_serialNumber o) (disk_busnum o) (disk_devAddress o).

(** C25: A disk that the sender managed to write reaches the receiver with every
    member that is sent, when its strings have at most 4096 characters and it has at
    most 256 volumes; otherwise the receiver refuses it, although the sender saw no
    error. *)
Theorem Disk_transfer (o : Disk) :
  disk_typed o -> (Disk_Marshalling o pnew).1 = true ->
  (Disk_Unmarshalling (Disk_Marshalling o pnew).2).1 = if decide (disk_fits o) then Some (disk_on_wire o) else None.
Proof.
  intros (Hb & Ht & Hn & Hv & Hp & Hbus & Hdev) Hok.
  assert (Hsz : size32 (disk_volumeIds o) = Z.of_nat (List.length (disk_volumeIds o))) by (apply u32_id; unfold_ints; lia).
  assert (Hu : in_u32 (size32 (disk_volumeIds o))) by apply u32_range.
  assert (Hw : writes (Disk_Marshalling o) (wire o)).
  { unfold Disk_Marshalling. wire_flat. apply writes_bind; [apply strings_write|]. wire_flat. }
  assert (Hr : gives Disk_Unmarshalling (wire o) (if decide (disk_fits o) then Some (disk_on_wire o) else None)).
  { unfold Disk_Unmarshalling. apply gives_string; [intros Hid|intros Hx; destruct (decide (disk_fits o)) as [[]|]; done].
    do 4 (apply gives_then; [done|]). destruct (_ <? _) eqn:Hl.
    { destruct (decide (disk_fits o)) as [(_ & Hf & _)|]; [|apply gives_none]. unfold few in Hf. bsimp. lia. }
    rewrite Hsz, Nat2Z.id. apply gives_strings; [intros Hvols|intros Hx; destruct (decide (disk_fits o)) as [(_ & _ & ? & _)|]; done|done].
    apply gives_string; [intros Hex|intros Hx; destruct (decide (disk_fits o)) as [(_ & _ & _ & ? & _)|]; done].
    do 2 (apply gives_then; [done|]).
    apply gives_string; [intros Hser|intros Hx; destruct (decide (disk_fits o)) as [(_ & _ & _ & _ & ?)|]; done].
    destruct (decide (disk_fits o)) as [_|Hx]; [|destruct Hx; repeat split; try done; unfold few; bsimp; lia].
    apply reads_gives. wire_flat. }
  apply (Hr _ []). rewrite Hw, unread_new by done. by rewrite app_nil_r.
Qed.

(** The C++ types and the lengths of a table. *)
Definition table_typed (o : PartitionTableInfo) : Prop :=
  in_i32 (pti_partitionCount o) /\ in_i64 (pti_totalSector o) /\ in_i32 (pti_sectorSize o) /\ in_i32 (pti_alignSector o) /\
  Z.of_nat (List.length (pti_partitions o)) <= UINT32_MAX /\
  Forall (fun p => in_i32 (pi_partitionNum p) /\ in_i64 (pi_startSector p) /\ in_i64 (pi_endSector p) /\ in_i64 (pi_sizeBytes p)) (pti_partitions o).
Definition table_short (o : PartitionTableInfo) : Prop :=
  short (pti_diskId o) /\ short (pti_tableType o) /\ Forall (fun p => short (pi_diskId p) /\ short (pi_fsType p)) (pti_partitions o).
Lemma table_marshalled_few o :
  Z.of_nat (List.length (pti_partitions o)) <= UINT32_MAX ->
  (PartitionTableInfo_Marshalling o pnew).1 = true -> few PARTITION_COUNT_MAX (pti_partitions o).
Proof.
  intros Hn. assert (Hsz : size32 (pti_partitions o) = Z.of_nat (List.length (pti_partitions o))) by (apply u32_id; unfold_ints; lia).
  unfold PartitionTableInfo_Marshalling, write_then, sbind.
  do 6 (destruct (pwrite _ _ _) as [[] ?]; [|done]). cbv zeta. destruct (_ <? _) eqn:Hl; [done|]. intros _. unfold few. bsimp. lia.
Qed.

(** A partition table that the sender managed to write has at most 256
    partitions and reaches the receiver as it is, except for the last usable sector,
    which is not sent. *)
Theorem PartitionTableInfo_transfer (o : PartitionTableInfo) :
  table_typed o -> table_short o -> (PartitionTableInfo_Marshalling o pnew).1 = true ->
  (PartitionTableInfo_Unmarshalling (PartitionTableInfo_Marshalling o pnew).2).1 = Some (PTI_SetLastUsableSector 0 o) /\
  Z.of_nat (List.length (pti_partitions o)) <= 256.
Proof.
  intros (Hc & Ht & Hss & Ha & Hn & Hp) (Hd & Htt & Hps) Hok. pose proof (table_marshalled_few o Hn Hok) as Hf. split; [|done].
  refine (proj1 (wire_transfer o _ Hok)). cbn.
  assert (Hall : Forall sendable (pti_partitions o)); [|tauto].
  rewrite Forall_forall in *. intros p Hin. specialize (Hp p Hin). specialize (Hps p Hin). cbn. tauto.
Qed.

Definition volume_typed (o : VolumeExternal) : Prop :=
  in_i32 (core_type (vol_core o)) /\ in_i32 (vol_state o) /\ in_i32 (vol_flags o) /\ in_i32 (vol_fsType o) /\ in_i32 (vol_partitionNum o) /\
  in_u64 (vol_offset o) /\ in_u64 (vol_sizeLimit o).
Definition volume_core_short (o : VolumeExternal) : Prop :=
  short (vol_id o) /\ short (vol_diskId o) /\ short (core_fsType (vol_core o)) /\ short (vol_extraInfo o).
Definition volume_on_wire (o : VolumeExternal) : VolumeExternal :=
  mkVolumeExternal
    (mkVolumeCore (vol_id o) (core_type (vol_core o)) (vol_diskId o) (vol_state o) false (core_fsType (vol_core o)) (vol_extraInfo o))
    (vol_fsType o) (vol_flags o) (vol_fsUuid o) (vol_path o) (vol_description o) false "" (vol_partitionNum o) 0 (vol_mountFlag o)
    (vol_loopPath o) (vol_mapperPath o) (vol_offset o) (vol_sizeLimit o).

(** A volume that the sender managed to write reaches the receiver, with the
    strings of its external part at any length; the error flag, the user-data flag,
    the unmount result and the free size do not arrive. *)
Theorem VolumeExternal_transfer (o : VolumeExternal) :
  volume_typed o -> volume_core_short o -> (VolumeExternal_Marshalling o pnew).1 = true ->
  (VolumeExternal_Unmarshalling (VolumeExternal_Marshalling o pnew).2).1 = Some (volume_on_wire o).
Proof.
  intros Ht Hs Hok. refine (proj1 (wire_transfer o _ Hok)). unfold volume_typed, volume_core_short, vol_id, vol_diskId, vol_state, vol_extraInfo in *.
  cbn. tauto.
Qed.

(** [m] and [u] lose nothing of the objects in [ok]. *)
Definition lossless {T : Type} (m : T -> State P bool) (u : State P (option T)) (ok : T -> Prop) : Prop :=
  forall o, ok o -> (m o pnew).1 = true -> (u (m o pnew).2).1 = Some o.
Lemma wire_lossless {T m u} `{!Wire (P := P) T m u} (ok : T -> Prop) :
  (forall o, ok o -> sendable o /\ received o = o) -> lossless m u ok.
Proof. intros H o Ho Hm. destruct (H o Ho) as [Hs Hr]. destruct (wire_transfer o Hs Hm) as [Ht _]. by rewrite Ht, Hr. Qed.
(** The argument and result types that arrive unchanged, and when. *)
Theorem requests_lossless :
  lossless MountParam_Marshalling MountParam_Unmarshalling (fun _ => True) /\
  lossless FormatParams_Marshalling FormatParams_Unmarshalling (fun o => short (fp_fsType o) /\ short (fp_volumeName o)) /\
  lossless PartitionParams_Marshalling PartitionParams_Unmarshalling
    (fun o => in_i32 (pp_partitionNum o) /\ in_i64 (pp_startSector o) /\ in_i64 (pp_endSector o) /\ short (pp_typeCode o)) /\
  lossless CryptParam_Marshalling CryptParam_Unmarshalling
    (fun o => short (cp_type o) /\ short (cp_cipher o) /\ in_i32 (cp_keySize o) /\ short (cp_keyFile o)) /\
  lossless ExternalDiskInfo_Marshalling ExternalDiskInfo_Unmarshalling
    (fun o => short (edi_diskId o) /\ in_i32 (edi_diskType o) /\ few EXTERNAL_DISK_VOLUME_IDS_PARCEL_MAX (edi_volumeIds o) /\
              Forall short (edi_volumeIds o) /\ in_i32 (edi_vendorId o) /\ in_i32 (edi_productId o)) /\
  lossless ExternalVolumeInfo_Marshalling ExternalVolumeInfo_Unmarshalling
    (fun o => short (evi_volumeId o) /\ short (evi_uuid o) /\ short (evi_diskId o) /\ short (evi_description o) /\
              in_i32 (evi_state o) /\ in_i64 (evi_totalSize o) /\ in_i64 (evi_freeSize o) /\ short (evi_path o) /\ short (evi_fsType o)) /\
  lossless VolumeInfoStr_Marshalling VolumeInfoStr_Unmarshalling
    (fun o => short (vis_volumeId o) /\ short (vis_fsTypeStr o) /\ short (vis_fsUuid o) /\ short (vis_path o) /\ short (vis_description o)).
Proof. split_and!; apply wire_lossless; intros o Ho; (split; [exact Ho|done]). Qed.
End properties.

Section hostile.
Context {P : Type} {PA : Parcel P}.

Definition disk_bounded (o : Disk) : Prop :=
  short (disk_diskId o) /\ few DISK_VOLUME_IDS_PARCEL_MAX (disk_volumeIds o) /\ Forall short (disk_volumeIds o) /\
  short (disk_extraInfo o) /\ short (disk_serialNumber o).
Definition table_bounded (o : PartitionTableInfo) : Prop :=
  short (pti_diskId o) /\ short (pti_tableType o) /\ few PARTITION_COUNT_MAX (pti_partitions o) /\
  Forall (fun p => short (pi_diskId p) /\ short (pi_fsType p)) (pti_partitions o).
Definition crypt_bounded (o : CryptParam) : Prop := short (cp_type o) /\ short (cp_cipher o) /\ short (cp_keyFile o).

Lemma few_to_nat {A} max (l : list A) n : List.length l = Z.to_nat n -> (max <? n) = false -> 0 <= max -> few max l.
Proof. unfold few. intros -> H Hm. bsimp. lia. Qed.

(** Whatever a peer writes into a parcel, the objects read from it stay within
    the limits: strings of at most 4096 characters, at most 256 volume ids or
    partitions. *)
Theorem Unmarshalling_bounded (p : P) :
  (forall o, (Disk_Unmarshalling p).1 = Some o -> disk_bounded o) /\
  (forall o, (PartitionTableInfo_Unmarshalling p).1 = Some o -> table_bounded o) /\
  (forall o, (FormatParams_Unmarshalling p).1 = Some o -> short (fp_fsType o) /\ short (fp_volumeName o)) /\
  (forall o, (PartitionParams_Unmarshalling p).1 = Some o -> short (pp_typeCode o)) /\
  (forall o, (CryptParam_Unmarshalling p).1 = Some o -> crypt_bounded o).
Proof.
  split_and!; revert p.
  - change (accepts Disk_Unmarshalling disk_bounded). unfold Disk_Unmarshalling. repeat accept_step.
    eapply accepts_opt_bind; [apply accepts_n with (Q := short)|cbn; apply accepts_none|cbn].
    { unfold read_one_string. repeat accept_step. done. }
    intros l [Hn Hl]. repeat accept_step. repeat split; try done. by eapply few_to_nat.
  - change (accepts PartitionTableInfo_Unmarshalling table_bounded). unfold PartitionTableInfo_Unmarshalling. repeat accept_step.
    eapply accepts_opt_bind; [apply accepts_n with (Q := fun p => short (pi_diskId p) /\ short (pi_fsType p))|cbn; apply accepts_none|cbn].
    { unfold PartitionInfo_Unmarshalling. repeat accept_step. done. }
    intros l [Hn Hl]. repeat accept_step. repeat split; try done. by eapply few_to_nat.
  - change (accepts FormatParams_Unmarshalling (fun o => short (fp_fsType o) /\ short (fp_volumeName o))). unfold FormatParams_Unmarshalling. repeat accept_step. done.
  - change (accepts PartitionParams_Unmarshalling (fun o => short (pp_typeCode o))). unfold PartitionParams_Unmarshalling. repeat accept_step. done.
  - change (accepts CryptParam_Unmarshalling crypt_bounded). unfold CryptParam_Unmarshalling. repeat accept_step. repeat split; done.
Qed.
End hostile.

(** * Examples *)
Definition ex_wire_disk : Disk :=
  mkDisk "disk-8-0" 16008609792 USB_FLAG true ["vol-8-1"; "vol-8-2"] "{}" NON_EMPTY_DISC true "/dev/block/sda" "sda" "Kingston" "gpt" 2385 5734 "E0D5" 1 4.
Definition ex_wire_table : PartitionTableInfo :=
  mkPartitionTableInfo "disk-8-0" "gpt" 1 31266816 512 2048 31266782 [mkPartitionInfo 1 "disk-8-0" 2048 31266782 16007544320 "vfat"].
Definition ex_wire_volume : VolumeExternal :=
  mkVolumeExternal (mkVolumeCore "vol-8-1" EXTERNAL "disk-8-0" MOUNTED true "" "{}") VFAT 2 "1234-ABCD" "/mnt/data/external/1234-ABCD" "KINGSTON"
    false "ok" 1 1024 false "" "" 0 0.
(** Too many volumes: the sender succeeds and the receiver gets nothing. *)
Definition ex_crowded_disk : Disk := Disk_SetVolumeIds (repeat "vol-8-1" 300) ex_wire_disk.

Ltac typed_by_lia := repeat split; unfold_ints; cbn; lia.
Ltac short_by_eval := unfold short; apply Nat.leb_le; vm_compute; reflexivity.
Lemma Disk_transfer_witness :
  (Disk_Unmarshalling (P := Queue) (Disk_Marshalling ex_wire_disk pnew).2).1 = Some (disk_on_wire ex_wire_disk) /\
  (Disk_Unmarshalling (P := Queue) (Disk_Marshalling ex_crowded_disk pnew).2).1 = None.
Proof.
  split.
  - rewrite (Disk_transfer (P := Queue) ex_wire_disk); [reflexivity|typed_by_lia|vm_compute; reflexivity].
  - rewrite (Disk_transfer (P := Queue) ex_crowded_disk); [vm_compute; reflexivity|typed_by_lia|vm_compute; reflexivity].
Defined.
Lemma PartitionTableInfo_transfer_witness :
  (PartitionTableInfo_Unmarshalling (P := Queue) (PartitionTableInfo_Marshalling ex_wire_table pnew).2).1 =
  Some (PTI_SetLastUsableSector 0 ex_wire_table).
Proof.
  refine (proj1 (PartitionTableInfo_transfer (P := Queue) ex_wire_table _ _ _)).
  - repeat split; try (unfold_ints; cbn; lia). constructor; [|constructor]. typed_by_lia.
  - repeat split; try short_by_eval. constructor; [|constructor]. split; short_by_eval.
  - vm_compute. reflexivity.
Defined.
Lemma VolumeExternal_transfer_witness :
  (VolumeExternal_Unmarshalling (P := Queue) (VolumeExternal_Marshalling ex_wire_volume pnew).2).1 = Some (volume_on_wire ex_wire_volume).
Proof.
  apply (VolumeExternal_transfer (P := Queue)).
  - typed_by_lia.
  - repeat split; short_by_eval.
  - vm_compute. reflexivity.
Defined.
Lemma requests_lossless_witness :
  (FormatParams_Unmarshalling (P := Queue) (FormatParams_Marshalling (mkFormatParams "exfat" true "DATA") pnew).2).1 =
  Some (mkFormatParams "exfat" true "DATA").
Proof.
  destruct (requests_lossless (P := Queue)) as (_ & Hf & _). apply Hf; [|vm_compute; reflexivity]. split; short_by_eval.
Defined.
