(* ===== verification/DaemonProxy.v ===== *)
(** * [services/disk_manager/src/adapter/storage_daemon_proxy.cpp]

    The proxy of storage_daemon: each method writes its arguments into a parcel, sends
    it with the method's code and reads the results from the reply. The transport is the
    class [Remote]; the conversions between UTF-8 and UTF-16 are the class [Utf16]. *)
From S2P Require Import Prelude CppString State Types Parcel Json BlockInfo World Seq.

(** The codes of [IStorageDaemonIpcCode]. *)
(* @src services/disk_manager/include/adapter/istorage_daemon.h 28-62 IStorageDaemonIpcCode *)
Inductive IpcCode : Set :=
  | COMMAND_QUERY_USB_IS_IN_USE | ADDON_CREATE_BLOCK_DEVICE_NODE | ADDON_DESTROY_BLOCK_DEVICE_NODE
  | ADDON_READ_PARTITION_TABLE | ADDON_MOUNT | ADDON_UNMOUNT | ADDON_FORMAT_VOLUME | ADDON_CHECK | ADDON_REPAIR
  | ADDON_SET_LABEL | ADDON_READ_METADATA | ADDON_MOUNT_FUSE_DEVICE | ADDON_PARTITION | ADDON_GET_BLOCK_INFO_BY_TYPE
  | ADDON_GET_PARTITION_TABLE_INFO | ADDON_CREATE_PARTITION | ADDON_DELETE_PARTITION | ADDON_FORMAT_PARTITION
  | ADDON_GET_CAPACITY | ADDON_GET_CD_STATUS | ADDON_ERASE | ADDON_EJECT | ADDON_CREATE_ISO_IMAGE | ADDON_BURN
  | ADDON_GET_VOLUME_OP_PROCESS | ADDON_VERIFY_BURN_DATA | ADDON_GET_DISK_SIZE | ADDON_EXECUTE_COMMAND | ADDON_CREATE_DM_LINEAR.
Definition IpcCode_val (c : IpcCode) : Z :=
  match c with
  | COMMAND_QUERY_USB_IS_IN_USE => 45
  | ADDON_CREATE_BLOCK_DEVICE_NODE => 201 | ADDON_DESTROY_BLOCK_DEVICE_NODE => 202 | ADDON_READ_PARTITION_TABLE => 203
  | ADDON_MOUNT => 204 | ADDON_UNMOUNT => 205 | ADDON_FORMAT_VOLUME => 206 | ADDON_CHECK => 207 | ADDON_REPAIR => 208
  | ADDON_SET_LABEL => 209 | ADDON_READ_METADATA => 210 | ADDON_MOUNT_FUSE_DEVICE => 211 | ADDON_PARTITION => 212
  | ADDON_GET_BLOCK_INFO_BY_TYPE => 213 | ADDON_GET_PARTITION_TABLE_INFO => 214 | ADDON_CREATE_PARTITION => 215
  | ADDON_DELETE_PARTITION => 216 | ADDON_FORMAT_PARTITION => 217
  | ADDON_GET_CAPACITY => 251 | ADDON_GET_CD_STATUS => 253 | ADDON_ERASE => 254 | ADDON_EJECT => 255
  | ADDON_CREATE_ISO_IMAGE => 256 | ADDON_BURN => 257 | ADDON_GET_VOLUME_OP_PROCESS => 258 | ADDON_VERIFY_BURN_DATA => 259
  | ADDON_GET_DISK_SIZE => 261 | ADDON_EXECUTE_COMMAND => 263 | ADDON_CREATE_DM_LINEAR => 264
  end.
Definition DESCRIPTOR : string := "OHOS.StorageDaemon.IStorageDaemon".

(** [string_ex.h]: a text that is not valid UTF-8 converts to an empty one. *)
Class Utf16 : Type := {
  Str8ToStr16 : string -> list Z;
  Str16ToStr8 : list Z -> string;
  utf8_valid : string -> Prop;
  Str16_Str8 (s : string) : utf8_valid s -> Str16ToStr8 (Str8ToStr16 s) = s;
}.

(** [IRemoteObject::SendRequest] and the error codes of the platform. *)
Class Remote (P E : Type) : Type := {
  rm_send : Z -> P -> E -> (Z * P) * E;
  ERR_TRANSACTION_FAILED : Z;
  ERR_INVALID_DATA : Z;
}.

(** The remote object with the messages sent to it, the latest first. *)
Record Link (P E : Type) : Type := mkLink { lk_env : E; lk_sent : list (Z * P) }.
Arguments mkLink {P E}. Arguments lk_env {P E}. Arguments lk_sent {P E}.

Section proxy.
Context {P E : Type} {PA : Parcel P} {UT : Utf16} {RM : Remote P E}.
Notation M := (State P).
Notation L := (State (Link P E)).

Definition SendRequest (code : Z) (data : P) : L (Z * P) := fun l =>
  let (r, env) := rm_send code data (lk_env l) in (r, mkLink env ((code, data) :: lk_sent l)).

(** The shape of every method: write the token and the arguments into a fresh parcel,
    send it, decode the reply. [fail] is the result when an error ends the call. *)
Definition transact {R : Type} (code : IpcCode) (args : M bool) (fail : Z -> R) (decode : M R) : L R :=
  let (token, data) := pwrite KToken DESCRIPTOR pnew in
  if negb token then sret (fail ERR_TRANSACTION_FAILED)
  else
    let (written, data) := args data in
    if negb written then sret (fail ERR_INVALID_DATA)
    else
      let! (ret, reply) := SendRequest (IpcCode_val code) data in
      if negb (ret =? ERR_OK) then sret (fail ret) else sret (decode reply).1.
(** The result code in front of the other results. *)
Definition reply_ok {R : Type} (fail : Z -> R) (more : M R) : M R :=
  let! res := pread KInt32 in if negb (res =? ERR_OK) then sret (fail res) else more.
Definition read_str : M string := let! s := pread KString16 in sret (Str16ToStr8 s).
(** A method without out parameters. *)
Definition transact_simple (code : IpcCode) (args : M bool) : L Z := transact code args id (pread KInt32).

Definition str16 (s : string) : carrier KString16 := Str8ToStr16 s.

(** The out parameter keeps the caller's value when the call fails. *)
(* @src services/disk_manager/src/adapter/storage_daemon_proxy.cpp 28-53 StorageDaemonProxy::QueryUsbIsInUse *)
Definition Proxy_QueryUsbIsInUse (diskPath : string) (isInUse : bool) : L (Z * bool) :=
  let fail e := (e, isInUse) in
  transact COMMAND_QUERY_USB_IS_IN_USE (write! KString16 (str16 diskPath) then sret true) fail
    (reply_ok fail (let! b := pread KBool in sret (ERR_OK, b))).
(* @src services/disk_manager/src/adapter/storage_daemon_proxy.cpp 55-76 StorageDaemonProxy::CreateBlockDeviceNode *)
Definition Proxy_CreateBlockDeviceNode (devPath : string) (mode major minor : Z) : L Z :=
  transact_simple ADDON_CREATE_BLOCK_DEVICE_NODE
    (write! KString16 (str16 devPath) then write! KUint32 mode then write! KInt32 major then write! KInt32 minor then sret true).
(* @src services/disk_manager/src/adapter/storage_daemon_proxy.cpp 78-95 StorageDaemonProxy::DestroyBlockDeviceNode *)
Definition Proxy_DestroyBlockDeviceNode (devPath : string) : L Z :=
  transact_simple ADDON_DESTROY_BLOCK_DEVICE_NODE (write! KString16 (str16 devPath) then sret true).
(* @src services/disk_manager/src/adapter/storage_daemon_proxy.cpp 97-122 StorageDaemonProxy::ReadPartitionTable *)
Definition Proxy_ReadPartitionTable (devPath : string) : L (Z * string * Z) :=
  let fail e := (e, "", 0) in
  transact ADDON_READ_PARTITION_TABLE (write! KString16 (str16 devPath) then sret true) fail
    (reply_ok fail (let! output := read_str in let! maxVolume := pread KInt32 in sret (ERR_OK, output, maxVolume))).
(* @src services/disk_manager/src/adapter/storage_daemon_proxy.cpp 125-148 StorageDaemonProxy::QueryCDStatus *)
Definition Proxy_QueryCDStatus (devPath : string) : L (Z * Z) :=
  let fail e := (e, 0) in
  transact ADDON_GET_CD_STATUS (write! KString16 (str16 devPath) then sret true) fail
    (reply_ok fail (let! status := pread KInt32 in sret (ERR_OK, status))).
(* @src services/disk_manager/src/adapter/storage_daemon_proxy.cpp 150-173 StorageDaemonProxy::Mount *)
Definition Proxy_Mount (devPath mountPath fsType : string) (mountFlag : Z) (mountData : string) : L Z :=
  transact_simple ADDON_MOUNT
    (write! KString16 (str16 devPath) then write! KString16 (str16 mountPath) then write! KString16 (str16 fsType) then
     write! KUint64 mountFlag then write! KString16 (str16 mountData) then sret true).
(* @src services/disk_manager/src/adapter/storage_daemon_proxy.cpp 175-193 StorageDaemonProxy::Unmount *)
Definition Proxy_Unmount (mountPath fsType : string) (force : bool) : L Z :=
  transact_simple ADDON_UNMOUNT
    (write! KString16 (str16 mountPath) then write! KString16 (str16 fsType) then write! KBool force then sret true).
(* @src services/disk_manager/src/adapter/storage_daemon_proxy.cpp 195-216 StorageDaemonProxy::FormatVolume *)
Definition Proxy_FormatVolume (devPath fsType diskPath partitionType : string) (partitionNum : Z) : L Z :=
  transact_simple ADDON_FORMAT_VOLUME
    (write! KString16 (str16 devPath) then write! KString16 (str16 fsType) then write! KString16 (str16 diskPath) then
     write! KString16 (str16 partitionType) then write! KInt32 partitionNum then sret true).
(* @src services/disk_manager/src/adapter/storage_daemon_proxy.cpp 218-235 StorageDaemonProxy::Check *)
Definition Proxy_Check (devPath fsType : string) : L Z :=
  transact_simple ADDON_CHECK (write! KString16 (str16 devPath) then write! KString16 (str16 fsType) then sret true).
(* @src services/disk_manager/src/adapter/storage_daemon_proxy.cpp 237-254 StorageDaemonProxy::Repair *)
Definition Proxy_Repair (devPath fsType : string) : L Z :=
  transact_simple ADDON_REPAIR (write! KString16 (str16 devPath) then write! KString16 (str16 fsType) then sret true).
(* @src services/disk_manager/src/adapter/storage_daemon_proxy.cpp 256-276 StorageDaemonProxy::SetLabel *)
Definition Proxy_SetLabel (devPath fsType label : string) : L Z :=
  transact_simple ADDON_SET_LABEL
    (write! KString16 (str16 devPath) then write! KString16 (str16 fsType) then write! KString16 (str16 label) then sret true).
(* @src services/disk_manager/src/adapter/storage_daemon_proxy.cpp 278-308 StorageDaemonProxy::ReadMetadata *)
Definition Proxy_ReadMetadata (devPath : string) : L (Z * string * string * string) :=
  let fail e := (e, "", "", "") in
  transact ADDON_READ_METADATA (write! KString16 (str16 devPath) then sret true) fail
    (reply_ok fail (let! uuid := read_str in let! type := read_str in let! label := read_str in sret (ERR_OK, uuid, type, label))).
(* @src services/disk_manager/src/adapter/storage_daemon_proxy.cpp 310-336 StorageDaemonProxy::GetCapacity *)
Definition Proxy_GetCapacity (devPath : string) : L (Z * Z * Z) :=
  let fail e := (e, 0, 0) in
  transact ADDON_GET_CAPACITY (write! KString16 (str16 devPath) then sret true) fail
    (reply_ok fail
       (let! total := ptry KInt64 in
        match total with
        | None => sret (ERR_INVALID_DATA, 0, 0)
        | Some total =>
            let! free := ptry KInt64 in
            match free with
            | None => sret (ERR_INVALID_DATA, total, 0)
            | Some free => sret (ERR_OK, total, free)
            end
        end)).
(* @src services/disk_manager/src/adapter/storage_daemon_proxy.cpp 338-365 StorageDaemonProxy::MountFuseDevice *)
Definition Proxy_MountFuseDevice (mountPath : string) : L (Z * Z) :=
  let fail e := (e, -1) in
  transact ADDON_MOUNT_FUSE_DEVICE (write! KString16 (str16 mountPath) then sret true) fail
    (reply_ok fail (let! fd := pread KFd in if fd <? 0 then sret (ERR_INVALID_DATA, -1) else sret (ERR_OK, fd))).
(* @src services/disk_manager/src/adapter/storage_daemon_proxy.cpp 367-395 StorageDaemonProxy::GetBlockInfoByType *)
Definition Proxy_GetBlockInfoByType (type diskId : string) : L (Z * string) :=
  let fail e := (e, "") in
  transact ADDON_GET_BLOCK_INFO_BY_TYPE (write! KString16 (str16 type) then write! KString16 (str16 diskId) then sret true) fail
    (reply_ok fail (let! blockInfos := read_str in sret (ERR_OK, blockInfos))).
(* @src services/disk_manager/src/adapter/storage_daemon_proxy.cpp 397-414 StorageDaemonProxy::Partition *)
Definition Proxy_Partition (diskPath partitionType : string) : L Z :=
  transact_simple ADDON_PARTITION (write! KString16 (str16 diskPath) then write! KString16 (str16 partitionType) then sret true).
(** The out parameter keeps the caller's value when the call fails. *)
(* @src services/disk_manager/src/adapter/storage_daemon_proxy.cpp 416-438 StorageDaemonProxy::GetPartitionTableInfo *)
Definition Proxy_GetPartitionTableInfo (devPath execRet : string) : L (Z * string) :=
  let fail e := (e, execRet) in
  transact ADDON_GET_PARTITION_TABLE_INFO (write! KString16 (str16 devPath) then sret true) fail
    (reply_ok fail (let! execRet := read_str in sret (ERR_OK, execRet))).
(* @src services/disk_manager/src/adapter/storage_daemon_proxy.cpp 440-470 StorageDaemonProxy::CreatePartition *)
Definition Proxy_CreatePartition (devPath : string) (partitionNum startSector endSector : Z) (typeCode : string) : L Z :=
  transact_simple ADDON_CREATE_PARTITION
    (write! KString16 (str16 devPath) then write! KInt32 partitionNum then write! KInt64 startSector then
     write! KInt64 endSector then write! KString16 (str16 typeCode) then sret true).
(* @src services/disk_manager/src/adapter/storage_daemon_proxy.cpp 472-496 StorageDaemonProxy::DeletePartitionInfo *)
Definition Proxy_DeletePartitionInfo (devPath diskId : string) (partitionNum : Z) : L Z :=
  transact_simple ADDON_DELETE_PARTITION
    (write! KString16 (str16 devPath) then write! KString16 (str16 diskId) then write! KInt32 partitionNum then sret true).
(** A vector of strings: its size as an [int32_t], then the strings. *)
Definition write_strs (cmd : list string) (cont : M bool) : M bool :=
  write! KInt32 (i32 (Z.of_nat (List.length cmd))) then
  let! ok := write_all (fun arg => pwrite KString16 (str16 arg)) cmd in if ok then cont else sret false.
(* @src services/disk_manager/src/adapter/storage_daemon_proxy.cpp 498-534 StorageDaemonProxy::FormatPartition *)
Definition Proxy_FormatPartition (devPath fsType volumeName : string) (cmd : list string) (quickFormat : bool) : L Z :=
  transact_simple ADDON_FORMAT_PARTITION
    (write! KString16 (str16 devPath) then write! KString16 (str16 fsType) then write! KString16 (str16 volumeName) then
     write_strs cmd (write! KBool quickFormat then sret true)).
(* @src services/disk_manager/src/adapter/storage_daemon_proxy.cpp 536-553 StorageDaemonProxy::Erase *)
Definition Proxy_Erase (devPath : string) : L Z :=
  transact_simple ADDON_ERASE (write! KString16 (str16 devPath) then sret true).
(* @src services/disk_manager/src/adapter/storage_daemon_proxy.cpp 555-572 StorageDaemonProxy::Eject *)
Definition Proxy_Eject (devName : string) : L Z :=
  transact_simple ADDON_EJECT (write! KString16 (str16 devName) then sret true).
(* @src services/disk_manager/src/adapter/storage_daemon_proxy.cpp 574-604 StorageDaemonProxy::CreateIsoImage *)
Definition Proxy_CreateIsoImage (devPath filePath fsType mountPath : string) : L Z :=
  transact_simple ADDON_CREATE_ISO_IMAGE
    (write! KString16 (str16 devPath) then write! KString16 (str16 filePath) then write! KString16 (str16 fsType) then
     write! KString16 (str16 mountPath) then sret true).
(* @src services/disk_manager/src/adapter/storage_daemon_proxy.cpp 606-631 StorageDaemonProxy::Burn *)
Definition Proxy_Burn (devPath burnOptions fsType : string) : L Z :=
  transact_simple ADDON_BURN
    (write! KString16 (str16 devPath) then write! KString16 (str16 burnOptions) then write! KString16 (str16 fsType) then sret true).
(** A reply with one number. *)
Definition read_number (k : Kind) (num : carrier k -> Z) (fail : Z -> Z * Z) : M (Z * Z) :=
  reply_ok fail (let! x := ptry k in match x with None => sret (fail ERR_INVALID_DATA) | Some x => sret (ERR_OK, num x) end).
(* @src services/disk_manager/src/adapter/storage_daemon_proxy.cpp 633-658 StorageDaemonProxy::GetVolumeOpProcess *)
Definition Proxy_GetVolumeOpProcess (volumeId : string) : L (Z * Z) :=
  let fail e := (e, 0) in
  transact ADDON_GET_VOLUME_OP_PROCESS (write! KString16 (str16 volumeId) then sret true) fail (read_number KInt32 id fail).
(* @src services/disk_manager/src/adapter/storage_daemon_proxy.cpp 660-685 StorageDaemonProxy::GetDiskSize *)
Definition Proxy_GetDiskSize (devName : string) : L (Z * Z) :=
  let fail e := (e, 0) in
  transact ADDON_GET_DISK_SIZE (write! KString16 (str16 devName) then sret true) fail (read_number KUint64 id fail).
Fixpoint read_strs (n : nat) : M (list string) :=
  match n with
  | O => sret []
  | S n => let! s := read_str in let! l := read_strs n in sret (s :: l)
  end.
(** [None] is the exception of [output.reserve] for a negative size; the out parameters keep the caller's value
    when the call fails. *)
(* @src services/disk_manager/src/adapter/storage_daemon_proxy.cpp 687-721 StorageDaemonProxy::ExecuteCommand *)
Definition Proxy_ExecuteCommand (cmd : list string) (execRet : Z) (output : list string) : L (option (Z * Z * list string)) :=
  let fail e := Some (e, execRet, output) in
  transact ADDON_EXECUTE_COMMAND (write_strs cmd (sret true)) fail
    (reply_ok fail
       (let! execRet := pread KInt32 in
        let! outputSize := pread KInt32 in
        if outputSize <? 0 then sret None
        else let! output := read_strs (Z.to_nat outputSize) in sret (Some (ERR_OK, execRet, output)))).
(* @src services/disk_manager/src/adapter/storage_daemon_proxy.cpp 723-751 StorageDaemonProxy::CreateDmLinear *)
Definition Proxy_CreateDmLinear (sourceDevPath : string) (startSector sectorCount : Z) : L (Z * Z) :=
  let fail e := (e, 0) in
  transact ADDON_CREATE_DM_LINEAR
    (write! KString16 (str16 sourceDevPath) then write! KUint64 startSector then write! KUint64 sectorCount then sret true)
    fail (read_number KUint64 id fail).
End proxy.
