(* ===== verification/ProxyFacts.v ===== *)
(** * The proxy implements the requests of the model

    [World] sends a request and gets an answer; [DaemonProxy] writes parcels. Here the
    two are related: [message r] is the wire form of a request, [run_proxy r] the call
    of the proxy's method for it. *)
From S2P Require Import Prelude CppString State Types Parcel Json BlockInfo World Seq DaemonProxy.

(** The values a request is made of are in the range of their C++ types. *)
Definition req_typed (r : Req) : Prop :=
  match r with
  | SdCreateBlockDeviceNode _ mode major minor => in_u32 mode /\ in_i32 major /\ in_i32 minor
  | SdMount _ _ _ mountFlag _ => in_u64 mountFlag
  | SdFormatVolume _ _ _ _ n | SdDeletePartitionInfo _ _ n => in_i32 n
  | SdCreatePartition _ n s e _ => in_i32 n /\ in_i64 s /\ in_i64 e
  | SdFormatPartition _ _ _ cmd _ | SdExecuteCommand cmd => Z.of_nat (List.length cmd) <= INT32_MAX
  | SdCreateDmLinear _ s c => in_u64 s /\ in_u64 c
  | _ => True
  end.

Definition code_of (r : Req) : IpcCode :=
  match r with
  | SdQueryUsbIsInUse _ => COMMAND_QUERY_USB_IS_IN_USE
  | SdCreateBlockDeviceNode _ _ _ _ => ADDON_CREATE_BLOCK_DEVICE_NODE
  | SdDestroyBlockDeviceNode _ => ADDON_DESTROY_BLOCK_DEVICE_NODE
  | SdReadPartitionTable _ => ADDON_READ_PARTITION_TABLE
  | SdQueryCDStatus _ => ADDON_GET_CD_STATUS
  | SdMount _ _ _ _ _ => ADDON_MOUNT
  | SdUnmount _ _ _ => ADDON_UNMOUNT
  | SdFormatVolume _ _ _ _ _ => ADDON_FORMAT_VOLUME
  | SdCheck _ _ => ADDON_CHECK
  | SdRepair _ _ => ADDON_REPAIR
  | SdSetLabel _ _ _ => ADDON_SET_LABEL
  | SdReadMetadata _ => ADDON_READ_METADATA
  | SdGetCapacity _ => ADDON_GET_CAPACITY
  | SdMountFuseDevice _ => ADDON_MOUNT_FUSE_DEVICE
  | SdPartition _ _ => ADDON_PARTITION
  | SdGetBlockInfoByType _ _ => ADDON_GET_BLOCK_INFO_BY_TYPE
  | SdGetPartitionTableInfo _ => ADDON_GET_PARTITION_TABLE_INFO
  | SdCreatePartition _ _ _ _ _ => ADDON_CREATE_PARTITION
  | SdDeletePartitionInfo _ _ _ => ADDON_DELETE_PARTITION
  | SdFormatPartition _ _ _ _ _ => ADDON_FORMAT_PARTITION
  | SdErase _ => ADDON_ERASE
  | SdEject _ => ADDON_EJECT
  | SdCreateIsoImage _ _ _ _ => ADDON_CREATE_ISO_IMAGE
  | SdBurn _ _ _ => ADDON_BURN
  | SdGetVolumeOpProcess _ => ADDON_GET_VOLUME_OP_PROCESS
  | SdGetDiskSize _ => ADDON_GET_DISK_SIZE
  | SdExecuteCommand _ => ADDON_EXECUTE_COMMAND
  | _ => ADDON_CREATE_DM_LINEAR
  end.

Section messages.
Context {UT : Utf16}.

Definition w16 (s : string) : Datum := datum KString16 (Str8ToStr16 s).
Definition wstrs (l : list string) : list Datum :=
  datum KInt32 (i32 (Z.of_nat (List.length l))) :: List.concat (map (fun s => [w16 s]) l).
(** The arguments of a request, in the order of the wire. *)
Definition message (r : Req) : list Datum :=
  match r with
  | SdQueryUsbIsInUse p | SdDestroyBlockDeviceNode p | SdReadPartitionTable p | SdQueryCDStatus p | SdReadMetadata p
  | SdGetCapacity p | SdMountFuseDevice p | SdGetPartitionTableInfo p | SdErase p | SdEject p | SdGetVolumeOpProcess p
  | SdGetDiskSize p => [w16 p]
  | SdCreateBlockDeviceNode p mode major minor => [w16 p; datum KUint32 mode; datum KInt32 major; datum KInt32 minor]
  | SdMount d m f flag md => [w16 d; w16 m; w16 f; datum KUint64 flag; w16 md]
  | SdUnmount m f force => [w16 m; w16 f; datum KBool force]
  | SdFormatVolume d f dp pt n => [w16 d; w16 f; w16 dp; w16 pt; datum KInt32 n]
  | SdCheck a b | SdRepair a b | SdPartition a b | SdGetBlockInfoByType a b => [w16 a; w16 b]
  | SdSetLabel a b c | SdBurn a b c => [w16 a; w16 b; w16 c]
  | SdCreatePartition p n s e t => [w16 p; datum KInt32 n; datum KInt64 s; datum KInt64 e; w16 t]
  | SdDeletePartitionInfo p d n => [w16 p; w16 d; datum KInt32 n]
  | SdFormatPartition p f v cmd q => [w16 p; w16 f; w16 v] ++ wstrs cmd ++ [datum KBool q]
  | SdCreateIsoImage a b c d => [w16 a; w16 b; w16 c; w16 d]
  | SdExecuteCommand cmd => wstrs cmd
  | SdCreateDmLinear p s c => [w16 p; datum KUint64 s; datum KUint64 c]
  | _ => []
  end.

(** The texts of a request are valid UTF-8. *)
Definition req_texts (r : Req) : list string :=
  match r with
  | SdQueryUsbIsInUse p | SdDestroyBlockDeviceNode p | SdReadPartitionTable p | SdQueryCDStatus p | SdReadMetadata p
  | SdGetCapacity p | SdMountFuseDevice p | SdGetPartitionTableInfo p | SdErase p | SdEject p | SdGetVolumeOpProcess p
  | SdGetDiskSize p | SdCreateBlockDeviceNode p _ _ _ | SdCreateDmLinear p _ _ => [p]
  | SdMount d m f _ md => [d; m; f; md]
  | SdUnmount m f _ => [m; f]
  | SdFormatVolume d f dp pt _ => [d; f; dp; pt]
  | SdCheck a b | SdRepair a b | SdPartition a b | SdGetBlockInfoByType a b | SdDeletePartitionInfo a b _ => [a; b]
  | SdSetLabel a b c | SdBurn a b c => [a; b; c]
  | SdCreatePartition p _ _ _ t => [p; t]
  | SdFormatPartition p f v cmd _ => [p; f; v] ++ cmd
  | SdCreateIsoImage a b c d => [a; b; c; d]
  | SdExecuteCommand cmd => cmd
  | _ => []
  end.
Definition req_utf8 (r : Req) : Prop := Forall utf8_valid (req_texts r).

(** *** Messages determine requests *)
Lemma str16_inj a b : utf8_valid a -> utf8_valid b -> Str8ToStr16 a = Str8ToStr16 b -> a = b.
Proof. intros Ha Hb H. by rewrite <- (Str16_Str8 a Ha), <- (Str16_Str8 b Hb), H. Qed.
Lemma datum_inj k (x y : carrier k) : datum k x = datum k y -> x = y.
Proof. intros H. apply (f_equal (datum_as k)) in H. rewrite !datum_as_same in H. congruence. Qed.
Lemma w16_inj a b : utf8_valid a -> utf8_valid b -> w16 a = w16 b -> a = b.
Proof. intros Ha Hb H%datum_inj. by apply str16_inj. Qed.
Lemma cons_inv {A} (x y : A) l k : x :: l = y :: k -> x = y /\ l = k.
Proof. intros H. by injection H. Qed.
Lemma wstrs_inj l1 l2 t1 t2 :
  Z.of_nat (List.length l1) <= INT32_MAX -> Z.of_nat (List.length l2) <= INT32_MAX ->
  Forall utf8_valid l1 -> Forall utf8_valid l2 -> wstrs l1 ++ t1 = wstrs l2 ++ t2 -> l1 = l2 /\ t1 = t2.
Proof.
  intros H1 H2 Hu1 Hu2 He. apply cons_inv in He as [Hn He].
  apply datum_inj in Hn. rewrite !i32_id in Hn by (unfold_ints; lia). apply Nat2Z.inj in Hn. clear H1 H2.
  revert l2 Hn He Hu2. induction Hu1 as [|a l1 Ha Hu1 IH]; intros [|b l2] Hn He Hu2; try done.
  inversion_clear Hu2. cbn in *. apply cons_inv in He as [He1 He2].
  destruct (IH l2) as [-> ->]; [lia|done|done|]. split; [|done]. f_equal. by apply w16_inj.
Qed.

(** Equal messages of the same method have equal arguments. *)
Ltac msg_inv :=
  repeat match goal with
  | H : _ :: _ = _ :: _ |- _ => apply cons_inv in H as [? ?]
  | H : w16 ?a = w16 ?b |- _ => apply w16_inj in H; [subst|done|done]
  | H : datum _ _ = datum _ _ |- _ => apply datum_inj in H; cbn in H; subst
  | H : Forall _ (_ :: _) |- _ => apply Forall_cons in H as [? ?]
  | H : Forall _ (_ ++ _) |- _ => apply Forall_app in H as [? ?]
  | H : wstrs _ ++ _ = wstrs _ ++ _ |- _ => apply wstrs_inj in H as [? ?]; [subst|done|done|done|done]
  end.

Lemma messages_determine (r1 r2 : Req) :
  sd_req r1 = true -> sd_req r2 = true -> req_typed r1 -> req_typed r2 -> req_utf8 r1 -> req_utf8 r2 ->
  IpcCode_val (code_of r1) = IpcCode_val (code_of r2) -> message r1 = message r2 -> r1 = r2.
Proof.
  unfold req_utf8. intros H1 H2 Ht1 Ht2 Hu1 Hu2 Hc Hm.
  destruct r1; try discriminate H1; destruct r2; try discriminate H2; try discriminate Hc; clear H1 H2 Hc.
  all: cbn [message req_typed req_texts] in *; unfold app in Hu1, Hu2; fold (@app string) in Hu1, Hu2.
  27: rewrite <- (app_nil_r (wstrs cmd)), <- (app_nil_r (wstrs cmd0)) in Hm.
  all: try (cbn [app] in Hm); msg_inv; try reflexivity.
Qed.

(** Two different requests never have the same code and message: the daemon
    can tell them apart. *)
Theorem message_injective (r1 r2 : Req) :
  sd_req r1 = true -> sd_req r2 = true -> req_typed r1 -> req_typed r2 -> req_utf8 r1 -> req_utf8 r2 -> r1 <> r2 ->
  (IpcCode_val (code_of r1), message r1) <> (IpcCode_val (code_of r2), message r2).
Proof. intros H1 H2 Ht1 Ht2 Hu1 Hu2 Hne He. injection He as Hc Hm. by apply Hne, messages_determine. Qed.
End messages.

(** ** Calls of the proxy *)
Section calls.
Context {P E : Type} {PA : Parcel P} {PL : ParcelLaws P} {UT : Utf16} {RM : Remote P E}.
Notation L := (State (Link P E)).
Implicit Types (l : Link P E).

(** Results of the methods, as the answers of [World]. *)
Definition ans_ret (z : Z) : Ans := mkAns z 0 0 0 false "" "" "" [].
Definition ans_int (p : Z * Z) : Ans := mkAns p.1 p.2 0 0 false "" "" "" [].
Definition ans_str (p : Z * string) : Ans := mkAns p.1 0 0 0 false p.2 "" "" [].
Definition as_ans {A} (f : A -> Ans) (m : L A) : L (option Ans) := let! a := m in sret (Some (f a)).
(** The proxy's method for a request; [None] stands for an exception. *)
Definition run_proxy (r : Req) : L (option Ans) :=
  match r with
  | SdQueryUsbIsInUse p => as_ans (fun a => mkAns a.1 0 0 0 a.2 "" "" "" []) (Proxy_QueryUsbIsInUse p false)
  | SdCreateBlockDeviceNode p mode major minor => as_ans ans_ret (Proxy_CreateBlockDeviceNode p mode major minor)
  | SdDestroyBlockDeviceNode p => as_ans ans_ret (Proxy_DestroyBlockDeviceNode p)
  | SdReadPartitionTable p => as_ans (fun '(z, s, n) => mkAns z n 0 0 false s "" "" []) (Proxy_ReadPartitionTable p)
  | SdQueryCDStatus p => as_ans ans_int (Proxy_QueryCDStatus p)
  | SdMount d m f flag md => as_ans ans_ret (Proxy_Mount d m f flag md)
  | SdUnmount m f force => as_ans ans_ret (Proxy_Unmount m f force)
  | SdFormatVolume d f dp pt n => as_ans ans_ret (Proxy_FormatVolume d f dp pt n)
  | SdCheck a b => as_ans ans_ret (Proxy_Check a b)
  | SdRepair a b => as_ans ans_ret (Proxy_Repair a b)
  | SdSetLabel a b c => as_ans ans_ret (Proxy_SetLabel a b c)
  | SdReadMetadata p => as_ans (fun '(z, a, b, c) => mkAns z 0 0 0 false a b c []) (Proxy_ReadMetadata p)
  | SdGetCapacity p => as_ans (fun '(z, a, b) => mkAns z a b 0 false "" "" "" []) (Proxy_GetCapacity p)
  | SdMountFuseDevice p => as_ans ans_int (Proxy_MountFuseDevice p)
  | SdPartition a b => as_ans ans_ret (Proxy_Partition a b)
  | SdGetBlockInfoByType a b => as_ans ans_str (Proxy_GetBlockInfoByType a b)
  | SdGetPartitionTableInfo p => as_ans ans_str (Proxy_GetPartitionTableInfo p "")
  | SdCreatePartition p n s e t => as_ans ans_ret (Proxy_CreatePartition p n s e t)
  | SdDeletePartitionInfo p d n => as_ans ans_ret (Proxy_DeletePartitionInfo p d n)
  | SdFormatPartition p f v cmd q => as_ans ans_ret (Proxy_FormatPartition p f v cmd q)
  | SdErase p => as_ans ans_ret (Proxy_Erase p)
  | SdEject p => as_ans ans_ret (Proxy_Eject p)
  | SdCreateIsoImage a b c d => as_ans ans_ret (Proxy_CreateIsoImage a b c d)
  | SdBurn a b c => as_ans ans_ret (Proxy_Burn a b c)
  | SdGetVolumeOpProcess p => as_ans ans_int (Proxy_GetVolumeOpProcess p)
  | SdGetDiskSize p => as_ans ans_int (Proxy_GetDiskSize p)
  | SdExecuteCommand cmd =>
      let! a := Proxy_ExecuteCommand cmd 0 [] in
      sret (match a with Some (z, e, out) => Some (mkAns z e 0 0 false "" "" "" out) | None => None end)
  | SdCreateDmLinear p s c => as_ans ans_int (Proxy_CreateDmLinear p s c)
  | _ => sret None
  end.

(** What the caller sees of a daemon's answer: the results of that method, and when the call failed
    their initial values. *)
Definition visible (r : Req) (a : Ans) : Ans :=
  let ok := an_ret a =? ERR_OK in
  match r with
  | SdQueryUsbIsInUse _ => mkAns (an_ret a) 0 0 0 (ok && an_bool a) "" "" "" []
  | SdReadPartitionTable _ => mkAns (an_ret a) (if ok then an_int a else 0) 0 0 false (if ok then an_str a else "") "" "" []
  | SdQueryCDStatus _ | SdGetVolumeOpProcess _ | SdGetDiskSize _ | SdCreateDmLinear _ _ _ => ans_int (an_ret a, if ok then an_int a else 0)
  | SdMountFuseDevice _ => ans_int (an_ret a, if ok then an_int a else -1)
  | SdReadMetadata _ => if ok then mkAns (an_ret a) 0 0 0 false (an_str a) (an_str2 a) (an_str3 a) [] else ans_ret (an_ret a)
  | SdGetCapacity _ => if ok then mkAns (an_ret a) (an_int a) (an_int2 a) 0 false "" "" "" [] else ans_ret (an_ret a)
  | SdGetBlockInfoByType _ _ | SdGetPartitionTableInfo _ => ans_str (an_ret a, if ok then an_str a else "")
  | SdExecuteCommand _ => if ok then mkAns (an_ret a) (an_int a) 0 0 false "" "" "" (an_strs a) else ans_ret (an_ret a)
  | _ => ans_ret (an_ret a)
  end.
(** The results as the daemon writes them into a reply. *)
Definition results (r : Req) (a : Ans) : list Datum :=
  match r with
  | SdQueryUsbIsInUse _ => [datum KBool (an_bool a)]
  | SdReadPartitionTable _ => [w16 (an_str a); datum KInt32 (an_int a)]
  | SdQueryCDStatus _ | SdGetVolumeOpProcess _ => [datum KInt32 (an_int a)]
  | SdGetDiskSize _ | SdCreateDmLinear _ _ _ => [datum KUint64 (an_int a)]
  | SdMountFuseDevice _ => [datum KFd (an_int a)]
  | SdReadMetadata _ => [w16 (an_str a); w16 (an_str2 a); w16 (an_str3 a)]
  | SdGetCapacity _ => [datum KInt64 (an_int a); datum KInt64 (an_int2 a)]
  | SdGetBlockInfoByType _ _ | SdGetPartitionTableInfo _ => [w16 (an_str a)]
  | SdExecuteCommand _ => datum KInt32 (an_int a) :: wstrs (an_strs a)
  | _ => []
  end.
Definition reply_of (r : Req) (a : Ans) : list Datum :=
  datum KInt32 (an_ret a) :: (if an_ret a =? ERR_OK then results r a else []).
(** Answers made of values of the C++ types. *)
Definition ans_typed (r : Req) (a : Ans) : Prop :=
  in_i32 (an_ret a) /\
  match r with
  | SdReadPartitionTable _ => utf8_valid (an_str a) /\ in_i32 (an_int a)
  | SdQueryCDStatus _ | SdGetVolumeOpProcess _ => in_i32 (an_int a)
  | SdGetDiskSize _ | SdCreateDmLinear _ _ _ => in_u64 (an_int a)
  | SdMountFuseDevice _ => 0 <= an_int a
  | SdReadMetadata _ => utf8_valid (an_str a) /\ utf8_valid (an_str2 a) /\ utf8_valid (an_str3 a)
  | SdGetCapacity _ => in_i64 (an_int a) /\ in_i64 (an_int2 a)
  | SdGetBlockInfoByType _ _ | SdGetPartitionTableInfo _ => utf8_valid (an_str a)
  | SdExecuteCommand _ => in_i32 (an_int a) /\ Z.of_nat (List.length (an_strs a)) <= INT32_MAX /\ Forall utf8_valid (an_strs a)
  | _ => True
  end.

Lemma writes_strs cmd cont enc :
  Z.of_nat (List.length cmd) <= INT32_MAX -> writes cont enc -> writes (write_strs cmd cont) (wstrs cmd ++ enc).
Proof.
  intros Hc He. apply writes_then; [apply i32_range|]. apply writes_bind; [|done]. apply writes_all.
  intros s _. by apply writes_one.
Qed.
Lemma reads_str {B} s (f : string -> State P B) enc b :
  utf8_valid s -> reads (f s) enc b -> reads (sbind read_str f) (w16 s :: enc) b.
Proof.
  intros Hs Hf. unfold read_str, w16. intros p rest Hp. unfold sbind at 1.
  destruct (read_unread KString16 _ _ _ I Hp) as [Hx Hr]. unfold sbind. destruct (pread KString16 p) as [x p1]. cbn in *. subst x.
  rewrite Str16_Str8 by done. by apply Hf.
Qed.
Lemma reads_strs strs : Forall utf8_valid strs -> reads (read_strs (List.length strs)) (List.concat (map (fun s => [w16 s]) strs)) strs.
Proof.
  induction 1 as [|s strs Hs Hl IH]; cbn; [apply reads_ret|]. apply reads_str; [done|]. rewrite <- (app_nil_r (List.concat _)).
  apply reads_bind with strs; [done|]. apply reads_ret.
Qed.

(** A call either stops before anything is sent, or sends one message and decodes the reply. *)
Definition transacted {R} (code : IpcCode) (fail : Z -> R) (decode : State P R) (enc : list Datum) l (r : R) l' : Prop :=
  (l' = l /\ (r = fail ERR_TRANSACTION_FAILED \/ r = fail ERR_INVALID_DATA)) \/
  exists data, unread data = datum KToken DESCRIPTOR :: enc /\
    let s := rm_send (IpcCode_val code) data (lk_env l) in
    l' = mkLink s.2 ((IpcCode_val code, data) :: lk_sent l) /\
    r = if negb (s.1.1 =? ERR_OK) then fail s.1.1 else (decode s.1.2).1.
Lemma transact_cases {R} code args (fail : Z -> R) decode enc l :
  writes args enc -> transacted code fail decode enc l (transact code args fail decode l).1 (transact code args fail decode l).2.
Proof.
  intros Hw. unfold transact, transacted. pose proof (unread_write KToken DESCRIPTOR pnew I) as Htok.
  destruct (pwrite KToken DESCRIPTOR pnew) as [[] data]; cbn in *; [|by left; auto].
  specialize (Hw data). destruct (args data) as [[] data']; cbn in *; [|by left; auto].
  right. exists data'. split.
  { rewrite Hw, Htok by done. by rewrite unread_new. }
  unfold sbind, SendRequest. destruct (rm_send _ _ _) as [[ret reply] e']. cbn. by destruct (negb _).
Qed.

(** [m] is a call that sends [enc] with [code] and decodes every reply of the daemon as it was meant. *)
Definition implements (r : Req) (m : L (option Ans)) : Prop :=
  exists args (fail : Z -> option Ans) (decode : State P (option Ans)),
    (forall l, m l = transact (code_of r) args fail decode l) /\ writes args (message r) /\
    (forall z, exists a, fail z = Some a /\ an_ret a = z) /\
    (forall a, ans_typed r a -> reads decode (reply_of r a) (Some (visible r a))).

Lemma map_transact {A} (f : A -> option Ans) code args fail decode l :
  (let! a := transact (E := E) code args fail decode in sret (f a)) l =
  transact code args (fun z => f (fail z)) (let! d := decode in sret (f d)) l.
Proof.
  unfold transact. unfold sbind at 1. destruct (pwrite _ _ _) as [[] data]; cbn [negb]; [|done].
  destruct (args data) as [[] data']; cbn [negb]; [|done]. unfold sbind. destruct (SendRequest _ _ l) as [[ret reply] l'].
  destruct (negb _); [done|]. unfold sret. cbn. by destruct (decode reply).
Qed.
(** A method without out parameters. *)
Lemma implements_simple r args :
  writes args (message r) -> (forall a, visible r a = ans_ret (an_ret a)) -> (forall a, results r a = []) ->
  implements r (as_ans ans_ret (transact_simple (code_of r) args)).
Proof.
  intros Hw Hv Hr. exists args, (fun z => Some (ans_ret z)), (let! d := pread KInt32 in sret (Some (ans_ret d))).
  split_and!; [intros l; apply (map_transact (fun a => Some (ans_ret a)))|done|intros z; by exists (ans_ret z)|].
  intros a [Hi _]. rewrite Hv. unfold reply_of. rewrite Hr. destruct (_ =? _); wire_flat.
Qed.
(** A method with out parameters, [more] in the reply. *)
Lemma implements_out {A} r args (f : A -> Ans) (fail : Z -> A) (more : State P A) :
  writes args (message r) -> (forall z, an_ret (f (fail z)) = z) ->
  (forall a, an_ret a <> ERR_OK -> visible r a = f (fail (an_ret a))) ->
  (forall a, ans_typed r a -> an_ret a = ERR_OK -> exists x, reads more (results r a) x /\ f x = visible r a) ->
  implements r (as_ans f (transact (code_of r) args fail (reply_ok fail more))).
Proof.
  intros Hw Hf Hv Hm. exists args, (fun z => Some (f (fail z))), (let! d := reply_ok fail more in sret (Some (f d))).
  split_and!; [intros l; apply (map_transact (fun a => Some (f a)))|done|intros z; by eexists|].
  intros a Ha. unfold reply_of. destruct (an_ret a =? ERR_OK) eqn:Hok; bsimp.
  - destruct (Hm a Ha Hok) as (x & Hx & <-). rewrite <- (app_nil_r (datum _ _ :: _)). eapply reads_bind; [|apply reads_ret].
    apply reads_then; [apply Ha|]. by rewrite Hok.
  - rewrite Hv by done. eapply (reads_bind _ _ [_] []); [|apply reads_ret]. apply reads_then; [apply Ha|].
    destruct (negb _) eqn:Hb; [apply reads_ret|]. by bsimp.
Qed.

(** The exception of [ExecuteCommand] needs a negative size, which no daemon sends. *)
Lemma implements_execute cmd :
  req_typed (SdExecuteCommand cmd) -> implements (SdExecuteCommand cmd) (run_proxy (SdExecuteCommand cmd)).
Proof.
  intros Ht. cbn [run_proxy]. unfold Proxy_ExecuteCommand. set (f := fun a : option (Z * Z * list string) => match a with Some (z, e, out) => Some (mkAns z e 0 0 false "" "" "" out) | None => None end).
  set (fail := fun e : Z => Some (e, 0, @nil string)). set (more := let! execRet := pread KInt32 in _).
  exists (write_strs cmd (sret true)), (fun z => f (fail z)), (let! d := reply_ok fail more in sret (f d)). split_and!.
  - intros l. apply (map_transact f).
  - cbn [message]. rewrite <- (app_nil_r (wstrs cmd)). apply writes_strs; [done|apply writes_ret].
  - intros z. by eexists.
  - intros a (Hi & He & Hl & Hu). unfold reply_of, visible. destruct (an_ret a =? ERR_OK) eqn:Hok; bsimp.
    + rewrite <- (app_nil_r (datum _ _ :: _)). apply (reads_bind _ _ _ _ (Some (ERR_OK, an_int a, an_strs a))); [|rewrite Hok; apply reads_ret]. apply reads_then; [done|].
      rewrite Hok. cbn [negb Z.eqb]. subst more. cbn [results]. unfold wstrs.
      assert (Hsz : i32 (Z.of_nat (List.length (an_strs a))) = Z.of_nat (List.length (an_strs a))) by (apply i32_id; unfold_ints; lia).
      do 2 (apply reads_then; [first [done|apply i32_range]|]). rewrite Hsz, Nat2Z.id. destruct (_ <? 0) eqn:Hn; [bsimp; lia|].
      rewrite <- (app_nil_r (List.concat _)). eapply reads_bind; [by apply reads_strs|]. apply reads_ret.
    + apply (reads_bind _ _ [_] [] (fail (an_ret a))); [|apply reads_ret]. apply reads_then; [done|].
      destruct (negb _) eqn:Hb; [apply reads_ret|]. by bsimp.
Qed.

Ltac reply_step :=
  repeat first [ apply reads_str; [tauto|] | wire_step; try wire_ok
               | match goal with |- reads (if ?b then _ else _) _ _ => destruct b eqn:?; [bsimp; lia|] end ].
Lemma run_proxy_implements r : sd_req r = true -> req_typed r -> implements r (run_proxy r).
Proof.
  intros Hr Ht. destruct r; try discriminate Hr; clear Hr; try (by apply implements_execute); cbn [req_typed] in Ht; cbn [run_proxy].
  all: try (apply implements_simple; [|done|done]; cbn [message]; first [by wire_flat |
              do 3 (apply writes_then; [done|]); apply writes_strs; [done|]; by wire_flat]).
  all: apply implements_out; [by cbn [message]; wire_flat|done| |].
  all: try (intros a Hne; apply Z.eqb_neq in Hne; unfold visible; rewrite Hne; reflexivity).
  all: intros a [_ Ha] Hok; unfold visible; rewrite Hok; cbn in Ha |- *; eexists; (split; [reply_step|reflexivity]).
Qed.

(** For every request of the service to storage_daemon, the proxy's method sends at
    most one message: exactly the method's code, the interface token and the
    arguments in order; when the parcel cannot take them it sends nothing and returns
    the parcel's error. *)
Theorem proxy_sends_request r l :
  sd_req r = true -> req_typed r ->
  let (res, l') := run_proxy r l in
  (l' = l /\ exists a, res = Some a /\ (an_ret a = ERR_TRANSACTION_FAILED \/ an_ret a = ERR_INVALID_DATA)) \/
  exists data, lk_sent l' = (IpcCode_val (code_of r), data) :: lk_sent l /\ unread data = datum KToken DESCRIPTOR :: message r.
Proof.
  intros Hr Ht. destruct (run_proxy_implements r Hr Ht) as (args & fail & decode & Hm & Hw & Hf & _). rewrite Hm.
  pose proof (transact_cases (code_of r) args fail decode (message r) l Hw) as H.
  destruct (transact _ _ _ _ l) as [res l']. cbn in H. destruct H as [[-> H]|(data & Hd & -> & ->)].
  - left. split; [done|]. destruct H as [-> | ->]; [destruct (Hf ERR_TRANSACTION_FAILED) as (a & Ha & Hra)|destruct (Hf ERR_INVALID_DATA) as (a & Ha & Hra)];
      exists a; auto.
  - right. by exists data.
Qed.
End calls.

(** ** Refinement of the requests of [World]

    What is asked of storage_daemon's end of the wire: it answers a well-formed message
    of a request as [dm_answer] says, and puts the results into the reply in the order
    of [results]. *)
Class Daemon (P E : Type) {PA : Parcel P} {PL : ParcelLaws P} {UT : Utf16} {RM : Remote P E} : Type := {
  dm_answer : Req -> E -> Ans * E;
  dm_typed (r : Req) (e : E) : ans_typed r (dm_answer r e).1;
  dm_serves (r : Req) (data : P) (e : E) :
    sd_req r = true -> req_typed r -> unread data = datum KToken DESCRIPTOR :: message r ->
    let s := rm_send (IpcCode_val (code_of r)) data e in
    s.1.1 = ERR_OK /\ s.2 = (dm_answer r e).2 /\ unread s.1.2 = reply_of r (dm_answer r e).1;
}.

Section refinement.
Context {P E : Type} {PA : Parcel P} {PL : ParcelLaws P} {UT : Utf16} {RM : Remote P E} {DM : Daemon P E}.

(** C13: The proxy in front of such a daemon is the [request] of the model: the call
    returns what the daemon answered, the daemon has moved on exactly once, and no
    exception is raised; or the parcel could not be filled and nothing was sent. *)
Theorem proxy_refines_request r (l : Link P E) :
  sd_req r = true -> req_typed r ->
  let (res, l') := run_proxy r l in
  (l' = l /\ exists a, res = Some a /\ (an_ret a = ERR_TRANSACTION_FAILED \/ an_ret a = ERR_INVALID_DATA)) \/
  res = Some (visible r (dm_answer r (lk_env l)).1) /\ lk_env l' = (dm_answer r (lk_env l)).2.
Proof.
  intros Hr Ht. destruct (run_proxy_implements r Hr Ht) as (args & fail & decode & Hm & Hw & Hf & Hd). rewrite Hm.
  pose proof (transact_cases (code_of r) args fail decode (message r) l Hw) as H.
  destruct (transact _ _ _ _ l) as [res l']. cbn in H. destruct H as [[-> H]|(data & Hdata & -> & ->)].
  - left. split; [done|]. destruct H as [-> | ->]; [destruct (Hf ERR_TRANSACTION_FAILED) as (a & Ha & Hra)|destruct (Hf ERR_INVALID_DATA) as (a & Ha & Hra)];
      exists a; auto.
  - right. destruct (dm_serves r data (lk_env l) Hr Ht Hdata) as (H1 & H2 & H3). rewrite H1. cbn [negb Z.eqb ERR_OK].
    split; [|done]. cbn. apply (Hd _ (dm_typed r (lk_env l)) _ []). by rewrite H3, app_nil_r.
Qed.
End refinement.

(** * Examples

    Texts are one byte per code unit, and a daemon that gives every request the same
    answer. *)
#[export] Instance ascii_utf16 : Utf16.
Proof.
  refine {| Str8ToStr16 s := map (fun c => Z.of_nat (nat_of_ascii c)) (list_ascii_of_string s);
            Str16ToStr8 l := string_of_list_ascii (map (fun z => ascii_of_nat (Z.to_nat z)) l);
            utf8_valid _ := True |}.
  intros s _. rewrite map_map. etrans; [|apply string_of_list_ascii_of_string]. f_equal. rewrite <- (map_id (list_ascii_of_string s)) at 2.
  apply map_ext. intros c. by rewrite Nat2Z.id, ascii_nat_embedding.
Defined.
Definition ex_answer : Ans := mkAns 0 7 9 0 true "gpt" "vfat" "DATA" ["loop0"].
(** A request with a given code. *)
Definition ex_requests : list Req :=
  [SdQueryUsbIsInUse ""; SdCreateBlockDeviceNode "" 0 0 0; SdDestroyBlockDeviceNode ""; SdReadPartitionTable ""; SdQueryCDStatus "";
   SdMount "" "" "" 0 ""; SdUnmount "" "" false; SdFormatVolume "" "" "" "" 0; SdCheck "" ""; SdRepair "" ""; SdSetLabel "" "" "";
   SdReadMetadata ""; SdGetCapacity ""; SdMountFuseDevice ""; SdPartition "" ""; SdGetBlockInfoByType "" ""; SdGetPartitionTableInfo "";
   SdCreatePartition "" 0 0 0 ""; SdDeletePartitionInfo "" "" 0; SdFormatPartition "" "" "" [] false; SdErase ""; SdEject "";
   SdCreateIsoImage "" "" "" ""; SdBurn "" "" ""; SdGetVolumeOpProcess ""; SdGetDiskSize ""; SdExecuteCommand []; SdCreateDmLinear "" 0 0].
Definition ex_reply (code : Z) : list Datum :=
  match find_if (fun r => IpcCode_val (code_of r) =? code) ex_requests with
  | Some r => reply_of r ex_answer
  | None => []
  end.
#[export] Instance ex_remote : Remote Queue unit := {|
  rm_send code data e := ((0, mkQueue 4096 (ex_reply code)), e);
  ERR_TRANSACTION_FAILED := 10; ERR_INVALID_DATA := 5 |}.
#[export] Instance ex_daemon : Daemon Queue unit.
Proof.
  refine {| dm_answer r e := (ex_answer, e) |}.
  - intros r e. unfold ans_typed. cbn [fst ex_answer an_ret an_int an_int2 an_str an_str2 an_str3 an_strs].
    split; [unfold_ints; lia|]. destruct r; unfold_ints; cbn; repeat split; try lia; repeat constructor.
  - intros r data e Hr _ _. cbn [rm_send ex_remote fst snd]. split; [done|]. split; [done|]. by destruct r.
Defined.
Definition ex_link : Link Queue unit := mkLink tt [].

Lemma message_injective_witness :
  (211, message (SdMountFuseDevice "/mnt/data/external/a")) <> (211, message (SdMountFuseDevice "/mnt/data/external/b")).
Proof.
  apply (message_injective (SdMountFuseDevice "/mnt/data/external/a") (SdMountFuseDevice "/mnt/data/external/b"));
    first [done | repeat constructor | intros H; discriminate H].
Defined.
Lemma proxy_sends_request_witness :
  exists data, lk_sent (run_proxy (SdUnmount "/mnt/data/external/1" "vfat" false) ex_link).2 = [(205, data)] /\
  unread data = datum KToken DESCRIPTOR :: message (SdUnmount "/mnt/data/external/1" "vfat" false).
Proof.
  pose proof (proxy_sends_request (SdUnmount "/mnt/data/external/1" "vfat" false) ex_link eq_refl I) as H.
  destruct (run_proxy _ ex_link) as [res l'] eqn:Hrun. destruct H as [[-> _]|H]; [vm_compute in Hrun; discriminate Hrun|exact H].
Defined.
Lemma proxy_refines_request_witness :
  (run_proxy (SdReadMetadata "/dev/block/vol-8-1") ex_link).1 = Some (mkAns 0 0 0 0 false "gpt" "vfat" "DATA" []).
Proof.
  pose proof (proxy_refines_request (SdReadMetadata "/dev/block/vol-8-1") ex_link eq_refl I) as H.
  destruct (run_proxy _ ex_link) as [res l'] eqn:Hrun. destruct H as [[-> _]|[-> _]]; [vm_compute in Hrun; discriminate Hrun|reflexivity].
Defined.
