(* ===== verification/BootFacts.v ===== *)
(** * Device numbers, ids and partition differences

    What discovery relies on: device numbers and the ids made of them determine each
    other, and the difference of two partition lists is what the code acts on. *)
From stdpp Require Import gmap.
From S2P Require Import Prelude CppString Types State Utils Uevent PartitionTable Json BlockInfo World Bootstrap Seq Scenario.

(** ** Device numbers *)
Lemma testbit_high z n k : 0 <= z < 2 ^ n -> n <= k -> Z.testbit z k = false.
Proof.
  intros Hz Hk. destruct (Z.ltb_spec k 0); [by apply Z.testbit_neg_r|].
  rewrite <- (Z.mod_small z (2 ^ n)) by done. apply Z.mod_pow2_bits_high. split; [|done].
  destruct (Z.ltb_spec n 0); [|lia]. rewrite Z.pow_neg_r in Hz by done. lia.
Qed.
(** The masks of [makedev]: [len] ones from bit [from] on. *)
Definition mask (from len : Z) : Z := Z.shiftl (Z.ones len) from.
Lemma mask_testbit from len k : 0 <= from -> 0 <= len -> Z.testbit (mask from len) k = (from <=? k) && (k <? from + len).
Proof.
  intros. unfold mask. destruct (Z.leb_spec from k); cbn [andb].
  - rewrite Z.shiftl_spec by lia. rewrite Z.testbit_ones by done. destruct (Z.leb_spec 0 (k - from)); [|lia]. cbn [andb].
    destruct (Z.ltb_spec (k - from) len), (Z.ltb_spec k (from + len)); lia.
  - destruct (Z.ltb_spec k 0); [by apply Z.testbit_neg_r|]. rewrite Z.shiftl_spec by lia. apply Z.testbit_neg_r. lia.
Qed.
Lemma masks : 4294963200 = mask 12 20 /\ 4095 = mask 0 12 /\ 4294967040 = mask 8 24 /\ 255 = mask 0 8.
Proof. done. Qed.

(** A bit of an expression made of masks and shifts, by cases on its position. *)
Ltac bit_cases :=
  repeat first [ rewrite Z.lor_spec | rewrite Z.land_spec | rewrite Z.shiftr_spec by lia | rewrite Z.shiftl_spec by lia
               | rewrite mask_testbit by lia ];
  repeat match goal with
  | |- context [?a <=? ?b] => destruct (Z.leb_spec a b); try lia
  | |- context [?a <? ?b] => destruct (Z.ltb_spec a b); try lia
  end;
  cbn [andb orb]; rewrite ?andb_true_r, ?andb_false_r, ?orb_false_r; cbn [orb]; rewrite ?orb_false_r.
Ltac bit_done :=
  first [ reflexivity | f_equal; lia | symmetry; apply (testbit_high _ 32); lia ].

Lemma major_makedev maj min : in_u32 maj -> in_u32 min -> major (makedev maj min) = maj.
Proof.
  unfold_ints. intros Hmaj Hmin. apply Z.bits_inj'. intros k Hk. unfold major, makedev.
  destruct masks as (-> & -> & -> & ->). bit_cases; bit_done.
Qed.
Lemma minor_makedev maj min : in_u32 maj -> in_u32 min -> minor (makedev maj min) = min.
Proof.
  unfold_ints. intros Hmaj Hmin. apply Z.bits_inj'. intros k Hk. unfold minor, makedev.
  destruct masks as (-> & -> & -> & ->). bit_cases; bit_done.
Qed.

(** ** Ids *)
Lemma srfind_none c s : no_char c s = true -> srfind (schar c) s = None.
Proof.
  unfold no_char. induction s as [|d s IH]; cbn; [done|]. intros H. bsimp. rewrite IH by done.
  assert (char_eqb c d = false) as -> by (bsimp; congruence). done.
Qed.
Lemma srfind_app c a b : no_char c b = true -> srfind (schar c) (a +:+ String c b) = Some (String.length a).
Proof.
  intros Hb. induction a as [|d a IH]; cbn.
  - rewrite srfind_none by done. unfold char_eqb. by rewrite bool_decide_eq_true_2.
  - by rewrite IH.
Qed.
Lemma sdrop_sep c a b : sdrop (S (String.length a)) (a +:+ String c b) = b.
Proof. induction a as [|d a IH]; [by destruct b|exact IH]. Qed.
Lemma to_string_no_dash z : 0 <= z -> no_char "-" (to_string z) = true.
Proof. intros Hz. apply digits_no_char; [done|]. by apply to_string_digits. Qed.

Lemma ParseDiskIdToMajMin_DiskIdFrom maj min :
  in_u32 maj -> in_u32 min -> ParseDiskIdToMajMin (DiskIdFrom maj min) = (maj, min).
Proof.
  unfold_ints. intros Hmaj Hmin. unfold ParseDiskIdToMajMin, DiskIdFrom.
  assert (Hs : "disk-" +:+ to_string maj +:+ "-" +:+ to_string min = ("disk-" +:+ to_string maj) +:+ String "-" (to_string min))
    by (by rewrite sapp_assoc).
  rewrite Hs. rewrite (srfind_app "-") by (apply to_string_no_dash; lia).
  assert (Hl : String.length ("disk-" +:+ to_string maj) = (5 + String.length (to_string maj))%nat) by done.
  f_equal.
  - unfold substr. rewrite Hl, Nat.add_comm, Nat.add_sub. cbn [sdrop String.append]. rewrite stake_app.
    rewrite <- (sapp_nil_r (to_string maj)), strtoul10_to_string by (unfold_ints; done || lia). apply u32_id. unfold_ints. lia.
  - rewrite sdrop_sep. rewrite <- (sapp_nil_r (to_string min)), strtoul10_to_string by (unfold_ints; done || lia).
    apply u32_id. unfold_ints. lia.
Qed.

Lemma dashed_ids_inj pre a b a' b' :
  0 <= a -> 0 <= b -> 0 <= a' -> 0 <= b' ->
  pre +:+ to_string a +:+ "-" +:+ to_string b = pre +:+ to_string a' +:+ "-" +:+ to_string b' -> a = a' /\ b = b'.
Proof.
  intros Ha Hb Ha' Hb' He. apply sapp_inj_r in He. change ("-" +:+ to_string b) with (String "-" (to_string b)) in He.
  change ("-" +:+ to_string b') with (String "-" (to_string b')) in He.
  apply single_sep_unique in He as [H1%to_string_inj H2%to_string_inj]; [done| |]; by apply to_string_no_dash.
Qed.

(** Device numbers and the ids made of them carry the same information: the
    macros give back both halves of a device number, the id of a disk parses to the
    numbers it was made of, different device numbers have different volume ids, and
    the sixteen device numbers of a disk and its first fifteen partitions differ. *)
Theorem device_ids_roundtrip maj min :
  in_u32 maj -> in_u32 min ->
  major (makedev maj min) = maj /\ minor (makedev maj min) = min /\
  ParseDiskIdToMajMin (DiskIdFrom maj min) = (maj, min) /\
  (forall maj' min', in_u32 maj' -> in_u32 min' -> VolIdFromDev (makedev maj min) = VolIdFromDev (makedev maj' min') -> maj' = maj /\ min' = min) /\
  (min + MAX_SCSI_VOLUMES <= UINT32_MAX -> forall i j, 0 <= i <= MAX_SCSI_VOLUMES -> 0 <= j <= MAX_SCSI_VOLUMES ->
     PartitionDev maj min i = PartitionDev maj min j -> i = j).
Proof.
  intros Hmaj Hmin. split; [by apply major_makedev|]. split; [by apply minor_makedev|].
  split; [by apply ParseDiskIdToMajMin_DiskIdFrom|]. split.
  - intros maj' min' Hmaj' Hmin'. unfold VolIdFromDev. rewrite !major_makedev, !minor_makedev by done.
    unfold_ints. intros [-> ->]%dashed_ids_inj; [done|lia..].
  - unfold MAX_SCSI_VOLUMES. intros Hfit i j Hi Hj. unfold PartitionDev, MAX_SCSI_VOLUMES.
    destruct (Z.ltb_spec 15 i); [lia|]. destruct (Z.ltb_spec 15 j); [lia|]. unfold_ints.
    intros He. apply (f_equal minor) in He. rewrite !u32_id, !minor_makedev in He by (unfold_ints; lia). lia.
Qed.
(** From the sixteenth partition on, partitions of different disks share a device number. *)
Lemma PartitionDev_collision : PartitionDev 8 0 16 = PartitionDev 8 16 16.
Proof. reflexivity. Qed.

(** ** Differences of partition lists *)
(** What [PartitionKeyEqual] compares. *)
Definition part_key (r : PartitionRecord) : Z * string * string := (pr_partitionNumber r, pr_partitionType r, pr_fsTypeRaw r).
Definition part_keys (l : list PartitionRecord) : gset (Z * string * string) := list_to_set (map part_key l).

Lemma PartitionKeyEqual_spec a b : PartitionKeyEqual a b = true <-> part_key a = part_key b.
Proof.
  unfold PartitionKeyEqual, part_key. rewrite !andb_true_iff, Z.eqb_eq, !str_eqb_true. split.
  - intros [[-> ->] ->]. done.
  - intros H. injection H. auto.
Qed.
Lemma ContainsPartition_spec l r : ContainsPartition l r = true <-> part_key r ∈ part_keys l.
Proof.
  unfold ContainsPartition, part_keys. rewrite elem_of_list_to_set, list_elem_of_fmap, existsb_exists.
  split; intros (x & H1 & H2); [apply PartitionKeyEqual_spec in H2|]; exists x; rewrite ?PartitionKeyEqual_spec.
  - split; [done|]. by apply list_elem_of_In.
  - split; [by apply list_elem_of_In|done].
Qed.
Lemma elem_of_filter_b {A} (f : A -> bool) l x : x ∈ List.filter f l <-> x ∈ l /\ f x = true.
Proof. rewrite !list_elem_of_In. apply filter_In. Qed.
Lemma filter_keys (l l' : list PartitionRecord) :
  part_keys (List.filter (fun r => negb (ContainsPartition l' r)) l) = part_keys l ∖ part_keys l'.
Proof.
  apply set_eq. intros k. unfold part_keys at 1 2. rewrite elem_of_difference, !elem_of_list_to_set, !list_elem_of_fmap.
  split.
  - intros (r & -> & [Hin Hn]%elem_of_filter_b). bsimp. split; [by exists r|].
    intros Hc%ContainsPartition_spec. congruence.
  - intros [(r & -> & Hin) Hn]. exists r. split; [done|]. apply elem_of_filter_b. split; [done|].
    apply negb_true_iff, not_true_iff_false. by rewrite ContainsPartition_spec.
Qed.

Section diff.
Context {E St : Type} {EV : Env E} {PS : PathStore St}.
Implicit Types (w : World E St).

Definition old_keys (d : string) w : gset (Z * string * string) := part_keys (default [] (sh_snapshot (w_sh w) !! d)).

(** The difference the discovery acts on: the added records are those of the new
    table that were not in the last one, in the order of the new table; the removed
    ones are those of the last table that are not in the new one; together they turn
    the last table into the new one, which becomes the snapshot. A second event with
    the same table finds nothing to do. *)
Theorem ComputePartitionDiff_spec d parts w :
  let '(added, removed, w') := ComputePartitionDiff d parts w in
  sublist added parts /\ sublist removed (default [] (sh_snapshot (w_sh w) !! d)) /\
  part_keys added = part_keys parts ∖ old_keys d w /\ part_keys removed = old_keys d w ∖ part_keys parts /\
  part_keys parts = (old_keys d w ∖ part_keys removed) ∪ part_keys added /\
  w_sh w' = upd_snapshot (<[d := parts]>) (w_sh w) /\
  (ComputePartitionDiff d parts w').1 = ([], []).
Proof.
  unfold ComputePartitionDiff, sbind, get_sh, sget, set_snapshot, set_sh, smodify, sret, old_keys. cbn -[partition_diff].
  destruct (partition_diff (sh_snapshot (w_sh w) !! d) parts) as [added removed] eqn:Hd.
  assert (Hsub : forall f (l : list PartitionRecord), sublist (List.filter f l) l).
  { intros f l. induction l as [|x l IH]; cbn; [constructor|]. destruct (f x); by constructor. }
  assert (Hnew : partition_diff (<[d := parts]> (sh_snapshot (w_sh w)) !! d) parts = ([], [])).
  { rewrite lookup_insert_eq. cbn. assert (Hnil : List.filter (fun r => negb (ContainsPartition parts r)) parts = []); [|by rewrite Hnil].
    apply elem_of_nil_inv. intros x [Hx Hc]%elem_of_filter_b. bsimp. apply not_true_iff_false in Hc. apply Hc, ContainsPartition_spec.
    apply elem_of_list_to_set, list_elem_of_fmap. by exists x. }
  assert (Hk : part_keys added = part_keys parts ∖ part_keys (default [] (sh_snapshot (w_sh w) !! d)) /\
               part_keys removed = part_keys (default [] (sh_snapshot (w_sh w) !! d)) ∖ part_keys parts /\
               sublist added parts /\ sublist removed (default [] (sh_snapshot (w_sh w) !! d))).
  { destruct (sh_snapshot (w_sh w) !! d) as [old|]; cbn in Hd |- *; injection Hd as <- <-.
    - rewrite !filter_keys. done.
    - split; [|split; [|split; [done|constructor]]]; unfold part_keys; cbn; set_solver. }
  destruct Hk as (Ha & Hr & Hsa & Hsr). cbn. split_and!; try done.
  - rewrite Ha, Hr. apply set_eq. intros k. rewrite elem_of_union, !elem_of_difference.
    destruct (decide (k ∈ part_keys (default [] (sh_snapshot (w_sh w) !! d)))), (decide (k ∈ part_keys parts)); tauto.
Qed.
End diff.

(** * Example *)
Lemma device_ids_roundtrip_witness :
  major (makedev 259 70000) = 259 /\ minor (makedev 259 70000) = 70000 /\ ParseDiskIdToMajMin "disk-259-70000" = (259, 70000).
Proof.
  destruct (device_ids_roundtrip 259 70000) as (H1 & H2 & H3 & _); [unfold_ints; lia|unfold_ints; lia|]. done.
Defined.
