(* ===== verification/FormatFacts.v ===== *)
(** * Formatting and purging, sequentially

    What [Format] and [PurgeVolumesForDisk] do to the tables and what they send, on
    every branch, when no other thread runs in between. *)
From S2P Require Import Prelude CppString Types State Utils Json BlockInfo World Adapters DmQuery Events DmMount.
From S2P Require Import Seq Voldata VoldataStore Scenario MountFacts.

Section disks.
Context {E St : Type} {EV : Env E} {PS : PathStore St} {JT : JsonText} {SQ : Sequential E}.

(** A copy of a disk, with the type it has in the table. *)
Lemma runs_GetDiskById d (Q : option Disk -> Shared -> St -> list Act -> Prop) sh st tr :
  (forall o tr', grows is_local tr tr' -> disk_diskType <$> o = disk_diskType <$> sh_disks sh !! d -> Q o sh st tr') ->
  runs (E := E) (GetDiskById d) Q sh st tr.
Proof.
  intros H. unfold GetDiskById. do 4 seq_step. destruct (sh_disks sh !! d) as [x|]; [|apply runs_ret, H; [apply grows_refl|done]].
  cbv zeta. set (out := AttachVolumeIdsToDisk _ x). assert (Hx : disk_diskType out = disk_diskType x) by done.
  clearbody out. unfold QueryAndAppendEncryptionStatusUnlocked, QueryEncryptionStatus, TryCopyByDiskId.
  seq_auto; (apply H; [repeat (apply grows_cons; [done|]); apply grows_refl|cbn; by rewrite <- Hx]).
Qed.
Lemma runs_IsDiskSupported d (Q : Z -> Shared -> St -> list Act -> Prop) sh st tr :
  (forall tr', grows is_local tr tr' ->
     Q (errno (match sh_disks sh !! d with Some x => if disk_diskType x =? CD_FLAG then E_NOT_SUPPORT else E_OK | None => E_NOT_SUPPORT end)) sh st tr') ->
  runs (E := E) (IsDiskSupported d) Q sh st tr.
Proof.
  intros H. unfold IsDiskSupported. apply runs_bind, runs_GetDiskById. intros o tr' Hg Ho. specialize (H tr' Hg).
  destruct o as [y|], (sh_disks sh !! d) as [x|]; try discriminate Ho; [injection Ho as Ho; rewrite <- Ho in H|]; seq_auto; exact H.
Qed.
End disks.

(** ** Format *)
Section format.
Context {E St : Type} {EV : Env E} {PS : PathStore St} {JT : JsonText} {SQ : Sequential E}.
Implicit Types (w : World E St) (sh : Shared) (st : St) (tr : list Act).

(** A volume whose kind, state and disk allow formatting. *)
Definition may_format sh (v : VolumeExternal) : bool :=
  negb (vol_fsType v =? MTP) && formattable_state (vol_state v) &&
  match sh_disks sh !! vol_diskId v with Some d => negb (disk_diskType d =? CD_FLAG) | None => false end.
(** The entry after a format. *)
Definition formatted_entry (fs u label : string) (v : VolumeExternal) : VolumeExternal :=
  Vol_SetState UNMOUNTED (Vol_SetFsType (GetFsTypeByStr fs) (Vol_SetDescription label (Vol_SetFsUuid u v))).
(** The device [CheckVolId] gives for a volume: its own block node; the mapper or
    loop device of a dm-crypt volume, which may be missing. *)
Definition volume_device (id : string) (v : VolumeExternal) : string :=
  if str_empty id then ""
  else if starts_with "vol-crypt-" id then if negb (str_empty (vol_mapperPath v)) then vol_mapperPath v else vol_loopPath v
  else dev_block id.
Definition disk_table_type sh (diskId : string) : string :=
  match sh_disks sh !! diskId with Some d => disk_partitionType d | None => "" end.
(** The request for the format of a volume: its device, and its partition of its disk. *)
Definition format_request (id fs : string) (v : VolumeExternal) sh : Req :=
  SdFormatVolume (volume_device id v) fs (dev_block (vol_diskId v)) (disk_table_type sh (vol_diskId v)) (vol_partitionNum v).
(** What comes of a format of a volume that may be formatted. *)
Inductive format_result (id fs : string) (v : VolumeExternal) sh : Z -> gmap string VolumeExternal -> list Act -> list Act -> Prop :=
  | format_no_device tr tr' :
      volume_device id v = "" -> grows is_local tr tr' -> format_result id fs v sh E_NON_EXIST (sh_vols sh) tr tr'
  | format_failed (err : Z) tr tr1 tr2 tr' :
      volume_device id v <> "" -> err <> E_OK -> grows is_local tr tr1 -> fwd (format_request id fs v sh) err tr1 tr2 -> grows Any tr2 tr' ->
      format_result id fs v sh err (<[id := Vol_SetState FORMAT_FINISH_FAIL v]> (sh_vols sh)) tr tr'
  | format_unreadable tr tr1 tr' :
      volume_device id v <> "" -> grows is_local tr tr1 -> grows Any (AReq (format_request id fs v sh) ERR_OK :: tr1) tr' ->
      format_result id fs v sh E_PARAMS_INVALID (sh_vols sh) tr tr'
  | format_done (e : E) tr tr1 tr' :
      volume_device id v <> "" -> grows is_local tr tr1 ->
      let a := (env_answer e (SdReadMetadata (volume_device id v))).1 in
      during (AReq (format_request id fs v sh) ERR_OK :: tr1) tr' (AReq (SdReadMetadata (volume_device id v)) (an_ret a)) ->
      IsUuidValid (an_str a) = true ->
      format_result id fs v sh E_OK
        (<[id := formatted_entry fs (DedupFsUuidUnlocked (sh_vols sh) id (an_str a)) (an_str3 a) v]> (sh_vols sh)) tr tr'.
Definition format_outcome (id fs : string) (r : Z) w w' : Prop :=
  sh_disks (w_sh w') = sh_disks (w_sh w) /\
  match sh_vols (w_sh w) !! id with
  | None => r = E_NON_EXIST /\ w' = w
  | Some v =>
      if may_format (w_sh w) v then format_result id fs v (w_sh w) r (sh_vols (w_sh w')) (w_trace w) (w_trace w')
      else r <> E_OK /\ w_sh w' = w_sh w /\ grows is_local (w_trace w) (w_trace w')
  end.

Lemma UpdateVoldataMapping_tables d o n f : tables_op (E := E) (UpdateVoldataMappingAfterFormat d o n f).
Proof. tables_tac. Qed.

Lemma runs_CheckVolId id v (Q : string -> Shared -> St -> list Act -> Prop) sh st tr :
  sh_vols sh !! id = Some v -> Q (volume_device id v) sh st tr -> runs (E := E) (CheckVolId id) Q sh st tr.
Proof.
  intros Hv H. unfold CheckVolId, volume_device in *. destruct (str_empty id); [by apply runs_ret|].
  unfold GetVolumeById. seq_step. seq_step. seq_step. rewrite Hv. seq_step. destruct (starts_with "vol-crypt-" id); [|by apply runs_ret].
  destruct (str_empty (vol_mapperPath v)); cbn [negb] in *; [|by apply runs_ret].
  destruct (str_empty (vol_loopPath v)) eqn:Hl; cbn [negb]; apply runs_ret; [|done]. apply str_empty_true in Hl. by rewrite Hl in H.
Qed.
(** After the daemon has formatted the device. *)
Lemma runs_UpdateVolumeAfterFormat id fs d old dev (Q : Z -> Shared -> St -> list Act -> Prop) sh st tr v :
  sh_vols sh !! id = Some v ->
  (forall sh' st' tr', sh_disks sh' = sh_disks sh -> sh_vols sh' = sh_vols sh -> grows Any tr tr' -> Q (errno E_PARAMS_INVALID) sh' st' tr') ->
  (forall (e : E) sh' st' tr', let a := (env_answer e (SdReadMetadata dev)).1 in IsUuidValid (an_str a) = true ->
     sh_disks sh' = sh_disks sh -> during tr tr' (AReq (SdReadMetadata dev) (an_ret a)) ->
     sh_vols sh' = <[id := formatted_entry fs (DedupFsUuidUnlocked (sh_vols sh) id (an_str a)) (an_str3 a) v]> (sh_vols sh) ->
     Q (errno E_OK) sh' st' tr') ->
  runs (E := E) (UpdateVolumeAfterFormat id fs d old dev) Q sh st tr.
Proof.
  intros Hv Hfail Hok. unfold UpdateVolumeAfterFormat, Sd_ReadMetadata. seq_step.
  apply runs_bind, runs_sd_forward_answer.
  2:{ intros err b tr1 _ H1%(grows_mono _ Any); [|done]. seq_step. cbn [unreached an_str Ans_ok]. apply runs_ret. by apply Hfail. }
  intros e b tr1 H1. seq_step. set (a := (env_answer e (SdReadMetadata dev)).1). destruct (IsUuidValid (an_str a)) eqn:Hu; cbn [negb].
  2:{ seq_step. apply Hfail; [done|done|]. apply grows_cons; [done|]. by apply (grows_mono is_conn). }
  seq_step. seq_step. cbn [sh_vols with_ready upd_sdReady]. do 2 seq_step. apply runs_bind, UpdateVoldataMapping_tables. intros [] b2 st2 tr2 H2.
  do 4 seq_step. cbn [sh_vols with_ready upd_sdReady]. rewrite Hv. seq_step. seq_step. seq_step.
  apply (Hok e); [done|done| |done]. eapply (during_after Any); [exact H2|]. eapply during_before; [exact H1|]. apply during_cons.
Qed.

(** C8: What [Format] does when no other thread runs in between. A volume that is unknown, or whose kind, state or disk
    does not allow it, is refused: the tables do not change and nothing is sent to
    storage_daemon. Otherwise storage_daemon is asked to format the volume's own device, as its
    partition of its disk. When it fails or cannot be reached, its error is returned and the
    entry is in state [FORMAT_FINISH_FAIL]. When it succeeds the metadata is read back from the
    device: with a valid uuid the call succeeds and the entry is [UNMOUNTED] with the new
    type, the label read, and the uuid read, made different from those of the other volumes;
    with an invalid one the entry is as before. A dm-crypt volume without a device is not
    formatted. No other entry and no disk changes. *)
Theorem Format_spec id fs w : format_outcome id fs (Format id fs w).1 w (Format id fs w).2.
Proof.
  unfold format_outcome. destruct (sh_vols (w_sh w) !! id) as [v|] eqn:Hv.
  2:{ unfold Format, sbind, get_vols, get_sh, sget. by rewrite Hv. }
  apply (runs_run (Format id fs) (fun r sh' st' tr' => sh_disks sh' = sh_disks (w_sh w) /\
    if may_format (w_sh w) v then format_result id fs v (w_sh w) r (sh_vols sh') (w_trace w) tr'
    else r <> E_OK /\ sh' = w_sh w /\ grows is_local (w_trace w) tr')).
  set (sh := w_sh w) in *. set (tr := w_trace w). unfold may_format, Format. do 2 seq_step. rewrite Hv. destruct (vol_fsType v =? MTP); cbn [negb andb].
  { seq_step. split; [done|]. split; [done|]. split; [done|apply grows_refl]. }
  apply runs_bind, runs_IsDiskSupported. intros tr1 H1.
  assert (Hrefused : forall e : DiskManagerErrNo, e <> E_OK -> sh_disks sh = sh_disks sh /\ errno e <> E_OK /\ sh = sh /\ grows is_local tr tr1).
  { intros e He. split; [done|]. split; [|done]. by destruct e. }
  assert (Hno : forall Q : bool, (if Q && false then format_result id fs v sh E_NOT_SUPPORT (sh_vols sh) tr tr1
                else errno E_NOT_SUPPORT <> E_OK /\ sh = sh /\ grows is_local tr tr1)) by (intros []; by apply (Hrefused E_NOT_SUPPORT)).
  destruct (sh_disks sh !! vol_diskId v) as [x|] eqn:Hx; [destruct (disk_diskType x =? CD_FLAG) eqn:Hcd|].
  1,3: apply runs_ret; split; [done|exact (Hno _)].
  change (negb (errno E_OK =? errno E_OK)) with false. cbv iota. cbn [negb]. rewrite andb_true_r.
  destruct (formattable_state (vol_state v)) eqn:Hst; cbn [negb]; [|by apply runs_ret; split; [|apply (Hrefused E_VOL_STATE)]].
  do 4 seq_step. cbv zeta. do 2 seq_step. apply runs_bind, (runs_CheckVolId id v); [done|].
  destruct (str_empty (volume_device id v)) eqn:Hdev.
  { apply runs_ret. split; [done|]. apply str_empty_true in Hdev. by apply format_no_device. }
  apply str_empty_false in Hdev. fold (disk_table_type sh (vol_diskId v)). unfold Sd_FormatVolume. fold (format_request id fs v sh).
  apply runs_bind, runs_sd_simple. intros err b tr3 Hf. destruct (negb (err =? ERR_OK)) eqn:Herr; bsimp.
  - unfold PublishFormatFailEvent, SetVolumeStateLocked. do 6 seq_step. set (sh2 := upd_vols _ _). seq_step.
    assert (Hs2 : sh_vols sh2 = <[id := Vol_SetState FORMAT_FINISH_FAIL v]> (sh_vols sh)) by (by apply alter_lookup).
    rewrite Hs2, lookup_insert_eq. apply runs_PublishVolumeResult. intros tr4 H4. seq_step.
    split; [done|]. rewrite Hs2. by apply (format_failed id fs v sh err tr tr1 tr3 tr4).
  - subst err. assert (Hsent : exists tr2, grows is_local tr tr2 /\ tr3 = AReq (format_request id fs v sh) ERR_OK :: tr2).
    { destruct Hf as (tr2 & H2%(grows_mono _ is_local _ _ conn_local) & [-> | [? _]]); [|done]. exists tr2. split; [by transitivity tr1|done]. }
    destruct Hsent as (tr2 & H2 & ->). apply (runs_UpdateVolumeAfterFormat id fs _ _ _ _ _ _ _ v); [done| |].
    + intros sh' st' tr' Hd Hvols Hg. split; [by rewrite Hd|]. rewrite Hvols. by apply (format_unreadable id fs v sh tr tr2 tr').
    + intros e sh' st' tr' a Hraw Hd Hin Hvols. split; [by rewrite Hd|]. rewrite Hvols. by apply (format_done id fs v sh e tr tr2 tr').
Qed.

(** ** Purge *)
Lemma delete_all_filter (P : VolumeExternal -> bool) (vols : gmap string VolumeExternal) (ks : list string) :
  (forall k, k ∈ ks <-> exists v, vols !! k = Some v /\ P v = true) ->
  fold_left (fun m k => delete k m) ks vols = filter (fun kv => P kv.2 = false) vols.
Proof.
  intros Hks. apply map_eq. intros j.
  assert (Hf : forall ks (m : gmap string VolumeExternal), fold_left (fun m k => delete k m) ks m !! j = if decide (j ∈ ks) then None else m !! j).
  { clear Hks ks. induction ks as [|k ks IH]; intros m; cbn; [by destruct (decide _) as [?%elem_of_nil|]|]. rewrite IH.
    destruct (decide (j ∈ ks)), (decide (j ∈ k :: ks)); try set_solver.
    - assert (j = k) as -> by set_solver. by rewrite lookup_delete_eq.
    - rewrite lookup_delete_ne; [done|]. set_solver. }
  rewrite Hf. symmetry. destruct (decide (j ∈ ks)) as [Hin|Hn].
  - apply map_lookup_filter_None. right. intros v Hv. cbn. apply Hks in Hin as (v' & Hv' & HP). intros ?. congruence.
  - destruct (vols !! j) as [v|] eqn:Hv.
    + apply map_lookup_filter_Some. split; [done|]. cbn. apply not_true_iff_false. intros HP. apply Hn, Hks. by exists v.
    + apply map_lookup_filter_None. by left.
Qed.
Lemma volumes_of_disk_keys vols d k :
  k ∈ map fst (volumes_of_disk vols d) <-> exists v, vols !! k = Some v /\ (vol_diskId v =s d) = true.
Proof.
  unfold volumes_of_disk. rewrite list_elem_of_fmap. split.
  - intros ([k' v] & -> & Hin%list_elem_of_In). apply filter_In in Hin as [Hin%list_elem_of_In Hd].
    apply elem_of_sorted_entries in Hin. by exists v.
  - intros (v & Hk & Hd). exists (k, v). split; [done|]. apply list_elem_of_In, filter_In. split; [|done].
    apply list_elem_of_In. by apply elem_of_sorted_entries.
Qed.
Lemma runs_remove_mappings us ret (Q : Z -> Shared -> St -> list Act -> Prop) sh st tr :
  (forall r st', Q r sh st' tr) -> runs (E := E) (remove_mappings us ret) Q sh st tr.
Proof.
  revert ret st. induction us as [|u us IH]; intros ret st H; cbn [remove_mappings]; [apply runs_ret, H|].
  do 2 seq_step. apply IH. intros r st'. apply H.
Qed.

(** Purging a disk removes exactly the volumes of that disk from the table;
    it sends nothing, and an unknown disk is refused. *)
Theorem PurgeVolumesForDisk_spec d w :
  let (r, w') := PurgeVolumesForDisk d w in
  w_trace w' = w_trace w /\
  match sh_disks (w_sh w) !! d with
  | None => r = E_DISK_NOT_FOUND /\ w_sh w' = w_sh w
  | Some _ => w_sh w' = upd_vols (filter (fun kv => (vol_diskId kv.2 =s d) = false)) (w_sh w)
  end.
Proof.
  destruct (PurgeVolumesForDisk d w) as [r w'] eqn:Hrun.
  assert (H : r = (PurgeVolumesForDisk d w).1 /\ w' = (PurgeVolumesForDisk d w).2) by (by rewrite Hrun). clear Hrun.
  destruct H as [-> ->].
  apply (runs_run (PurgeVolumesForDisk d) (fun r sh' st' tr' => tr' = w_trace w /\
    match sh_disks (w_sh w) !! d with
    | None => r = E_DISK_NOT_FOUND /\ sh' = w_sh w
    | Some _ => sh' = upd_vols (filter (fun kv => (vol_diskId kv.2 =s d) = false)) (w_sh w)
    end)).
  unfold PurgeVolumesForDisk, HasDisk. do 3 seq_step. apply runs_ret. destruct (sh_disks (w_sh w) !! d) as [x|] eqn:Hd.
  2:{ rewrite bool_decide_eq_false_2 by (by intros [? ?]). by apply runs_ret. }
  rewrite bool_decide_eq_true_2 by done. cbn [negb].
  seq_auto. apply runs_remove_mappings. intros r st'. split; [done|]. unfold upd_vols. f_equal.
  apply (delete_all_filter (fun v => vol_diskId v =s d)). intros k. apply volumes_of_disk_keys.
Qed.
End format.

(** * Examples *)
Definition entries_of (w : ExWorld) : list (string * Z * string) :=
  map (fun kv => (kv.1, vol_state kv.2, vol_fsUuid kv.2)) (sorted_entries (sh_vols (w_sh w))).
Lemma ex_format : entries_of (Format "vol-8-1" "exfat" ex_unmounted).2 = [("vol-8-1", VolumeState_val UNMOUNTED, "1234-ABCD")].
Proof. vm_compute. reflexivity. Qed.
Lemma Format_spec_witness :
  (Format "vol-8-1" "exfat" ex_unmounted).1 = E_OK /\
  format_outcome "vol-8-1" "exfat" (Format "vol-8-1" "exfat" ex_unmounted).1 ex_unmounted (Format "vol-8-1" "exfat" ex_unmounted).2.
Proof. split; [vm_compute; reflexivity|]. exact (Format_spec "vol-8-1" "exfat" ex_unmounted). Defined.
Lemma PurgeVolumesForDisk_spec_witness :
  entries_of ex_mounted <> [] /\ w_trace (PurgeVolumesForDisk "disk-8-0" ex_mounted).2 = w_trace ex_mounted.
Proof.
  split; [vm_compute; discriminate|]. generalize (PurgeVolumesForDisk_spec "disk-8-0" ex_mounted).
  destruct (PurgeVolumesForDisk "disk-8-0" ex_mounted) as [r w']. intros [H _]. exact H.
Defined.
