(* ===== verification/RemoveFacts.v ===== *)
(** * Removing a disk, sequentially

    What a [remove] event of the kernel does to the tables when no other thread runs in
    between. *)
From S2P Require Import Prelude CppString Types State Utils Uevent PartitionTable Json BlockInfo World Adapters DmQuery Events.
From S2P Require Import DmMount DmPartition DmOptical SysfsReader Bootstrap.
From S2P Require Import Seq Voldata VoldataStore Scenario MountFacts FormatFacts.

Section remove.
Context {E St : Type} {EV : Env E} {PS : PathStore St} {JT : JsonText} {SQ : Sequential E}.
Implicit Types (w : World E St) (sh : Shared) (st : St) (tr : list Act).

(** Disks and all volumes outside [ids] are the same, and none has appeared. *)
Definition keeps_others (ids : list string) sh sh' : Prop :=
  sh_disks sh' = sh_disks sh /\ (forall j, j ∉ ids -> sh_vols sh' !! j = sh_vols sh !! j) /\
  (forall j, sh_vols sh !! j = None -> sh_vols sh' !! j = None).
Lemma keeps_others_refl ids sh : keeps_others ids sh sh.
Proof. done. Qed.
Lemma keeps_others_trans i1 i2 sh1 sh2 sh3 : keeps_others i1 sh1 sh2 -> keeps_others i2 sh2 sh3 -> keeps_others (i1 ++ i2) sh1 sh3.
Proof.
  intros (H1 & H2 & H3) (G1 & G2 & G3). split; [congruence|]. split.
  - intros j Hj. rewrite G2, H2; set_solver.
  - intros j Hj. by apply G3, H3.
Qed.
Lemma unmount_result_keeps v r sh sh' :
  sh_vols sh !! vol_id v = Some v -> sh_disks sh' = sh_disks sh -> unmount_result v r (sh_vols sh) (sh_vols sh') ->
  keeps_others [vol_id v] sh sh'.
Proof.
  intros Hv Hd Hr. split; [done|]. split.
  - intros j Hj. assert (Hne : vol_id v <> j) by set_solver. destruct Hr as [[_ ->]|[_ ->]]; [destruct (is_mtp_ptp _)|];
      by rewrite ?lookup_delete_ne, ?lookup_insert_ne.
  - intros j Hj. assert (Hne : vol_id v <> j) by congruence. destruct Hr as [[_ ->]|[_ ->]]; [destruct (is_mtp_ptp _)|];
      by rewrite ?lookup_delete_ne, ?lookup_insert_ne.
Qed.

Lemma runs_ForceUnmount v (Q : Z -> Shared -> St -> list Act -> Prop) sh st tr :
  sh_vols sh !! vol_id v = Some v ->
  (forall (r : Z) sh' st' tr', keeps_others [vol_id v] sh sh' -> grows Any tr tr' -> Q r sh' st' tr') ->
  runs (E := E) (ForceUnmount (vol_id v)) Q sh st tr.
Proof.
  intros Hv H. unfold ForceUnmount. do 2 seq_step. rewrite Hv. apply runs_bind, runs_yield.
  apply runs_DoUnmountVolume; [done|]. intros r sh' st' tr' Hd Hr Hg. apply (H r).
  - by apply (unmount_result_keeps v r).
  - by eapply (grows_mono (force_le _)); [|exact Hg].
Qed.

(** One volume without loop or crypt device. *)
Lemma runs_destroy_volume v (Q : unit -> Shared -> St -> list Act -> Prop) sh st tr :
  sh_vols sh !! vol_id v = Some v -> vol_mapperPath v = "" -> vol_loopPath v = "" ->
  (forall sh' st' tr', keeps_others [vol_id v] sh sh' -> grows Any tr tr' -> Q tt sh' st' tr') ->
  runs (E := E) (destroy_volume v) Q sh st tr.
Proof.
  intros Hv Hm Hl H. unfold destroy_volume. rewrite Hm, Hl. cbn [str_empty negb]. apply runs_bind.
  assert (Hrest : forall sh1 st1 tr1, keeps_others [vol_id v] sh sh1 -> grows Any tr tr1 ->
    runs (E := E) (do! sret tt in do! sret tt in let! ret := Sd_DestroyBlockDeviceNode lk_none (BlockPathForId (vol_id v)) in
      if negb (ret =? E_OK) then sret tt
      else do! PublishVolumeChange lk_none (if vol_state v =? UNMOUNTED then REMOVED else BAD_REMOVAL) v in
           let! _ := OnVolumeDestroyed (vol_id v) in sret tt) Q sh1 st1 tr1).
  { intros sh1 st1 tr1 Hk Hg. do 5 seq_step. unfold Sd_DestroyBlockDeviceNode. apply runs_sd_simple. intros ret b tr2 Hf%fwd_any.
    assert (Hk2 : keeps_others [vol_id v] sh (with_ready b sh1)) by exact Hk. seq_step; [seq_step; apply H; [done|any]|].
    apply runs_bind, PublishVolumeChange_tables. intros [] b3 st3 tr3 H3. rewrite with_ready_twice. unfold OnVolumeDestroyed.
    destruct Hk as (K1 & K2 & K3). seq_auto; (apply H; [|any]); [|done].
    split; [done|]. split; cbn.
    - intros j Hj. rewrite lookup_delete_ne by set_solver. by apply K2.
    - intros j Hj. destruct (decide (j = vol_id v)) as [->|Hne]; [apply lookup_delete_eq|]. rewrite lookup_delete_ne by done. by apply K3. }
  seq_step.
  - apply runs_bind, runs_ForceUnmount; [done|]. intros r sh1 st1 tr1 Hk Hg. apply runs_ret. by apply Hrest.
  - apply runs_ret. apply Hrest; [apply keeps_others_refl|apply grows_refl].
Qed.

Lemma runs_destroy_volumes l (Q : unit -> Shared -> St -> list Act -> Prop) sh st tr :
  NoDup (map vol_id l) ->
  (forall v, v ∈ l -> sh_vols sh !! vol_id v = Some v /\ vol_mapperPath v = "" /\ vol_loopPath v = "") ->
  (forall sh' st' tr', keeps_others (map vol_id l) sh sh' -> grows Any tr tr' -> Q tt sh' st' tr') ->
  runs (E := E) (sfor l destroy_volume) Q sh st tr.
Proof.
  revert sh st tr. induction l as [|v l IH]; intros sh st tr Hnd Hl H; cbn [sfor].
  { apply runs_ret, H; [apply keeps_others_refl|apply grows_refl]. }
  inversion_clear Hnd as [|? ? Hnin Hnd']. destruct (Hl v) as (Hv & Hm & Hlo); [apply list_elem_of_here|].
  apply runs_bind, runs_destroy_volume; try done. intros sh1 st1 tr1 Hk Hg. apply IH; [done| |].
  - intros v' Hin. destruct (Hl v') as (Hv' & Hr); [by apply list_elem_of_further|]. split; [|done].
    rewrite <- Hv'. apply Hk. intros Heq%list_elem_of_singleton. apply Hnin. rewrite <- Heq. by apply list_elem_of_fmap_2.
  - intros sh2 st2 tr2 Hk2 Hg2. apply H; [|by transitivity tr1]. apply (keeps_others_trans [_] _ _ sh1); done.
Qed.

(** The volumes the loop of [DestroyALLVolume] visits. *)
Definition plain_volumes (d : string) sh : Prop :=
  forall k v, sh_vols sh !! k = Some v ->
    vol_id v = k /\ (vol_diskId v = d -> vol_mapperPath v = "" /\ vol_loopPath v = "").
Lemma visited_volumes d (vols : gmap string VolumeExternal) (extra : list Disk) :
  List.filter (fun v => (vol_diskId v =s d) && (vol_id v <>s "0")) (map snd (sorted_entries vols) ++ map dvd_placeholder extra) =
  List.filter (fun v => (vol_diskId v =s d) && (vol_id v <>s "0")) (map snd (sorted_entries vols)).
Proof.
  rewrite List.filter_app. assert (Hn : forall l, List.filter (fun v => (vol_diskId v =s d) && (vol_id v <>s "0")) (map dvd_placeholder l) = []).
  { induction l as [|x l IH]; cbn; [done|]. by rewrite andb_false_r. }
  by rewrite Hn, app_nil_r.
Qed.

Lemma runs_DestroyALLVolume d (Q : unit -> Shared -> St -> list Act -> Prop) sh st tr :
  plain_volumes d sh ->
  (forall ids sh' st' tr', (forall j v, j ∈ ids -> sh_vols sh !! j = Some v -> vol_diskId v = d) ->
     keeps_others ids sh sh' -> grows Any tr tr' -> Q tt sh' st' tr') ->
  runs (E := E) (DestroyALLVolume d) Q sh st tr.
Proof.
  intros Hp H. unfold DestroyALLVolume, GetAllVolumes. do 3 seq_step. seq_step. seq_step. cbv zeta. seq_step. do 2 seq_step.
  rewrite visited_volumes. set (l := List.filter _ _).
  assert (Hin : forall v, v ∈ l -> sh_vols sh !! vol_id v = Some v /\ vol_diskId v = d).
  { intros v Hv%list_elem_of_In. apply filter_In in Hv as [Hv%list_elem_of_In Hd]. bsimp. split; [|done].
    apply list_elem_of_fmap in Hv as ([k v'] & -> & Hv%elem_of_sorted_entries). cbn. destruct (Hp _ _ Hv) as [Hk _].
    cbn in Hk. by rewrite Hk. }
  apply runs_destroy_volumes.
  - subst l. assert (Hnd : NoDup (map vol_id (map snd (sorted_entries (sh_vols sh))))).
    { assert (Hkeys : map vol_id (map snd (sorted_entries (sh_vols sh))) = (sorted_entries (sh_vols sh)).*1).
      { rewrite map_map. apply map_ext_in. intros [k v] Hv%list_elem_of_In%elem_of_sorted_entries. by destruct (Hp k v Hv) as [Hk _]. }
      rewrite Hkeys. apply sorted_entries_NoDup. }
    revert Hnd. generalize (map snd (sorted_entries (sh_vols sh))). intros vs. induction vs as [|v vs IH]; cbn; [constructor|].
    intros Hnd. inversion_clear Hnd as [|? ? Hn Hnd']. destruct (_ && _); [|by apply IH]. cbn. constructor; [|by apply IH].
    intros Hc. apply Hn. apply list_elem_of_fmap in Hc as (v' & Hv' & Hc%list_elem_of_In). rewrite Hv'.
    apply filter_In in Hc as [Hc%list_elem_of_In _]. by apply list_elem_of_fmap_2.
  - intros v Hv. destruct (Hin v Hv) as [Hlk Hd]. split; [done|]. by apply (Hp _ _ Hlk).
  - intros sh' st' tr' Hk Hg. apply (H (map vol_id l)); [|done|done]. intros j v (v' & -> & Hv')%list_elem_of_fmap Hj.
    destruct (Hin v' Hv') as [Hlk Hd]. congruence.
Qed.

(** The world in which the node of the disk is destroyed, and what becomes of the request. *)
Definition volumes_gone (d : string) w : World E St := (DestroyALLVolume d w).2.
Definition node_destroyed (d : string) w : Z * World E St := Sd_DestroyBlockDeviceNode lk_none (BlockPathForId d) (volumes_gone d w).
Definition remove_outcome (env : UeventEnv) (r : Z) w w' : Prop :=
  let d := DiskIdFrom (ue_major env) (ue_minor env) in
  (forall j v, sh_vols (w_sh w) !! j = Some v -> vol_diskId v <> d -> sh_vols (w_sh w') !! j = Some v) /\
  (forall j, sh_vols (w_sh w) !! j = None -> sh_vols (w_sh w') !! j = None) /\
  if (node_destroyed d w).1 =? E_OK then
    r = E_OK /\ during (w_trace w) (w_trace w') (AReq (SdDestroyBlockDeviceNode (BlockPathForId d)) E_OK) /\
    sh_disks (w_sh w') = delete d (sh_disks (w_sh w)) /\ sh_snapshot (w_sh w') !! d = None
  else r = E_DESTROY_DEVICE_NODE /\ sh_disks (w_sh w') = sh_disks (w_sh w) /\ w' = (node_destroyed d w).2.

Lemma volumes_gone_keeps d w :
  plain_volumes d (w_sh w) ->
  (forall j v, sh_vols (w_sh w) !! j = Some v -> vol_diskId v <> d -> sh_vols (w_sh (volumes_gone d w)) !! j = Some v) /\
  (forall j, sh_vols (w_sh w) !! j = None -> sh_vols (w_sh (volumes_gone d w)) !! j = None) /\
  sh_disks (w_sh (volumes_gone d w)) = sh_disks (w_sh w) /\ grows Any (w_trace w) (w_trace (volumes_gone d w)).
Proof.
  intros Hp. apply (runs_run (DestroyALLVolume d) (fun _ sh' _ tr' =>
    (forall j v, sh_vols (w_sh w) !! j = Some v -> vol_diskId v <> d -> sh_vols sh' !! j = Some v) /\
    (forall j, sh_vols (w_sh w) !! j = None -> sh_vols sh' !! j = None) /\ sh_disks sh' = sh_disks (w_sh w) /\ grows Any (w_trace w) tr')).
  apply runs_DestroyALLVolume; [done|]. intros ids sh1 st1 tr1 Hids (K1 & K2 & K3) Hg. split; [|done].
  intros j v Hj Hd. rewrite K2; [done|]. intros Hin. by apply Hd, (Hids j).
Qed.
Lemma node_destroyed_keeps d w :
  (exists b, w_sh (node_destroyed d w).2 = with_ready b (w_sh (volumes_gone d w))) /\
  fwd (SdDestroyBlockDeviceNode (BlockPathForId d)) (node_destroyed d w).1 (w_trace (volumes_gone d w)) (w_trace (node_destroyed d w).2).
Proof.
  apply (runs_run (sd_simple lk_none (SdDestroyBlockDeviceNode (BlockPathForId d))) (fun ret sh' _ tr' =>
    (exists b, sh' = with_ready b (w_sh (volumes_gone d w))) /\
    fwd (SdDestroyBlockDeviceNode (BlockPathForId d)) ret (w_trace (volumes_gone d w)) tr')).
  apply runs_sd_simple. intros ret b tr' Hf. split; [by exists b|done].
Qed.
(** What follows once the node is destroyed. *)
Definition forget_disk (d : string) : State (World E St) Z :=
  let! ret := (let! diskSnap := GetDiskById d in
               let! _ := OnDiskDestroyed d in
               do! (match diskSnap with Some x => PublishDiskChange DK_REMOVED x | None => sret tt end) in fin E_OK) in
  if negb (ret =? E_OK) then sret ret else do! ClearPartitionSnapshot d in fin E_OK.
Lemma runs_forget_disk d (Q : Z -> Shared -> St -> list Act -> Prop) sh st tr :
  (forall sh' st' tr', sh_vols sh' = sh_vols sh -> sh_disks sh' = delete d (sh_disks sh) -> sh_snapshot sh' !! d = None ->
     grows Any tr tr' -> Q (errno E_OK) sh' st' tr') -> runs (E := E) (forget_disk d) Q sh st tr.
Proof.
  intros H. apply runs_bind, runs_bind, runs_GetDiskById. intros o tr2 Hg2 Ho. apply (grows_mono _ Any) in Hg2; [|done].
  assert (Hend : forall sh1, sh_vols sh1 = sh_vols sh -> sh_disks sh1 = delete d (sh_disks sh) ->
    runs (E := E) (do! match o with Some x => PublishDiskChange DK_REMOVED x | None => sret tt end in fin E_OK)
      (fun ret sh' st' tr' => runs (E := E) (if negb (ret =? E_OK) then sret ret else do! ClearPartitionSnapshot d in fin E_OK) Q sh' st' tr')
      sh1 st tr2).
  { intros sh1 Hv Hd. assert (Ht : forall o, tables_op (E := E) (St := St) (match o with Some x => PublishDiskChange DK_REMOVED x | None => sret tt end))
      by (intros ?; tables_tac).
    apply runs_bind, Ht. intros [] b2 st2 tr3 Hg3. apply runs_ret. change (negb (E_OK =? E_OK)) with false. cbv iota.
    unfold ClearPartitionSnapshot. do 2 seq_step. apply runs_ret, H; [done|done|apply lookup_delete_eq|any]. }
  unfold OnDiskDestroyed. apply runs_bind. do 2 seq_step. destruct (sh_disks sh !! d) as [x|] eqn:Hd.
  - do 2 seq_step. apply runs_ret. by apply Hend.
  - apply runs_ret. apply Hend; [done|]. symmetry. by apply delete_id.
Qed.
(** A run of [HandleDiskRemove] by the answer to the request for the node. *)
Lemma HandleDiskRemove_run env w :
  let d := DiskIdFrom (ue_major env) (ue_minor env) in
  HandleDiskRemove env w =
    if (node_destroyed d w).1 =? E_OK then forget_disk d (node_destroyed d w).2
    else (errno E_DESTROY_DEVICE_NODE, (node_destroyed d w).2).
Proof.
  cbv zeta. set (d := DiskIdFrom _ _). unfold HandleDiskRemove, DestroyALLDisk, forget_disk. fold d. rewrite (sbind_run _ _ w tt (volumes_gone d w)).
  2:{ unfold volumes_gone. by destruct (DestroyALLVolume d w) as [[] ?]. }
  fold (node_destroyed d w). unfold sbind at 1 2. fold (node_destroyed d w). destruct (node_destroyed d w) as [ret w2]. cbn [fst snd].
  by destruct (ret =? E_OK).
Qed.

(** C15: A disk without loop or crypt volumes is unplugged, while no other thread runs in between
    and the volumes are stored under their own ids: the volumes of the other
    disks are untouched and no volume appears. The call succeeds exactly when
    storage_daemon could be reached and has destroyed the node of the disk, which is asked for
    after the volumes: the disk and its partition
    snapshot are then forgotten, and no other disk is. Otherwise [E_DESTROY_DEVICE_NODE] is returned,
    the table of disks is as before, and nothing more is done. *)
Theorem HandleDiskRemove_spec env w :
  plain_volumes (DiskIdFrom (ue_major env) (ue_minor env)) (w_sh w) ->
  remove_outcome env (HandleDiskRemove env w).1 w (HandleDiskRemove env w).2.
Proof.
  intros Hp. rewrite HandleDiskRemove_run. unfold remove_outcome. cbv zeta. set (d := DiskIdFrom _ _) in *.
  destruct (volumes_gone_keeps d w Hp) as (Hoth & Hnew & Hd & Hg). destruct (node_destroyed_keeps d w) as [[b Hsh] Hf].
  destruct ((node_destroyed d w).1 =? E_OK) eqn:Hret.
  2:{ cbn [fst snd]. rewrite Hsh. split; [done|]. split; [done|]. split; [done|]. split; [exact Hd|done]. }
  bsimp. rewrite Hret in Hf. apply fwd_ok in Hf. apply (during_before Any _ _ _ _ Hg) in Hf. revert Hf.
  destruct (node_destroyed d w) as [ret w2]. cbn [fst snd] in *. intros Hf.
  apply (runs_run (forget_disk d) (fun r sh' st' tr' =>
    (forall j v, sh_vols (w_sh w) !! j = Some v -> vol_diskId v <> d -> sh_vols sh' !! j = Some v) /\
    (forall j, sh_vols (w_sh w) !! j = None -> sh_vols sh' !! j = None) /\ r = E_OK /\
    during (w_trace w) tr' (AReq (SdDestroyBlockDeviceNode (BlockPathForId d)) E_OK) /\
    sh_disks sh' = delete d (sh_disks (w_sh w)) /\ sh_snapshot sh' !! d = None)).
  apply runs_forget_disk. rewrite Hsh. intros sh' st' tr' -> -> Hsn Hg'. split; [exact Hoth|]. split; [exact Hnew|]. split; [done|].
  split; [by eapply (during_after Any)|]. split; [|done]. by rewrite <- Hd.
Qed.
End remove.

(** * Example *)
Definition ex_remove : UeventEnv := mkUeventEnv "remove" "" "" 8 0 "" "" "" false.
Definition plain_check (vols : gmap string VolumeExternal) : bool :=
  forallb (fun kv => (vol_id kv.2 =s kv.1) && str_empty (vol_mapperPath kv.2) && str_empty (vol_loopPath kv.2)) (sorted_entries vols).
Lemma plain_check_ok d sh : plain_check (sh_vols sh) = true -> plain_volumes d sh.
Proof.
  unfold plain_check. rewrite forallb_forall. intros H k v Hv%elem_of_sorted_entries%list_elem_of_In%H. bsimp. done.
Qed.
Lemma HandleDiskRemove_spec_witness :
  (HandleDiskRemove ex_remove ex_mounted).1 = E_OK /\
  remove_outcome ex_remove (HandleDiskRemove ex_remove ex_mounted).1 ex_mounted (HandleDiskRemove ex_remove ex_mounted).2.
Proof.
  split; [vm_compute; reflexivity|]. apply (HandleDiskRemove_spec ex_remove ex_mounted). apply plain_check_ok. vm_compute. reflexivity.
Defined.
