(* ===== verification/PartOps.v ===== *)
(** * Partitioning, creating, deleting and formatting partitions, sequentially

    The four operations that rewrite a disk, against a decision function: from the
    tables alone, [part_refusal] says with which error a call is refused, and
    [part_request] which request an accepted call sends to storage_daemon. *)
From S2P Require Import Prelude CppString Types State Utils Json BlockInfo World Adapters DmQuery Events DmMount DmPartition SysfsReader Bootstrap.
From S2P Require Import Seq Voldata VoldataStore Scenario Service MountFacts FormatFacts.

(** ** Any computation only adds to the trace *)
Section trace.
Context {E St : Type} {EV : Env E} {PS : PathStore St} {JT : JsonText}.
Notation M := (State (World E St)).

Definition trace_op {A} (m : M A) : Prop := forall w, grows Any (w_trace w) (w_trace (m w).2).
Lemma trace_ret {A} (a : A) : trace_op (sret a).
Proof. intros w. apply grows_refl. Qed.
Lemma trace_bind {A B} (m : M A) (f : A -> M B) : trace_op m -> (forall a, trace_op (f a)) -> trace_op (sbind m f).
Proof. intros Hm Hf w. unfold sbind. specialize (Hm w). destruct (m w) as [a w1]. etrans; [exact Hm|apply Hf]. Qed.
Lemma trace_get {A} (f : Shared -> A) : trace_op (get_sh f).
Proof. intros w. apply grows_refl. Qed.
Lemma trace_set f : trace_op (set_sh f).
Proof. intros w. apply grows_refl. Qed.
Lemma trace_yield lk : trace_op (yield lk).
Proof. intros w. unfold yield. destruct (env_others _). apply grows_refl. Qed.
Lemma trace_request r : trace_op (request r).
Proof. intros w. unfold request. destruct (env_answer _ _). by apply grows_cons. Qed.
Lemma trace_store {A} (m : State St A) : trace_op (store m).
Proof. intros w. unfold store, szoom. destruct (m _). apply grows_refl. Qed.
Lemma trace_sfor {A} (l : list A) (f : A -> M unit) : (forall a, trace_op (f a)) -> trace_op (sfor l f).
Proof. intros Hf. induction l as [|x l IH]; cbn [sfor]; [apply trace_ret|apply trace_bind; [apply Hf|done]]. Qed.
Lemma trace_sfor_until {A R} (l : list A) (f : A -> M (option R)) : (forall a, trace_op (f a)) -> trace_op (sfor_until l f).
Proof.
  intros Hf. induction l as [|x l IH]; cbn [sfor_until]; [apply trace_ret|]. apply trace_bind; [apply Hf|].
  intros [r|]; [apply trace_ret|done].
Qed.
Lemma trace_smap {A B} (f : A -> M B) (l : list A) : (forall a, trace_op (f a)) -> trace_op (smap_list f l).
Proof.
  intros Hf. induction l as [|x l IH]; cbn [smap_list]; [apply trace_ret|]. apply trace_bind; [apply Hf|]. intros y.
  apply trace_bind; [done|]. intros ys. apply trace_ret.
Qed.
End trace.

Create HintDb trace discriminated.
#[export] Hint Constants Opaque : trace.
Ltac trace_step :=
  lazymatch goal with
  | |- trace_op (sbind _ _) => apply trace_bind; [|intro]
  | |- trace_op (sret _) => apply trace_ret
  | |- trace_op (get_sh _) => apply trace_get
  | |- trace_op (set_sh _) => apply trace_set
  | |- trace_op (yield _) => apply trace_yield
  | |- trace_op (request _) => apply trace_request
  | |- trace_op (store _) => apply trace_store
  | |- trace_op (sfor _ _) => apply trace_sfor; intro
  | |- trace_op (sfor_until _ _) => apply trace_sfor_until; intro
  | |- trace_op (smap_list _ _) => apply trace_smap; intro
  | |- trace_op (if ?b then _ else _) => destruct b
  | |- trace_op (match ?x with _ => _ end) => destruct x
  | |- trace_op (let _ := _ in _) => cbv zeta
  | |- trace_op ?m => first [solve [eauto with trace] | let h := head_of m in unfold h]
  end.
Ltac trace_tac := repeat trace_step.

Section trace_ops.
Context {E St : Type} {EV : Env E} {PS : PathStore St} {JT : JsonText}.
Notation trace_op := (trace_op (E := E) (St := St)).
Lemma publish_trace lk e : trace_op (publish lk e).
Proof. unfold publish. apply trace_bind; [intros w; by apply grows_cons|intros; apply trace_yield]. Qed.
Lemma find_volume_trace p ids : trace_op (find_volume p ids).
Proof. induction ids; cbn [find_volume]; trace_tac. Qed.
Lemma wait_loop_trace n d : trace_op (wait_loop n d).
Proof. revert d. induction n; intros d; cbn [wait_loop]; trace_tac; apply IHn. Qed.
Lemma remove_mappings_trace us r : trace_op (remove_mappings us r).
Proof. revert r. induction us; intros r; cbn [remove_mappings]; trace_tac; apply IHus. Qed.
Lemma walk_up_trace n p : trace_op (walk_up n p).
Proof. revert p. induction n; intros p; cbn [walk_up]; trace_tac; apply IHn. Qed.
Lemma GetMaxMinor_trace maj : trace_op (GetMaxMinor maj).
Proof.
  unfold GetMaxMinor. trace_step; [trace_tac|]. trace_step; [trace_tac|]. generalize (-1). generalize (an_strs a).
  intros names. induction names; intros z; trace_tac; apply IHnames.
Qed.
End trace_ops.
#[export] Hint Resolve GetMaxMinor_trace publish_trace find_volume_trace wait_loop_trace remove_mappings_trace walk_up_trace : trace.

Section trace_rest.
Context {E St : Type} {EV : Env E} {PS : PathStore St} {JT : JsonText}.
Notation trace_op := (trace_op (E := E) (St := St)).
Lemma DestroyVolumeBy_trace d n : trace_op (DestroyVolumeByDiskIdAndPartNum d n).
Proof. trace_tac. Qed.
Lemma WaitForPartitionDone_trace d : trace_op (WaitForPartitionDone d).
Proof. trace_tac. Qed.
Lemma Refresh_trace v f d : trace_op (RefreshVolumeAfterFormatPartition v f d).
Proof. trace_tac. Qed.
Lemma Purge_trace d : trace_op (PurgeVolumesForDisk d).
Proof. trace_tac. Qed.
Lemma Rediscover_trace d : trace_op (RediscoverDiskVolumes d).
Proof. trace_tac. Qed.
End trace_rest.
#[export] Hint Resolve DestroyVolumeBy_trace WaitForPartitionDone_trace Refresh_trace Purge_trace Rediscover_trace : trace.

(** ** The calls and the decision *)
Inductive PartCall : Type :=
  | PcWhole (diskId : string)
  | PcCreate (diskId : string) (params : PartitionParams)
  | PcDelete (diskId : string) (partitionNum : Z)
  | PcFormat (diskId : string) (partitionNum : Z) (params : FormatParams).
Definition run_part {E St : Type} {EV : Env E} {PS : PathStore St} {JT : JsonText} (c : PartCall) : State (World E St) Z :=
  match c with
  | PcWhole d => Partition d
  | PcCreate d params => CreatePartition d params
  | PcDelete d n => DeletePartition d n
  | PcFormat d n params => FormatPartition d n params
  end.
Definition part_disk (c : PartCall) : string :=
  match c with PcWhole d | PcCreate d _ | PcDelete d _ | PcFormat d _ _ => d end.

(** The volumes of a disk that the call would destroy the content of. *)
Definition part_volumes (c : PartCall) (vols : gmap string VolumeExternal) : list VolumeExternal :=
  let all := map snd (volumes_of_disk vols (part_disk c)) in
  match c with
  | PcFormat _ n _ => List.filter (fun v => vol_partitionNum v =? n) all
  | _ => all
  end.
Definition in_use (v : VolumeExternal) : bool := negb (vol_state v =? UNMOUNTED).
Definition part_busy (c : PartCall) (vols : gmap string VolumeExternal) : bool :=
  existsb in_use (part_volumes c vols) ||
  (** a partition of a disk without volumes cannot be formatted either *)
  match c with PcFormat d _ _ => bool_decide (volumes_of_disk vols d = []) | _ => false end.

Definition part_type_ok (c : PartCall) (d : Disk) : bool :=
  match c with
  | PcWhole _ => negb (disk_diskType d =? CD_FLAG)
  | _ => (disk_diskType d =? SD_FLAG) || (disk_diskType d =? USB_FLAG)
  end.
Definition part_type_error (c : PartCall) : DiskManagerErrNo :=
  match c with
  | PcWhole _ => E_NOT_SUPPORT
  | PcCreate _ _ => E_CREATE_PARTITION_NOT_SUPPORT
  | PcDelete _ _ => E_DELETE_PARTITION_NOT_SUPPORT
  | PcFormat _ _ _ => E_FORMAT_PARTITION_NOT_SUPPORT
  end.
(** A partition number of the last table read by [GetPartitionTable]. *)
Definition in_table (n : Z) (t : PartitionTableInfo) : bool :=
  existsb (fun item => pi_partitionNum item =? n) (pti_partitions t).
(** The type code of a formatted partition. *)
Definition format_code (fs : string) : option string :=
  if fs =s "ext4" then Some "0x8300" else if (fs =s "exfat") || (fs =s "vfat") then Some "0x0700" else None.

(** The error of a call that is refused, in the order of the code's tests. *)
Definition part_refusal (c : PartCall) (sh : Shared) : option DiskManagerErrNo :=
  match sh_disks sh !! part_disk c with
  | None => Some (match c with PcWhole _ => E_NOT_SUPPORT | _ => E_NON_EXIST end)
  | Some d =>
      if negb (part_type_ok c d) then Some (part_type_error c)
      else if match c with PcCreate _ params => bool_decide (typeCodeMap !! pp_typeCode params = None) | _ => false end
      then Some E_CREATE_PARTITION_NOT_SUPPORT
      else if part_busy c (sh_vols sh) then Some E_VOL_STATE
      else match c with
           | PcWhole _ => None
           | PcCreate _ params =>
               match sh_partitionTable sh !! part_disk c with
               | None => Some E_NON_EXIST
               | Some t => if IsParamsValid params t then None else Some E_PARAMS_INVALID
               end
           | PcDelete _ n =>
               match sh_partitionTable sh !! part_disk c with
               | None => Some E_NON_EXIST
               | Some t => if in_table n t then None else Some E_NON_EXIST
               end
           | PcFormat _ n params =>
               match sh_partitionTable sh !! part_disk c with
               | None => Some E_NON_EXIST
               | Some t => if in_table n t
                           then match format_code (fp_fsType params) with Some _ => None | None => Some E_PARAMS_INVALID end
                           else Some E_NON_EXIST
               end
           end
  end.

(** The request of a call that is accepted, for the disk [d]. *)
Definition part_request (c : PartCall) (d : Disk) : Req :=
  match c with
  | PcWhole i => SdPartition (NormalizeDiskBlockPath i) "hmfs"
  | PcCreate i params => SdCreatePartition (dev_block i) (pp_partitionNum params) (pp_startSector params) (pp_endSector params)
                           (default "" (typeCodeMap !! pp_typeCode params))
  | PcDelete i n => SdDeletePartitionInfo (disk_sysPath d) i n
  | PcFormat i n params =>
      SdFormatPartition (disk_sysPath d +:+ to_string n) (fp_fsType params) (fp_volumeName params)
        ["sgdisk"; "-t"; to_string n +:+ ":" +:+ default "" (format_code (fp_fsType params)); dev_block i] (fp_quickFormat params)
  end.
(** The error of an accepted call whose request fails. *)
Definition part_error (c : PartCall) (r : Z) : Prop :=
  match c with
  | PcWhole _ => r <> E_OK
  | PcCreate _ _ => r = E_CREATE_PARTITION_ERROR
  | PcDelete _ _ => r = E_DELETE_PARTITION_ERROR
  | PcFormat _ _ _ => r = E_FORMAT_PARTITION_ERROR
  end.

(** Refused: nothing changes and nothing but local services is asked. Accepted:
    no volume concerned is in use, and the result is [E_OK] only if storage_daemon
    did the request. *)
Definition part_outcome {E St : Type} (c : PartCall) (r : Z) (w w' : World E St) : Prop :=
  match part_refusal c (w_sh w), sh_disks (w_sh w) !! part_disk c with
  | Some e, _ => r = errno e /\ w_sh w' = w_sh w /\ w_store w' = w_store w /\ grows is_local (w_trace w) (w_trace w')
  | None, Some d =>
      Forall (fun v => vol_state v = UNMOUNTED) (part_volumes c (sh_vols (w_sh w))) /\
      (r = E_OK /\ during (w_trace w) (w_trace w') (AReq (part_request c d) E_OK) \/ part_error c r)
  | None, None => False
  end.

(** ** The tests of the code, on the tables *)
(** The tables are keyed by the ids of their records. *)
Definition keyed (sh : Shared) : Prop :=
  map_Forall (fun k v => vol_id v = k) (sh_vols sh) /\ map_Forall (fun k d => disk_diskId d = k) (sh_disks sh).

Lemma find_if_existsb {A} (p : A -> bool) l : match find_if p l with Some _ => true | None => false end = existsb p l.
Proof. unfold find_if. induction l as [|x l IH]; cbn; [done|]. by destruct (p x). Qed.

(** The device of a partition of a disk has a name, whatever its number. *)
Lemma part_path_nonempty p n : str_empty (p +:+ to_string n) = false.
Proof.
  destruct p; [|done]. destruct n as [|n|n]; [done| |done]. apply str_empty_false, to_string_nonempty. lia.
Qed.

Section tests.
Context {E St : Type} {EV : Env E} {PS : PathStore St} {JT : JsonText} {SQ : Sequential E}.
Implicit Types (w : World E St) (sh : Shared) (st : St) (tr : list Act).
Notation disk_vols sh d := (map snd (volumes_of_disk (sh_vols sh) d)).

Lemma volumes_by_id sh d : keyed sh -> omap (fun id => sh_vols sh !! id) (map vol_id (disk_vols sh d)) = disk_vols sh d.
Proof.
  intros [Hv _]. unfold volumes_of_disk.
  assert (Hl : forall kv, kv ∈ sorted_entries (sh_vols sh) -> sh_vols sh !! kv.1 = Some kv.2).
  { by intros [k v] Hin%elem_of_sorted_entries. }
  revert Hl. generalize (sorted_entries (sh_vols sh)). intros l. induction l as [|[k v] l IH]; intros Hl; cbn [List.filter]; [done|].
  assert (IH' := IH ltac:(intros kv Hin; apply Hl; by right)). destruct (_ =s _); [|done]. cbn.
  pose proof (Hl (k, v) ltac:(left)) as Hk. cbn in Hk. rewrite (Hv _ _ Hk), Hk. by f_equal.
Qed.

Definition disk_copy sh (d : string) (o : option Disk) : Prop :=
  match sh_disks sh !! d with
  | None => o = None
  | Some x => exists y, o = Some y /\ disk_volumeIds y = map vol_id (disk_vols sh d) /\
                        disk_diskType y = disk_diskType x /\ disk_sysPath y = disk_sysPath x
  end.
Lemma runs_GetDisk_copy d (Q : option Disk -> Shared -> St -> list Act -> Prop) sh st tr :
  keyed sh -> (forall o tr', grows is_local tr tr' -> disk_copy sh d o -> Q o sh st tr') -> runs (E := E) (GetDiskById d) Q sh st tr.
Proof.
  intros [_ Hk] H. unfold GetDiskById, disk_copy in *. do 4 seq_step. destruct (sh_disks sh !! d) as [x|] eqn:Hx; [|apply runs_ret, H; [apply grows_refl|done]].
  cbv zeta. set (out := AttachVolumeIdsToDisk _ x).
  assert (Ho : disk_volumeIds out = map vol_id (disk_vols sh d) /\ disk_diskType out = disk_diskType x /\ disk_sysPath out = disk_sysPath x).
  { unfold out, AttachVolumeIdsToDisk, volumes_of_disk. rewrite (Hk _ _ Hx), map_map. by destruct x. }
  clearbody out. destruct Ho as (H1 & H2 & H3). unfold QueryAndAppendEncryptionStatusUnlocked, QueryEncryptionStatus, TryCopyByDiskId.
  seq_auto; (apply H; [repeat (apply grows_cons; [done|]); apply grows_refl|eexists; split; [reflexivity|]; split; [cbn; congruence|by split]]).
Qed.

Lemma runs_find_volume p ids (Q : option VolumeExternal -> Shared -> St -> list Act -> Prop) sh st tr :
  Q (find_if p (omap (fun id => sh_vols sh !! id) ids)) sh st tr -> runs (E := E) (find_volume p ids) Q sh st tr.
Proof.
  revert tr. induction ids as [|i ids IH]; intros tr H; cbn [find_volume omap list_omap]; [by apply runs_ret|].
  do 2 seq_step. unfold GetVolumeById. do 4 seq_step. cbn in H. destruct (sh_vols sh !! i) as [v|]; [|by apply IH].
  unfold find_if in *. cbn in H. destruct (p v); [by apply runs_ret|by apply IH].
Qed.

(** [IsDiskNotReady] and [IsVolumeMounted] on a known disk. *)
Lemma runs_IsDiskNotReady d x (Q : bool -> Shared -> St -> list Act -> Prop) sh st tr :
  keyed sh -> sh_disks sh !! d = Some x ->
  (forall tr', grows is_local tr tr' -> Q (existsb in_use (disk_vols sh d)) sh st tr') -> runs (E := E) (IsDiskNotReady d) Q sh st tr.
Proof.
  intros Hk Hx H. unfold IsDiskNotReady. apply runs_bind, runs_GetDisk_copy; [done|]. intros o tr' Hg Ho.
  unfold disk_copy in Ho. rewrite Hx in Ho. destruct Ho as (y & -> & Hids & _). seq_step. apply runs_find_volume. seq_step.
  rewrite Hids, (volumes_by_id sh d Hk), find_if_existsb. by apply H.
Qed.
Lemma runs_IsVolumeMounted d n params x (Q : bool -> Shared -> St -> list Act -> Prop) sh st tr :
  keyed sh -> sh_disks sh !! d = Some x ->
  (forall tr', grows is_local tr tr' -> Q (part_busy (PcFormat d n params) (sh_vols sh)) sh st tr') ->
  runs (E := E) (IsVolumeMounted d n) Q sh st tr.
Proof.
  intros Hk Hx H. unfold IsVolumeMounted. apply runs_bind, runs_GetDisk_copy; [done|]. intros o tr' Hg Ho.
  unfold disk_copy in Ho. rewrite Hx in Ho. destruct Ho as (y & -> & Hids & _). specialize (H tr' Hg).
  unfold part_busy, part_volumes in H. cbn [part_disk] in H.
  assert (Hex : forall l, existsb in_use (List.filter (fun v => vol_partitionNum v =? n) l) =
                          existsb (fun v => (vol_partitionNum v =? n) && negb (vol_state v =? UNMOUNTED)) l).
  { induction l as [|v l IH]; cbn; [done|]. destruct (vol_partitionNum v =? n); cbn; [|done]. by rewrite IH. }
  rewrite Hex in H. rewrite Hids. destruct (volumes_of_disk (sh_vols sh) d) as [|kv vs] eqn:Hvs.
  - cbn. apply runs_ret. exact H.
  - cbn [map]. rewrite bool_decide_false, orb_false_r in H by done. seq_step. apply runs_find_volume. seq_step.
    change (vol_id kv.2 :: map vol_id (map snd vs)) with (map vol_id (map snd (kv :: vs))).
    rewrite <- Hvs, (volumes_by_id sh d Hk), find_if_existsb, Hvs. exact H.
Qed.
Lemma runs_trace {A} (m : State (World E St) A) (Q : A -> Shared -> St -> list Act -> Prop) sh st tr :
  trace_op m -> (forall a sh' st' tr', grows Any tr tr' -> Q a sh' st' tr') -> runs m Q sh st tr.
Proof. intros Hm H e. apply H. apply (Hm (mkWorld sh st e tr)). Qed.

(** ** The decision *)
Definition part_post (c : PartCall) sh0 (st0 : St) tr0 (r : Z) sh st tr : Prop :=
  match part_refusal c sh0, sh_disks sh0 !! part_disk c with
  | Some e, _ => r = errno e /\ sh = sh0 /\ st = st0 /\ grows is_local tr0 tr
  | None, Some d =>
      Forall (fun v => vol_state v = UNMOUNTED) (part_volumes c (sh_vols sh0)) /\
      (r = E_OK /\ during tr0 tr (AReq (part_request c d) E_OK) \/ part_error c r)
  | None, None => False
  end.

Lemma accepted_unmounted c sh : part_refusal c sh = None -> Forall (fun v => vol_state v = UNMOUNTED) (part_volumes c (sh_vols sh)).
Proof.
  unfold part_refusal. destruct (sh_disks sh !! _); [|done]. destruct (negb _); [done|]. destruct (match c with PcCreate _ _ => _ | _ => _ end); [done|].
  destruct (part_busy c (sh_vols sh)) eqn:Hb; [done|]. intros _. apply orb_false_iff in Hb as [Hb _].
  apply Forall_forall. intros v Hin. destruct (decide (vol_state v = UNMOUNTED)) as [|Hne]; [done|].
  assert (Ht : existsb in_use (part_volumes c (sh_vols sh)) = true); [|congruence].
  apply existsb_elem_of. exists v. split; [done|]. unfold in_use. by rewrite (proj2 (Z.eqb_neq _ _)).
Qed.
Lemma post_refused c sh st tr tr' e :
  part_refusal c sh = Some e -> grows is_local tr tr' -> part_post c sh st tr (errno e) sh st tr'.
Proof. intros Hr Hg. unfold part_post. by rewrite Hr. Qed.
Lemma post_done c sh st tr sh' st' tr' d :
  part_refusal c sh = None -> sh_disks sh !! part_disk c = Some d -> during tr tr' (AReq (part_request c d) E_OK) ->
  part_post c sh st tr (errno E_OK) sh' st' tr'.
Proof. intros Hr Hd Hdu. unfold part_post. rewrite Hr, Hd. split; [by apply accepted_unmounted|by left]. Qed.
Lemma post_error c sh st tr r sh' st' tr' d :
  part_refusal c sh = None -> sh_disks sh !! part_disk c = Some d -> part_error c r -> part_post c sh st tr r sh' st' tr'.
Proof. intros Hr Hd He. unfold part_post. rewrite Hr, Hd. split; [by apply accepted_unmounted|by right]. Qed.

Lemma whole_busy d sh : part_busy (PcWhole d) (sh_vols sh) = existsb in_use (disk_vols sh d).
Proof. apply orb_false_r. Qed.
Lemma create_busy d p sh : part_busy (PcCreate d p) (sh_vols sh) = existsb in_use (disk_vols sh d).
Proof. apply orb_false_r. Qed.
Lemma delete_busy d n sh : part_busy (PcDelete d n) (sh_vols sh) = existsb in_use (disk_vols sh d).
Proof. apply orb_false_r. Qed.

(** [refuse]: the code has stopped where the decision does. *)
Ltac refuse Hd := apply runs_ret, post_refused; [unfold part_refusal; cbn [part_disk]; rewrite Hd|].
Ltac in_trace Hg Hf := eapply during_before; [exact Hg|apply fwd_ok, Hf].

Lemma Partition_run d sh st tr : keyed sh -> runs (E := E) (Partition d) (part_post (PcWhole d) sh st tr) sh st tr.
Proof.
  intros Hk. unfold Partition, AddPartitioningDisk, RemovePartitioningDisk. apply runs_bind, runs_IsDiskSupported. intros tr1 H1.
  destruct (sh_disks sh !! d) as [x|] eqn:Hd; [|by refuse Hd].
  destruct (disk_diskType x =? CD_FLAG) eqn:Hcd; [refuse Hd; [by cbn [part_type_ok]; rewrite Hcd|done]|].
  change (negb (errno E_OK =? errno E_OK)) with false. cbv iota.
  apply runs_bind, (runs_IsDiskNotReady d x); [done..|]. intros tr2 H2. assert (H12 : grows is_local tr tr2) by (by transitivity tr1).
  assert (Href : part_refusal (PcWhole d) sh = if existsb in_use (disk_vols sh d) then Some E_VOL_STATE else None).
  { unfold part_refusal. cbn [part_disk part_type_ok]. by rewrite Hd, Hcd, whole_busy. }
  destruct (existsb in_use _); [by apply runs_ret, post_refused|].
  apply runs_bind. do 5 seq_step. apply runs_bind, runs_trace; [apply Purge_trace|]. intros ret sh1 st1 tr3 H3.
  assert (Hfail : forall r : Z, r <> E_OK -> forall sh' st' tr', part_post (PcWhole d) sh st tr r sh' st' tr').
  { intros r Hr sh' st' tr'. by apply (post_error _ _ _ _ _ _ _ _ x). }
  destruct (ret =? E_OK) eqn:Hret; cbn [negb]; bsimp; [|do 2 seq_step; apply runs_ret; by apply Hfail].
  unfold Sd_Partition. apply runs_bind, runs_sd_simple. intros ret2 b tr4 Hf.
  destruct (ret2 =? E_OK) eqn:Hr2; cbn [negb]; bsimp; [|do 2 seq_step; apply runs_ret; by apply Hfail].
  apply runs_bind, runs_trace; [apply Rediscover_trace|]. intros ret3 sh3 st3 tr5 H5. do 2 seq_step.
  destruct (ret3 =? E_OK) eqn:Hr3; cbn [negb]; bsimp; apply runs_ret; [|by apply Hfail]. apply (post_done _ _ _ _ _ _ _ x); [done..|].
  eapply during_after; [exact H5|]. apply (grows_mono _ Any) in H12; [|done]. eapply (during_before Any _ tr3); [by transitivity tr2|].
  apply fwd_ok. rewrite <- Hr2. exact Hf.
Qed.

(** The type test shared by the three partition calls. *)
Lemma type_test c sh x : sh_disks sh !! part_disk c = Some x -> match c with PcWhole _ => False | _ => True end ->
  negb (disk_diskType x =? SD_FLAG) && negb (disk_diskType x =? USB_FLAG) = negb (part_type_ok c x).
Proof. intros _. by destruct c; [intros []|..]; intros _; rewrite <- negb_orb. Qed.

Lemma CreatePartition_run d params sh st tr :
  keyed sh -> runs (E := E) (CreatePartition d params) (part_post (PcCreate d params) sh st tr) sh st tr.
Proof.
  intros Hk. set (c := PcCreate d params). unfold CreatePartition. apply runs_bind, runs_GetDisk_copy; [done|]. intros o tr1 H1 Ho.
  unfold disk_copy in Ho. destruct (sh_disks sh !! d) as [x|] eqn:Hd; [|subst o; by apply runs_ret, post_refused; [unfold part_refusal, c; cbn [part_disk]; rewrite Hd|]].
  destruct Ho as (y & -> & _ & Hty & _). rewrite Hty, (type_test c sh x Hd I).
  assert (Href : part_refusal c sh = if negb (part_type_ok c x) then Some E_CREATE_PARTITION_NOT_SUPPORT
    else match typeCodeMap !! pp_typeCode params with
         | None => Some E_CREATE_PARTITION_NOT_SUPPORT
         | Some _ => if existsb in_use (disk_vols sh d) then Some E_VOL_STATE
                     else match sh_partitionTable sh !! d with
                          | None => Some E_NON_EXIST
                          | Some t => if IsParamsValid params t then None else Some E_PARAMS_INVALID
                          end
         end).
  { unfold part_refusal. change (part_disk c) with d. rewrite Hd. destruct (negb _); [done|]. unfold c. rewrite create_busy.
    by destruct (typeCodeMap !! pp_typeCode params); [rewrite bool_decide_false by done|rewrite bool_decide_true by done]. }
  destruct (negb (part_type_ok c x)); [by apply runs_ret, post_refused|].
  destruct (typeCodeMap !! pp_typeCode params) as [code|] eqn:Hcode; [|by apply runs_ret, post_refused].
  apply runs_bind, (runs_IsDiskNotReady d x); [done..|]. intros tr2 H2. assert (H12 : grows is_local tr tr2) by (by transitivity tr1).
  destruct (existsb in_use _); [by apply runs_ret, post_refused|]. do 2 seq_step.
  destruct (sh_partitionTable sh !! d) as [info|]; [|by apply runs_ret, post_refused].
  destruct (IsParamsValid params info); cbn [negb]; [|by apply runs_ret, post_refused].
  unfold Sd_CreatePartition. apply runs_bind, runs_sd_simple. intros ret b tr3 Hf.
  destruct (ret =? E_OK) eqn:Hret; cbn [negb]; bsimp; [|by apply runs_ret, (post_error _ _ _ _ _ _ _ _ x)].
  do 2 seq_step. apply runs_bind, runs_trace; [apply WaitForPartitionDone_trace|]. intros [] sh3 st3 tr4 H4. apply runs_ret.
  apply (post_done _ _ _ _ _ _ _ x); [done..|]. eapply during_after; [exact H4|]. eapply during_before; [exact H12|].
  apply fwd_ok. rewrite <- Hret. unfold c. cbn [part_request]. rewrite Hcode. exact Hf.
Qed.

Lemma DeletePartition_run d n sh st tr :
  keyed sh -> runs (E := E) (DeletePartition d n) (part_post (PcDelete d n) sh st tr) sh st tr.
Proof.
  intros Hk. set (c := PcDelete d n). unfold DeletePartition. apply runs_bind, runs_GetDisk_copy; [done|]. intros o tr1 H1 Ho.
  unfold disk_copy in Ho. destruct (sh_disks sh !! d) as [x|] eqn:Hd; [|subst o; by apply runs_ret, post_refused; [unfold part_refusal, c; cbn [part_disk]; rewrite Hd|]].
  destruct Ho as (y & -> & _ & Hty & Hsys). rewrite Hty, (type_test c sh x Hd I).
  assert (Href : part_refusal c sh = if negb (part_type_ok c x) then Some E_DELETE_PARTITION_NOT_SUPPORT
    else if existsb in_use (disk_vols sh d) then Some E_VOL_STATE
         else match sh_partitionTable sh !! d with
              | None => Some E_NON_EXIST
              | Some t => if in_table n t then None else Some E_NON_EXIST
              end).
  { unfold part_refusal. change (part_disk c) with d. rewrite Hd. destruct (negb _); [done|]. unfold c. by rewrite delete_busy. }
  destruct (negb (part_type_ok c x)); [by apply runs_ret, post_refused|].
  apply runs_bind, (runs_IsDiskNotReady d x); [done..|]. intros tr2 H2. assert (H12 : grows is_local tr tr2) by (by transitivity tr1).
  destruct (existsb in_use _); [by apply runs_ret, post_refused|]. do 2 seq_step.
  destruct (sh_partitionTable sh !! d) as [info|]; [|by apply runs_ret, post_refused].
  fold (in_table n info). destruct (in_table n info); cbn [negb]; [|by apply runs_ret, post_refused].
  unfold Sd_DeletePartition. apply runs_bind, runs_sd_simple. intros ret b tr3 Hf.
  destruct (ret =? E_OK) eqn:Hret; cbn [negb]; bsimp; [|by apply runs_ret, (post_error _ _ _ _ _ _ _ _ x)].
  apply runs_bind, runs_trace; [apply DestroyVolumeBy_trace|]. intros ? sh3 st3 tr4 H4. do 2 seq_step.
  apply runs_bind, runs_trace; [apply WaitForPartitionDone_trace|]. intros [] sh4 st4 tr5 H5. apply runs_ret.
  apply (post_done _ _ _ _ _ _ _ x); [done..|]. eapply during_after; [exact H5|]. eapply during_after; [exact H4|].
  eapply during_before; [exact H12|]. apply fwd_ok. rewrite <- Hret. unfold c. cbn [part_request]. rewrite <- Hsys. exact Hf.
Qed.

Lemma FormatPartition_run d n params sh st tr :
  keyed sh -> runs (E := E) (FormatPartition d n params) (part_post (PcFormat d n params) sh st tr) sh st tr.
Proof.
  intros Hk. set (c := PcFormat d n params). unfold FormatPartition. apply runs_bind, runs_GetDisk_copy; [done|]. intros o tr1 H1 Ho.
  unfold disk_copy in Ho. destruct (sh_disks sh !! d) as [x|] eqn:Hd; [|subst o; by apply runs_ret, post_refused; [unfold part_refusal, c; cbn [part_disk]; rewrite Hd|]].
  destruct Ho as (y & -> & _ & Hty & Hsys). rewrite Hty, (type_test c sh x Hd I).
  assert (Href : part_refusal c sh = if negb (part_type_ok c x) then Some E_FORMAT_PARTITION_NOT_SUPPORT
    else if part_busy c (sh_vols sh) then Some E_VOL_STATE
         else match sh_partitionTable sh !! d with
              | None => Some E_NON_EXIST
              | Some t => if in_table n t
                          then match format_code (fp_fsType params) with Some _ => None | None => Some E_PARAMS_INVALID end
                          else Some E_NON_EXIST
              end).
  { unfold part_refusal. change (part_disk c) with d. by rewrite Hd. }
  destruct (negb (part_type_ok c x)); [by apply runs_ret, post_refused|].
  apply runs_bind, (runs_IsVolumeMounted d n params x); [done..|]. intros tr2 H2. assert (H12 : grows is_local tr tr2) by (by transitivity tr1).
  fold c. destruct (part_busy c (sh_vols sh)); [by apply runs_ret, post_refused|].
  unfold FindVolumeForPartition. do 2 seq_step. apply runs_find_volume. seq_step. do 4 seq_step.
  destruct (sh_partitionTable sh !! d) as [info|]; [|by apply runs_ret, post_refused].
  cbv zeta. fold (in_table n info). destruct (in_table n info); [|by apply runs_ret, post_refused].
  rewrite (part_path_nonempty (disk_sysPath y) n).
  set (codes := if fp_fsType params =s "ext4" then _ else _).
  assert (Hcodes : codes = (fun code => to_string n +:+ ":" +:+ code) <$> format_code (fp_fsType params)).
  { unfold codes, format_code. destruct (_ =s "ext4"); [done|]. by destruct (_ || _). }
  rewrite Hcodes. destruct (format_code (fp_fsType params)) as [code|] eqn:Hcode; cbn [fmap option_fmap option_map];
    [|by apply runs_ret, post_refused].
  unfold Sd_FormatPartition. apply runs_bind, runs_sd_simple. intros ret b tr3 Hf.
  destruct (ret =? E_OK) eqn:Hret; cbn [negb]; bsimp.
  - apply runs_bind, runs_trace; [apply Refresh_trace|]. intros [] sh4 st4 tr4 H4. apply runs_ret.
    apply (post_done _ _ _ _ _ _ _ x); [done..|]. eapply during_after; [exact H4|]. eapply during_before; [exact H12|].
    apply fwd_ok. rewrite <- Hret. unfold c. cbn [part_request]. rewrite <- Hsys, Hcode. exact Hf.
  - apply runs_bind, runs_trace; [trace_tac|]. intros ? sh4 st4 tr4 _. by apply runs_ret, (post_error _ _ _ _ _ _ _ _ x).
Qed.

(** C9: The four operations that rewrite a disk, when no other thread changes the tables
    during the call and every disk and volume is stored under its own id: they decide on the
    tables of the start of the call alone, in the order of [part_refusal]. A refused call
    returns that error, changes no table, no mapping and sends nothing to storage_daemon. A
    call is accepted only when in these tables every volume it would destroy is [UNMOUNTED];
    it returns [E_OK] only if storage_daemon did exactly [part_request], for the disk, the
    partition and the parameters of the call, and its own error otherwise. (With another
    thread in between the decision can be out of date when the request goes out:
    [format_partition_race] is such a run.) *)
Theorem part_call_spec c w : keyed (w_sh w) -> part_outcome c (run_part c w).1 w (run_part c w).2.
Proof.
  intros Hk. apply (runs_run (run_part c) (part_post c (w_sh w) (w_store w) (w_trace w)) w).
  destruct c; [apply Partition_run|apply CreatePartition_run|apply DeletePartition_run|apply FormatPartition_run]; exact Hk.
Qed.
End tests.

(** * Examples: deleting partition 1 of a disk, mounted and unmounted *)
Notation ex_table := (PTI_SetPartitions [PI_SetPartitionNum 1 PartitionInfo_default] PartitionTableInfo_default).
Notation with_table w := ((set_partitionTable (<["disk-8-0" := ex_table]>) (w : ExWorld)).2).
Notation ex_delete := (PcDelete "disk-8-0" 1).

Lemma part_call_spec_witness :
  part_refusal ex_delete (w_sh (with_table ex_mounted)) = Some E_VOL_STATE /\
  part_refusal ex_delete (w_sh (with_table ex_unmounted)) = None /\
  (run_part ex_delete (with_table ex_unmounted)).1 = E_OK /\
  part_outcome ex_delete (run_part ex_delete (with_table ex_mounted)).1 (with_table ex_mounted)
    (run_part ex_delete (with_table ex_mounted)).2 /\
  part_outcome ex_delete (run_part ex_delete (with_table ex_unmounted)).1 (with_table ex_unmounted)
    (run_part ex_delete (with_table ex_unmounted)).2.
Proof.
  split; [vm_compute; reflexivity|]. split; [vm_compute; reflexivity|]. split; [vm_compute; reflexivity|].
  split; refine (part_call_spec ex_delete _ _); split; apply (bool_decide_eq_true_1 _); vm_compute; reflexivity.
Defined.

(** ** Why no other thread may run in between

    [FormatPartition] holds no lock from its tests to its request. Here a client
    mounts the volume after [IsVolumeMounted] answered false: the partition is
    formatted while it is mounted, and its volume is then recorded [UNMOUNTED]. *)
Notation race_world := (mkWorld (w_sh (with_table ex_unmounted)) ex_store
  (mkThreads usb_answers (replicate 4 CGetAllVolumes ++ [CMount "vol-8-1" MountParam_default])) [] : World Threads (VState unit)).
Notation state_of w := (vol_state <$> sh_vols (w_sh w) !! "vol-8-1").
Example format_partition_race :
  (** the code up to the request *)
  let tests := let! disk := GetDiskById "disk-8-0" in
               let! mounted := IsVolumeMounted "disk-8-0" 1 in
               let! _ := FindVolumeForPartition (default Disk_default disk) 1 in
               do! yield lk_none in sret mounted in
  let run := FormatPartition "disk-8-0" 1 (mkFormatParams "vfat" false "X") race_world in
  state_of race_world = Some (VolumeState_val UNMOUNTED) /\
  (tests race_world).1 = false /\ state_of (tests race_world).2 = Some (VolumeState_val MOUNTED) /\
  run.1 = E_OK /\
  AReq (SdFormatPartition "/dev/block/sda1" "vfat" "X" ["sgdisk"; "-t"; "1:0x0700"; "/dev/block/disk-8-0"] false) 0 ∈ w_trace run.2 /\
  state_of run.2 = Some (VolumeState_val UNMOUNTED).
Proof.
  cbv zeta. split_and!; try (vm_compute; reflexivity). apply (list_elem_of_lookup_2 _ 1). vm_compute. reflexivity.
Qed.
