(* ===== verification/JsErrors.v ===== *)
(** * Error codes of the kits

    [disk_manager_napi_errno.h]: the errors of the client library and those shown to
    applications; [disk_manager_napi_utils.cpp] converts one to the other and
    [storageStatistics_taihe_error.cpp] adds the messages. The client library uses this
    header, not the service's [disk_manager_errno.h], and gives some names another
    value: [E_SERVICE_IS_NULLPTR] is 13600014 here and 12 in the service. *)
From S2P Require Import Prelude CppString Types.

(* @src common/include/disk_manager_napi_errno.h 23-23 STORAGE_SERVICE_SYS_CAP_TAG *)
Definition STORAGE_SERVICE_SYS_CAP_TAG : Z := 13600000.

Module NativeErr.
(* @src common/include/disk_manager_napi_errno.h 26-81 DiskManagerNativeErr *)
Inductive DiskManagerNativeErr : Set :=
  | E_OK | E_PERMISSION_DENIED | E_PARAMS_INVALID | E_NON_EXIST | E_PREPARE_DIR | E_DESTROY_DIR | E_NOT_SUPPORT
  | E_SYS_KERNEL_ERR | E_WRITE_PARCEL_ERR | E_WRITE_REPLY_ERR | E_WRITE_DESCRIPTOR_ERR | E_SA_IS_NULLPTR
  | E_REMOTE_IS_NULLPTR | E_SERVICE_IS_NULLPTR | E_DEATH_RECIPIENT_IS_NULLPTR | E_SYS_APP_PERMISSION_DENIED
  | E_SET_POLICY | E_USERID_RANGE | E_BUNDLEMGR_ERROR | E_MEDIALIBRARY_ERROR | E_GET_EXT_BUNDLE_STATS_ERROR
  | E_SET_EXT_BUNDLE_STATS_ERROR | E_GET_ALL_EXT_BUNDLE_STATS_ERROR | E_GET_INODE_ERROR | E_GET_SYSTEM_DATA_SIZE_ERROR
  | E_GET_BUNDLE_INODES_ERROR | E_VOL_STATE | E_VOL_MOUNT_ERR | E_VOL_UMOUNT_ERR | E_UMOUNT_BUSY | E_NO_CHILD
  | E_GET_PARTITION_ERROR | E_CREATE_PARTITION_NOT_SUPPORT | E_CREATE_PARTITION_ERROR | E_DELETE_PARTITION_NOT_SUPPORT
  | E_DELETE_PARTITION_ERROR | E_FORMAT_PARTITION_NOT_SUPPORT | E_FORMAT_PARTITION_ERROR | E_QUERY_VOLUME_IN_USE_ERROR
  | E_EMPTY_DISC | E_ISO_WRITE_FAILED | E_ERASE_FAILED | E_EJECT_FAILED | E_BURN_FAILED | E_BURN_NOSPC | E_BUSY.
(* @src common/include/disk_manager_napi_errno.h 118-175 constants of the native errors *)
Definition DiskManagerNativeErr_val (e : DiskManagerNativeErr) : Z :=
  match e with
  | E_OK => 0 | E_PERMISSION_DENIED => STORAGE_SERVICE_SYS_CAP_TAG + 1
  | E_PARAMS_INVALID => STORAGE_SERVICE_SYS_CAP_TAG + 2 | E_NON_EXIST => STORAGE_SERVICE_SYS_CAP_TAG + 4
  | E_PREPARE_DIR => STORAGE_SERVICE_SYS_CAP_TAG + 5 | E_DESTROY_DIR => STORAGE_SERVICE_SYS_CAP_TAG + 6
  | E_NOT_SUPPORT => STORAGE_SERVICE_SYS_CAP_TAG + 7 | E_SYS_KERNEL_ERR => STORAGE_SERVICE_SYS_CAP_TAG + 8
  | E_WRITE_PARCEL_ERR => STORAGE_SERVICE_SYS_CAP_TAG + 9 | E_WRITE_REPLY_ERR => STORAGE_SERVICE_SYS_CAP_TAG + 10
  | E_WRITE_DESCRIPTOR_ERR => STORAGE_SERVICE_SYS_CAP_TAG + 11 | E_SA_IS_NULLPTR => STORAGE_SERVICE_SYS_CAP_TAG + 12
  | E_REMOTE_IS_NULLPTR => STORAGE_SERVICE_SYS_CAP_TAG + 13 | E_SERVICE_IS_NULLPTR => STORAGE_SERVICE_SYS_CAP_TAG + 14
  | E_DEATH_RECIPIENT_IS_NULLPTR => STORAGE_SERVICE_SYS_CAP_TAG + 16
  | E_SYS_APP_PERMISSION_DENIED => STORAGE_SERVICE_SYS_CAP_TAG + 25 | E_SET_POLICY => STORAGE_SERVICE_SYS_CAP_TAG + 201
  | E_USERID_RANGE => STORAGE_SERVICE_SYS_CAP_TAG + 202 | E_BUNDLEMGR_ERROR => STORAGE_SERVICE_SYS_CAP_TAG + 1201
  | E_MEDIALIBRARY_ERROR => STORAGE_SERVICE_SYS_CAP_TAG + 1202
  | E_GET_EXT_BUNDLE_STATS_ERROR => STORAGE_SERVICE_SYS_CAP_TAG + 1223
  | E_SET_EXT_BUNDLE_STATS_ERROR => STORAGE_SERVICE_SYS_CAP_TAG + 1224
  | E_GET_ALL_EXT_BUNDLE_STATS_ERROR => STORAGE_SERVICE_SYS_CAP_TAG + 1226
  | E_GET_INODE_ERROR => STORAGE_SERVICE_SYS_CAP_TAG + 1229
  | E_GET_SYSTEM_DATA_SIZE_ERROR => STORAGE_SERVICE_SYS_CAP_TAG + 1232
  | E_GET_BUNDLE_INODES_ERROR => STORAGE_SERVICE_SYS_CAP_TAG + 1233 | E_VOL_STATE => STORAGE_SERVICE_SYS_CAP_TAG + 1701
  | E_VOL_MOUNT_ERR => STORAGE_SERVICE_SYS_CAP_TAG + 1702 | E_VOL_UMOUNT_ERR => STORAGE_SERVICE_SYS_CAP_TAG + 1703
  | E_UMOUNT_BUSY => STORAGE_SERVICE_SYS_CAP_TAG + 1704 | E_NO_CHILD => STORAGE_SERVICE_SYS_CAP_TAG + 1705
  | E_GET_PARTITION_ERROR => STORAGE_SERVICE_SYS_CAP_TAG + 1739
  | E_CREATE_PARTITION_NOT_SUPPORT => STORAGE_SERVICE_SYS_CAP_TAG + 1740
  | E_CREATE_PARTITION_ERROR => STORAGE_SERVICE_SYS_CAP_TAG + 1742
  | E_DELETE_PARTITION_NOT_SUPPORT => STORAGE_SERVICE_SYS_CAP_TAG + 1743
  | E_DELETE_PARTITION_ERROR => STORAGE_SERVICE_SYS_CAP_TAG + 1745
  | E_FORMAT_PARTITION_NOT_SUPPORT => STORAGE_SERVICE_SYS_CAP_TAG + 1748
  | E_FORMAT_PARTITION_ERROR => STORAGE_SERVICE_SYS_CAP_TAG + 1750
  | E_QUERY_VOLUME_IN_USE_ERROR => STORAGE_SERVICE_SYS_CAP_TAG + 1751
  | E_EMPTY_DISC => STORAGE_SERVICE_SYS_CAP_TAG + 1801 | E_ISO_WRITE_FAILED => STORAGE_SERVICE_SYS_CAP_TAG + 1802
  | E_ERASE_FAILED => STORAGE_SERVICE_SYS_CAP_TAG + 1803 | E_EJECT_FAILED => STORAGE_SERVICE_SYS_CAP_TAG + 1804
  | E_BURN_FAILED => STORAGE_SERVICE_SYS_CAP_TAG + 1805 | E_BURN_NOSPC => STORAGE_SERVICE_SYS_CAP_TAG + 1806
  | E_BUSY => STORAGE_SERVICE_SYS_CAP_TAG + 1907
  end.
#[global] Instance DiskManagerNativeErr_eq_dec : EqDecision DiskManagerNativeErr. Proof. solve_decision. Defined.
End NativeErr.
Coercion NativeErr.DiskManagerNativeErr_val : NativeErr.DiskManagerNativeErr >-> Z.

Module JsErr.
(* @src common/include/disk_manager_napi_errno.h 84-119 DiskManagerJsErr *)
Inductive DiskManagerJsErr : Set :=
  | E_PERMISSION | E_PERMISSION_SYS | E_PARAMS | E_DEVICENOTSUPPORT | E_OSNOTSUPPORT | E_IPCSS | E_SUPPORTEDFS
  | E_MOUNT_ERR | E_UNMOUNT | E_VOLUMESTATE | E_PREPARE | E_DELETE | E_NOOBJECT | E_OUTOFRANGE | E_JS_PARAMS_INVALID
  | E_JS_SET_EXT_BUNDLE_STATS_ERROR | E_JS_GET_EXT_BUNDLE_STATS_ERROR | E_JS_GET_ALL_EXT_BUNDLE_STATS_ERROR
  | E_JS_RETRY_ERROR | E_JS_GET_INODE_ERROR | E_JS_GET_BUNDLE_INODES_ERROR | E_JS_GET_SYSTEM_DATA_SIZE_ERROR
  | E_JS_GET_PARTITION_ERROR | E_JS_CREATE_PARTITION_ERROR | E_JS_DELETE_PARTITION_ERROR | E_JS_EMPTY_DISC
  | E_JS_ISO_WRITE_FAILED | E_JS_ERASE_FAILED | E_JS_EJECT_FAILED | E_JS_BURN_FAILED | E_JS_BURN_NOSPC
  | E_JS_FORMAT_PARTITION_ERROR | E_JS_QUERY_VOLUME_IN_USE_ERROR | E_JS_BUSY.
(* @src common/include/disk_manager_napi_errno.h 177-221 constants of the JS errors *)
Definition DiskManagerJsErr_val (e : DiskManagerJsErr) : Z :=
  match e with
  | E_PERMISSION => 201 | E_PERMISSION_SYS => 202 | E_PARAMS => 401 | E_DEVICENOTSUPPORT => 801 | E_OSNOTSUPPORT => 901
  | E_IPCSS => STORAGE_SERVICE_SYS_CAP_TAG + 1 | E_SUPPORTEDFS => STORAGE_SERVICE_SYS_CAP_TAG + 2
  | E_MOUNT_ERR => STORAGE_SERVICE_SYS_CAP_TAG + 3 | E_UNMOUNT => STORAGE_SERVICE_SYS_CAP_TAG + 4
  | E_VOLUMESTATE => STORAGE_SERVICE_SYS_CAP_TAG + 5 | E_PREPARE => STORAGE_SERVICE_SYS_CAP_TAG + 6
  | E_DELETE => STORAGE_SERVICE_SYS_CAP_TAG + 7 | E_NOOBJECT => STORAGE_SERVICE_SYS_CAP_TAG + 8
  | E_OUTOFRANGE => STORAGE_SERVICE_SYS_CAP_TAG + 9 | E_JS_PARAMS_INVALID => STORAGE_SERVICE_SYS_CAP_TAG + 10
  | E_JS_SET_EXT_BUNDLE_STATS_ERROR => STORAGE_SERVICE_SYS_CAP_TAG + 11
  | E_JS_GET_EXT_BUNDLE_STATS_ERROR => STORAGE_SERVICE_SYS_CAP_TAG + 12
  | E_JS_GET_ALL_EXT_BUNDLE_STATS_ERROR => STORAGE_SERVICE_SYS_CAP_TAG + 13
  | E_JS_RETRY_ERROR => STORAGE_SERVICE_SYS_CAP_TAG + 14 | E_JS_GET_INODE_ERROR => STORAGE_SERVICE_SYS_CAP_TAG + 16
  | E_JS_GET_BUNDLE_INODES_ERROR => STORAGE_SERVICE_SYS_CAP_TAG + 17
  | E_JS_GET_SYSTEM_DATA_SIZE_ERROR => STORAGE_SERVICE_SYS_CAP_TAG + 18
  | E_JS_GET_PARTITION_ERROR => STORAGE_SERVICE_SYS_CAP_TAG + 21
  | E_JS_CREATE_PARTITION_ERROR => STORAGE_SERVICE_SYS_CAP_TAG + 22
  | E_JS_DELETE_PARTITION_ERROR => STORAGE_SERVICE_SYS_CAP_TAG + 23
  | E_JS_EMPTY_DISC => STORAGE_SERVICE_SYS_CAP_TAG + 24 | E_JS_ISO_WRITE_FAILED => STORAGE_SERVICE_SYS_CAP_TAG + 25
  | E_JS_ERASE_FAILED => STORAGE_SERVICE_SYS_CAP_TAG + 26 | E_JS_EJECT_FAILED => STORAGE_SERVICE_SYS_CAP_TAG + 27
  | E_JS_BURN_FAILED => STORAGE_SERVICE_SYS_CAP_TAG + 28 | E_JS_BURN_NOSPC => 13900025
  | E_JS_FORMAT_PARTITION_ERROR => STORAGE_SERVICE_SYS_CAP_TAG + 32
  | E_JS_QUERY_VOLUME_IN_USE_ERROR => STORAGE_SERVICE_SYS_CAP_TAG + 33 | E_JS_BUSY => STORAGE_SERVICE_SYS_CAP_TAG + 34
  end.
#[global] Instance DiskManagerJsErr_eq_dec : EqDecision DiskManagerJsErr. Proof. solve_decision. Defined.
End JsErr.
Coercion JsErr.DiskManagerJsErr_val : JsErr.DiskManagerJsErr >-> Z.

(* @src interfaces/kits/js/common/src/disk_manager_napi_utils.cpp 33-78 errCodeTable *)
Definition errCodeTable : gmap Z Z :=
  list_to_map [
   (NativeErr.E_PERMISSION_DENIED : Z, JsErr.E_PERMISSION : Z);
   (NativeErr.E_WRITE_DESCRIPTOR_ERR : Z, JsErr.E_IPCSS : Z);
   (NativeErr.E_NON_EXIST : Z, JsErr.E_NOOBJECT : Z);
   (NativeErr.E_PREPARE_DIR : Z, JsErr.E_PREPARE : Z);
   (NativeErr.E_DESTROY_DIR : Z, JsErr.E_DELETE : Z);
   (NativeErr.E_VOL_MOUNT_ERR : Z, JsErr.E_MOUNT_ERR : Z);
   (NativeErr.E_VOL_UMOUNT_ERR : Z, JsErr.E_UNMOUNT : Z);
   (NativeErr.E_SET_POLICY : Z, NativeErr.E_SET_POLICY : Z);
   (NativeErr.E_USERID_RANGE : Z, JsErr.E_OUTOFRANGE : Z);
   (NativeErr.E_VOL_STATE : Z, JsErr.E_VOLUMESTATE : Z);
   (NativeErr.E_UMOUNT_BUSY : Z, JsErr.E_VOLUMESTATE : Z);
   (NativeErr.E_NOT_SUPPORT : Z, JsErr.E_SUPPORTEDFS : Z);
   (NativeErr.E_SYS_KERNEL_ERR : Z, JsErr.E_UNMOUNT : Z);
   (NativeErr.E_NO_CHILD : Z, NativeErr.E_NO_CHILD : Z);
   (NativeErr.E_WRITE_PARCEL_ERR : Z, JsErr.E_IPCSS : Z);
   (NativeErr.E_WRITE_REPLY_ERR : Z, JsErr.E_IPCSS : Z);
   (NativeErr.E_SA_IS_NULLPTR : Z, JsErr.E_IPCSS : Z);
   (NativeErr.E_REMOTE_IS_NULLPTR : Z, JsErr.E_IPCSS : Z);
   (NativeErr.E_SERVICE_IS_NULLPTR : Z, JsErr.E_IPCSS : Z);
   (NativeErr.E_BUNDLEMGR_ERROR : Z, JsErr.E_IPCSS : Z);
   (NativeErr.E_MEDIALIBRARY_ERROR : Z, JsErr.E_IPCSS : Z);
   (NativeErr.E_DEATH_RECIPIENT_IS_NULLPTR : Z, JsErr.E_IPCSS : Z);
   (NativeErr.E_PARAMS_INVALID : Z, JsErr.E_JS_PARAMS_INVALID : Z);
   (NativeErr.E_SYS_APP_PERMISSION_DENIED : Z, JsErr.E_PERMISSION_SYS : Z);
   (NativeErr.E_SET_EXT_BUNDLE_STATS_ERROR : Z, JsErr.E_JS_SET_EXT_BUNDLE_STATS_ERROR : Z);
   (NativeErr.E_GET_EXT_BUNDLE_STATS_ERROR : Z, JsErr.E_JS_GET_EXT_BUNDLE_STATS_ERROR : Z);
   (NativeErr.E_GET_ALL_EXT_BUNDLE_STATS_ERROR : Z, JsErr.E_JS_GET_ALL_EXT_BUNDLE_STATS_ERROR : Z);
   (NativeErr.E_GET_SYSTEM_DATA_SIZE_ERROR : Z, JsErr.E_JS_GET_SYSTEM_DATA_SIZE_ERROR : Z);
   (NativeErr.E_GET_INODE_ERROR : Z, JsErr.E_JS_GET_INODE_ERROR : Z);
   (NativeErr.E_GET_BUNDLE_INODES_ERROR : Z, JsErr.E_JS_GET_BUNDLE_INODES_ERROR : Z);
   (NativeErr.E_GET_PARTITION_ERROR : Z, JsErr.E_JS_GET_PARTITION_ERROR : Z);
   (NativeErr.E_CREATE_PARTITION_ERROR : Z, JsErr.E_JS_CREATE_PARTITION_ERROR : Z);
   (NativeErr.E_DELETE_PARTITION_ERROR : Z, JsErr.E_JS_DELETE_PARTITION_ERROR : Z);
   (NativeErr.E_FORMAT_PARTITION_ERROR : Z, JsErr.E_JS_FORMAT_PARTITION_ERROR : Z);
   (NativeErr.E_CREATE_PARTITION_NOT_SUPPORT : Z, JsErr.E_SUPPORTEDFS : Z);
   (NativeErr.E_DELETE_PARTITION_NOT_SUPPORT : Z, JsErr.E_SUPPORTEDFS : Z);
   (NativeErr.E_FORMAT_PARTITION_NOT_SUPPORT : Z, JsErr.E_SUPPORTEDFS : Z);
   (NativeErr.E_EMPTY_DISC : Z, JsErr.E_JS_EMPTY_DISC : Z);
   (NativeErr.E_ISO_WRITE_FAILED : Z, JsErr.E_JS_ISO_WRITE_FAILED : Z);
   (NativeErr.E_ERASE_FAILED : Z, JsErr.E_JS_ERASE_FAILED : Z);
   (NativeErr.E_EJECT_FAILED : Z, JsErr.E_JS_EJECT_FAILED : Z);
   (NativeErr.E_BURN_FAILED : Z, JsErr.E_JS_BURN_FAILED : Z);
   (NativeErr.E_BURN_NOSPC : Z, JsErr.E_JS_BURN_NOSPC : Z);
   (NativeErr.E_QUERY_VOLUME_IN_USE_ERROR : Z, JsErr.E_JS_QUERY_VOLUME_IN_USE_ERROR : Z)].

(* @src interfaces/kits/js/common/src/disk_manager_napi_utils.cpp 97-104 Convert2JsErrNum *)
Definition Convert2JsErrNum (errNum : Z) : Z :=
  match errCodeTable !! errNum with
  | Some js => js
  | None => errNum
  end.

(** [AccessTokenKit]: whether the caller is a system application, and what it was granted. *)
Class AccessToken (E : Type) : Type := {
  at_system_app : E -> bool;
  at_granted : string -> E -> bool;
}.
Section tokens.
Context {E : Type} {AT : AccessToken E}.
(* @src interfaces/kits/js/common/src/disk_manager_napi_utils.cpp 80-84 IsSystemApp *)
Definition IsSystemApp (env : E) : bool := at_system_app env.
(* @src interfaces/kits/js/common/src/disk_manager_napi_utils.cpp 86-95 VerifyCallerPermission *)
Definition Kit_VerifyCallerPermission (permissionName : string) (env : E) : bool := at_granted permissionName env.
End tokens.

(** [n_error.h] of file_api and [uv_err_name]. *)
Class LibN : Type := {
  UNKROWN_ERR : Z;
  uv_err_name : Z -> option string;
  uvCode2ErrCodeTable : string -> option Z;
}.

(* @src interfaces/kits/taihe/common/include/storageStatistics_taihe_error.h 31-58 STORAGE_TAIHE_ERR_MAP *)
Definition STORAGE_TAIHE_ERR_MAP : gmap Z (Z * string) :=
  list_to_map [
   (JsErr.E_PERMISSION : Z, (201, "Permission verification failed"));
   (JsErr.E_PERMISSION_SYS : Z, (202, "The caller is not a system application"));
   (JsErr.E_PARAMS : Z, (401, "The input parameter is invalid"));
   (JsErr.E_DEVICENOTSUPPORT : Z, (801, "The device doesn't support this api"));
   (JsErr.E_OSNOTSUPPORT : Z, (901, "The os doesn't support this api"));
   (JsErr.E_IPCSS : Z, (13600001, "IPC error. Possible causes: 1.IPC failed or timed out. 2.Failed to load the service"));
   (JsErr.E_SUPPORTEDFS : Z, (13600002, "Not supported filesystem"));
   (JsErr.E_MOUNT_ERR : Z, (13600003, "Failed to mount"));
   (JsErr.E_UNMOUNT : Z, (13600004, "Failed to unmount"));
   (JsErr.E_VOLUMESTATE : Z, (13600005, "Incorrect volume state"));
   (JsErr.E_PREPARE : Z, (13600006, "Prepare directory or node error"));
   (JsErr.E_DELETE : Z, (13600007, "Delete directory or node error"));
   (JsErr.E_NOOBJECT : Z, (13600008, "No such object"));
   (JsErr.E_OUTOFRANGE : Z, (13600009, "User id out of range"));
   (JsErr.E_JS_PARAMS_INVALID : Z, (13600010, "invalid params"));
   (JsErr.E_JS_SET_EXT_BUNDLE_STATS_ERROR : Z, (13600011, "set ext bundle failed"));
   (JsErr.E_JS_GET_EXT_BUNDLE_STATS_ERROR : Z, (13600012, "get ext bundle failed"));
   (JsErr.E_JS_GET_ALL_EXT_BUNDLE_STATS_ERROR : Z, (13600013, "get all ext bundle failed"));
   (JsErr.E_JS_RETRY_ERROR : Z, (13600014, "retry failed"));
   (JsErr.E_JS_GET_INODE_ERROR : Z, (13600016, "Fail to query the inode information of the data partition"));
   (JsErr.E_JS_GET_BUNDLE_INODES_ERROR : Z, (13600017, "Fail to query the inode information of the application"));
   (JsErr.E_JS_GET_SYSTEM_DATA_SIZE_ERROR : Z, (13600018, "Failed to query the system data size"));
   (JsErr.E_JS_GET_PARTITION_ERROR : Z, (13600021, "Failed to get partition table info"));
   (JsErr.E_JS_CREATE_PARTITION_ERROR : Z, (13600022, "Failed to create partition"));
   (JsErr.E_JS_DELETE_PARTITION_ERROR : Z, (13600023, "Failed to delete partition"));
   (JsErr.E_JS_FORMAT_PARTITION_ERROR : Z, (13600032, "Failed to format partition"));
   (JsErr.E_JS_QUERY_VOLUME_IN_USE_ERROR : Z, (13600033, "Failed to query volume is in use"))].

Section taihe_errors.
Context {LN : LibN}.

(* @src interfaces/kits/taihe/common/src/storageStatistics_taihe_error.cpp 25-40 ConvertUVCode2ErrCode *)
Definition ConvertUVCode2ErrCode (errCode : Z) : Z :=
  if 0 <=? errCode then errCode
  else
    match uv_err_name errCode with
    | None => UNKROWN_ERR
    | Some name => match uvCode2ErrCodeTable name with Some c => c | None => UNKROWN_ERR end
    end.
(* @src interfaces/kits/taihe/common/src/storageStatistics_taihe_error.cpp 42-51 StorageTaiheError::Convert *)
Definition Taihe_Convert (errCode : Z) : Z :=
  match STORAGE_TAIHE_ERR_MAP !! ConvertUVCode2ErrCode errCode with
  | Some (errorCode, _) => errorCode
  | None => UNKROWN_ERR
  end.
(* @src interfaces/kits/taihe/common/src/storageStatistics_taihe_error.cpp 53-63 StorageTaiheError::ToMessage *)
Definition Taihe_ToMessage (errCode : Z) : string :=
  match STORAGE_TAIHE_ERR_MAP !! ConvertUVCode2ErrCode errCode with
  | Some (_, errorMsg) => errorMsg
  | None => "Unknown error. Possible causes: 1.Insufficient memory.2.Memory operation error. 3.Null pointer. 4.Failed to obtain expected resources."
  end.
(** The business error set for a native error. *)
(* @src interfaces/kits/taihe/common/src/storageStatistics_taihe_error.cpp 65-69 StorageTaiheError::SetStorageTaiheError *)
Definition StorageTaiheError (error_code : Z) : Z * string :=
  (Taihe_Convert (Convert2JsErrNum error_code), Taihe_ToMessage (Convert2JsErrNum error_code)).

(** ** Claims *)

(** The native errors the conversion leaves as they are. *)
Definition unconverted : list NativeErr.DiskManagerNativeErr :=
  [NativeErr.E_OK; NativeErr.E_SET_POLICY; NativeErr.E_NO_CHILD; NativeErr.E_BUSY].
(** The native errors that have no message in the Taihe kit. *)
Definition unnamed : list NativeErr.DiskManagerNativeErr :=
  unconverted ++ [NativeErr.E_EMPTY_DISC; NativeErr.E_ISO_WRITE_FAILED; NativeErr.E_ERASE_FAILED; NativeErr.E_EJECT_FAILED;
                  NativeErr.E_BURN_FAILED; NativeErr.E_BURN_NOSPC].

Definition is_js (x : Z) : bool :=
  existsb (fun j => JsErr.DiskManagerJsErr_val j =? x)
    [JsErr.E_PERMISSION; JsErr.E_PERMISSION_SYS; JsErr.E_PARAMS; JsErr.E_DEVICENOTSUPPORT; JsErr.E_OSNOTSUPPORT;
     JsErr.E_IPCSS; JsErr.E_SUPPORTEDFS; JsErr.E_MOUNT_ERR; JsErr.E_UNMOUNT; JsErr.E_VOLUMESTATE;
     JsErr.E_PREPARE; JsErr.E_DELETE; JsErr.E_NOOBJECT; JsErr.E_OUTOFRANGE; JsErr.E_JS_PARAMS_INVALID;
     JsErr.E_JS_SET_EXT_BUNDLE_STATS_ERROR; JsErr.E_JS_GET_EXT_BUNDLE_STATS_ERROR;
     JsErr.E_JS_GET_ALL_EXT_BUNDLE_STATS_ERROR; JsErr.E_JS_RETRY_ERROR; JsErr.E_JS_GET_INODE_ERROR;
     JsErr.E_JS_GET_BUNDLE_INODES_ERROR; JsErr.E_JS_GET_SYSTEM_DATA_SIZE_ERROR; JsErr.E_JS_GET_PARTITION_ERROR;
     JsErr.E_JS_CREATE_PARTITION_ERROR; JsErr.E_JS_DELETE_PARTITION_ERROR; JsErr.E_JS_EMPTY_DISC;
     JsErr.E_JS_ISO_WRITE_FAILED; JsErr.E_JS_ERASE_FAILED; JsErr.E_JS_EJECT_FAILED; JsErr.E_JS_BURN_FAILED;
     JsErr.E_JS_BURN_NOSPC; JsErr.E_JS_FORMAT_PARTITION_ERROR; JsErr.E_JS_QUERY_VOLUME_IN_USE_ERROR;
     JsErr.E_JS_BUSY].
Definition is_native (x : Z) : bool :=
  existsb (fun e => NativeErr.DiskManagerNativeErr_val e =? x)
    [NativeErr.E_OK; NativeErr.E_PERMISSION_DENIED; NativeErr.E_PARAMS_INVALID; NativeErr.E_NON_EXIST;
     NativeErr.E_PREPARE_DIR; NativeErr.E_DESTROY_DIR; NativeErr.E_NOT_SUPPORT; NativeErr.E_SYS_KERNEL_ERR;
     NativeErr.E_WRITE_PARCEL_ERR; NativeErr.E_WRITE_REPLY_ERR; NativeErr.E_WRITE_DESCRIPTOR_ERR;
     NativeErr.E_SA_IS_NULLPTR; NativeErr.E_REMOTE_IS_NULLPTR; NativeErr.E_SERVICE_IS_NULLPTR;
     NativeErr.E_DEATH_RECIPIENT_IS_NULLPTR; NativeErr.E_SYS_APP_PERMISSION_DENIED; NativeErr.E_SET_POLICY;
     NativeErr.E_USERID_RANGE; NativeErr.E_BUNDLEMGR_ERROR; NativeErr.E_MEDIALIBRARY_ERROR;
     NativeErr.E_GET_EXT_BUNDLE_STATS_ERROR; NativeErr.E_SET_EXT_BUNDLE_STATS_ERROR;
     NativeErr.E_GET_ALL_EXT_BUNDLE_STATS_ERROR; NativeErr.E_GET_INODE_ERROR;
     NativeErr.E_GET_SYSTEM_DATA_SIZE_ERROR; NativeErr.E_GET_BUNDLE_INODES_ERROR; NativeErr.E_VOL_STATE;
     NativeErr.E_VOL_MOUNT_ERR; NativeErr.E_VOL_UMOUNT_ERR; NativeErr.E_UMOUNT_BUSY; NativeErr.E_NO_CHILD;
     NativeErr.E_GET_PARTITION_ERROR; NativeErr.E_CREATE_PARTITION_NOT_SUPPORT;
     NativeErr.E_CREATE_PARTITION_ERROR; NativeErr.E_DELETE_PARTITION_NOT_SUPPORT;
     NativeErr.E_DELETE_PARTITION_ERROR; NativeErr.E_FORMAT_PARTITION_NOT_SUPPORT;
     NativeErr.E_FORMAT_PARTITION_ERROR; NativeErr.E_QUERY_VOLUME_IN_USE_ERROR; NativeErr.E_EMPTY_DISC;
     NativeErr.E_ISO_WRITE_FAILED; NativeErr.E_ERASE_FAILED; NativeErr.E_EJECT_FAILED; NativeErr.E_BURN_FAILED;
     NativeErr.E_BURN_NOSPC; NativeErr.E_BUSY].
Lemma is_js_exists x : is_js x = true -> exists j : JsErr.DiskManagerJsErr, x = j.
Proof. unfold is_js. rewrite existsb_exists. intros (j & _ & Hj%Z.eqb_eq). by exists j. Qed.
Lemma is_native_exists x : is_native x = true -> exists e : NativeErr.DiskManagerNativeErr, x = e.
Proof. unfold is_native. rewrite existsb_exists. intros (e & _ & He%Z.eqb_eq). by exists e. Qed.
Lemma errCodeTable_native : map_Forall (fun k _ => is_native k = true) errCodeTable.
Proof. apply (bool_decide_unpack _). vm_compute. exact I. Qed.

(** Each native error becomes one of the JS errors, the four of [unconverted] apart. *)
Theorem Convert2JsErrNum_native (e : NativeErr.DiskManagerNativeErr) :
  (exists j : JsErr.DiskManagerJsErr, Convert2JsErrNum e = j) \/ (e ∈ unconverted /\ Convert2JsErrNum e = e).
Proof.
  destruct e; first [right; split; [vm_compute; set_solver|reflexivity]|left].
  all: apply is_js_exists; vm_compute; reflexivity.
Qed.
(** The JS kit and the Taihe kit report the same code for a native error, except for the
    ten of [unnamed]: for those the Taihe kit reports an unknown error. Any code that is
    no native error reaches the JS kit unchanged. *)
Theorem kits_agree :
  (forall e : NativeErr.DiskManagerNativeErr,
     (StorageTaiheError e).1 = if decide (e ∈ unnamed) then UNKROWN_ERR else Convert2JsErrNum e) /\
  (forall x : Z, (forall e : NativeErr.DiskManagerNativeErr, x <> e) -> Convert2JsErrNum x = x).
Proof.
  split; [by intros []|]. intros x Hx. unfold Convert2JsErrNum.
  destruct (errCodeTable !! x) as [js|] eqn:He; [|done]. exfalso.
  apply errCodeTable_native, is_native_exists in He as [e He]. by apply (Hx e).
Qed.
End taihe_errors.
