(* ===== verification/Client.v ===== *)
(** * [interfaces/innerkits/src/disk_manager_client.cpp]

    The client library: it keeps one proxy of the service, obtains it from the system
    ability manager when there is none, and forwards every call to it. The manager, the
    remote object and the thread that reports the death of the service are the class
    [SaMgr]; the interface of the proxy is generated from [IDiskManager.idl], so a call
    of it is a value of [DmCall] and its answer the class's. The mutex of the client
    covers [Connect], [ConnectIfPresent] and [ResetProxy] each, so other threads run
    only between them and the calls of the proxy ([sm_died]). *)
From S2P Require Import Prelude CppString State Types JsErrors Seq.

(* @src interfaces/innerkits/src/disk_manager_client.cpp 41-41 SA_LOAD_WAIT_TIMEOUT_MS *)
Definition SA_LOAD_WAIT_TIMEOUT_MS : Z := 30000.
(* @src interfaces/innerkits/src/disk_manager_client.cpp 42-42 IPC_OK *)
Definition IPC_OK : Z := 0.
(* @src sa_profile/8640.json 5-5 name *)
Definition DISK_MANAGER_SA_ID : Z := 8640.

(** The methods of [IDiskManager] with their in parameters; the type is that of the
    result code with the out parameters. *)
(* @src interfaces/innerkits/IDiskManager.idl 29-80 IDiskManager *)
Inductive DmCall : Type -> Type :=
  | DmMount (volumeId : string) (mountParam : MountParam) : DmCall Z
  | DmUnmount (volumeId : string) : DmCall Z
  | DmFormat (volumeId fsType : string) : DmCall Z
  | DmSetVolumeDescription (fsUuid description : string) : DmCall Z
  | DmGetAllVolumes : DmCall (Z * list VolumeExternal)
  | DmGetVolumeByUuid (uuid : string) : DmCall (Z * VolumeExternal)
  | DmGetVolumeById (volumeId : string) : DmCall (Z * VolumeExternal)
  | DmGetFreeSizeOfVolume (volumeUuid : string) : DmCall (Z * Z)
  | DmGetTotalSizeOfVolume (volumeUuid : string) : DmCall (Z * Z)
  | DmPartition (diskId : string) (type : Z) : DmCall Z
  | DmGetAllDisks : DmCall (Z * list Disk)
  | DmGetDiskById (diskId : string) : DmCall (Z * Disk)
  | DmGetExternalDiskInfos : DmCall (Z * list ExternalDiskInfo)
  | DmGetExternalVolumeInfos : DmCall (Z * list ExternalVolumeInfo)
  | DmErase (volumeId : string) : DmCall Z
  | DmEject (diskId : string) : DmCall Z
  | DmCreateIsoImage (volumeId filePath : string) : DmCall Z
  | DmBurn (volumeId burnOptions : string) : DmCall Z
  | DmGetVolumeOpProcess (volumeId : string) : DmCall (Z * Z)
  | DmTryToFix (volumeId : string) : DmCall Z
  | DmQueryUsbIsInUse (diskPath : string) : DmCall (Z * bool)
  | DmOnBlockDiskUevent (rawUeventMsg : string) : DmCall Z
  | DmReportVolumeOpDiag (opDiag : string) : DmCall Z
  | DmNotifyMtpMounted (id path desc uuid fsType : string) : DmCall Z
  | DmNotifyMtpUnmounted (id : string) (isBadRemove : bool) : DmCall Z
  | DmGetPartitionTable (diskId : string) : DmCall (Z * PartitionTableInfo)
  | DmCreatePartition (diskId : string) (params : PartitionParams) : DmCall Z
  | DmDeletePartition (diskId : string) (partitionNum : Z) : DmCall Z
  | DmFormatPartition (diskId : string) (partitionNum : Z) (params : FormatParams) : DmCall Z
  | DmBindBlockLoopDev (sysPath : string) (offset sizeLimit : Z) : DmCall (Z * string)
  | DmCreateDmCryptVolume (param : CryptParam) (loopPath mapperName : string) : DmCall (Z * string)
  | DmDestroyDmCryptVolume (mapperName : string) : DmCall Z
  | DmUnbindBlockLoopDev (loopPath : string) : DmCall Z
  | DmMountVolumeByPath (diskId volPath : string) (mountParam : MountParam) : DmCall Z
  | DmUmountVolumeByPath (diskId volPath : string) : DmCall Z.

(** What the system ability manager reports to a load callback. *)
Inductive LoadEvent (O : Type) : Type :=
  | LoadSuccess (systemAbilityId : Z) (remoteObject : option O)
  | LoadFail (systemAbilityId : Z).
Arguments LoadSuccess {O}. Arguments LoadFail {O}.

(** The platform, with its state [E], remote objects [O] and proxies [Pr]. [sm_events]
    gives the load events that arrived since it was asked last, [sm_wait] those that
    arrive while the callback is waited for. [sm_died] tells whether the service's death
    was reported since it was asked last. *)
Class SaMgr (E O Pr : Type) : Type := {
  sm_present : E -> bool * E;
  sm_check : Z -> E -> option O * E;
  sm_load : Z -> E -> Z * E;
  sm_wait : Z -> E -> list (LoadEvent O) * E;
  sm_events : E -> list (LoadEvent O) * E;
  sm_alloc : E -> bool * E;
  sm_cast : O -> E -> option Pr * E;
  sm_object : Pr -> option O;
  sm_call : forall A, Pr -> DmCall A -> E -> A * E;
  sm_died : E -> bool * E;
}.

(** What the client does to the platform. *)
Inductive ClOp (O Pr : Type) : Type :=
  | OpCheck (id : Z)
  | OpLoad (id : Z)
  | OpAddRecipient (o : O) (recipient : nat)
  | OpRemoveRecipient (o : O) (recipient : nat)
  | OpCall (p : Pr) (A : Type) (c : DmCall A).
Arguments OpCheck {O Pr}. Arguments OpLoad {O Pr}. Arguments OpAddRecipient {O Pr}.
Arguments OpRemoveRecipient {O Pr}. Arguments OpCall {O Pr}.

(** The object [DiskManagerClient], the platform's state and the operations so far, the
    oldest first. A death recipient is known by the number of its allocation. *)
(* @src interfaces/innerkits/include/disk_manager_client.h 109-111 DiskManagerClient *)
Record DiskManagerClient (E O Pr : Type) : Type := mkClient {
  diskManager_ : option Pr;
  deathRecipient_ : option nat;
  cl_next : nat;
  cl_env : E;
  cl_ops : list (ClOp O Pr);
}.
Arguments mkClient {E O Pr}. Arguments diskManager_ {E O Pr}. Arguments deathRecipient_ {E O Pr}.
Arguments cl_next {E O Pr}. Arguments cl_env {E O Pr}. Arguments cl_ops {E O Pr}.

(* @src interfaces/innerkits/src/disk_manager_client.cpp 97-101 DmLoadCallback *)
Record DmLoadCallback (O : Type) : Type := mkDmLoadCallback {
  finished_ : bool;
  success_ : bool;
  remoteObject_ : option O;
}.
Arguments mkDmLoadCallback {O}. Arguments finished_ {O}. Arguments success_ {O}. Arguments remoteObject_ {O}.

(** The result code of a call. *)
Definition ret_code {A} (c : DmCall A) : A -> Z :=
  match c in DmCall A return A -> Z with
  | DmGetAllVolumes | DmGetAllDisks | DmGetExternalDiskInfos | DmGetExternalVolumeInfos => fst
  | DmGetVolumeByUuid _ | DmGetVolumeById _ | DmGetDiskById _ | DmGetPartitionTable _ => fst
  | DmGetFreeSizeOfVolume _ | DmGetTotalSizeOfVolume _ | DmGetVolumeOpProcess _ | DmQueryUsbIsInUse _ => fst
  | DmBindBlockLoopDev _ _ _ | DmCreateDmCryptVolume _ _ _ => fst
  | DmMount _ _ | DmUnmount _ | DmFormat _ _ | DmSetVolumeDescription _ _ | DmPartition _ _ | DmErase _ | DmEject _
  | DmCreateIsoImage _ _ | DmBurn _ _ | DmTryToFix _ | DmOnBlockDiskUevent _ | DmReportVolumeOpDiag _
  | DmNotifyMtpMounted _ _ _ _ _ | DmNotifyMtpUnmounted _ _ | DmCreatePartition _ _ | DmDeletePartition _ _
  | DmFormatPartition _ _ _ | DmDestroyDmCryptVolume _ | DmUnbindBlockLoopDev _ | DmMountVolumeByPath _ _ _
  | DmUmountVolumeByPath _ _ => fun ret => ret
  end.

Section client.
Context {E O Pr : Type} {SM : SaMgr E O Pr}.
Notation C := (DiskManagerClient E O Pr).
Notation M := (State C).

Definition new_callback : DmLoadCallback O := mkDmLoadCallback false false None.
(* @src interfaces/innerkits/src/disk_manager_client.cpp 57-67 DmLoadCallback::OnLoadSystemAbilitySuccess *)
Definition OnLoadSystemAbilitySuccess (remoteObject : option O) (_ : DmLoadCallback O) : DmLoadCallback O :=
  mkDmLoadCallback true true remoteObject.
(* @src interfaces/innerkits/src/disk_manager_client.cpp 69-78 DmLoadCallback::OnLoadSystemAbilityFail *)
Definition OnLoadSystemAbilityFail (cb : DmLoadCallback O) : DmLoadCallback O :=
  mkDmLoadCallback true false (remoteObject_ cb).
Definition deliver (cb : DmLoadCallback O) (e : LoadEvent O) : DmLoadCallback O :=
  match e with
  | LoadSuccess _ o => OnLoadSystemAbilitySuccess o cb
  | LoadFail _ => OnLoadSystemAbilityFail cb
  end.
Definition deliver_all (cb : DmLoadCallback O) (es : list (LoadEvent O)) : DmLoadCallback O := foldl deliver cb es.

(** *** Access to the platform *)
Definition platform {A} (f : E -> A * E) : M A := fun c =>
  let (a, env) := f (cl_env c) in (a, mkClient (diskManager_ c) (deathRecipient_ c) (cl_next c) env (cl_ops c)).
Definition log_op (op : ClOp O Pr) : M unit :=
  smodify (fun c => mkClient (diskManager_ c) (deathRecipient_ c) (cl_next c) (cl_env c) (cl_ops c ++ [op])).
Definition set_proxy (p : option Pr) : M unit :=
  smodify (fun c => mkClient p (deathRecipient_ c) (cl_next c) (cl_env c) (cl_ops c)).
Definition set_recipient (r : option nat) : M unit :=
  smodify (fun c => mkClient (diskManager_ c) r (cl_next c) (cl_env c) (cl_ops c)).
(** [new (std::nothrow) DmDeathRecipient()] *)
Definition new_recipient : M (option nat) :=
  let! ok := platform sm_alloc in
  if ok then
    let! n := sget cl_next in
    do! smodify (fun c => mkClient (diskManager_ c) (deathRecipient_ c) (S n) (cl_env c) (cl_ops c)) in
    sret (Some n)
  else sret None.
Definition CheckSystemAbility (id : Z) : M (option O) :=
  do! log_op (OpCheck id) in platform (sm_check id).
Definition LoadSystemAbility (id : Z) : M Z :=
  do! log_op (OpLoad id) in platform (sm_load id).
Definition call_proxy {A} (p : Pr) (c : DmCall A) : M A :=
  do! log_op (OpCall p A c) in platform (sm_call A p c).

(** *** The connection

    [Connect] and [ConnectIfPresent] give the proxy or the error. *)
(* @src interfaces/innerkits/src/disk_manager_client.cpp 80-84 DmLoadCallback::WaitResult *)
Definition WaitResult (timeoutMs : Z) (cb : DmLoadCallback O) : M (bool * DmLoadCallback O) :=
  let! es := platform (sm_wait timeoutMs) in
  let cb := deliver_all cb es in
  sret (finished_ cb, cb).
(** A read of the callback after the wait: it takes no lock and sees the events that
    arrived until then. *)
Definition late_events (cb : DmLoadCallback O) : M (DmLoadCallback O) :=
  let! es := platform sm_events in sret (deliver_all cb es).

(* @src interfaces/innerkits/src/disk_manager_client.cpp 170-190 DiskManagerClient::InitProxyLocked *)
Definition InitProxyLocked (object : O) : M (Z + Pr) :=
  let! p := platform (sm_cast object) in
  do! set_proxy p in
  match p with
  | None => sret (inl (NativeErr.E_SERVICE_IS_NULLPTR : Z))
  | Some proxy =>
      let! r := new_recipient in
      do! set_recipient r in
      match r with
      | None => do! set_proxy None in sret (inl (NativeErr.E_SERVICE_IS_NULLPTR : Z))
      | Some n =>
          do! (match sm_object proxy with Some remote => log_op (OpAddRecipient remote n) | None => sret tt end) in
          sret (inr proxy)
      end
  end.
(* @src interfaces/innerkits/src/disk_manager_client.cpp 110-130 DiskManagerClient::ConnectIfPresent *)
Definition ConnectIfPresent : M (Z + Pr) :=
  let! cur := sget diskManager_ in
  match cur with
  | Some proxy => sret (inr proxy)
  | None =>
      let! sam := platform sm_present in
      if negb sam then sret (inl (NativeErr.E_SA_IS_NULLPTR : Z))
      else
        let! object := CheckSystemAbility DISK_MANAGER_SA_ID in
        match object with
        | None => sret (inl (NativeErr.E_SERVICE_IS_NULLPTR : Z))
        | Some object => InitProxyLocked object
        end
  end.
(** The part of [Connect] that loads the service: the object or the error. *)
(* @src interfaces/innerkits/src/disk_manager_client.cpp 146-166 DiskManagerClient::Connect *)
Definition load_service : M (Z + O) :=
  let! ok := platform sm_alloc in
  if negb ok then sret (inl (NativeErr.E_SERVICE_IS_NULLPTR : Z))
  else
    let! loadRet := LoadSystemAbility DISK_MANAGER_SA_ID in
    if negb (loadRet =? IPC_OK) then sret (inl (NativeErr.E_REMOTE_IS_NULLPTR : Z))
    else
      let! (callbackNotified, cb) := WaitResult SA_LOAD_WAIT_TIMEOUT_MS new_callback in
      if negb callbackNotified then sret (inl (NativeErr.E_REMOTE_IS_NULLPTR : Z))
      else
        let! cb := late_events cb in
        if negb (success_ cb) then sret (inl (NativeErr.E_REMOTE_IS_NULLPTR : Z))
        else
          let! cb := late_events cb in
          match remoteObject_ cb with
          | None => sret (inl (NativeErr.E_REMOTE_IS_NULLPTR : Z))
          | Some object => sret (inr object)
          end.
(* @src interfaces/innerkits/src/disk_manager_client.cpp 132-168 DiskManagerClient::Connect *)
Definition Client_Connect : M (Z + Pr) :=
  let! cur := sget diskManager_ in
  match cur with
  | Some proxy => sret (inr proxy)
  | None =>
      let! sam := platform sm_present in
      if negb sam then sret (inl (NativeErr.E_SA_IS_NULLPTR : Z))
      else
        let! object := CheckSystemAbility DISK_MANAGER_SA_ID in
        match object with
        | Some object => InitProxyLocked object
        | None =>
            let! object := load_service in
            match object with
            | inl err => sret (inl err)
            | inr object => InitProxyLocked object
            end
        end
  end.
(* @src interfaces/innerkits/src/disk_manager_client.cpp 192-205 DiskManagerClient::ResetProxy *)
Definition ResetProxy : M Z :=
  let! p := sget diskManager_ in
  let! r := sget deathRecipient_ in
  do! (match p, r with
       | Some proxy, Some n =>
           match sm_object proxy with Some ao => log_op (OpRemoveRecipient ao n) | None => sret tt end
       | _, _ => sret tt
       end) in
  do! set_proxy None in
  do! set_recipient None in
  sret (NativeErr.E_OK : Z).
(** Another thread may report the service's death here. *)
(* @src interfaces/innerkits/src/disk_manager_client.cpp 48-52 DmDeathRecipient::OnRemoteDied *)
Definition death_reports : M unit :=
  let! died := platform sm_died in
  if died then do! ResetProxy in sret tt else sret tt.

(** *** The shapes of the methods

    [fail] is the result for an error: the code with the out parameters untouched. *)
Definition err_only (err : Z) : Z := err.
Definition forward {A} (fail : Z -> A) (c : DmCall A) : M A :=
  do! death_reports in
  let! r := Client_Connect in
  do! death_reports in
  match r with inl err => sret (fail err) | inr dm => call_proxy dm c end.
Definition forward_present {A} (fail : Z -> A) (c : DmCall A) : M A :=
  do! death_reports in
  let! r := ConnectIfPresent in
  do! death_reports in
  match r with inl err => sret (fail err) | inr dm => call_proxy dm c end.
(** A service that is not running has an empty list. *)
Definition forward_list {T} (vec : list T) (c : DmCall (Z * list T)) : M (Z * list T) :=
  forward_present (fun err => if err =? NativeErr.E_SERVICE_IS_NULLPTR then (NativeErr.E_OK : Z, []) else (err, vec)) c.
(** A service that is not running has no volume. *)
Definition forward_lookup {T} (out : T) (c : DmCall (Z * T)) : M (Z * T) :=
  forward_present
    (fun err => (if err =? NativeErr.E_SERVICE_IS_NULLPTR then NativeErr.E_NON_EXIST : Z else err, out)) c.

(** *** The methods *)
(* @src interfaces/innerkits/src/disk_manager_client.cpp 207-218 DiskManagerClient::Mount *)
Definition Client_Mount (volumeId : string) (mountParam : MountParam) : M Z :=
  forward err_only (DmMount volumeId mountParam).
(* @src interfaces/innerkits/src/disk_manager_client.cpp 220-230 DiskManagerClient::Unmount *)
Definition Client_Unmount (volumeId : string) : M Z := forward err_only (DmUnmount volumeId).
(* @src interfaces/innerkits/src/disk_manager_client.cpp 232-242 DiskManagerClient::Format *)
Definition Client_Format (volumeId fsType : string) : M Z := forward err_only (DmFormat volumeId fsType).
(* @src interfaces/innerkits/src/disk_manager_client.cpp 244-254 DiskManagerClient::SetVolumeDescription *)
Definition Client_SetVolumeDescription (fsUuid description : string) : M Z :=
  forward err_only (DmSetVolumeDescription fsUuid description).
(* @src interfaces/innerkits/src/disk_manager_client.cpp 256-270 DiskManagerClient::GetAllVolumes *)
Definition Client_GetAllVolumes (vecOfVol : list VolumeExternal) : M (Z * list VolumeExternal) :=
  forward_list vecOfVol DmGetAllVolumes.
(* @src interfaces/innerkits/src/disk_manager_client.cpp 272-285 DiskManagerClient::GetVolumeByUuid *)
Definition Client_GetVolumeByUuid (uuid : string) (vc : VolumeExternal) : M (Z * VolumeExternal) :=
  forward_lookup vc (DmGetVolumeByUuid uuid).
(* @src interfaces/innerkits/src/disk_manager_client.cpp 287-300 DiskManagerClient::GetVolumeById *)
Definition Client_GetVolumeById (volumeId : string) (vc : VolumeExternal) : M (Z * VolumeExternal) :=
  forward_lookup vc (DmGetVolumeById volumeId).
(* @src interfaces/innerkits/src/disk_manager_client.cpp 302-312 DiskManagerClient::GetFreeSizeOfVolume *)
Definition Client_GetFreeSizeOfVolume (volumeUuid : string) (freeSize : Z) : M (Z * Z) :=
  forward (fun err => (err, freeSize)) (DmGetFreeSizeOfVolume volumeUuid).
(* @src interfaces/innerkits/src/disk_manager_client.cpp 314-324 DiskManagerClient::GetTotalSizeOfVolume *)
Definition Client_GetTotalSizeOfVolume (volumeUuid : string) (totalSize : Z) : M (Z * Z) :=
  forward (fun err => (err, totalSize)) (DmGetTotalSizeOfVolume volumeUuid).
(* @src interfaces/innerkits/src/disk_manager_client.cpp 326-336 DiskManagerClient::Partition *)
Definition Client_Partition (diskId : string) (type : Z) : M Z := forward err_only (DmPartition diskId type).
(* @src interfaces/innerkits/src/disk_manager_client.cpp 338-352 DiskManagerClient::GetAllDisks *)
Definition Client_GetAllDisks (vecOfDisk : list Disk) : M (Z * list Disk) := forward_list vecOfDisk DmGetAllDisks.
(* @src interfaces/innerkits/src/disk_manager_client.cpp 354-364 DiskManagerClient::GetDiskById *)
Definition Client_GetDiskById (diskId : string) (disk : Disk) : M (Z * Disk) :=
  forward (fun err => (err, disk)) (DmGetDiskById diskId).
(* @src interfaces/innerkits/src/disk_manager_client.cpp 366-380 DiskManagerClient::GetExternalDiskInfos *)
Definition Client_GetExternalDiskInfos (vecOfDiskInfo : list ExternalDiskInfo) : M (Z * list ExternalDiskInfo) :=
  forward_list vecOfDiskInfo DmGetExternalDiskInfos.
(* @src interfaces/innerkits/src/disk_manager_client.cpp 382-396 DiskManagerClient::GetExternalVolumeInfos *)
Definition Client_GetExternalVolumeInfos (vecOfVolInfo : list ExternalVolumeInfo) : M (Z * list ExternalVolumeInfo) :=
  forward_list vecOfVolInfo DmGetExternalVolumeInfos.
(* @src interfaces/innerkits/src/disk_manager_client.cpp 398-408 DiskManagerClient::Erase *)
Definition Client_Erase (volumeId : string) : M Z := forward err_only (DmErase volumeId).
(* @src interfaces/innerkits/src/disk_manager_client.cpp 410-420 DiskManagerClient::Eject *)
Definition Client_Eject (diskId : string) : M Z := forward err_only (DmEject diskId).
(* @src interfaces/innerkits/src/disk_manager_client.cpp 422-432 DiskManagerClient::CreateIsoImage *)
Definition Client_CreateIsoImage (volumeId filePath : string) : M Z :=
  forward err_only (DmCreateIsoImage volumeId filePath).
(* @src interfaces/innerkits/src/disk_manager_client.cpp 434-444 DiskManagerClient::Burn *)
Definition Client_Burn (volumeId burnOptions : string) : M Z := forward err_only (DmBurn volumeId burnOptions).
(* @src interfaces/innerkits/src/disk_manager_client.cpp 446-456 DiskManagerClient::GetVolumeOpProcess *)
Definition Client_GetVolumeOpProcess (volumeId : string) (progressPct : Z) : M (Z * Z) :=
  forward (fun err => (err, progressPct)) (DmGetVolumeOpProcess volumeId).
(* @src interfaces/innerkits/src/disk_manager_client.cpp 458-468 DiskManagerClient::TryToFix *)
Definition Client_TryToFix (volumeId : string) : M Z := forward err_only (DmTryToFix volumeId).
(* @src interfaces/innerkits/src/disk_manager_client.cpp 470-480 DiskManagerClient::QueryUsbIsInUse *)
Definition Client_QueryUsbIsInUse (diskPath : string) (isInUse : bool) : M (Z * bool) :=
  forward (fun err => (err, isInUse)) (DmQueryUsbIsInUse diskPath).
(* @src interfaces/innerkits/src/disk_manager_client.cpp 482-492 DiskManagerClient::OnBlockDiskUevent *)
Definition Client_OnBlockDiskUevent (rawUeventMsg : string) : M Z :=
  forward err_only (DmOnBlockDiskUevent rawUeventMsg).
(* @src interfaces/innerkits/src/disk_manager_client.cpp 494-505 DiskManagerClient::ReportVolumeOpDiag *)
Definition Client_ReportVolumeOpDiag (opDiag : string) : M Z := forward_present err_only (DmReportVolumeOpDiag opDiag).
(* @src interfaces/innerkits/src/disk_manager_client.cpp 507-525 DiskManagerClient::NotifyMtpMounted *)
Definition Client_NotifyMtpMounted (id path desc uuid fsType : string) : M Z :=
  forward err_only (DmNotifyMtpMounted id path desc uuid fsType).
(* @src interfaces/innerkits/src/disk_manager_client.cpp 527-543 DiskManagerClient::NotifyMtpUnmounted *)
Definition Client_NotifyMtpUnmounted (id : string) (isBadRemove : bool) : M Z :=
  forward err_only (DmNotifyMtpUnmounted id isBadRemove).
(* @src interfaces/innerkits/src/disk_manager_client.cpp 547-557 DiskManagerClient::GetPartitionTable *)
Definition Client_GetPartitionTable (diskId : string) (out : PartitionTableInfo) : M (Z * PartitionTableInfo) :=
  forward (fun err => (err, out)) (DmGetPartitionTable diskId).
(* @src interfaces/innerkits/src/disk_manager_client.cpp 559-569 DiskManagerClient::CreatePartition *)
Definition Client_CreatePartition (diskId : string) (params : PartitionParams) : M Z :=
  forward err_only (DmCreatePartition diskId params).
(* @src interfaces/innerkits/src/disk_manager_client.cpp 571-581 DiskManagerClient::DeletePartition *)
Definition Client_DeletePartition (diskId : string) (partitionNum : Z) : M Z :=
  forward err_only (DmDeletePartition diskId partitionNum).
(* @src interfaces/innerkits/src/disk_manager_client.cpp 583-594 DiskManagerClient::FormatPartition *)
Definition Client_FormatPartition (diskId : string) (partitionNum : Z) (params : FormatParams) : M Z :=
  forward err_only (DmFormatPartition diskId partitionNum params).
(* @src interfaces/innerkits/src/disk_manager_client.cpp 596-607 DiskManagerClient::BindBlockLoopDev *)
Definition Client_BindBlockLoopDev (sysPath : string) (offset sizeLimit : Z) (loopPath : string) : M (Z * string) :=
  forward (fun err => (err, loopPath)) (DmBindBlockLoopDev sysPath offset sizeLimit).
(* @src interfaces/innerkits/src/disk_manager_client.cpp 609-620 DiskManagerClient::CreateDmCryptVolume *)
Definition Client_CreateDmCryptVolume (param : CryptParam) (loopPath mapperName : string) : M (Z * string) :=
  forward (fun err => (err, mapperName)) (DmCreateDmCryptVolume param loopPath mapperName).
(* @src interfaces/innerkits/src/disk_manager_client.cpp 622-632 DiskManagerClient::DestroyDmCryptVolume *)
Definition Client_DestroyDmCryptVolume (mapperName : string) : M Z :=
  forward err_only (DmDestroyDmCryptVolume mapperName).
(* @src interfaces/innerkits/src/disk_manager_client.cpp 634-644 DiskManagerClient::UnbindBlockLoopDev *)
Definition Client_UnbindBlockLoopDev (loopPath : string) : M Z := forward err_only (DmUnbindBlockLoopDev loopPath).
(* @src interfaces/innerkits/src/disk_manager_client.cpp 646-657 DiskManagerClient::MountVolumeByPath *)
Definition Client_MountVolumeByPath (diskId volPath : string) (mountParam : MountParam) : M Z :=
  forward err_only (DmMountVolumeByPath diskId volPath mountParam).
(* @src interfaces/innerkits/src/disk_manager_client.cpp 659-669 DiskManagerClient::UmountVolumeByPath *)
Definition Client_UmountVolumeByPath (diskId volPath : string) : M Z :=
  forward err_only (DmUmountVolumeByPath diskId volPath).

(** *** All methods as one

    [run_call old c] is the client's method for the call [c]; [old] holds the
    caller's out parameters. *)
Definition run_call {A} (c : DmCall A) : A -> M A :=
  match c in DmCall A return A -> M A with
  | DmMount volumeId mountParam => fun _ => Client_Mount volumeId mountParam
  | DmUnmount volumeId => fun _ => Client_Unmount volumeId
  | DmFormat volumeId fsType => fun _ => Client_Format volumeId fsType
  | DmSetVolumeDescription fsUuid description => fun _ => Client_SetVolumeDescription fsUuid description
  | DmGetAllVolumes => fun old => Client_GetAllVolumes old.2
  | DmGetVolumeByUuid uuid => fun old => Client_GetVolumeByUuid uuid old.2
  | DmGetVolumeById volumeId => fun old => Client_GetVolumeById volumeId old.2
  | DmGetFreeSizeOfVolume volumeUuid => fun old => Client_GetFreeSizeOfVolume volumeUuid old.2
  | DmGetTotalSizeOfVolume volumeUuid => fun old => Client_GetTotalSizeOfVolume volumeUuid old.2
  | DmPartition diskId type => fun _ => Client_Partition diskId type
  | DmGetAllDisks => fun old => Client_GetAllDisks old.2
  | DmGetDiskById diskId => fun old => Client_GetDiskById diskId old.2
  | DmGetExternalDiskInfos => fun old => Client_GetExternalDiskInfos old.2
  | DmGetExternalVolumeInfos => fun old => Client_GetExternalVolumeInfos old.2
  | DmErase volumeId => fun _ => Client_Erase volumeId
  | DmEject diskId => fun _ => Client_Eject diskId
  | DmCreateIsoImage volumeId filePath => fun _ => Client_CreateIsoImage volumeId filePath
  | DmBurn volumeId burnOptions => fun _ => Client_Burn volumeId burnOptions
  | DmGetVolumeOpProcess volumeId => fun old => Client_GetVolumeOpProcess volumeId old.2
  | DmTryToFix volumeId => fun _ => Client_TryToFix volumeId
  | DmQueryUsbIsInUse diskPath => fun old => Client_QueryUsbIsInUse diskPath old.2
  | DmOnBlockDiskUevent rawUeventMsg => fun _ => Client_OnBlockDiskUevent rawUeventMsg
  | DmReportVolumeOpDiag opDiag => fun _ => Client_ReportVolumeOpDiag opDiag
  | DmNotifyMtpMounted id path desc uuid fsType => fun _ => Client_NotifyMtpMounted id path desc uuid fsType
  | DmNotifyMtpUnmounted id isBadRemove => fun _ => Client_NotifyMtpUnmounted id isBadRemove
  | DmGetPartitionTable diskId => fun old => Client_GetPartitionTable diskId old.2
  | DmCreatePartition diskId params => fun _ => Client_CreatePartition diskId params
  | DmDeletePartition diskId partitionNum => fun _ => Client_DeletePartition diskId partitionNum
  | DmFormatPartition diskId partitionNum params => fun _ => Client_FormatPartition diskId partitionNum params
  | DmBindBlockLoopDev sysPath offset sizeLimit => fun old => Client_BindBlockLoopDev sysPath offset sizeLimit old.2
  | DmCreateDmCryptVolume param loopPath mapperName => fun _ => Client_CreateDmCryptVolume param loopPath mapperName
  | DmDestroyDmCryptVolume mapperName => fun _ => Client_DestroyDmCryptVolume mapperName
  | DmUnbindBlockLoopDev loopPath => fun _ => Client_UnbindBlockLoopDev loopPath
  | DmMountVolumeByPath diskId volPath mountParam => fun _ => Client_MountVolumeByPath diskId volPath mountParam
  | DmUmountVolumeByPath diskId volPath => fun _ => Client_UmountVolumeByPath diskId volPath
  end.
End client.
