(* ===== verification/ClientFacts.v ===== *)
(** * Theorems about the client library

    Which operations a call performs on the platform, what its result is, and the
    invariant of the connection over every sequence of calls and death reports. *)
From S2P Require Import Prelude CppString State Types JsErrors Seq Client.

Section client.
Context {E O Pr : Type} {SM : SaMgr E O Pr}.
Notation C := (DiskManagerClient E O Pr).
Notation M := (State C).

(** ** The operations a computation adds *)
Definition appends (P : ClOp O Pr -> Prop) (c c' : C) : Prop := exists new, cl_ops c' = cl_ops c ++ new /\ Forall P new.
#[export] Instance appends_preorder P : PreOrder (appends P).
Proof.
  split.
  - intros c. exists []. by rewrite app_nil_r.
  - intros a b c (n1 & H1 & F1) (n2 & H2 & F2). exists (n1 ++ n2). split; [by rewrite H2, H1, app_assoc|].
    by apply Forall_app.
Qed.
Lemma appends_same P c c' : cl_ops c' = cl_ops c -> appends P c c'.
Proof. intros H. exists []. by rewrite H, app_nil_r. Qed.
Lemma appends_mono (P Q : ClOp O Pr -> Prop) c c' : (forall o, P o -> Q o) -> appends P c c' -> appends Q c c'.
Proof. intros H (new & Hn & F). exists new. split; [done|]. by eapply Forall_impl. Qed.

Definition is_call (op : ClOp O Pr) : Prop := match op with OpCall _ _ _ => True | _ => False end.
Definition is_load (op : ClOp O Pr) : Prop := match op with OpLoad _ => True | _ => False end.
(** Operations that only look the service up and keep the registration. *)
Definition quiet (op : ClOp O Pr) : Prop := ~ is_call op /\ ~ is_load op.

Section keeps_ops.
Context (P : ClOp O Pr -> Prop) (HP : forall op, quiet op -> P op).
Lemma Keeps_platform {A} (f : E -> A * E) : Keeps (appends P) (platform f).
Proof. intros c. apply appends_same. unfold platform. by destruct (f (cl_env c)). Qed.
Lemma Keeps_set (f : C -> C) : (forall c, cl_ops (f c) = cl_ops c) -> Keeps (appends P) (smodify f).
Proof. intros H c. apply appends_same, H. Qed.
Lemma Keeps_log op : P op -> Keeps (appends P) (log_op op).
Proof. intros H c. exists [op]. split; [done|]. by constructor. Qed.
Lemma Keeps_quiet op : quiet op -> Keeps (appends P) (log_op op).
Proof. intros H. by apply Keeps_log, HP. Qed.
Ltac ops_tac :=
  repeat first
    [ keeps_step | apply Keeps_platform | apply Keeps_set; done | apply Keeps_quiet; split; exact (fun f => f)
    | progress unfold CheckSystemAbility, WaitResult, late_events, new_recipient, set_proxy, set_recipient ].
Lemma Keeps_InitProxyLocked object : Keeps (appends P) (InitProxyLocked object).
Proof. unfold InitProxyLocked. ops_tac. Qed.
Lemma Keeps_ConnectIfPresent : Keeps (appends P) ConnectIfPresent.
Proof. unfold ConnectIfPresent. repeat first [apply Keeps_InitProxyLocked | ops_tac]. Qed.
Lemma Keeps_ResetProxy : Keeps (appends P) ResetProxy.
Proof. unfold ResetProxy. ops_tac. Qed.
Lemma Keeps_death_reports : Keeps (appends P) death_reports.
Proof. unfold death_reports. repeat first [apply Keeps_ResetProxy | ops_tac]. Qed.
Lemma Keeps_Connect : (forall id, P (OpLoad id)) -> Keeps (appends P) Client_Connect.
Proof.
  intros HL. unfold Client_Connect, load_service, LoadSystemAbility.
  repeat first [apply Keeps_InitProxyLocked | apply Keeps_log; apply HL | ops_tac].
Qed.
End keeps_ops.

(** ** Results of the connection *)
Definition connect_error (err : Z) : Prop :=
  err = NativeErr.E_SA_IS_NULLPTR \/ err = NativeErr.E_SERVICE_IS_NULLPTR \/ err = NativeErr.E_REMOTE_IS_NULLPTR.
Definition connected_or (Q : Z -> Prop) (r : Z + Pr) (c : C) : Prop :=
  match r with inl err => Q err | inr p => diskManager_ c = Some p end.
Lemma InitProxyLocked_result object s :
  wp (InitProxyLocked object) (connected_or (fun err => err = NativeErr.E_SERVICE_IS_NULLPTR)) s.
Proof.
  unfold InitProxyLocked, set_proxy, new_recipient, set_recipient, log_op, platform, sbind, sget, smodify, sret, wp.
  destruct (sm_cast object (cl_env s)) as [[p|] e]; cbn; [|done]. destruct (sm_alloc e) as [[] e']; cbn; [|done].
  by destruct (sm_object p).
Qed.
Ltac after x pat := apply wp_bind; unfold wp at 1; destruct x as pat; cbn [fst snd negb].
Ltac refuse := apply wp_ret; unfold connected_or, connect_error; by auto.
Lemma InitProxyLocked_connected object s : wp (InitProxyLocked object) (connected_or connect_error) s.
Proof. eapply wp_mono; [|apply InitProxyLocked_result]. intros [err|p] s' H; [|done]. rewrite H. by right; left. Qed.
Lemma ConnectIfPresent_result s : wp ConnectIfPresent (connected_or connect_error) s.
Proof.
  unfold ConnectIfPresent. apply wp_bind, wp_get. destruct (diskManager_ s) as [p|] eqn:Hp; [exact Hp|].
  after (platform sm_present s) ipattern:([[] s1]); [|refuse].
  after (CheckSystemAbility DISK_MANAGER_SA_ID s1) ipattern:([[o|] s2]); [|refuse]. apply InitProxyLocked_connected.
Qed.
Lemma load_service_result s :
  wp load_service (fun r _ => match r with inl err => connect_error err | inr _ => True end) s.
Proof.
  unfold load_service.
  after (platform sm_alloc s) ipattern:([[] s1]); [|refuse].
  after (LoadSystemAbility DISK_MANAGER_SA_ID s1) ipattern:([l s2]). destruct (l =? IPC_OK); [cbn [negb]|refuse].
  after (WaitResult SA_LOAD_WAIT_TIMEOUT_MS new_callback s2) ipattern:([[[] cb] s3]); [|refuse].
  after (late_events cb s3) ipattern:([cb1 s4]). destruct (success_ cb1); [cbn [negb]|refuse].
  after (late_events cb1 s4) ipattern:([cb2 s5]). destruct (remoteObject_ cb2); [done|refuse].
Qed.
Lemma Connect_result s : wp Client_Connect (connected_or connect_error) s.
Proof.
  unfold Client_Connect. apply wp_bind, wp_get. destruct (diskManager_ s) as [p|] eqn:Hp; [exact Hp|].
  after (platform sm_present s) ipattern:([[] s1]); [|refuse].
  after (CheckSystemAbility DISK_MANAGER_SA_ID s1) ipattern:([[o|] s2]); [apply InitProxyLocked_connected|].
  apply wp_bind. eapply wp_mono; [|apply load_service_result].
  intros [err|o] s3 H; [exact H|]. apply InitProxyLocked_connected.
Qed.

(** ** The methods *)
(** How a method treats a service that is not running: it starts it ([InOut] for the one
    with an out parameter that is read too) or answers itself. *)
Variant Manner : Set := Loading | InOut | ListQuery | Lookup | Report.
Definition starts_service (m : Manner) : bool := match m with Loading | InOut => true | _ => false end.
Definition manner {A} (c : DmCall A) : Manner :=
  match c with
  | DmGetAllVolumes | DmGetAllDisks | DmGetExternalDiskInfos | DmGetExternalVolumeInfos => ListQuery
  | DmGetVolumeByUuid _ | DmGetVolumeById _ => Lookup
  | DmReportVolumeOpDiag _ => Report
  | DmCreateDmCryptVolume _ _ _ => InOut
  | _ => Loading
  end.
(** The results of a call that could not be forwarded because of [err]. *)
Inductive refusal_of (err : Z) : forall A, DmCall A -> A -> A -> Prop :=
  | refusal_of_plain (c : DmCall Z) old : refusal_of err Z c old err
  | refusal_of_out T (c : DmCall (Z * T)) old : manner c = Loading -> refusal_of err (Z * T) c old (err, old.2)
  | refusal_of_inout param loopPath mapperName old :
      refusal_of err (Z * string) (DmCreateDmCryptVolume param loopPath mapperName) old (err, mapperName)
  | refusal_of_list T (c : DmCall (Z * list T)) old : manner c = ListQuery ->
      refusal_of err (Z * list T) c old
        (if err =? NativeErr.E_SERVICE_IS_NULLPTR then (NativeErr.E_OK : Z, []) else (err, old.2))
  | refusal_of_lookup T (c : DmCall (Z * T)) old : manner c = Lookup ->
      refusal_of err (Z * T) c old
        (if err =? NativeErr.E_SERVICE_IS_NULLPTR then NativeErr.E_NON_EXIST : Z else err, old.2).

(** The service is not running: there is no proxy, the system ability manager is
    there, and it does not know the service. *)
Definition not_running (s : C) : Prop :=
  diskManager_ s = None /\ exists e e', sm_present (cl_env s) = (true, e) /\ sm_check DISK_MANAGER_SA_ID e = (None, e').
(** ... and the callback of a load can be allocated. *)
Definition can_load (s : C) : Prop :=
  diskManager_ s = None /\ exists e e' e'', sm_present (cl_env s) = (true, e) /\ sm_check DISK_MANAGER_SA_ID e = (None, e') /\
    sm_alloc e' = (true, e'').
(** What a connection adds to the operations; [start] when it may start the service. *)
Definition lookup_op (start : bool) (s : C) (op : ClOp O Pr) : Prop :=
  ~ is_call op /\ (is_load op -> start = true /\ not_running s).
Lemma quiet_lookup start s op : quiet op -> lookup_op start s op.
Proof. intros [H1 H2]. by split. Qed.
Lemma appends_quiet start s c c' : appends quiet c c' -> appends (lookup_op start s) c c'.
Proof. apply appends_mono, quiet_lookup. Qed.
Record connects (start : bool) (conn : M (Z + Pr)) : Prop := {
  conn_ops s : appends (lookup_op start s) s (conn s).2;
  conn_loads s : start = true -> can_load s ->
    exists new, cl_ops (conn s).2 = cl_ops s ++ new /\ OpLoad DISK_MANAGER_SA_ID ∈ new;
  conn_result s : wp conn (connected_or connect_error) s;
  conn_absent s : start = false -> not_running s -> (conn s).1 = inl (NativeErr.E_SERVICE_IS_NULLPTR : Z);
  conn_held s p : diskManager_ s = Some p -> (conn s).1 = inr p;
}.
Lemma appends_new (P : ClOp O Pr -> Prop) (op : ClOp O Pr) (s s1 s2 s' : C) :
  appends P s s1 -> cl_ops s2 = cl_ops s1 ++ [op] -> appends P s2 s' -> exists new, cl_ops s' = cl_ops s ++ new /\ op ∈ new.
Proof.
  intros (n1 & H1 & _) H2 (n2 & H3 & _). exists (n1 ++ [op] ++ n2). split; [by rewrite H3, H2, H1, <- !app_assoc|]. set_solver.
Qed.
Lemma platform_run {A} (f : E -> A * E) (s : C) a e : f (cl_env s) = (a, e) ->
  platform f s = (a, mkClient (diskManager_ s) (deathRecipient_ s) (cl_next s) e (cl_ops s)).
Proof. unfold platform. by intros ->. Qed.
Lemma check_run id (s : C) o e : sm_check id (cl_env s) = (o, e) ->
  CheckSystemAbility id s = (o, mkClient (diskManager_ s) (deathRecipient_ s) (cl_next s) e (cl_ops s ++ [OpCheck id])).
Proof. intros H. unfold CheckSystemAbility, log_op, platform, sbind, smodify. cbn. by rewrite H. Qed.

(** [load_service] before and after its one load. *)
Lemma Keeps_load_service (P : ClOp O Pr -> Prop) :
  (forall op, quiet op -> P op) -> (forall id, P (OpLoad id)) -> Keeps (appends P) load_service.
Proof.
  intros HP HL. unfold load_service, LoadSystemAbility, WaitResult, late_events.
  repeat first [keeps_step | apply Keeps_log; apply HL | apply Keeps_platform].
Qed.
Lemma load_then {B} id (k : Z -> M B) (s : C) : (forall r, Keeps (appends (fun _ => True)) (k r)) ->
  exists new, cl_ops ((let! r := LoadSystemAbility id in k r) s).2 = cl_ops s ++ new /\ OpLoad id ∈ new.
Proof.
  intros Hk. unfold LoadSystemAbility, sbind. set (s1 := (log_op (OpLoad id) s).2).
  assert (Hp := Keeps_platform (fun _ => True) (sm_load id) s1). change (log_op (OpLoad id) s) with (tt, s1). cbn [fst snd].
  destruct (platform (sm_load id) s1) as [r s2]. apply (appends_new (fun _ => True) _ s s s1); [by apply appends_same|done|].
  etransitivity; [exact Hp|apply Hk].
Qed.
Lemma load_service_loads (s : C) e : sm_alloc (cl_env s) = (true, e) ->
  exists new, cl_ops (load_service s).2 = cl_ops s ++ new /\ OpLoad DISK_MANAGER_SA_ID ∈ new.
Proof.
  intros H. unfold load_service. rewrite (sbind_run _ _ _ _ _ (platform_run _ _ _ _ H)). cbn [negb].
  apply (load_then _ _ (mkClient _ _ _ e (cl_ops s))). intros r. unfold WaitResult, late_events.
  repeat first [keeps_step | apply Keeps_platform].
Qed.

Lemma ConnectIfPresent_connects : connects false ConnectIfPresent.
Proof.
  split.
  - intros s. apply appends_quiet. by apply Keeps_ConnectIfPresent.
  - done.
  - apply ConnectIfPresent_result.
  - intros s _ (Hd & e & e' & Hp & Hc). unfold ConnectIfPresent, sbind at 1, sget. rewrite Hd.
    rewrite (sbind_run _ _ _ _ _ (platform_run _ _ _ _ Hp)). cbn [negb]. by rewrite (sbind_run _ _ _ _ _ (check_run _ (mkClient _ _ _ e _) _ _ Hc)).
  - intros s p Hp. unfold ConnectIfPresent, sbind, sget. by rewrite Hp.
Qed.
Lemma Connect_running (s : C) : ~ not_running s -> appends quiet s (Client_Connect s).2.
Proof.
  intros Hn. unfold Client_Connect, sbind at 1, sget. destruct (diskManager_ s) as [p|] eqn:Hd; [apply appends_same; done|].
  destruct (sm_present (cl_env s)) as [b e] eqn:Hp. rewrite (sbind_run _ _ _ _ _ (platform_run _ _ _ _ Hp)).
  destruct b; cbn [negb]; [|apply appends_same; done]. set (s1 := mkClient _ _ _ e _).
  destruct (sm_check DISK_MANAGER_SA_ID (cl_env s1)) as [o e'] eqn:Hc. rewrite (sbind_run _ _ _ _ _ (check_run _ _ _ _ Hc)).
  destruct o as [o|]; [|exfalso; apply Hn; split; [done|by exists e, e']].
  transitivity (mkClient (diskManager_ s1) (deathRecipient_ s1) (cl_next s1) e' (cl_ops s1 ++ [OpCheck DISK_MANAGER_SA_ID])).
  - exists [OpCheck DISK_MANAGER_SA_ID]. split; [done|]. apply Forall_singleton. split; intros H; exact H.
  - by apply Keeps_InitProxyLocked.
Qed.
Lemma Connect_connects : connects true Client_Connect.
Proof.
  split.
  - intros s. destruct (diskManager_ s) as [p|] eqn:Hd.
    { apply appends_quiet, Connect_running. intros [? _]. congruence. }
    destruct (sm_present (cl_env s)) as [b e] eqn:Hp. destruct b.
    2:{ apply appends_quiet, Connect_running. intros (_ & ? & ? & ? & _). congruence. }
    destruct (sm_check DISK_MANAGER_SA_ID e) as [o e'] eqn:Hc. destruct o as [o|].
    { apply appends_quiet, Connect_running. intros (_ & e1 & e2 & H1 & H2). rewrite Hp in H1. injection H1 as <-. congruence. }
    assert (Hn : not_running s) by (split; [done|by exists e, e']).
    apply Keeps_Connect; [apply quiet_lookup|]. intros id. split; [intros H; exact H|by split].
  - intros s _ (Hd & e & e' & e'' & Hp & Hc & Ha). unfold Client_Connect, sbind at 1, sget. rewrite Hd.
    rewrite (sbind_run _ _ _ _ _ (platform_run _ _ _ _ Hp)). cbn [negb]. rewrite (sbind_run _ _ _ _ _ (check_run _ (mkClient _ _ _ e _) _ _ Hc)).
    set (s1 := mkClient _ _ _ e' _). destruct (load_service_loads s1 e'' Ha) as (n & Hn & Hin). unfold sbind.
    destruct (load_service s1) as [r s2]. cbn [fst snd] in Hn.
    assert (Hk : appends quiet s2 ((match r with inl err => sret (inl err) | inr o => InitProxyLocked o end) s2).2).
    { destruct r as [err|o]; [apply appends_same; done|]. by apply Keeps_InitProxyLocked. }
    destruct Hk as (n2 & Hn2 & _). exists ([OpCheck DISK_MANAGER_SA_ID] ++ n ++ n2).
    split; [rewrite Hn2, Hn; cbn; by rewrite <- !app_assoc|set_solver].
  - apply Connect_result.
  - done.
  - intros s p Hp. unfold Client_Connect, sbind, sget. by rewrite Hp.
Qed.

(** ** The outcome of a call

    The connection is looked up in [s1], when the reports of the service's death that came
    first have been served. *)
Definition call_outcome {A} (c : DmCall A) (old : A) (s : C) (res : A) (s' : C) : Prop :=
  let s1 := (death_reports s).2 in
  let start := starts_service (manner c) in
  exists pre, Forall (lookup_op start s1) pre /\
    (start = true -> can_load s1 -> OpLoad DISK_MANAGER_SA_ID ∈ pre) /\
    ((exists p env, cl_ops s' = cl_ops s ++ pre ++ [OpCall p A c] /\ res = (sm_call A p c env).1 /\
        (forall q, diskManager_ s1 = Some q -> p = q) /\ (start = false -> ~ not_running s1)) \/
     (exists err, cl_ops s' = cl_ops s ++ pre /\ connect_error err /\ refusal_of err A c old res /\ diskManager_ s1 = None /\
        (start = false -> not_running s1 -> err = NativeErr.E_SERVICE_IS_NULLPTR))).
Definition forward_by (conn : M (Z + Pr)) {A} (fail : Z -> A) (c : DmCall A) : M A :=
  do! death_reports in
  let! r := conn in
  do! death_reports in
  match r with inl err => sret (fail err) | inr dm => call_proxy dm c end.
Lemma forward_by_outcome conn {A} (fail : Z -> A) (c : DmCall A) old s :
  connects (starts_service (manner c)) conn -> (forall err, refusal_of err A c old (fail err)) ->
  wp (forward_by conn fail c) (call_outcome c old s) s.
Proof.
  intros Hconn Hf. unfold forward_by, call_outcome, wp, sbind. set (start := starts_service (manner c)) in *.
  assert (H1 := Keeps_death_reports quiet (fun _ H => H) s). destruct (death_reports s) as [[] s1]. cbn [fst snd] in *.
  assert (H2 := conn_ops _ _ Hconn s1). assert (HL := conn_loads _ _ Hconn s1). assert (Hr := conn_result _ _ Hconn s1).
  assert (Ha := conn_absent _ _ Hconn s1). assert (Hh := conn_held _ _ Hconn s1). unfold wp in Hr.
  destruct (conn s1) as [r s2]. cbn [fst snd] in *.
  assert (H3 := Keeps_death_reports quiet (fun _ H => H) s2). destruct (death_reports s2) as [[] s3]. cbn [fst snd] in *.
  apply (appends_quiet start s1) in H1, H3. destruct H1 as (n1 & E1 & F1), H2 as (n2 & E2 & F2), H3 as (n3 & E3 & F3).
  exists (n1 ++ n2 ++ n3). split; [by repeat (apply Forall_app; split)|]. split.
  { intros Hs Hl. destruct (HL Hs Hl) as (n & Hn & Hin). rewrite E2 in Hn. apply app_inv_head in Hn as ->. set_solver. }
  assert (Eops : cl_ops s3 = cl_ops s ++ n1 ++ n2 ++ n3) by (by rewrite E3, E2, E1, <- !app_assoc).
  destruct r as [err|p].
  - right. exists err. split; [exact Eops|]. split; [exact Hr|]. split; [apply Hf|]. split.
    + destruct (diskManager_ s1) as [q|] eqn:Hq; [|done]. by specialize (Hh q eq_refl).
    + intros Hs Hn. specialize (Ha Hs Hn). by injection Ha.
  - left. exists p, (cl_env s3). unfold call_proxy, log_op, platform, sbind, smodify. cbn.
    destruct (sm_call A p c (cl_env s3)) as [a e]. cbn. split; [by rewrite Eops, <- app_assoc|]. split; [done|]. split.
    + intros q Hq. specialize (Hh q Hq). by injection Hh.
    + intros Hs Hn. by specialize (Ha Hs Hn).
Qed.
Lemma client_call_outcome {A} (c : DmCall A) old s : wp (run_call c old) (call_outcome c old s) s.
Proof.
  destruct c; cbn [run_call];
    first [apply (forward_by_outcome Client_Connect); [apply Connect_connects|]
          | apply (forward_by_outcome ConnectIfPresent); [apply ConnectIfPresent_connects|]]; intros err.
  all: first [apply refusal_of_plain | by apply refusal_of_out | apply refusal_of_inout
             | by apply refusal_of_list | by apply refusal_of_lookup].
Qed.

(** ** The invariant of the connection

    [registered] replays the registrations of death recipients; [held] is the one the
    client's fields stand for. *)
Context `{!EqDecision O}.
Definition registration (l : list (O * nat)) (op : ClOp O Pr) : list (O * nat) :=
  match op with
  | OpAddRecipient o n => (o, n) :: l
  | OpRemoveRecipient o n => filter (fun r => r <> (o, n)) l
  | _ => l
  end.
Definition registered (ops : list (ClOp O Pr)) : list (O * nat) := foldl registration [] ops.
Definition held (c : C) : list (O * nat) :=
  match diskManager_ c, deathRecipient_ c with
  | Some p, Some n => match sm_object p with Some o => [(o, n)] | None => [] end
  | _, _ => []
  end.
Definition client_inv (c : C) : Prop :=
  (is_Some (diskManager_ c) <-> is_Some (deathRecipient_ c)) /\ registered (cl_ops c) = held c.
Definition fresh_client (env : E) : C := mkClient None None 0 env [].

Lemma registered_app ops op : registered (ops ++ [op]) = registration (registered ops) op.
Proof. unfold registered. by rewrite foldl_app. Qed.

(** The fields and the registrations are left alone. *)
Definition same (c c' : C) : Prop :=
  diskManager_ c' = diskManager_ c /\ deathRecipient_ c' = deathRecipient_ c /\
  registered (cl_ops c') = registered (cl_ops c).
#[local] Instance same_preorder : PreOrder same.
Proof. split; [done|]. intros a b c (? & ? & ?) (? & ? & ?). unfold same. intuition congruence. Qed.
Lemma same_inv c c' : same c c' -> client_inv c -> client_inv c'.
Proof. intros (H1 & H2 & H3) [Hi Hr]. unfold client_inv, held. by rewrite H1, H2, H3. Qed.
Lemma same_platform {A} (f : E -> A * E) : Keeps same (platform f).
Proof. intros c. unfold platform. by destruct (f (cl_env c)). Qed.
Lemma same_log op : (forall l, registration l op = l) -> Keeps same (log_op op).
Proof. intros H c. unfold same, log_op, smodify. cbn. by rewrite registered_app, H. Qed.
Ltac same_tac :=
  repeat first [keeps_step | apply same_platform | apply same_log; done
    | progress unfold CheckSystemAbility, load_service, LoadSystemAbility, WaitResult, late_events, call_proxy].
Lemma same_check id : Keeps same (CheckSystemAbility id).
Proof. same_tac. Qed.
Lemma same_load : Keeps same load_service.
Proof. same_tac. Qed.
Lemma same_call {A} p (c : DmCall A) : Keeps same (call_proxy p c).
Proof. same_tac. Qed.

Definition keeps_inv {A} (m : M A) : Prop := forall c, client_inv c -> wp m (fun _ => client_inv) c.
Lemma keeps_inv_bind {A B} (m : M A) (f : A -> M B) :
  keeps_inv m -> (forall a, keeps_inv (f a)) -> keeps_inv (sbind m f).
Proof. intros Hm Hf c Hc. apply wp_bind. eapply wp_mono; [|by apply Hm]. intros a c' Hc'. by apply Hf. Qed.
Lemma keeps_inv_ret {A} (a : A) : keeps_inv (sret a).
Proof. by intros c. Qed.
Lemma keeps_inv_same {A} (m : M A) : Keeps same m -> keeps_inv m.
Proof. intros H c. apply same_inv, H. Qed.

Lemma InitProxyLocked_inv object c :
  client_inv c -> diskManager_ c = None -> wp (InitProxyLocked object) (fun _ => client_inv) c.
Proof.
  intros [Hi Hr] Hd. assert (Hn : deathRecipient_ c = None).
  { destruct (deathRecipient_ c); [|done]. destruct Hi as [_ Hi]. rewrite Hd in Hi.
    by destruct (Hi (mk_is_Some _ _ eq_refl)). }
  unfold held in Hr. rewrite Hd in Hr.
  unfold InitProxyLocked, set_proxy, new_recipient, set_recipient, log_op, platform, sbind, sget, smodify, sret, wp.
  destruct (sm_cast object (cl_env c)) as [[p|] e]; cbn; [|split; cbn; [by rewrite Hn|exact Hr]].
  destruct (sm_alloc e) as [[] e']; cbn; [|split; [by cbn|exact Hr]].
  unfold client_inv, held. destruct (sm_object p) eqn:Ho; cbn; (split; [by cbn; split; eauto|]); rewrite Ho; [|done].
  by rewrite registered_app, Hr.
Qed.
Lemma connecting_inv {A B} (m : M A) (f : A -> M B) c :
  Keeps same m -> client_inv c -> diskManager_ c = None ->
  (forall a c', client_inv c' -> diskManager_ c' = None -> wp (f a) (fun _ => client_inv) c') ->
  wp (sbind m f) (fun _ => client_inv) c.
Proof.
  intros Hm Hc Hd Hf. apply wp_bind. apply Hf; [by eapply same_inv, Hc|]. by rewrite (proj1 (Hm c)).
Qed.
Lemma ConnectIfPresent_inv : keeps_inv ConnectIfPresent.
Proof.
  intros c Hc. unfold ConnectIfPresent. apply wp_bind, wp_get. destruct (diskManager_ c) eqn:Hd; [done|].
  apply connecting_inv; [apply same_platform|done|done|]. clear. intros [] c Hc Hd; [|done].
  apply connecting_inv; [apply same_check|done|done|]. clear. intros [o|] c Hc Hd; [|done].
  by apply InitProxyLocked_inv.
Qed.
Lemma Connect_inv : keeps_inv Client_Connect.
Proof.
  intros c Hc. unfold Client_Connect. apply wp_bind, wp_get. destruct (diskManager_ c) eqn:Hd; [done|].
  apply connecting_inv; [apply same_platform|done|done|]. clear. intros [] c Hc Hd; [|done].
  apply connecting_inv; [apply same_check|done|done|]. clear. intros [o|] c Hc Hd; [by apply InitProxyLocked_inv|].
  apply connecting_inv; [apply same_load|done|done|]. clear. intros [err|o] c Hc Hd; [done|].
  by apply InitProxyLocked_inv.
Qed.
Lemma ResetProxy_inv : keeps_inv ResetProxy.
Proof.
  intros c [Hi Hr]. unfold held in Hr.
  unfold ResetProxy, set_proxy, set_recipient, log_op, sbind, sget, smodify, sret, wp. cbn.
  destruct (diskManager_ c) as [p|] eqn:Hd, (deathRecipient_ c) as [n|] eqn:Hn; cbn; try (by split).
  all: try (split; [by cbn|exact Hr]).
  destruct (sm_object p) as [o|] eqn:Ho; cbn; (split; [by cbn|]); cbn; [|done].
  rewrite registered_app, Hr. cbn. by rewrite decide_False by tauto.
Qed.
Lemma death_reports_inv : keeps_inv death_reports.
Proof.
  apply keeps_inv_bind; [apply keeps_inv_same, same_platform|]. intros []; [|apply keeps_inv_ret].
  apply keeps_inv_bind; [apply ResetProxy_inv|]. intros _. apply keeps_inv_ret.
Qed.
Lemma forward_by_inv conn {A} (fail : Z -> A) (c : DmCall A) : keeps_inv conn -> keeps_inv (forward_by conn fail c).
Proof.
  intros Hc. apply keeps_inv_bind; [apply death_reports_inv|]. intros _.
  apply keeps_inv_bind; [exact Hc|]. intros r. apply keeps_inv_bind; [apply death_reports_inv|]. intros _.
  destruct r; [apply keeps_inv_ret|apply keeps_inv_same, same_call].
Qed.
Lemma client_call_inv {A} (c : DmCall A) old : keeps_inv (run_call c old).
Proof.
  destruct c; cbn [run_call];
    first [apply (forward_by_inv Client_Connect), Connect_inv
          | apply (forward_by_inv ConnectIfPresent), ConnectIfPresent_inv].
Qed.

(** A client changes by its calls and by reports of the service's death. *)
Inductive client_step : C -> C -> Prop :=
  | step_call A (c : DmCall A) (old : A) s : client_step s (run_call c old s).2
  | step_died s : client_step s (ResetProxy s).2.
Lemma fresh_client_inv env : client_inv (fresh_client env).
Proof. split; [by cbn|done]. Qed.
Lemma client_steps_inv s s' : rtc client_step s s' -> client_inv s -> client_inv s'.
Proof.
  induction 1 as [|s1 s2 s3 Hs _ IH]; [done|]. intros H. apply IH.
  destruct Hs; [by apply client_call_inv|by apply ResetProxy_inv].
Qed.

Lemma Connect_connected p (s : C) : diskManager_ s = Some p -> Client_Connect s = (inr p, s).
Proof. intros H. unfold Client_Connect, sbind, sget. by rewrite H. Qed.
Lemma ConnectIfPresent_connected p (s : C) : diskManager_ s = Some p -> ConnectIfPresent s = (inr p, s).
Proof. intros H. unfold ConnectIfPresent, sbind, sget. by rewrite H. Qed.
Lemma no_death_reports (s : C) :
  (forall env, (sm_died env).1 = false) ->
  exists env, death_reports s = (tt, mkClient (diskManager_ s) (deathRecipient_ s) (cl_next s) env (cl_ops s)).
Proof.
  intros Hlive. unfold death_reports, platform, sbind. specialize (Hlive (cl_env s)).
  destruct (sm_died (cl_env s)) as [b e]. cbn in *. subst b. by exists e.
Qed.
Lemma forward_by_connected conn {A} (fail : Z -> A) (c : DmCall A) p (s : C) :
  (forall s, diskManager_ s = Some p -> conn s = (inr p, s)) ->
  diskManager_ s = Some p -> (forall env, (sm_died env).1 = false) ->
  exists env, (forward_by conn fail c s).1 = (sm_call A p c env).1 /\
    cl_ops (forward_by conn fail c s).2 = cl_ops s ++ [OpCall p A c] /\
    diskManager_ (forward_by conn fail c s).2 = Some p.
Proof.
  intros Hconn Hp Hlive. unfold forward_by, sbind.
  destruct (no_death_reports s Hlive) as [e1 He1]. rewrite He1, Hconn by done.
  match goal with |- context [death_reports ?x] => destruct (no_death_reports x Hlive) as [e2 He2]; rewrite He2 end.
  exists e2. unfold call_proxy, log_op, platform, sbind, smodify. cbn. by destruct (sm_call A p c e2).
Qed.

(** ** Claims *)

(** C16: A call of the client library, whatever the state of the service: after operations
    that are no calls it either makes exactly the one call it was asked for, with its
    arguments, over the proxy it holds or gets, and returns the answer, or it makes none and returns the connection's
    error with the out parameters untouched. Most calls load the service when it does not run and the callback of the load can be allocated
    (the size queries and the query of one disk among them), and no call loads it when it runs.
    The queries of the lists, the two lookups of a volume and the diagnosis report never load it:
    when it does not run they make no call and answer with success and an empty list, with [E_NON_EXIST], and with
    [E_SERVICE_IS_NULLPTR]. *)
Theorem client_call_spec {A} (c : DmCall A) (old : A) (s : C) :
  let (res, s') := run_call c old s in
  let s1 := (death_reports s).2 in
  let start := starts_service (manner c) in
  exists pre,
    Forall (fun op => ~ is_call op /\ (is_load op -> start = true /\ not_running s1)) pre /\
    (start = true -> can_load s1 -> OpLoad DISK_MANAGER_SA_ID ∈ pre) /\
    ((exists p env, cl_ops s' = cl_ops s ++ pre ++ [OpCall p A c] /\ res = (sm_call A p c env).1 /\
        (forall q, diskManager_ s1 = Some q -> p = q) /\ (start = false -> ~ not_running s1)) \/
     (exists err, cl_ops s' = cl_ops s ++ pre /\ connect_error err /\ refusal_of err A c old res /\ diskManager_ s1 = None /\
        (start = false -> not_running s1 -> err = NativeErr.E_SERVICE_IS_NULLPTR))).
Proof. assert (H := client_call_outcome c old s). unfold wp in H. by destruct (run_call c old s). Qed.

(** C21: Whatever calls and death reports come in whatever order, the client holds a proxy
    exactly when it holds a death recipient, and of all the recipients it registered only
    that one, at the proxy's object, is not unregistered: none leaks. *)
Theorem client_connection_invariant (env : E) (s : C) :
  rtc client_step (fresh_client env) s ->
  (is_Some (diskManager_ s) <-> is_Some (deathRecipient_ s)) /\
  registered (cl_ops s) =
    match diskManager_ s, deathRecipient_ s with
    | Some p, Some n => match sm_object p with Some o => [(o, n)] | None => [] end
    | _, _ => []
    end.
Proof. intros H. by apply (client_steps_inv _ _ H), fresh_client_inv. Qed.

(** A connected client needs no system ability manager: while the service lives, a call
    is exactly one call of the proxy it holds. *)
Theorem client_reuses_proxy {A} (c : DmCall A) (old : A) (s : C) (p : Pr) :
  diskManager_ s = Some p -> (forall env, (sm_died env).1 = false) ->
  exists env, (run_call c old s).1 = (sm_call A p c env).1 /\
    cl_ops (run_call c old s).2 = cl_ops s ++ [OpCall p A c] /\
    diskManager_ (run_call c old s).2 = Some p.
Proof.
  intros Hp Hlive. destruct c; cbn [run_call];
    first [apply (forward_by_connected Client_Connect); [apply Connect_connected|done|done]
          | apply (forward_by_connected ConnectIfPresent); [apply ConnectIfPresent_connected|done|done]].
Qed.
End client.

(** ** Witnesses

    A platform that starts the service on the first request. *)
Definition demo_answer {A} (c : DmCall A) : A :=
  match c in DmCall A return A with
  | DmGetAllVolumes => (0, [VolumeExternal_default])
  | DmGetVolumeByUuid _ | DmGetVolumeById _ => (0, VolumeExternal_default)
  | DmGetFreeSizeOfVolume _ | DmGetTotalSizeOfVolume _ | DmGetVolumeOpProcess _ => (0, 7)
  | DmGetAllDisks => (0, [])
  | DmGetDiskById _ => (0, Disk_default)
  | DmGetExternalDiskInfos => (0, [])
  | DmGetExternalVolumeInfos => (0, [])
  | DmQueryUsbIsInUse _ => (0, false)
  | DmGetPartitionTable _ => (0, PartitionTableInfo_default)
  | DmBindBlockLoopDev _ _ _ => (0, "/dev/block/loop0")
  | DmCreateDmCryptVolume _ _ m => (0, m)
  | DmMount _ _ | DmUnmount _ | DmFormat _ _ | DmSetVolumeDescription _ _ | DmPartition _ _ | DmErase _ | DmEject _
  | DmCreateIsoImage _ _ | DmBurn _ _ | DmTryToFix _ | DmOnBlockDiskUevent _ | DmReportVolumeOpDiag _
  | DmNotifyMtpMounted _ _ _ _ _ | DmNotifyMtpUnmounted _ _ | DmCreatePartition _ _ | DmDeletePartition _ _
  | DmFormatPartition _ _ _ | DmDestroyDmCryptVolume _ | DmUnbindBlockLoopDev _ | DmMountVolumeByPath _ _ _
  | DmUmountVolumeByPath _ _ => 0
  end.
#[local] Instance demo : SaMgr bool unit unit := {
  sm_present running := (true, running);
  sm_check _ running := (if running then Some tt else None, running);
  sm_load _ _ := (0, true);
  sm_wait _ running := ([LoadSuccess DISK_MANAGER_SA_ID (Some tt)], running);
  sm_events running := ([], running);
  sm_alloc running := (true, running);
  sm_cast _ running := (Some tt, running);
  sm_object _ := Some tt;
  sm_call A _ c running := (demo_answer c, running);
  sm_died running := (false, running);
}.
Definition demo_idle : DiskManagerClient bool unit unit := fresh_client false.
Definition demo_mounted := (run_call (DmMount "vol-8-1" MountParam_default) 0 demo_idle).2.

(** A query finds no service and does not load it; a mount loads it and is forwarded. *)
Example demo_idle_query :
  (run_call DmGetAllVolumes (5, [VolumeExternal_default]) demo_idle).1 = (0, []) /\
  cl_ops (run_call DmGetAllVolumes (5, []) demo_idle).2 = [OpCheck 8640].
Proof. by vm_compute. Qed.
Example demo_idle_mount :
  cl_ops demo_mounted =
    [OpCheck 8640; OpLoad 8640; OpAddRecipient tt 0; OpCall tt Z (DmMount "vol-8-1" MountParam_default)].
Proof. by vm_compute. Qed.

Lemma client_connection_invariant_witness :
  registered (cl_ops (ResetProxy demo_mounted).2) = [] /\ registered (cl_ops demo_mounted) = [(tt, 0%nat)].
Proof.
  assert (Hm : rtc client_step demo_idle demo_mounted) by (apply rtc_once; constructor).
  split.
  - exact (proj2 (client_connection_invariant false (ResetProxy demo_mounted).2
                     (rtc_r _ _ _ Hm (step_died demo_mounted)))).
  - exact (proj2 (client_connection_invariant false demo_mounted Hm)).
Defined.
Lemma client_reuses_proxy_witness :
  cl_ops (run_call DmGetAllDisks (0, []) demo_mounted).2 = cl_ops demo_mounted ++ [OpCall tt _ DmGetAllDisks].
Proof.
  destruct (client_reuses_proxy DmGetAllDisks (0, []) demo_mounted tt) as (e & _ & H & _);
    [vm_compute; reflexivity|by intros []|exact H].
Defined.
