(* ===== verification/Taihe.v ===== *)
(** * [interfaces/kits/taihe/volume_manager/src/ohos.file.volumeManager.impl.cpp]

    The ArkTS kit: each function checks its arguments, calls the client library and
    turns the result into the structures of the kit or into a business error. The kit
    runs in the application's process, on top of the client library of [Client]. What
    the runtime of the language answers is the class [TaiheEnv]. *)
From S2P Require Import Prelude CppString State Types Json JsErrors Provider Seq Client.

(** *** The structures of [ohos.file.volumeManager.taihe] *)
(* @src interfaces/kits/taihe/volume_manager/idl/ohos.file.volumeManager.taihe 24-35 Volume *)
Record TaiheVolume : Type := mkTaiheVolume {
  tv_id : string;
  tv_uuid : string;
  tv_diskId : string;
  tv_description : string;
  tv_removable : bool;
  tv_state : Z;
  tv_path : string;
  tv_fsType : string;
  tv_extraInfo : string;
  tv_partitionNum : Z;
}.
(* @src interfaces/kits/taihe/volume_manager/idl/ohos.file.volumeManager.taihe 47-54 Disk *)
Record TaiheDisk (DT : Type) : Type := mkTaiheDisk {
  td_diskId : string;
  td_sizeBytes : Z;
  td_diskType : DT;
  td_removable : bool;
  td_volumeIds : list string;
  td_extraInfo : string;
}.
Arguments mkTaiheDisk {DT}.
(* @src interfaces/kits/taihe/volume_manager/idl/ohos.file.volumeManager.taihe 65-73 PartitionTableInfo *)
Record TaihePartitionTable : Type := mkTaihePartitionTable {
  tt_diskId : string;
  tt_tableType : string;
  tt_partitionCount : Z;
  tt_totalSector : Z;
  tt_sectorSize : Z;
  tt_alignSector : Z;
  tt_partitions : list PartitionInfo;
}.
(* @src interfaces/kits/taihe/volume_manager/idl/ohos.file.volumeManager.taihe 82-86 FormatParams *)
Record TaiheFormatParams : Type := mkTaiheFormatParams {
  tf_fsType : string;
  tf_quickFormat : option bool;
  tf_volumeName : option string;
}.

(** The runtime: the generated [DiskType::from_value], the ANI
    environment. A [Want] is a value of [W], the value of one of its properties of [R]. *)
Class TaiheEnv (E DT W R : Type) : Type := {
  te_disk_type : Z -> DT;
  te_has_env : E -> bool;
  te_parameters : W -> option R;
  te_json_class : E -> bool;
  te_stringify_method : E -> bool;
  te_stringify : R -> option string;
}.

(** The kit on top of the client; [kit_errors] are the business errors set, in order. *)
Record Kit (E O Pr : Type) : Type := mkKit { kit_client : DiskManagerClient E O Pr; kit_errors : list (Z * string) }.
Arguments mkKit {E O Pr}. Arguments kit_client {E O Pr}. Arguments kit_errors {E O Pr}.

Section kit.
Context {E O Pr DT W R : Type} {SM : SaMgr E O Pr} {AT : AccessToken E} {TE : TaiheEnv E DT W R} {LN : LibN} {JT : JsonText}.
Notation K := (State (Kit E O Pr)).
Notation C := (DiskManagerClient E O Pr).

Definition kit_env (k : Kit E O Pr) : E := cl_env (kit_client k).
(** A call of the client library. *)
Definition client {A} (m : State C A) : K A :=
  szoom kit_client (fun c k => mkKit c (kit_errors k)) m.
Definition SetStorageTaiheError (code : Z) : K unit :=
  smodify (fun k => mkKit (kit_client k) (kit_errors k ++ [StorageTaiheError code])).
(** Set the error and return. *)
Definition throw {A} (code : Z) (result : A) : K A := do! SetStorageTaiheError code in sret result.
Definition E_PARAMS : Z := JsErr.E_PARAMS.

(** A method without a result. *)
Definition finish (errNum : Z) : K unit := if negb (errNum =? NativeErr.E_OK) then throw errNum tt else sret tt.

(** ** Volumes *)
Definition empty_volume : TaiheVolume := mkTaiheVolume "" "" "" "" true 0 "" "" "" 0.
(* @src interfaces/kits/taihe/volume_manager/src/ohos.file.volumeManager.impl.cpp 76-79 GetAllVolumesSync *)
Definition volumeTransformer (vol : VolumeExternal) : TaiheVolume :=
  mkTaiheVolume (core_id (vol_core vol)) (vol_fsUuid vol) (core_diskId (vol_core vol)) (vol_description vol) true
    (core_state (vol_core vol)) (vol_path vol) (GetFsTypeString vol) (core_extraInfo (vol_core vol)) (vol_partitionNum vol).
(* @src interfaces/kits/taihe/volume_manager/src/ohos.file.volumeManager.impl.cpp 46-64 GetVolumeByUuidSync *)
Definition GetVolumeByUuidSync (uuid : string) : K TaiheVolume :=
  let! (errNum, volumeInfo) := client (Client_GetVolumeByUuid (c_str uuid) VolumeExternal_default) in
  if negb (errNum =? NativeErr.E_OK) then throw errNum empty_volume else sret (volumeTransformer volumeInfo).
(* @src interfaces/kits/taihe/volume_manager/src/ohos.file.volumeManager.impl.cpp 66-82 GetAllVolumesSync *)
Definition GetAllVolumesSync : K (list TaiheVolume) :=
  let! (errNum, volumeInfo) := client (Client_GetAllVolumes []) in
  if negb (errNum =? NativeErr.E_OK) then throw errNum [] else sret (map volumeTransformer volumeInfo).
(* @src interfaces/kits/taihe/volume_manager/src/ohos.file.volumeManager.impl.cpp 84-98 FormatSync *)
Definition FormatSync (volumeId fsType : string) : K unit :=
  if str_empty volumeId || str_empty fsType then throw E_PARAMS tt
  else let! result := client (Client_Format volumeId fsType) in finish result.
(* @src interfaces/kits/taihe/volume_manager/src/ohos.file.volumeManager.impl.cpp 100-124 GetVolumeByIdSync *)
Definition GetVolumeByIdSync (volumeId : string) : K TaiheVolume :=
  if str_empty volumeId then throw E_PARAMS empty_volume
  else
    let! (errNum, volumeInfo) := client (Client_GetVolumeById volumeId VolumeExternal_default) in
    if negb (errNum =? NativeErr.E_OK) then throw errNum empty_volume else sret (volumeTransformer volumeInfo).
(* @src interfaces/kits/taihe/volume_manager/src/ohos.file.volumeManager.impl.cpp 126-141 MountSync *)
Definition MountSync (volumeId : string) : K unit :=
  if str_empty volumeId then throw E_PARAMS tt
  else let! errNum := client (Client_Mount volumeId MountParam_default) in finish errNum.
(* @src interfaces/kits/taihe/volume_manager/src/ohos.file.volumeManager.impl.cpp 143-156 UnmountSync *)
Definition UnmountSync (volumeId : string) : K unit :=
  if str_empty volumeId then throw E_PARAMS tt
  else let! errNum := client (Client_Unmount volumeId) in finish errNum.
(* @src interfaces/kits/taihe/volume_manager/src/ohos.file.volumeManager.impl.cpp 158-171 PartitionSync *)
Definition PartitionSync (diskId : string) (type : Z) : K unit :=
  if str_empty diskId then throw E_PARAMS tt
  else let! errNum := client (Client_Partition diskId type) in finish errNum.
(* @src interfaces/kits/taihe/volume_manager/src/ohos.file.volumeManager.impl.cpp 173-187 SetVolumeDescriptionSync *)
Definition SetVolumeDescriptionSync (uuid description : string) : K unit :=
  if str_empty uuid || str_empty description then throw E_PARAMS tt
  else let! errNum := client (Client_SetVolumeDescription uuid description) in finish errNum.

(** ** Disks *)
(* @src interfaces/kits/taihe/volume_manager/src/ohos.file.volumeManager.impl.cpp 32-35 ToTaiheDiskType *)
Definition ToTaiheDiskType (diskType : Z) : DT := te_disk_type diskType.
(* @src interfaces/kits/taihe/volume_manager/src/ohos.file.volumeManager.impl.cpp 37-41 MakeEmptyTaiheDisk *)
Definition MakeEmptyTaiheDisk : TaiheDisk DT := mkTaiheDisk "" 0 (ToTaiheDiskType DISK_TYPE_UNKNOWN) false [] "".
(* @src interfaces/kits/taihe/volume_manager/src/ohos.file.volumeManager.impl.cpp 231-242 GetAllDisksSync *)
Definition taihe_disk (d : Disk) : TaiheDisk DT :=
  mkTaiheDisk (disk_diskId d) (disk_sizeBytes d) (ToTaiheDiskType (disk_diskType d)) (disk_removable d) (disk_volumeIds d)
    (disk_extraInfo d).
(* @src interfaces/kits/taihe/volume_manager/src/ohos.file.volumeManager.impl.cpp 191-211 GetDiskByIdSync *)
Definition GetDiskByIdSync (diskId : string) : K (TaiheDisk DT) :=
  let! (errNum, diskInfo) := client (Client_GetDiskById diskId Disk_default) in
  if negb (errNum =? NativeErr.E_OK) then throw errNum MakeEmptyTaiheDisk else sret (taihe_disk diskInfo).
(* @src interfaces/kits/taihe/volume_manager/src/ohos.file.volumeManager.impl.cpp 213-244 GetAllDisksSync *)
Definition GetAllDisksSync : K (list (TaiheDisk DT)) :=
  let! sys := sget (fun k => IsSystemApp (kit_env k)) in
  if negb sys then throw JsErr.E_PERMISSION_SYS []
  else
    let! ok := sget (fun k => Kit_VerifyCallerPermission PERMISSION_MOUNT_MANAGER (kit_env k)) in
    if negb ok then throw JsErr.E_PERMISSION []
    else
      let! (errNum, disks) := client (Client_GetAllDisks []) in
      if negb (errNum =? NativeErr.E_OK) then throw errNum [] else sret (map taihe_disk disks).

(** ** Partitions *)
(* @src interfaces/kits/taihe/volume_manager/src/ohos.file.volumeManager.impl.cpp 257-271 GetPartitionTableSync *)
Definition taihe_table (t : PartitionTableInfo) : TaihePartitionTable :=
  mkTaihePartitionTable (pti_diskId t) (pti_tableType t) (pti_partitionCount t) (pti_totalSector t) (pti_sectorSize t)
    (pti_alignSector t) (pti_partitions t).
(* @src interfaces/kits/taihe/volume_manager/src/ohos.file.volumeManager.impl.cpp 248-272 GetPartitionTableSync *)
Definition GetPartitionTableSync (diskId : string) : K TaihePartitionTable :=
  let! (errNum, tableInfo) := client (Client_GetPartitionTable diskId PartitionTableInfo_default) in
  if negb (errNum =? NativeErr.E_OK) then throw errNum (mkTaihePartitionTable "" "" 0 0 0 0 [])
  else sret (taihe_table tableInfo).
(* @src interfaces/kits/taihe/volume_manager/src/ohos.file.volumeManager.impl.cpp 274-287 CreatePartitionSync *)
Definition CreatePartitionSync (diskId : string) (params : PartitionParams) : K unit :=
  let nativeParams :=
    mkPartitionParams (pp_partitionNum params) (pp_startSector params) (pp_endSector params) (pp_typeCode params) in
  let! errNum := client (Client_CreatePartition diskId nativeParams) in finish errNum.
(* @src interfaces/kits/taihe/volume_manager/src/ohos.file.volumeManager.impl.cpp 289-297 DeletePartitionSync *)
Definition DeletePartitionSync (diskId : string) (partitionNum : Z) : K unit :=
  let! errNum := client (Client_DeletePartition diskId partitionNum) in finish errNum.
(** The parameters not given keep the values of the default constructor. *)
(* @src interfaces/kits/taihe/volume_manager/src/ohos.file.volumeManager.impl.cpp 302-310 FormatPartitionSync *)
Definition native_format_params (params : TaiheFormatParams) : FormatParams :=
  mkFormatParams (tf_fsType params)
    (match tf_quickFormat params with Some q => q | None => fp_quickFormat FormatParams_default end)
    (match tf_volumeName params with Some v => v | None => fp_volumeName FormatParams_default end).
(* @src interfaces/kits/taihe/volume_manager/src/ohos.file.volumeManager.impl.cpp 299-317 FormatPartitionSync *)
Definition FormatPartitionSync (diskId : string) (partitionNum : Z) (params : TaiheFormatParams) : K unit :=
  let! errNum := client (Client_FormatPartition diskId partitionNum (native_format_params params)) in finish errNum.

(** ** Optical media *)
(* @src interfaces/kits/taihe/volume_manager/src/ohos.file.volumeManager.impl.cpp 321-334 EraseSync *)
Definition EraseSync (volumeId : string) : K unit :=
  if str_empty volumeId then throw E_PARAMS tt
  else let! errNum := client (Client_Erase volumeId) in finish errNum.
(* @src interfaces/kits/taihe/volume_manager/src/ohos.file.volumeManager.impl.cpp 336-349 EjectSync *)
Definition EjectSync (diskId : string) : K unit :=
  if str_empty diskId then throw E_PARAMS tt
  else let! errNum := client (Client_Eject diskId) in finish errNum.
(* @src interfaces/kits/taihe/volume_manager/src/ohos.file.volumeManager.impl.cpp 351-365 CreateIsoImageSync *)
Definition CreateIsoImageSync (volumeId path : string) : K unit :=
  if str_empty volumeId || str_empty path then throw E_PARAMS tt
  else let! errNum := client (Client_CreateIsoImage volumeId path) in finish errNum.

(* @src interfaces/kits/taihe/volume_manager/src/ohos.file.volumeManager.impl.cpp 368-377 AniStringToUtf8 *)
Definition AniStringToUtf8 (str : string) : string := c_str str.
(* @src interfaces/kits/taihe/volume_manager/src/ohos.file.volumeManager.impl.cpp 382-419 StringifyWantParameters *)
Definition StringifyWantParameters (want : W) (env : E) : string :=
  match te_parameters want with
  | None => ""
  | Some parametersRef =>
      if negb (te_json_class env) then ""
      else if negb (te_stringify_method env) then ""
      else match te_stringify parametersRef with None => "" | Some result => AniStringToUtf8 result end
  end.
(** The three appenders: a line [key=value] when the member has the type. *)
Definition opt_line (key : string) (value : option string) : string :=
  match value with Some v => key +:+ "=" +:+ v +:+ schar NL | None => "" end.
(* @src interfaces/kits/taihe/volume_manager/src/ohos.file.volumeManager.impl.cpp 436-440 appendStr *)
Definition appendStr (params : json) (key : string) : string :=
  opt_line key (match json_member key params with Some (JStr s) => Some s | _ => None end).
(* @src interfaces/kits/taihe/volume_manager/src/ohos.file.volumeManager.impl.cpp 441-445 appendBool *)
Definition appendBool (params : json) (key : string) : string :=
  opt_line key (match json_member key params with Some (JBool b) => Some (if b then "true" else "false") | _ => None end).
(* @src interfaces/kits/taihe/volume_manager/src/ohos.file.volumeManager.impl.cpp 446-450 appendInt *)
Definition appendInt (params : json) (key : string) : string :=
  opt_line key
    (match json_member key params with Some (JUInt n) | Some (JInt n) => Some (to_string (i32 n)) | _ => None end).
(* @src interfaces/kits/taihe/volume_manager/src/ohos.file.volumeManager.impl.cpp 451-457 BuildBurnOptionsFromWant *)
Definition burn_lines (params : json) : string :=
  appendStr params "diskName" +:+ appendStr params "burnPath" +:+ appendBool params "isIsoImage" +:+
  appendInt params "burnSpeed" +:+ appendStr params "fsType" +:+ appendBool params "isIncBurnSupport" +:+
  appendBool params "isVerifyBurn".
(* @src interfaces/kits/taihe/volume_manager/src/ohos.file.volumeManager.impl.cpp 421-462 BuildBurnOptionsFromWant *)
Definition BuildBurnOptionsFromWant (want : W) (env : E) : string :=
  let jsonString := StringifyWantParameters want env in
  if str_empty jsonString then ""
  else
    match json_parse jsonString with
    | None => ""
    | Some paramsJson => if negb (json_is_object paramsJson) then "" else burn_lines paramsJson
    end.
(* @src interfaces/kits/taihe/volume_manager/src/ohos.file.volumeManager.impl.cpp 465-496 BurnSync *)
Definition BurnSync (volumeId : string) (want : W) : K unit :=
  if str_empty volumeId then throw E_PARAMS tt
  else
    let! env := sget kit_env in
    if negb (te_has_env env) then throw E_PARAMS tt
    else
      let burnOpts := BuildBurnOptionsFromWant want env in
      if str_empty burnOpts then throw E_PARAMS tt
      else let! errNum := client (Client_Burn volumeId burnOpts) in finish errNum.
(* @src interfaces/kits/taihe/volume_manager/src/ohos.file.volumeManager.impl.cpp 498-513 GetOpProcessSync *)
Definition GetOpProcessSync (volumeId : string) : K Z :=
  if str_empty volumeId then throw E_PARAMS (-1)
  else
    let! (errNum, progress) := client (Client_GetVolumeOpProcess volumeId 0) in
    if negb (errNum =? NativeErr.E_OK) then throw errNum (-1) else sret progress.
(* @src interfaces/kits/taihe/volume_manager/src/ohos.file.volumeManager.impl.cpp 515-538 IsVolumeInUseSync *)
Definition IsVolumeInUseSync (volumePath : string) : K bool :=
  let! sys := sget (fun k => IsSystemApp (kit_env k)) in
  if negb sys then throw JsErr.E_PERMISSION_SYS false
  else
    let! ok := sget (fun k => Kit_VerifyCallerPermission PERMISSION_MOUNT_MANAGER (kit_env k)) in
    if negb ok then throw JsErr.E_PERMISSION false
    else if str_empty volumePath then throw E_PARAMS false
    else
      let! (errNum, isInUse) := client (Client_QueryUsbIsInUse volumePath true) in
      if negb (errNum =? NativeErr.E_OK) then throw errNum isInUse else sret isInUse.

(** ** Public queries

    The structures of the kit have the members of the client's. *)
(* @src interfaces/kits/taihe/volume_manager/src/ohos.file.volumeManager.impl.cpp 542-573 GetExternalDiskInfosSync *)
Definition GetExternalDiskInfosSync : K (list ExternalDiskInfo) :=
  let! ok := sget (fun k => Kit_VerifyCallerPermission PERMISSION_GET_STORAGE_VOLUME_INFO (kit_env k)) in
  if negb ok then throw JsErr.E_PERMISSION []
  else
    let! (errNum, diskInfos) := client (Client_GetExternalDiskInfos []) in
    if negb (errNum =? NativeErr.E_OK) then throw errNum [] else sret diskInfos.
(* @src interfaces/kits/taihe/volume_manager/src/ohos.file.volumeManager.impl.cpp 575-602 GetExternalVolumeInfosSync *)
Definition GetExternalVolumeInfosSync : K (list ExternalVolumeInfo) :=
  let! ok := sget (fun k => Kit_VerifyCallerPermission PERMISSION_GET_STORAGE_VOLUME_INFO (kit_env k)) in
  if negb ok then throw JsErr.E_PERMISSION []
  else
    let! (errNum, volInfos) := client (Client_GetExternalVolumeInfos []) in
    if negb (errNum =? NativeErr.E_OK) then throw errNum [] else sret volInfos.
End kit.
