(* ===== verification/TaiheFacts.v ===== *)
(** * Theorems about the ArkTS kit

    Every function of the kit makes at most one call of the client library, with its
    arguments, and reports an error to the application exactly when it refused the
    arguments or the call failed. The burn options it builds are checked by the service
    ([Provider.ValidateBurnOptionsSubfields]): the second theorem joins the two ends. *)
From S2P Require Import Prelude CppString State Types Utils Json JsErrors Provider Seq Client Taihe.

(** ** The functions of the kit as one type *)
Inductive KitFn (DT W : Type) : Type -> Type :=
  | KGetVolumeByUuid (uuid : string) : KitFn DT W TaiheVolume
  | KGetAllVolumes : KitFn DT W (list TaiheVolume)
  | KFormat (volumeId fsType : string) : KitFn DT W unit
  | KGetVolumeById (volumeId : string) : KitFn DT W TaiheVolume
  | KMount (volumeId : string) : KitFn DT W unit
  | KUnmount (volumeId : string) : KitFn DT W unit
  | KPartition (diskId : string) (type : Z) : KitFn DT W unit
  | KSetVolumeDescription (uuid description : string) : KitFn DT W unit
  | KGetAllDisks : KitFn DT W (list (TaiheDisk DT))
  | KGetDiskById (diskId : string) : KitFn DT W (TaiheDisk DT)
  | KGetPartitionTable (diskId : string) : KitFn DT W TaihePartitionTable
  | KCreatePartition (diskId : string) (params : PartitionParams) : KitFn DT W unit
  | KDeletePartition (diskId : string) (partitionNum : Z) : KitFn DT W unit
  | KFormatPartition (diskId : string) (partitionNum : Z) (params : TaiheFormatParams) : KitFn DT W unit
  | KErase (volumeId : string) : KitFn DT W unit
  | KEject (diskId : string) : KitFn DT W unit
  | KCreateIsoImage (volumeId path : string) : KitFn DT W unit
  | KBurn (volumeId : string) (want : W) : KitFn DT W unit
  | KGetOpProcess (volumeId : string) : KitFn DT W Z
  | KIsVolumeInUse (volumePath : string) : KitFn DT W bool
  | KGetExternalDiskInfos : KitFn DT W (list ExternalDiskInfo)
  | KGetExternalVolumeInfos : KitFn DT W (list ExternalVolumeInfo).
Arguments KGetVolumeByUuid {DT W}. Arguments KGetAllVolumes {DT W}. Arguments KFormat {DT W}.
Arguments KGetVolumeById {DT W}. Arguments KMount {DT W}. Arguments KUnmount {DT W}. Arguments KPartition {DT W}.
Arguments KSetVolumeDescription {DT W}. Arguments KGetAllDisks {DT W}. Arguments KGetDiskById {DT W}.
Arguments KGetPartitionTable {DT W}. Arguments KCreatePartition {DT W}. Arguments KDeletePartition {DT W}.
Arguments KFormatPartition {DT W}. Arguments KErase {DT W}. Arguments KEject {DT W}. Arguments KCreateIsoImage {DT W}.
Arguments KBurn {DT W}. Arguments KGetOpProcess {DT W}. Arguments KIsVolumeInUse {DT W}.
Arguments KGetExternalDiskInfos {DT W}. Arguments KGetExternalVolumeInfos {DT W}.

Section kit.
Context {E O Pr DT W R : Type} {SM : SaMgr E O Pr} {AT : AccessToken E} {TE : TaiheEnv E DT W R} {LN : LibN} {JT : JsonText}.
Notation K := (State (Kit E O Pr)).

Definition kit_run {A} (f : KitFn DT W A) : K A :=
  match f in KitFn _ _ A return K A with
  | KGetVolumeByUuid uuid => GetVolumeByUuidSync uuid
  | KGetAllVolumes => GetAllVolumesSync
  | KFormat volumeId fsType => FormatSync volumeId fsType
  | KGetVolumeById volumeId => GetVolumeByIdSync volumeId
  | KMount volumeId => MountSync volumeId
  | KUnmount volumeId => UnmountSync volumeId
  | KPartition diskId type => PartitionSync diskId type
  | KSetVolumeDescription uuid description => SetVolumeDescriptionSync uuid description
  | KGetAllDisks => GetAllDisksSync
  | KGetDiskById diskId => GetDiskByIdSync diskId
  | KGetPartitionTable diskId => GetPartitionTableSync diskId
  | KCreatePartition diskId params => CreatePartitionSync diskId params
  | KDeletePartition diskId partitionNum => DeletePartitionSync diskId partitionNum
  | KFormatPartition diskId partitionNum params => FormatPartitionSync diskId partitionNum params
  | KErase volumeId => EraseSync volumeId
  | KEject diskId => EjectSync diskId
  | KCreateIsoImage volumeId path => CreateIsoImageSync volumeId path
  | KBurn volumeId want => BurnSync volumeId want
  | KGetOpProcess volumeId => GetOpProcessSync volumeId
  | KIsVolumeInUse volumePath => IsVolumeInUseSync volumePath
  | KGetExternalDiskInfos => GetExternalDiskInfosSync
  | KGetExternalVolumeInfos => GetExternalVolumeInfosSync
  end.

(** The call of the client library a function stands for. *)
Definition stands_for {A B} (f : KitFn DT W A) (env : E) (c : DmCall B) : Prop :=
  existT B c =
  match f with
  | KGetVolumeByUuid uuid => existT _ (DmGetVolumeByUuid (c_str uuid))
  | KGetAllVolumes => existT _ DmGetAllVolumes
  | KFormat volumeId fsType => existT _ (DmFormat volumeId fsType)
  | KGetVolumeById volumeId => existT _ (DmGetVolumeById volumeId)
  | KMount volumeId => existT _ (DmMount volumeId MountParam_default)
  | KUnmount volumeId => existT _ (DmUnmount volumeId)
  | KPartition diskId type => existT _ (DmPartition diskId type)
  | KSetVolumeDescription uuid description => existT _ (DmSetVolumeDescription uuid description)
  | KGetAllDisks => existT _ DmGetAllDisks
  | KGetDiskById diskId => existT _ (DmGetDiskById diskId)
  | KGetPartitionTable diskId => existT _ (DmGetPartitionTable diskId)
  | KCreatePartition diskId params => existT _ (DmCreatePartition diskId params)
  | KDeletePartition diskId partitionNum => existT _ (DmDeletePartition diskId partitionNum)
  | KFormatPartition diskId partitionNum params => existT _ (DmFormatPartition diskId partitionNum (native_format_params params))
  | KErase volumeId => existT _ (DmErase volumeId)
  | KEject diskId => existT _ (DmEject diskId)
  | KCreateIsoImage volumeId path => existT _ (DmCreateIsoImage volumeId path)
  | KBurn volumeId want => existT _ (DmBurn volumeId (BuildBurnOptionsFromWant want env))
  | KGetOpProcess volumeId => existT _ (DmGetVolumeOpProcess volumeId)
  | KIsVolumeInUse volumePath => existT _ (DmQueryUsbIsInUse volumePath)
  | KGetExternalDiskInfos => existT _ DmGetExternalDiskInfos
  | KGetExternalVolumeInfos => existT _ DmGetExternalVolumeInfos
  end.

Definition refusals : list Z := [JsErr.E_PARAMS : Z; JsErr.E_PERMISSION : Z; JsErr.E_PERMISSION_SYS : Z].
Definition kit_outcome {A} (f : KitFn DT W A) (k : Kit E O Pr) (_ : A) (k' : Kit E O Pr) : Prop :=
  (exists code, code ∈ refusals /\ k' = mkKit (kit_client k) (kit_errors k ++ [StorageTaiheError code])) \/
  (exists B (c : DmCall B) (old : B),
     stands_for f (kit_env k) c /\
     let (r, cl) := run_call c old (kit_client k) in
     k' = mkKit cl (kit_errors k ++ if ret_code c r =? NativeErr.E_OK then [] else [StorageTaiheError (ret_code c r)])).

Lemma outcome_refused {A} (f : KitFn DT W A) code (x : A) k :
  code ∈ refusals -> wp (throw code x : K A) (kit_outcome f k) k.
Proof. intros H. left. by exists code. Qed.
Lemma outcome_call {A B} (f : KitFn DT W A) (c : DmCall B) (old : B) m (after : B -> K A) k :
  stands_for f (kit_env k) c -> m = run_call c old ->
  (forall r k1, exists x, after r k1 =
     (x, if ret_code c r =? NativeErr.E_OK then k1
         else mkKit (kit_client k1) (kit_errors k1 ++ [StorageTaiheError (ret_code c r)]))) ->
  wp (sbind (client m) after) (kit_outcome f k) k.
Proof.
  intros Hf Hm Hfin. rewrite Hm. right. exists B, c, old. split; [done|]. unfold client, szoom, sbind.
  destruct (run_call c old (kit_client k)) as [r cl]. destruct (Hfin r (mkKit cl (kit_errors k))) as [x Hx].
  rewrite Hx. destruct (ret_code c r =? NativeErr.E_OK); cbn; [|done]. by rewrite app_nil_r.
Qed.
Ltac refusal := apply outcome_refused; unfold refusals; set_solver.
Ltac called old := eapply (outcome_call _ _ old); [reflexivity|reflexivity|].
Ltac called_any :=
  first [ called (0 : Z) | called (0 : Z, VolumeExternal_default) | called (0 : Z, Disk_default)
        | called (0 : Z, PartitionTableInfo_default) | called (0 : Z, 0 : Z) | called (0 : Z, true)
        | called (0 : Z, @nil VolumeExternal) | called (0 : Z, @nil Disk) | called (0 : Z, @nil ExternalDiskInfo)
        | called (0 : Z, @nil ExternalVolumeInfo) ].
Ltac fn_step :=
  lazymatch goal with
  | |- wp (if ?b then throw _ _ else _) _ _ => destruct b eqn:?; [refusal|]
  | |- wp (sbind (client _) _) _ _ => called_any; intros r k1
  | |- wp (sbind _ _) _ _ => apply wp_bind, wp_get
  end.
Lemma kit_run_outcome {A} (f : KitFn DT W A) k : wp (kit_run f) (kit_outcome f k) k.
Proof.
  destruct f as [| | | | | | | | | | |diskId []| | | | | | | | | |]; cbn [kit_run];
    unfold GetVolumeByUuidSync, GetAllVolumesSync, FormatSync, GetVolumeByIdSync, MountSync, UnmountSync, PartitionSync,
      SetVolumeDescriptionSync, GetAllDisksSync, GetDiskByIdSync, GetPartitionTableSync, CreatePartitionSync,
      DeletePartitionSync, FormatPartitionSync, EraseSync, EjectSync, CreateIsoImageSync, BurnSync, GetOpProcessSync,
      IsVolumeInUseSync, GetExternalDiskInfosSync, GetExternalVolumeInfosSync;
    cbv zeta; repeat fn_step.
  all: try destruct r as [err v]; unfold finish; cbn [ret_code fst];
    match goal with |- context [?e =? _] => destruct (e =? NativeErr.E_OK) end; eexists; reflexivity.
Qed.

(** ** Lines of the burn options *)
Lemma in_drop_last_empty x l : x ∈ l -> x <> "" -> x ∈ drop_last_empty l.
Proof.
  intros Hx Hne. induction l as [|y l IH]; [by apply elem_of_nil in Hx|]. apply elem_of_cons in Hx.
  destruct l as [|z l]; cbn [drop_last_empty].
  - destruct Hx as [->|Hx]; [|by apply elem_of_nil in Hx]. destruct y; [done|]. by left.
  - destruct Hx as [->|Hx]; [by left|right; by apply IH].
Qed.
Lemma line_of_getlines a x b :
  no_char NL x = true -> x <> "" -> seg_start NL a -> x ∈ getlines (a +:+ x +:+ schar NL +:+ b).
Proof. intros Hx Hne Ha. apply in_drop_last_empty; [|done]. apply elem_of_split_char_2; [done|done|]. right. by exists b. Qed.
Lemma seg_start_opt_line a key value : seg_start NL a -> seg_start NL (a +:+ opt_line key value).
Proof.
  intros Ha. destruct value as [v|]; unfold opt_line; [|by rewrite sapp_nil_r]. right.
  exists (a +:+ key +:+ "=" +:+ v). by rewrite !sapp_assoc.
Qed.
(** The line of a text member is one of the lines the service splits the options into. *)
Lemma burn_line_in params key s :
  key ∈ ["diskName"; "burnPath"; "fsType"] -> json_member key params = Some (JStr s) -> no_char NL s = true ->
  key +:+ "=" +:+ s ∈ getlines (burn_lines params).
Proof.
  intros Hk Hm Hs.
  assert (Hline : forall a b, seg_start NL a -> key +:+ "=" +:+ s ∈ getlines (a +:+ appendStr params key +:+ b)).
  { intros a b Ha. unfold appendStr. rewrite Hm. cbn [opt_line].
    replace (a +:+ (key +:+ "=" +:+ s +:+ schar NL) +:+ b) with (a +:+ (key +:+ "=" +:+ s) +:+ schar NL +:+ b)
      by by rewrite !sapp_assoc.
    apply line_of_getlines; [|by destruct key|done]. unfold no_char in *. rewrite !sforall_app, Hs.
    repeat (apply elem_of_cons in Hk as [->|Hk]; [done|]). by apply elem_of_nil in Hk. }
  unfold burn_lines. repeat (apply elem_of_cons in Hk as [->|Hk]).
  - apply (Hline ""). by left.
  - apply (Hline (appendStr params "diskName")). apply (seg_start_opt_line ""). by left.
  - rewrite !sapp_assoc. rewrite <- (sapp_assoc _ _ (appendBool params "isVerifyBurn")).
    rewrite <- (sapp_assoc _ (appendStr params "fsType")). apply Hline.
    do 3 apply seg_start_opt_line. apply (seg_start_opt_line ""). by left.
  - by apply elem_of_nil in Hk.
Qed.

(** ** Claims *)

(** C36: A function of the kit either refuses its arguments or the caller and reports that
    one error without touching the client library, or makes exactly the call it stands
    for, once, and reports an error, converted for the application, exactly when the call
    returned one: no failure of the service is dropped and none is invented. *)
Theorem kit_reports_errors {A} (f : KitFn DT W A) (k : Kit E O Pr) :
  let (_, k') := kit_run f k in
  (exists code, code ∈ [JsErr.E_PARAMS : Z; JsErr.E_PERMISSION : Z; JsErr.E_PERMISSION_SYS : Z] /\
     kit_client k' = kit_client k /\ kit_errors k' = kit_errors k ++ [StorageTaiheError code]) \/
  (exists B (c : DmCall B) (old : B),
     stands_for f (kit_env k) c /\
     let (r, cl) := run_call c old (kit_client k) in
     kit_client k' = cl /\
     kit_errors k' = kit_errors k ++
       if ret_code c r =? NativeErr.E_OK then [] else [StorageTaiheError (ret_code c r)]).
Proof.
  assert (H := kit_run_outcome f k). unfold wp in H. destruct (kit_run f k) as [x k']. cbn in H.
  destruct H as [(code & Hc & ->)|(B & c & old & Hf & H)]; [left; eauto|right].
  exists B, c, old. split; [done|]. destruct (run_call c old (kit_client k)) as [r cl]. by rewrite H.
Qed.
End kit.

(** C37: What the kit lets through to the burner: whatever members the application's [Want]
    has, when the service accepts the options made from them, a [burnPath] or [diskName]
    among them that is one line is a valid path. *)
Theorem burn_path_checked (params : json) (key s : string) :
  key ∈ ["burnPath"; "diskName"] -> json_member key params = Some (JStr s) -> no_char NL s = true ->
  ValidateBurnOptionsSubfields (burn_lines params) = true -> IsFilePathInvalid s = false.
Proof.
  intros Hk Hm Hs. unfold ValidateBurnOptionsSubfields. destruct (IsFilePathInvalid (burn_lines params)); [done|].
  rewrite forallb_forall. intros Hl.
  assert (Hin : key +:+ "=" +:+ s ∈ getlines (burn_lines params)) by (apply burn_line_in; [set_solver|done|done]).
  apply list_elem_of_In, Hl in Hin. unfold burn_line_ok in Hin.
  assert (Hkey : no_char "=" key = true /\ ((key =s "burnPath") || (key =s "diskName"))%bool = true).
  { repeat (apply elem_of_cons in Hk as [->|Hk]; [done|]). by apply elem_of_nil in Hk. }
  destruct Hkey as [Hn Hb]. change (key +:+ "=" +:+ s) with (key +:+ String "=" s) in Hin.
  change "=" with (schar "=") in Hin at 1. rewrite (sfind_schar_app "=" key s Hn), stake_app in Hin.
  rewrite Hb in Hin. change (key +:+ String "=" s) with (key +:+ (schar "=" +:+ s)) in Hin.
  rewrite sapp_assoc in Hin. replace (S (String.length key)) with (String.length (key +:+ schar "=")) in Hin
    by (rewrite slen_app; cbn; lia).
  rewrite sdrop_app in Hin. by apply negb_true_iff.
Qed.
Lemma burn_path_checked_witness :
  IsFilePathInvalid "/mnt/data/a" = false /\
  ValidateBurnOptionsSubfields (burn_lines (JObj [("burnPath", JStr "../x")])) = false.
Proof.
  split; [|reflexivity].
  apply (burn_path_checked (JObj [("burnPath", JStr "/mnt/data/a"); ("burnSpeed", JUInt 4)]) "burnPath"); [by left|..];
    reflexivity.
Defined.
