(* ===== verification/JsKit.v ===== *)
(** * [interfaces/kits/js/volume_manager/src/volumemanager_n_exporter.cpp]

    The N-API kit: each function checks the arguments of the JavaScript call and either
    throws or starts an asynchronous work, whose outcome settles a promise or is passed
    to a callback. What N-API and the file_api wrappers ([NVal], [NFuncArg]) answer about
    values is the class [NapiEnv]; the calls that create values are taken to succeed. *)
From S2P Require Import Prelude CppString State Types JsErrors Provider Seq Client Taihe.

(** [V] are JavaScript values and [A] the arguments of a call; [None] is a null
    [napi_value]. The conversions give [None] when they fail. *)
Class NapiEnv (V A : Type) : Type := {
  nf_init : nat -> nat -> A -> bool;
  nf_argc : A -> nat;
  nf_arg : A -> nat -> option V;
  nv_utf8 : option V -> option string;
  nv_int32 : option V -> option Z;
  nv_int64 : option V -> option Z;
  nv_bool : option V -> option bool;
  nv_prop : V -> string -> option V;
  na_is_object : option V -> bool;
  na_has : option V -> string -> option bool;
  na_get : option V -> string -> option V;
  na_get_bool : option V -> option bool;
}.

(** The values the kit makes. *)
Inductive JsValue : Type :=
  | JsUndefined
  | JsString (s : string)
  | JsInt32 (n : Z)
  | JsInt64 (n : Z)
  | JsBoolean (b : bool)
  | JsArray (l : list JsValue)
  | JsObject (props : list (string * JsValue)).

(** Why a call starts no work: it threw, or returned null without an exception. *)
Inductive Refusal : Set := Threw (code : Z) | Silent.
(** [callback] is [None] for a promise, otherwise the callback's value; the result is
    the error's code or the value. *)
Inductive JsOutcome (V : Type) : Type :=
  | JsRefused (r : Refusal)
  | JsSettled (callback : option (option V)) (result : Z + JsValue).
Arguments JsRefused {V}. Arguments JsSettled {V}.

(** Checks that may throw. *)
Definition Check (T : Type) : Type := Refusal + T.
Definition check_bind {T U} (c : Check T) (f : T -> Check U) : Check U :=
  match c with inl r => inl r | inr x => f x end.
Notation "'let?' x ':=' c 'in' k" := (check_bind c (fun x => k))
  (at level 200, x pattern, c at level 100, k at level 200, right associativity) : state_scope.
Definition require (ok : bool) (code : Z) : Check unit := if negb ok then inl (Threw code) else inr tt.
Definition present {T} (x : option T) (r : Refusal) : Check T := match x with Some v => inr v | None => inl r end.

Section js.
Context {E O Pr V A : Type} {SM : SaMgr E O Pr} {AT : AccessToken E} {NE : NapiEnv V A}.
Notation C := (DiskManagerClient E O Pr).
Notation M := (State C).

Definition ERRNO_NOERR : Z := 0.
Definition bad_params : Refusal := Threw JsErr.E_PARAMS.
Definition system_app (env : E) : Check unit := require (IsSystemApp env) JsErr.E_PERMISSION_SYS.
Definition granted (permission : string) (env : E) : Check unit :=
  require (Kit_VerifyCallerPermission permission env) JsErr.E_PERMISSION.
Definition init_args (min max : nat) (a : A) : Check unit := require (nf_init min max a) JsErr.E_PARAMS.
(** [ToUTF8String] gives a pointer to characters. *)
Definition utf8 (v : option V) : option string := c_str <$> nv_utf8 v.
Definition utf8_arg (v : option V) : Check string := present (utf8 v) bad_params.
Definition int32_arg (v : option V) : Check Z := present (nv_int32 v) bad_params.

(** The asynchronous work: the call, the conversion of its error, the value built. *)
Definition exec_error (errNum : Z) : Z := if negb (errNum =? NativeErr.E_OK) then Convert2JsErrNum errNum else ERRNO_NOERR.
Definition settle {T} (cb : option (option V)) (errNum : T -> Z) (build : T -> JsValue) (work : M T) : M (JsOutcome V) :=
  let! out := work in
  let err := exec_error (errNum out) in
  sret (JsSettled cb (if negb (err =? ERRNO_NOERR) then inl err else inr (build out))).
(** Promise without a callback argument, which is at position [n]. *)
Definition callback_at (n : nat) (a : A) : option (option V) := if (nf_argc a =? n)%nat then None else Some (nf_arg a n).
Definition checked {T} (check : E -> Check T) (work : T -> M (JsOutcome V)) : M (JsOutcome V) :=
  let! env := sget cl_env in
  match check env with
  | inl r => sret (JsRefused r)
  | inr x => work x
  end.
(* @src interfaces/kits/js/volume_manager/src/volumemanager_n_exporter.cpp 554-573 PromiseVoidOp *)
Definition PromiseVoidOp (ipcCall : M Z) : M (JsOutcome V) := settle None id (fun _ => JsUndefined) ipcCall.
(* @src interfaces/kits/js/volume_manager/src/volumemanager_n_exporter.cpp 530-552 PromiseVoidOpSkipParamsInvalid *)
Definition PromiseVoidOpSkipParamsInvalid (ipcCall : M Z) : M (JsOutcome V) :=
  let! result := ipcCall in
  let err :=
    if negb (result =? NativeErr.E_OK) then
      if result =? NativeErr.E_PARAMS_INVALID then result else Convert2JsErrNum result
    else ERRNO_NOERR in
  sret (JsSettled None (if negb (err =? ERRNO_NOERR) then inl err else inr JsUndefined)).

(** ** Values *)
(* @src interfaces/kits/js/volume_manager/src/volumemanager_n_exporter.cpp 117-132 FillVolumeJSObject *)
Definition FillVolumeJSObject (v : VolumeExternal) : JsValue :=
  JsObject
    ([("id", JsString (core_id (vol_core v))); ("uuid", JsString (vol_fsUuid v));
      ("diskId", JsString (core_diskId (vol_core v))); ("description", JsString (vol_description v));
      ("removable", JsBoolean (core_type (vol_core v) =? EXTERNAL)); ("state", JsInt32 (core_state (vol_core v)));
      ("path", JsString (vol_path v)); ("fsType", JsString (GetFsTypeString v));
      ("partitionNum", JsInt32 (vol_partitionNum v))] ++
     (if negb (str_empty (core_extraInfo (vol_core v))) then [("extraInfo", JsString (core_extraInfo (vol_core v)))] else [])).
(* @src interfaces/kits/js/volume_manager/src/volumemanager_n_exporter.cpp 270-286 BuildVolumeArrayFromVector *)
Definition BuildVolumeArrayFromVector (volumes : list VolumeExternal) : JsValue := JsArray (map FillVolumeJSObject volumes).
(* @src interfaces/kits/js/volume_manager/src/volumemanager_n_exporter.cpp 134-156 BuildDiskJSObject *)
Definition BuildDiskJSObject (d : Disk) : JsValue :=
  JsObject
    ([("diskId", JsString (disk_diskId d)); ("sizeBytes", JsInt64 (disk_sizeBytes d));
      ("diskType", JsInt32 (disk_diskType d)); ("removable", JsBoolean (disk_removable d));
      ("volumeIds", JsArray (map JsString (disk_volumeIds d)))] ++
     (if negb (str_empty (disk_extraInfo d)) then [("extraInfo", JsString (disk_extraInfo d))] else [])).
(* @src interfaces/kits/js/volume_manager/src/volumemanager_n_exporter.cpp 159-174 MakeDiskJsArrayFromVector *)
Definition MakeDiskJsArrayFromVector (disks : list Disk) : JsValue := JsArray (map BuildDiskJSObject disks).
(* @src interfaces/kits/js/volume_manager/src/volumemanager_n_exporter.cpp 938-956 BuildPartitionInfoJSObject *)
Definition BuildPartitionInfoJSObject (p : PartitionInfo) : JsValue :=
  JsObject
    [("partitionNum", JsInt32 (pi_partitionNum p)); ("diskId", JsString (pi_diskId p));
     ("startSector", JsInt64 (pi_startSector p)); ("endSector", JsInt64 (pi_endSector p));
     ("sizeBytes", JsInt64 (pi_sizeBytes p)); ("fsType", JsString (pi_fsType p))].
(* @src interfaces/kits/js/volume_manager/src/volumemanager_n_exporter.cpp 959-982 BuildPartitionTableInfoJSObject *)
Definition BuildPartitionTableInfoJSObject (t : PartitionTableInfo) : JsValue :=
  JsObject
    [("diskId", JsString (pti_diskId t)); ("tableType", JsString (pti_tableType t));
     ("partitionCount", JsInt32 (pti_partitionCount t)); ("totalSector", JsInt64 (pti_totalSector t));
     ("sectorSize", JsInt32 (pti_sectorSize t)); ("alignSector", JsInt32 (pti_alignSector t));
     ("partitions", JsArray (map BuildPartitionInfoJSObject (pti_partitions t)))].
(* @src interfaces/kits/js/volume_manager/src/volumemanager_n_exporter.cpp 1241-1263 BuildExternalDiskJSObject *)
Definition BuildExternalDiskJSObject (d : ExternalDiskInfo) : JsValue :=
  JsObject
    [("diskId", JsString (edi_diskId d)); ("diskType", JsInt32 (edi_diskType d));
     ("volumeIds", JsArray (map JsString (edi_volumeIds d))); ("vendorId", JsInt32 (edi_vendorId d));
     ("productId", JsInt32 (edi_productId d))].
(* @src interfaces/kits/js/volume_manager/src/volumemanager_n_exporter.cpp 1265-1283 MakeExternalDiskJsArray *)
Definition MakeExternalDiskJsArray (disks : list ExternalDiskInfo) : JsValue := JsArray (map BuildExternalDiskJSObject disks).
(* @src interfaces/kits/js/volume_manager/src/volumemanager_n_exporter.cpp 1314-1330 BuildExternalVolumeJSObject *)
Definition BuildExternalVolumeJSObject (v : ExternalVolumeInfo) : JsValue :=
  JsObject
    [("volumeId", JsString (evi_volumeId v)); ("uuid", JsString (evi_uuid v)); ("diskId", JsString (evi_diskId v));
     ("description", JsString (evi_description v)); ("state", JsInt32 (evi_state v));
     ("totalSize", JsInt64 (evi_totalSize v)); ("freeSize", JsInt64 (evi_freeSize v)); ("path", JsString (evi_path v));
     ("fsType", JsString (evi_fsType v))].
(* @src interfaces/kits/js/volume_manager/src/volumemanager_n_exporter.cpp 1332-1350 MakeExternalVolumeJsArray *)
Definition MakeExternalVolumeJsArray (volumes : list ExternalVolumeInfo) : JsValue :=
  JsArray (map BuildExternalVolumeJSObject volumes).
(* @src interfaces/kits/js/volume_manager/src/volumemanager_n_exporter.cpp 210-235 CreateDiskTypeEnum *)
Definition CreateDiskTypeEnum : JsValue :=
  JsObject
    [("SD_CARD", JsInt32 SD_FLAG); ("USB_FLASH", JsInt32 USB_FLAG); ("CD_DVD_BD", JsInt32 CD_FLAG);
     ("DATA_DISK_SSD", JsInt32 DATA_DISK_SSD); ("DATA_DISK_HDD", JsInt32 DATA_DISK_HDD); ("DVR_USB", JsInt32 DVR_USB);
     ("UNKNOWN_DISK_TYPE", JsInt32 DISK_TYPE_UNKNOWN)].
(* @src interfaces/kits/js/volume_manager/src/volumemanager_n_exporter.cpp 240-252 CreateVerifyTypeEnum *)
Definition CreateVerifyTypeEnum : JsValue := JsObject [("KEY_DATA", JsInt32 0); ("FULL_DATA", JsInt32 1)].
(* @src interfaces/kits/js/volume_manager/src/volumemanager_n_exporter.cpp 1424-1431 ExportModuleEnums *)
Definition ExportModuleEnums : list (string * JsValue) := [("DiskType", CreateDiskTypeEnum); ("VerifyType", CreateVerifyTypeEnum)].

(** ** Arguments *)
(* @src interfaces/kits/js/volume_manager/src/volumemanager_n_exporter.cpp 256-267 CheckVolumes *)
Definition CheckVolumes (a : A) (env : E) : Check unit := let? _ := system_app env in init_args 0 1 a.
(* @src interfaces/kits/js/volume_manager/src/volumemanager_n_exporter.cpp 319-330 CheckMount *)
Definition CheckMount (a : A) (env : E) : Check unit := let? _ := system_app env in init_args 1 2 a.
(* @src interfaces/kits/js/volume_manager/src/volumemanager_n_exporter.cpp 510-528 ParseTwoStringArgs *)
Definition ParseTwoStringArgs (a : A) : Check (string * string) :=
  let? first := utf8_arg (nf_arg a 0) in
  let? second := utf8_arg (nf_arg a 1) in
  inr (first, second).
(* @src interfaces/kits/js/volume_manager/src/volumemanager_n_exporter.cpp 626-642 ParseStringAndInt32Args *)
Definition ParseStringAndInt32Args (a : A) : Check (string * Z) :=
  let? str := utf8_arg (nf_arg a 0) in
  let? num := int32_arg (nf_arg a 1) in
  inr (str, num).
(** A member of the parameters that must be there and convert. *)
Definition member {T} (conv : option V -> option T) (obj : V) (key : string) : option T :=
  match nv_prop obj key with Some v => conv (Some v) | None => None end.
(* @src interfaces/kits/js/volume_manager/src/volumemanager_n_exporter.cpp 1023-1071 ParsePartitionParams *)
Definition ParsePartitionParams (paramsObj : option V) : option PartitionParams :=
  match paramsObj with
  | None => None
  | Some params =>
      match member nv_int32 params "partitionNum" with
      | None => None
      | Some partitionNum =>
          match member nv_int64 params "startSector" with
          | None => None
          | Some startSector =>
              match member nv_int64 params "endSector" with
              | None => None
              | Some endSector =>
                  match member utf8 params "typeCode" with
                  | None => None
                  | Some typeCode => Some (mkPartitionParams partitionNum startSector endSector typeCode)
                  end
              end
          end
      end
  end.
(* @src interfaces/kits/js/volume_manager/src/volumemanager_n_exporter.cpp 1153-1187 ParseFormatParams *)
Definition ParseFormatParams (paramsObj : option V) : option FormatParams :=
  match paramsObj with
  | None => None
  | Some params =>
      match member utf8 params "fsType" with
      | None => None
      | Some fsType =>
          let quickFormat :=
            match member nv_bool params "quickFormat" with Some q => q | None => fp_quickFormat FormatParams_default end in
          let volumeName :=
            match member utf8 params "volumeName" with Some n => n | None => fp_volumeName FormatParams_default end in
          Some (mkFormatParams fsType quickFormat volumeName)
      end
  end.
(* @src interfaces/kits/js/volume_manager/src/volumemanager_n_exporter.cpp 1190-1214 ParseFormatPartitionBasicArgs *)
Definition ParseFormatPartitionBasicArgs (a : A) : Check (string * Z) :=
  let? first := present (nf_arg a 0) Silent in
  let? second := present (nf_arg a 1) Silent in
  let? diskId := utf8_arg (Some first) in
  let? partitionNum := int32_arg (Some second) in
  inr (diskId, partitionNum).

(* @src interfaces/kits/js/volume_manager/src/volumemanager_n_exporter.cpp 51-68 AppendWantLineUtf8 *)
Definition AppendWantLineUtf8 (want : option V) (key : string) : string :=
  opt_line key
    (match na_has want key with Some true => utf8 (na_get want key) | _ => None end).
(* @src interfaces/kits/js/volume_manager/src/volumemanager_n_exporter.cpp 70-83 AppendWantLineBool *)
Definition AppendWantLineBool (want : option V) (key : string) : string :=
  opt_line key
    (match na_has want key with
     | Some true => (fun bv : bool => if bv then "true" else "false") <$> na_get_bool (na_get want key)
     | _ => None
     end).
(* @src interfaces/kits/js/volume_manager/src/volumemanager_n_exporter.cpp 85-102 AppendWantLineInt32 *)
Definition AppendWantLineInt32 (want : option V) (key : string) : string :=
  opt_line key (match na_has want key with Some true => to_string <$> nv_int32 (na_get want key) | _ => None end).
(* @src interfaces/kits/js/volume_manager/src/volumemanager_n_exporter.cpp 104-115 BuildBurnOptionsLines *)
Definition BuildBurnOptionsLines (wantObj : option V) : string :=
  AppendWantLineUtf8 wantObj "diskName" +:+ AppendWantLineUtf8 wantObj "burnPath" +:+
  AppendWantLineBool wantObj "isIsoImage" +:+ AppendWantLineInt32 wantObj "burnSpeed" +:+
  AppendWantLineUtf8 wantObj "fsType" +:+ AppendWantLineBool wantObj "isIncBurnSupport" +:+
  AppendWantLineBool wantObj "isVerifyBurn".

(** ** Volumes *)
(* @src interfaces/kits/js/volume_manager/src/volumemanager_n_exporter.cpp 288-317 GetAllVolumes *)
Definition Js_GetAllVolumes (a : A) : M (JsOutcome V) :=
  checked (CheckVolumes a) (fun _ =>
    settle (callback_at 0 a) fst (fun r => BuildVolumeArrayFromVector r.2) (Client_GetAllVolumes [])).
(** The functions with one string and an optional callback. *)
Definition mount_arg (a : A) (env : E) : Check string := let? _ := CheckMount a env in utf8_arg (nf_arg a 0).
(* @src interfaces/kits/js/volume_manager/src/volumemanager_n_exporter.cpp 332-373 Mount *)
Definition Js_Mount (a : A) : M (JsOutcome V) :=
  checked (mount_arg a) (fun volumeIdString =>
    settle (callback_at 1 a) id (fun _ => JsUndefined) (Client_Mount volumeIdString MountParam_default)).
(* @src interfaces/kits/js/volume_manager/src/volumemanager_n_exporter.cpp 375-415 Unmount *)
Definition Js_Unmount (a : A) : M (JsOutcome V) :=
  checked (mount_arg a) (fun volumeIdString =>
    settle (callback_at 1 a) id (fun _ => JsUndefined) (Client_Unmount volumeIdString)).
(* @src interfaces/kits/js/volume_manager/src/volumemanager_n_exporter.cpp 417-460 GetVolumeByUuid *)
Definition Js_GetVolumeByUuid (a : A) : M (JsOutcome V) :=
  checked (mount_arg a) (fun uuidString =>
    settle (callback_at 1 a) fst (fun r => FillVolumeJSObject r.2) (Client_GetVolumeByUuid uuidString VolumeExternal_default)).
(* @src interfaces/kits/js/volume_manager/src/volumemanager_n_exporter.cpp 462-507 GetVolumeById *)
Definition Js_GetVolumeById (a : A) : M (JsOutcome V) :=
  checked (mount_arg a) (fun volumeIdString =>
    settle (callback_at 1 a) fst (fun r => FillVolumeJSObject r.2) (Client_GetVolumeById volumeIdString VolumeExternal_default)).
(* @src interfaces/kits/js/volume_manager/src/volumemanager_n_exporter.cpp 575-598 SetVolumeDescription *)
Definition Js_SetVolumeDescription (a : A) : M (JsOutcome V) :=
  checked (fun env => let? _ := system_app env in let? _ := init_args 2 3 a in ParseTwoStringArgs a) (fun '(uuidString, descStr) =>
    PromiseVoidOp (Client_SetVolumeDescription uuidString descStr)).
(* @src interfaces/kits/js/volume_manager/src/volumemanager_n_exporter.cpp 600-623 Format *)
Definition Js_Format (a : A) : M (JsOutcome V) :=
  checked (fun env => let? _ := system_app env in let? _ := init_args 2 3 a in ParseTwoStringArgs a) (fun '(volumeIdString, fsTypeString) =>
    PromiseVoidOp (Client_Format volumeIdString fsTypeString)).
(* @src interfaces/kits/js/volume_manager/src/volumemanager_n_exporter.cpp 644-666 Partition *)
Definition Js_Partition (a : A) : M (JsOutcome V) :=
  checked (fun env => let? _ := system_app env in let? _ := init_args 2 3 a in ParseStringAndInt32Args a) (fun '(diskIdString, type) =>
    PromiseVoidOp (Client_Partition diskIdString type)).

(** ** Disks *)
(* @src interfaces/kits/js/volume_manager/src/volumemanager_n_exporter.cpp 668-699 GetAllDisks *)
Definition Js_GetAllDisks (a : A) : M (JsOutcome V) :=
  checked (fun env => let? _ := system_app env in let? _ := granted PERMISSION_MOUNT_MANAGER env in init_args 0 0 a) (fun _ =>
    settle None fst (fun r => MakeDiskJsArrayFromVector r.2) (Client_GetAllDisks [])).
(** The functions with one string that must not be null. *)
Definition disk_arg (a : A) (_ : E) : Check string :=
  let? _ := init_args 1 1 a in
  let? first := present (nf_arg a 0) bad_params in
  utf8_arg (Some first).
(* @src interfaces/kits/js/volume_manager/src/volumemanager_n_exporter.cpp 701-739 GetDiskById *)
Definition Js_GetDiskById (a : A) : M (JsOutcome V) :=
  checked (disk_arg a) (fun diskIdStr =>
    settle None fst (fun r => BuildDiskJSObject r.2) (Client_GetDiskById diskIdStr Disk_default)).

(** ** Optical media *)
(* @src interfaces/kits/js/volume_manager/src/volumemanager_n_exporter.cpp 741-764 Erase *)
Definition Js_Erase (a : A) : M (JsOutcome V) :=
  checked (mount_arg a) (fun volumeIdStr => PromiseVoidOp (Client_Erase volumeIdStr)).
(* @src interfaces/kits/js/volume_manager/src/volumemanager_n_exporter.cpp 766-789 Eject *)
Definition Js_Eject (a : A) : M (JsOutcome V) :=
  checked (mount_arg a) (fun diskIdString => PromiseVoidOpSkipParamsInvalid (Client_Eject diskIdString)).
(* @src interfaces/kits/js/volume_manager/src/volumemanager_n_exporter.cpp 791-821 CreateIsoImage *)
Definition Js_CreateIsoImage (a : A) : M (JsOutcome V) :=
  checked (fun env => let? _ := system_app env in let? _ := init_args 2 3 a in ParseTwoStringArgs a) (fun '(volIdStr, filePathStr) =>
    PromiseVoidOpSkipParamsInvalid (Client_CreateIsoImage volIdStr filePathStr)).
(** The volume and the parameters of the [Want]. *)
Definition burn_args (a : A) (env : E) : Check (string * option V) :=
  let? _ := system_app env in
  let? _ := init_args 2 3 a in
  let? volumeId := utf8_arg (nf_arg a 0) in
  let wantArg := nf_arg a 1 in
  let? _ := require (na_is_object wantArg) JsErr.E_PARAMS in
  let? _ := require (default false (na_has wantArg "parameters")) JsErr.E_PARAMS in
  inr (volumeId, na_get wantArg "parameters").
(* @src interfaces/kits/js/volume_manager/src/volumemanager_n_exporter.cpp 823-870 Burn *)
Definition Js_Burn (a : A) : M (JsOutcome V) :=
  checked (burn_args a) (fun '(volumeIdStr, parameters) =>
    PromiseVoidOp (Client_Burn volumeIdStr (BuildBurnOptionsLines parameters))).
(* @src interfaces/kits/js/volume_manager/src/volumemanager_n_exporter.cpp 176-201 ScheduleVolumeGetOpProcess *)
Definition ScheduleVolumeGetOpProcess (volumeIdStr : string) (a : A) : M (JsOutcome V) :=
  settle (callback_at 1 a) fst (fun r => JsInt32 r.2) (Client_GetVolumeOpProcess volumeIdStr 0).
(* @src interfaces/kits/js/volume_manager/src/volumemanager_n_exporter.cpp 872-892 GetOpProcess *)
Definition Js_GetOpProcess (a : A) : M (JsOutcome V) :=
  checked (mount_arg a) (fun volumeId => ScheduleVolumeGetOpProcess volumeId a).
(* @src interfaces/kits/js/volume_manager/src/volumemanager_n_exporter.cpp 894-933 IsVolumeInUse *)
Definition Js_IsVolumeInUse (a : A) : M (JsOutcome V) :=
  checked (fun env => let? _ := system_app env in let? _ := granted PERMISSION_MOUNT_MANAGER env in
                      let? _ := init_args 1 1 a in utf8_arg (nf_arg a 0)) (fun volumePathStr =>
    settle None fst (fun r => JsBoolean r.2) (Client_QueryUsbIsInUse volumePathStr true)).

(** ** Partitions *)
(* @src interfaces/kits/js/volume_manager/src/volumemanager_n_exporter.cpp 984-1020 GetPartitionTable *)
Definition Js_GetPartitionTable (a : A) : M (JsOutcome V) :=
  checked (disk_arg a) (fun diskIdStr =>
    settle None fst (fun r => BuildPartitionTableInfoJSObject r.2) (Client_GetPartitionTable diskIdStr PartitionTableInfo_default)).
Definition create_args (a : A) (_ : E) : Check (string * PartitionParams) :=
  let? _ := init_args 2 2 a in
  let? first := present (nf_arg a 0) bad_params in
  let? _ := present (nf_arg a 1) bad_params in
  let? diskId := utf8_arg (Some first) in
  let? _ := require (na_is_object (nf_arg a 1)) JsErr.E_PARAMS in
  let? params := present (ParsePartitionParams (nf_arg a 1)) bad_params in
  inr (diskId, params).
(* @src interfaces/kits/js/volume_manager/src/volumemanager_n_exporter.cpp 1073-1113 CreatePartition *)
Definition Js_CreatePartition (a : A) : M (JsOutcome V) :=
  checked (create_args a) (fun '(diskIdStr, params) => PromiseVoidOp (Client_CreatePartition diskIdStr params)).
Definition delete_args (a : A) (_ : E) : Check (string * Z) :=
  let? _ := init_args 2 2 a in
  let? first := present (nf_arg a 0) bad_params in
  let? second := present (nf_arg a 1) bad_params in
  let? diskId := utf8_arg (Some first) in
  let? partitionNum := int32_arg (Some second) in
  inr (diskId, partitionNum).
(* @src interfaces/kits/js/volume_manager/src/volumemanager_n_exporter.cpp 1115-1150 DeletePartition *)
Definition Js_DeletePartition (a : A) : M (JsOutcome V) :=
  checked (delete_args a) (fun '(diskIdStr, partitionNum) => PromiseVoidOp (Client_DeletePartition diskIdStr partitionNum)).
Definition format_args (a : A) (_ : E) : Check (string * Z * FormatParams) :=
  let? _ := init_args 3 3 a in
  let? (diskId, partitionNum) := ParseFormatPartitionBasicArgs a in
  let? params := present (ParseFormatParams (nf_arg a 2)) bad_params in
  inr (diskId, partitionNum, params).
(* @src interfaces/kits/js/volume_manager/src/volumemanager_n_exporter.cpp 1216-1237 FormatPartition *)
Definition Js_FormatPartition (a : A) : M (JsOutcome V) :=
  checked (format_args a) (fun '(diskId, partitionNum, params) =>
    PromiseVoidOp (Client_FormatPartition diskId partitionNum params)).

(** ** Public queries *)
(* @src interfaces/kits/js/volume_manager/src/volumemanager_n_exporter.cpp 1285-1312 GetExternalDiskInfos *)
Definition Js_GetExternalDiskInfos (a : A) : M (JsOutcome V) :=
  checked (fun env => let? _ := granted PERMISSION_GET_STORAGE_VOLUME_INFO env in init_args 0 0 a) (fun _ =>
    settle None fst (fun r => MakeExternalDiskJsArray r.2) (Client_GetExternalDiskInfos [])).
(* @src interfaces/kits/js/volume_manager/src/volumemanager_n_exporter.cpp 1352-1379 GetExternalVolumeInfos *)
Definition Js_GetExternalVolumeInfos (a : A) : M (JsOutcome V) :=
  checked (fun env => let? _ := granted PERMISSION_GET_STORAGE_VOLUME_INFO env in init_args 0 0 a) (fun _ =>
    settle None fst (fun r => MakeExternalVolumeJsArray r.2) (Client_GetExternalVolumeInfos [])).

(** The functions the module exports, by name; the eight that [HMDFS_FILE_MANAGER] adds are
    in [DfsService]. *)
(* @src interfaces/kits/js/volume_manager/src/volumemanager_n_exporter.cpp 1384-1410 g_properties *)
Definition g_properties : list (string * (A -> M (JsOutcome V))) :=
  [("getAllVolumes", Js_GetAllVolumes); ("mount", Js_Mount); ("unmount", Js_Unmount);
   ("getVolumeByUuid", Js_GetVolumeByUuid); ("getVolumeById", Js_GetVolumeById);
   ("setVolumeDescription", Js_SetVolumeDescription); ("format", Js_Format); ("partition", Js_Partition);
   ("getAllDisks", Js_GetAllDisks); ("getDiskById", Js_GetDiskById); ("erase", Js_Erase); ("eject", Js_Eject);
   ("createIsoImage", Js_CreateIsoImage); ("burn", Js_Burn); ("getOpProcess", Js_GetOpProcess);
   ("getPartitionTable", Js_GetPartitionTable); ("createPartition", Js_CreatePartition);
   ("deletePartition", Js_DeletePartition); ("formatPartition", Js_FormatPartition); ("isVolumeInUse", Js_IsVolumeInUse);
   ("getExternalDiskInfos", Js_GetExternalDiskInfos); ("getExternalVolumeInfos", Js_GetExternalVolumeInfos)].
End js.
