(* ===== verification/JsKitFacts.v ===== *)
(** * Theorems about the N-API kit

    Every function of the kit makes at most one call of the client library, read off its
    arguments, and settles its promise or callback with what that call answered. *)
From S2P Require Import Prelude CppString State Types JsErrors Provider Seq Client Taihe JsKit.

(** ** The functions of the kit as one type *)
Inductive JsFn : Set :=
  | JGetAllVolumes | JMount | JUnmount | JGetVolumeByUuid | JGetVolumeById | JSetVolumeDescription | JFormat | JPartition
  | JGetAllDisks | JGetDiskById | JErase | JEject | JCreateIsoImage | JBurn | JGetOpProcess | JGetPartitionTable
  | JCreatePartition | JDeletePartition | JFormatPartition | JIsVolumeInUse | JGetExternalDiskInfos | JGetExternalVolumeInfos.
#[global] Instance JsFn_eq_dec : EqDecision JsFn. Proof. solve_decision. Defined.
Definition js_name (f : JsFn) : string :=
  match f with
  | JGetAllVolumes => "getAllVolumes" | JMount => "mount" | JUnmount => "unmount" | JGetVolumeByUuid => "getVolumeByUuid"
  | JGetVolumeById => "getVolumeById" | JSetVolumeDescription => "setVolumeDescription" | JFormat => "format"
  | JPartition => "partition" | JGetAllDisks => "getAllDisks" | JGetDiskById => "getDiskById" | JErase => "erase"
  | JEject => "eject" | JCreateIsoImage => "createIsoImage" | JBurn => "burn" | JGetOpProcess => "getOpProcess"
  | JGetPartitionTable => "getPartitionTable" | JCreatePartition => "createPartition"
  | JDeletePartition => "deletePartition" | JFormatPartition => "formatPartition" | JIsVolumeInUse => "isVolumeInUse"
  | JGetExternalDiskInfos => "getExternalDiskInfos" | JGetExternalVolumeInfos => "getExternalVolumeInfos"
  end.

(** The value a successful call settles with. *)
Definition js_value {T} (c : DmCall T) : T -> JsValue :=
  match c in DmCall T return T -> JsValue with
  | DmGetAllVolumes => fun r => BuildVolumeArrayFromVector r.2
  | DmGetVolumeByUuid _ | DmGetVolumeById _ => fun r => FillVolumeJSObject r.2
  | DmGetAllDisks => fun r => MakeDiskJsArrayFromVector r.2
  | DmGetDiskById _ => fun r => BuildDiskJSObject r.2
  | DmGetPartitionTable _ => fun r => BuildPartitionTableInfoJSObject r.2
  | DmGetVolumeOpProcess _ => fun r => JsInt32 r.2
  | DmQueryUsbIsInUse _ => fun r => JsBoolean r.2
  | DmGetExternalDiskInfos => fun r => MakeExternalDiskJsArray r.2
  | DmGetExternalVolumeInfos => fun r => MakeExternalVolumeJsArray r.2
  | _ => fun _ => JsUndefined
  end.
(** The error a failed call settles with. *)
Definition js_error (f : JsFn) (code : Z) : Z :=
  if bool_decide (f ∈ [JEject; JCreateIsoImage]) && (code =? NativeErr.E_PARAMS_INVALID) then code else Convert2JsErrNum code.

Section js.
Context {E O Pr V A : Type} {SM : SaMgr E O Pr} {AT : AccessToken E} {NE : NapiEnv V A}.
Notation M := (State (DiskManagerClient E O Pr)).

Definition js_run (f : JsFn) : A -> M (JsOutcome V) :=
  match f with
  | JGetAllVolumes => Js_GetAllVolumes | JMount => Js_Mount | JUnmount => Js_Unmount
  | JGetVolumeByUuid => Js_GetVolumeByUuid | JGetVolumeById => Js_GetVolumeById
  | JSetVolumeDescription => Js_SetVolumeDescription | JFormat => Js_Format | JPartition => Js_Partition
  | JGetAllDisks => Js_GetAllDisks | JGetDiskById => Js_GetDiskById | JErase => Js_Erase | JEject => Js_Eject
  | JCreateIsoImage => Js_CreateIsoImage | JBurn => Js_Burn | JGetOpProcess => Js_GetOpProcess
  | JGetPartitionTable => Js_GetPartitionTable | JCreatePartition => Js_CreatePartition
  | JDeletePartition => Js_DeletePartition | JFormatPartition => Js_FormatPartition
  | JIsVolumeInUse => Js_IsVolumeInUse | JGetExternalDiskInfos => Js_GetExternalDiskInfos
  | JGetExternalVolumeInfos => Js_GetExternalVolumeInfos
  end.

(** The call of the client library a function stands for, read off its arguments. *)
Definition js_call (f : JsFn) (a : A) (B : Type) (c : DmCall B) : Prop :=
  let str i s := utf8 (nf_arg a i) = Some s in
  let num i n := nv_int32 (nf_arg a i) = Some n in
  match f with
  | JGetAllVolumes => existT B c = existT _ DmGetAllVolumes
  | JMount => exists s, str 0%nat s /\ existT B c = existT _ (DmMount s MountParam_default)
  | JUnmount => exists s, str 0%nat s /\ existT B c = existT _ (DmUnmount s)
  | JGetVolumeByUuid => exists s, str 0%nat s /\ existT B c = existT _ (DmGetVolumeByUuid s)
  | JGetVolumeById => exists s, str 0%nat s /\ existT B c = existT _ (DmGetVolumeById s)
  | JSetVolumeDescription => exists s t, str 0%nat s /\ str 1%nat t /\ existT B c = existT _ (DmSetVolumeDescription s t)
  | JFormat => exists s t, str 0%nat s /\ str 1%nat t /\ existT B c = existT _ (DmFormat s t)
  | JPartition => exists s n, str 0%nat s /\ num 1%nat n /\ existT B c = existT _ (DmPartition s n)
  | JGetAllDisks => existT B c = existT _ DmGetAllDisks
  | JGetDiskById => exists s, str 0%nat s /\ existT B c = existT _ (DmGetDiskById s)
  | JErase => exists s, str 0%nat s /\ existT B c = existT _ (DmErase s)
  | JEject => exists s, str 0%nat s /\ existT B c = existT _ (DmEject s)
  | JCreateIsoImage => exists s t, str 0%nat s /\ str 1%nat t /\ existT B c = existT _ (DmCreateIsoImage s t)
  | JBurn => exists s, str 0%nat s /\
      existT B c = existT _ (DmBurn s (BuildBurnOptionsLines (na_get (nf_arg a 1) "parameters")))
  | JGetOpProcess => exists s, str 0%nat s /\ existT B c = existT _ (DmGetVolumeOpProcess s)
  | JGetPartitionTable => exists s, str 0%nat s /\ existT B c = existT _ (DmGetPartitionTable s)
  | JCreatePartition => exists s p, str 0%nat s /\ ParsePartitionParams (nf_arg a 1) = Some p /\
      existT B c = existT _ (DmCreatePartition s p)
  | JDeletePartition => exists s n, str 0%nat s /\ num 1%nat n /\ existT B c = existT _ (DmDeletePartition s n)
  | JFormatPartition => exists s n p, str 0%nat s /\ num 1%nat n /\ ParseFormatParams (nf_arg a 2) = Some p /\
      existT B c = existT _ (DmFormatPartition s n p)
  | JIsVolumeInUse => exists s, str 0%nat s /\ existT B c = existT _ (DmQueryUsbIsInUse s)
  | JGetExternalDiskInfos => existT B c = existT _ DmGetExternalDiskInfos
  | JGetExternalVolumeInfos => existT B c = existT _ DmGetExternalVolumeInfos
  end.
(** Who may call it. *)
Definition js_allowed (f : JsFn) (env : E) : bool :=
  match f with
  | JGetDiskById | JGetPartitionTable | JCreatePartition | JDeletePartition | JFormatPartition => true
  | JGetExternalDiskInfos | JGetExternalVolumeInfos => Kit_VerifyCallerPermission PERMISSION_GET_STORAGE_VOLUME_INFO env
  | JGetAllDisks | JIsVolumeInUse => IsSystemApp env && Kit_VerifyCallerPermission PERMISSION_MOUNT_MANAGER env
  | _ => IsSystemApp env
  end.
(** The callback, where the function has one. *)
Definition js_callback (f : JsFn) (a : A) : option (option V) :=
  match f with
  | JGetAllVolumes => callback_at 0 a
  | JMount | JUnmount | JGetVolumeByUuid | JGetVolumeById | JGetOpProcess => callback_at 1 a
  | _ => None
  end.

(** ** What a function does *)
Definition js_refusals (f : JsFn) : list Refusal :=
  [Threw JsErr.E_PARAMS; Threw JsErr.E_PERMISSION; Threw JsErr.E_PERMISSION_SYS] ++
  if decide (f = JFormatPartition) then [Silent] else [].
Definition js_outcome (f : JsFn) (a : A) (cl : DiskManagerClient E O Pr) (out : JsOutcome V * DiskManagerClient E O Pr) : Prop :=
  (exists r, out = (JsRefused r, cl) /\ r ∈ js_refusals f) \/
  (exists B (c : DmCall B) (old : B),
     js_call f a B c /\ js_allowed f (cl_env cl) = true /\
     let (r, cl1) := run_call c old cl in
     out = (JsSettled (js_callback f a)
              (if ret_code c r =? NativeErr.E_OK then inr (js_value c r) else inl (js_error f (ret_code c r))), cl1)).

(** No error converts to success. *)
Lemma Convert2JsErrNum_error code : code <> 0 -> Convert2JsErrNum code <> 0.
Proof.
  intros Hc. unfold Convert2JsErrNum. destruct (errCodeTable !! code) as [js|] eqn:H; [|done].
  apply elem_of_list_to_map_2 in H. repeat (apply elem_of_cons in H as [[= -> ->]|H]; [done|]). by apply elem_of_nil in H.
Qed.
Lemma exec_error_settles {T} code (v : T) :
  (if negb (exec_error code =? ERRNO_NOERR) then inl (exec_error code) else inr v) =
  if code =? NativeErr.E_OK then inr v else inl (Convert2JsErrNum code).
Proof.
  unfold exec_error, ERRNO_NOERR. destruct (Z.eqb_spec code NativeErr.E_OK) as [->|Hne]; [done|]. cbn.
  destruct (Z.eqb_spec (Convert2JsErrNum code) 0) as [H|_]; [|done]. by apply Convert2JsErrNum_error in H.
Qed.

(** Checks. *)
Lemma check_bind_ok {T U} (c : Check T) (f : T -> Check U) y : check_bind c f = inr y <-> exists x, c = inr x /\ f x = inr y.
Proof. destruct c as [r|x]; cbn; naive_solver. Qed.
Lemma check_bind_refuses {T U} (c : Check T) (f : T -> Check U) r :
  check_bind c f = inl r <-> c = inl r \/ exists x, c = inr x /\ f x = inl r.
Proof. destruct c as [r'|x]; cbn; naive_solver. Qed.
Lemma require_ok b code u : require b code = inr u <-> b = true.
Proof. destruct b, u; cbn; naive_solver. Qed.
Lemma require_refuses b code r : require b code = inl r <-> b = false /\ r = Threw code.
Proof. destruct b; cbn; naive_solver. Qed.
Lemma present_ok {T} (x : option T) r v : present x r = inr v <-> x = Some v.
Proof. destruct x; cbn; naive_solver. Qed.
Lemma present_refuses {T} (x : option T) r r' : present x r = inl r' <-> x = None /\ r' = r.
Proof. destruct x; cbn; naive_solver. Qed.

(** A function is a check followed by one piece of work. *)
Lemma checked_outcome {T} f a (check : E -> Check T) (work : T -> M (JsOutcome V)) cl :
  (forall r, check (cl_env cl) = inl r -> r ∈ js_refusals f) ->
  (forall x, check (cl_env cl) = inr x -> js_outcome f a cl (work x cl)) ->
  js_outcome f a cl (checked check work cl).
Proof.
  intros Hr Hw. unfold checked, sbind, sget. destruct (check (cl_env cl)) as [r|x]; [|by apply Hw].
  left. exists r. split; [done|]. by apply Hr.
Qed.
Lemma settle_outcome {B} f a (c : DmCall B) (old : B) cb (errNum : B -> Z) (build : B -> JsValue) work cl :
  js_call f a B c -> f ∉ [JEject; JCreateIsoImage] -> work = run_call c old -> errNum = ret_code c -> build = js_value c ->
  js_callback f a = cb -> js_allowed f (cl_env cl) = true -> js_outcome f a cl (settle cb errNum build work cl).
Proof.
  intros Hc Hf -> -> -> <- Ha. right. exists B, c, old. split; [done|]. split; [done|].
  unfold settle, sbind. destruct (run_call c old cl) as [r cl1]. unfold sret. f_equal. f_equal. cbv zeta.
  rewrite exec_error_settles. unfold js_error. by rewrite bool_decide_false.
Qed.
Lemma skip_outcome f a (c : DmCall Z) work cl :
  js_call f a Z c -> f ∈ [JEject; JCreateIsoImage] -> work = run_call c 0 -> ret_code c = id -> js_value c = (fun _ => JsUndefined) ->
  js_callback f a = None -> js_allowed f (cl_env cl) = true ->
  js_outcome f a cl (PromiseVoidOpSkipParamsInvalid work cl).
Proof.
  intros Hc Hf -> Hid Hv Hcb Ha. right. exists Z, c, 0. split; [done|]. split; [done|]. rewrite Hid, Hv, Hcb.
  unfold PromiseVoidOpSkipParamsInvalid, sbind. destruct (run_call c 0 cl) as [r cl1]. unfold sret. f_equal. f_equal.
  unfold js_error. rewrite bool_decide_true by done. unfold id, ERRNO_NOERR. cbn [andb].
  destruct (Z.eqb_spec r NativeErr.E_OK) as [->|Hne]; [done|]. cbn [negb].
  destruct (Z.eqb_spec r NativeErr.E_PARAMS_INVALID) as [->|Hne']; [done|].
  destruct (Z.eqb_spec (Convert2JsErrNum r) 0) as [H|_]; [|done]. by apply Convert2JsErrNum_error in H.
Qed.

(** *** Automation *)
Ltac open_checks :=
  repeat match goal with
  | H : check_bind _ _ = inr _ |- _ => apply check_bind_ok in H as (? & ? & ?)
  | H : check_bind _ _ = inl _ |- _ => apply check_bind_refuses in H as [?|(? & ? & ?)]
  | H : require _ _ = inr _ |- _ => apply require_ok in H
  | H : require _ _ = inl _ |- _ => apply require_refuses in H as [? ->]
  | H : present _ _ = inr _ |- _ => apply present_ok in H
  | H : present _ _ = inl _ |- _ => apply present_refuses in H as [? ->]
  | H : nf_arg _ _ = Some ?v, H' : ?c (Some ?v) = _ |- _ => rewrite <- H in H'
  | x : (_ * _)%type |- _ => destruct x
  | H : inr _ = inr _ |- _ => injection H; clear H; intros; subst
  | H : inr _ = inl _ |- _ => discriminate H
  | H : inl _ = inr _ |- _ => discriminate H
  end.
Ltac unfold_checks H :=
  unfold CheckVolumes, mount_arg, CheckMount, disk_arg, burn_args, create_args, delete_args, format_args, ParseFormatPartitionBasicArgs,
    ParseTwoStringArgs, ParseStringAndInt32Args, system_app, granted, init_args, utf8_arg, int32_arg in H.
Ltac refused := intros ? Hchk; unfold_checks Hchk; open_checks; unfold js_refusals; set_solver.
Ltac settled old :=
  eapply (settle_outcome _ _ _ old);
    [cbn; eauto 10|set_solver|reflexivity|reflexivity|reflexivity|reflexivity|cbn; by repeat (apply andb_true_intro; split)].
Ltac skipped := eapply skip_outcome; [cbn; eauto 10|set_solver|reflexivity|reflexivity|reflexivity|reflexivity|done].
Ltac settled_any :=
  first [ skipped | settled (0 : Z) | settled (0 : Z, VolumeExternal_default) | settled (0 : Z, Disk_default)
        | settled (0 : Z, PartitionTableInfo_default) | settled (0 : Z, 0 : Z) | settled (0 : Z, true)
        | settled (0 : Z, @nil VolumeExternal) | settled (0 : Z, @nil Disk) | settled (0 : Z, @nil ExternalDiskInfo)
        | settled (0 : Z, @nil ExternalVolumeInfo) ].
Ltac worked := intros ? Hchk; unfold_checks Hchk; open_checks; settled_any.
Lemma js_run_outcome f a cl : js_outcome f a cl (js_run f a cl).
Proof. destruct f; (apply checked_outcome; [refused|worked]). Qed.

Lemma js_exported f : (js_name f, js_run f) ∈ (g_properties : list (string * (A -> M (JsOutcome V)))).
Proof. unfold g_properties. destruct f; cbn [js_name js_run]; repeat (left || right). Qed.

(** ** Claims *)

(** C38: Every function the module exports either refuses the call, with one of the errors
    of the kit ([formatPartition] may also return null without one) and without touching
    the client library, or the caller is allowed to use it, it makes exactly the call read
    off its arguments, once, and settles its promise or callback: with the value built
    from the answer when the call succeeded, with the converted error when it failed. No
    failure of the service settles as a success. *)
Theorem js_settles_with_call (f : JsFn) (a : A) (cl : DiskManagerClient E O Pr) :
  (js_name f, js_run f) ∈ (g_properties : list (string * (A -> M (JsOutcome V)))) /\
  let (out, cl') := js_run f a cl in
  (exists r,
     out = JsRefused r /\ cl' = cl /\
     (r ∈ [Threw JsErr.E_PARAMS; Threw JsErr.E_PERMISSION; Threw JsErr.E_PERMISSION_SYS] \/ (r = Silent /\ f = JFormatPartition))) \/
  (exists B (c : DmCall B) (old : B),
     js_call f a B c /\ js_allowed f (cl_env cl) = true /\
     let (r, cl1) := run_call c old cl in
     cl' = cl1 /\
     out = JsSettled (js_callback f a)
             (if ret_code c r =? NativeErr.E_OK then inr (js_value c r) else inl (js_error f (ret_code c r))) /\
     (ret_code c r = NativeErr.E_OK \/ js_error f (ret_code c r) <> ERRNO_NOERR)).
Proof.
  split; [apply js_exported|]. assert (H := js_run_outcome f a cl). destruct (js_run f a cl) as [out cl'].
  destruct H as [(r & [= -> ->] & Hr)|(B & c & old & Hc & Ha & H)].
  - left. exists r. split; [done|]. split; [done|]. unfold js_refusals in Hr.
    apply elem_of_app in Hr as [Hr|Hr]; [by left|right]. case_decide; set_solver.
  - right. exists B, c, old. split; [done|]. split; [done|]. destruct (run_call c old cl) as [r cl1].
    injection H as -> ->. split; [done|]. split; [done|].
    destruct (Z.eq_dec (ret_code c r) NativeErr.E_OK) as [|Hne]; [by left|right]. unfold js_error.
    destruct (_ && _)%bool; [done|]. by apply Convert2JsErrNum_error.
Qed.

(** [eject] and [createIsoImage] pass an invalid parameter on unconverted, and its number is
    the one applications know as an unsupported file system. *)
Lemma eject_params_invalid :
  js_error JEject NativeErr.E_PARAMS_INVALID = JsErr.E_SUPPORTEDFS /\
  js_error JMount NativeErr.E_PARAMS_INVALID = JsErr.E_JS_PARAMS_INVALID.
Proof. split; reflexivity. Qed.
End js.
