(* ===== verification/DfsService.v ===== *)
(** * [kits/js/volume_manager/src/napi_module_dfs_service.cpp] and [napi_module_dfs_listener.cpp]

    The functions of the JavaScript module about distributed files (built with
    HMDFS_FILE_MANAGER). They call the distributed-file daemon's manager, and [on] and [off]
    keep a table of the listeners registered with it, whose events reach JavaScript. The
    functions run on a JavaScript thread; the daemon's [OnStatus] may come at any time
    between them. The calls that create values are taken to succeed, as in [JsKit]. *)
From S2P Require Import Prelude CppString State JsErrors JsKit.

Section types.
Context (V : Type).

(** [DfsDeviceInfo] of the daemon's headers. *)
Record DfsDeviceInfo : Type := mkDfsDeviceInfo {
  networkId_ : string;
  path_ : string;
}.
(* @src interfaces/kits/js/volume_manager/include/napi_module_dfs_listener.h 51-56 StatusEventInfo *)
Record StatusEventInfo : Type := mkStatusEventInfo {
  se_networkId : string;
  se_path : string;
  se_type : Z;
  se_status : Z;
}.
(** [callbackRef_] is null when the reference could not be made. *)
(* @src interfaces/kits/js/volume_manager/include/napi_module_dfs_listener.h 59-61 NapiFileDfsListener *)
Record NapiFileDfsListener : Type := mkNapiFileDfsListener {
  jsCallback_ : V;
  callbackRef_ : option V;
}.

(** The calls of [DistributedFileDaemonManager], with the types of their answers: the
    result and what the out parameter then holds. *)
Inductive DfsCall : Type -> Type :=
  | DfIsSameAccountDevice (networkId : string) : DfsCall (Z * bool)
  | DfGetDfsSwitchStatus (networkId : string) : DfsCall (Z * Z)
  | DfUpdateDfsSwitchStatus (status : Z) : DfsCall Z
  | DfOpenP2PConnectionEx (networkId : string) : DfsCall Z
  | DfCloseP2PConnectionEx (networkId : string) : DfsCall Z
  | DfGetConnectedDeviceList : DfsCall (Z * list DfsDeviceInfo)
  | DfRegisterFileDfsListener (instanceId : string) (listener : NapiFileDfsListener) : DfsCall Z
  | DfUnregisterFileDfsListener (instanceId : string) : DfsCall Z.
(** A call and its answer. *)
Inductive DfsLogged : Type := Logged (T : Type) (c : DfsCall T) (answer : T).
End types.
Arguments mkNapiFileDfsListener {V}. Arguments jsCallback_ {V}. Arguments callbackRef_ {V}.
Arguments DfIsSameAccountDevice {V}. Arguments DfGetDfsSwitchStatus {V}. Arguments DfUpdateDfsSwitchStatus {V}.
Arguments DfOpenP2PConnectionEx {V}. Arguments DfCloseP2PConnectionEx {V}. Arguments DfGetConnectedDeviceList {V}.
Arguments DfRegisterFileDfsListener {V}. Arguments DfUnregisterFileDfsListener {V}. Arguments Logged {V T}.

(** N-API's raw functions with their status, [0] being [napi_ok]; [dn_utf8] is the second
    call of [napi_get_value_string_utf8], into a buffer of the given size. *)
Definition napi_ok : Z := 0.
Definition napi_generic_failure : Z := 9.
Definition EINVAL : Z := 22.
Class DfsEnv (E V A : Type) : Type := {
  dn_cb_info : A -> Z * nat;
  dn_cb_arg : A -> nat -> V;
  dn_utf8_size : V -> Z * nat;
  dn_utf8 : V -> nat -> Z * string;
  dn_int32_or : option V -> Z -> option Z;
  dn_create_reference : V -> E -> bool * E;
  dn_reference_value : option V -> E -> (Z * option V) * E;
  dn_send_event : E -> Z * E;
  dn_open_scope : E -> bool * E;
  dn_set_property : string -> E -> Z * E;
  dn_call_function : V -> JsValue -> E -> Z * E;
  df_call : forall T, DfsCall V T -> E -> T * E;
}.

(** The table, the environment, the calls so far, the events sent to the JavaScript thread
    and not yet run, and the callbacks that were called. *)
(* @src interfaces/kits/js/volume_manager/src/napi_module_dfs_service.cpp 47-48 dfsListeners *)
Record Dfs (E V : Type) : Type := mkDfs {
  dfsListeners : gmap string (NapiFileDfsListener V);
  dfs_env : E;
  dfs_log : list (DfsLogged V);
  dfs_events : list (NapiFileDfsListener V * StatusEventInfo);
  dfs_called : list (V * JsValue);
}.
Arguments mkDfs {E V}. Arguments dfsListeners {E V}. Arguments dfs_env {E V}. Arguments dfs_log {E V}.
Arguments dfs_events {E V}. Arguments dfs_called {E V}.

(** What a call returns: a value, where [None] is null, an exception, or a promise. *)
Inductive DfsReturn : Type :=
  | Returned (v : option JsValue)
  | Thrown (code : Z)
  | Promised (result : Z + JsValue).

Section dfs.
Context {E V A : Type} {NE : NapiEnv V A} {DE : DfsEnv E V A}.
Notation M := (State (Dfs E V)).

(** *** Plumbing *)
Definition dfs_ask {T} (f : E -> T * E) : M T := fun s =>
  let (x, e) := f (dfs_env s) in (x, mkDfs (dfsListeners s) e (dfs_log s) (dfs_events s) (dfs_called s)).
Definition set_dfsListeners (f : gmap string (NapiFileDfsListener V) -> gmap string (NapiFileDfsListener V)) : M unit :=
  smodify (fun s => mkDfs (f (dfsListeners s)) (dfs_env s) (dfs_log s) (dfs_events s) (dfs_called s)).
Definition set_dfs_events (f : list (NapiFileDfsListener V * StatusEventInfo) -> list (NapiFileDfsListener V * StatusEventInfo)) : M unit :=
  smodify (fun s => mkDfs (dfsListeners s) (dfs_env s) (dfs_log s) (f (dfs_events s)) (dfs_called s)).
Definition log_called (cb : V) (v : JsValue) : M unit :=
  smodify (fun s => mkDfs (dfsListeners s) (dfs_env s) (dfs_log s) (dfs_events s) (dfs_called s ++ [(cb, v)])).
Definition daemon_call {T} (c : DfsCall V T) : M T :=
  let! x := dfs_ask (df_call T c) in
  do! smodify (fun s => mkDfs (dfsListeners s) (dfs_env s) (dfs_log s ++ [Logged c x]) (dfs_events s) (dfs_called s)) in
  sret x.
(** Checks of the arguments, then the work. *)
Definition dfs_checked {T} (check : Check T) (work : T -> M DfsReturn) : M DfsReturn :=
  match check with
  | inl (Threw code) => sret (Thrown code)
  | inl Silent => sret (Returned None)
  | inr x => work x
  end.
Definition one_string (a : A) : Check string :=
  let? _ := require (nf_init 1 1 a) EINVAL in
  utf8_arg (nf_arg a 0).
Definition dfs_promise (call : M Z) : M DfsReturn :=
  let! errNum := call in
  let err := exec_error errNum in
  sret (Promised (if negb (err =? ERRNO_NOERR) then inl err else inr JsUndefined)).

(** *** Values *)
(* @src interfaces/kits/js/volume_manager/src/napi_module_dfs_service.cpp 49-73 DealNapiStrValue *)
Definition DealNapiStrValue (napiValue : V) : Z * string :=
  let (status, bufferSize) := dn_utf8_size napiValue in
  if negb (status =? napi_ok) then (status, "")
  else if (bufferSize =? 0)%nat then (napi_ok, "")
  else
    let (status, buffer) := dn_utf8 napiValue (bufferSize + 1) in
    if negb (status =? napi_ok) then (status, "") else (status, buffer).
(* @src interfaces/kits/js/volume_manager/src/napi_module_dfs_service.cpp 75-130 CreateDfsDeviceInfosAsNapiArray *)
Definition CreateDfsDeviceInfosAsNapiArray (dfsDeviceInfos : list DfsDeviceInfo) : JsValue :=
  JsArray (map (fun d => JsObject [("networkId", JsString (c_str (networkId_ d))); ("path", JsString (c_str (path_ d)))])
             dfsDeviceInfos).

(** *** Queries and connections *)
(* @src interfaces/kits/js/volume_manager/src/napi_module_dfs_service.cpp 132-161 DfsService::IsSameAccountDevice *)
Definition Dfs_IsSameAccountDevice (a : A) : M DfsReturn :=
  dfs_checked (one_string a) (fun networkId =>
    let! (ret, isSameAccount) := daemon_call (DfIsSameAccountDevice networkId) in
    if negb (ret =? NativeErr.E_OK) then sret (Thrown ret) else sret (Returned (Some (JsBoolean isSameAccount)))).
(* @src interfaces/kits/js/volume_manager/src/napi_module_dfs_service.cpp 163-195 DfsService::GetDfsSwitchStatus *)
Definition Dfs_GetDfsSwitchStatus (a : A) : M DfsReturn :=
  dfs_checked (one_string a) (fun networkId =>
    let! (ret, switchStatus) := daemon_call (DfGetDfsSwitchStatus networkId) in
    if negb (ret =? NativeErr.E_OK) then sret (Thrown ret) else sret (Returned (Some (JsInt32 switchStatus)))).
Definition NAPI_NUMBER_SIZE : Z := 5.
Definition switch_arg (a : A) : Check Z :=
  let? _ := require (nf_init 1 1 a) EINVAL in
  present (dn_int32_or (nf_arg a 0) NAPI_NUMBER_SIZE) bad_params.
(* @src interfaces/kits/js/volume_manager/src/napi_module_dfs_service.cpp 197-231 DfsService::UpdateDfsSwitchStatus *)
Definition Dfs_UpdateDfsSwitchStatus (a : A) : M DfsReturn :=
  dfs_checked (switch_arg a) (fun status => dfs_promise (daemon_call (DfUpdateDfsSwitchStatus status))).
(* @src interfaces/kits/js/volume_manager/src/napi_module_dfs_service.cpp 233-270 DfsService::ConnectDfs *)
Definition ConnectDfs (a : A) : M DfsReturn :=
  dfs_checked (one_string a) (fun networkId => dfs_promise (daemon_call (DfOpenP2PConnectionEx networkId))).
(* @src interfaces/kits/js/volume_manager/src/napi_module_dfs_service.cpp 272-309 DfsService::DisconnectDfs *)
Definition DisconnectDfs (a : A) : M DfsReturn :=
  dfs_checked (one_string a) (fun networkId => dfs_promise (daemon_call (DfCloseP2PConnectionEx networkId))).
(* @src interfaces/kits/js/volume_manager/src/napi_module_dfs_service.cpp 311-333 DfsService::GetConnectedDeviceList *)
Definition Dfs_GetConnectedDeviceList (a : A) : M DfsReturn :=
  dfs_checked (require (nf_init 0 0 a) EINVAL) (fun _ =>
    let! (ret, dfsDeviceInfos) := daemon_call DfGetConnectedDeviceList in
    if negb (ret =? NativeErr.E_OK) then sret (Thrown ret)
    else sret (Returned (Some (CreateDfsDeviceInfosAsNapiArray dfsDeviceInfos)))).

(** *** Listeners *)
(** The number of arguments of a raw call must be [n]. *)
Definition cb_info (n : nat) (a : A) : bool :=
  let (status, argc) := dn_cb_info a in (status =? napi_ok) && (argc =? n)%nat.
(* @src interfaces/kits/js/volume_manager/include/napi_module_dfs_listener.h 34-40 NapiFileDfsListener::NapiFileDfsListener *)
Definition new_NapiFileDfsListener (jsCallback : V) : M (NapiFileDfsListener V) :=
  let! ok := dfs_ask (dn_create_reference jsCallback) in
  sret (mkNapiFileDfsListener jsCallback (if ok : bool then Some jsCallback else None)).
(* @src interfaces/kits/js/volume_manager/src/napi_module_dfs_service.cpp 335-371 DfsService::DeviceOnline *)
Definition DeviceOnline (a : A) : M DfsReturn :=
  if negb (cb_info 3 a) then sret (Returned None)
  else
    let (status, instanceId) := DealNapiStrValue (dn_cb_arg a 1) in
    if negb (status =? napi_ok) then sret (Returned None)
    else
      let! listener := new_NapiFileDfsListener (dn_cb_arg a 2) in
      do! set_dfsListeners (<[instanceId := listener]>) in
      let! ret := daemon_call (DfRegisterFileDfsListener instanceId listener) in
      do! when! negb (ret =? 0) then set_dfsListeners (delete instanceId) in
      sret (Returned None).
(* @src interfaces/kits/js/volume_manager/src/napi_module_dfs_service.cpp 373-406 DfsService::DeviceOffline *)
Definition DeviceOffline (a : A) : M DfsReturn :=
  if negb (cb_info 2 a) then sret (Returned None)
  else
    let (_, instanceId) := DealNapiStrValue (dn_cb_arg a 1) in
    let! found := sget (fun s => dfsListeners s !! instanceId) in
    match found with
    | None => sret (Returned None)
    | Some _ =>
        let! ret := daemon_call (DfUnregisterFileDfsListener instanceId) in
        if negb (ret =? 0) then sret (Returned None)
        else do! set_dfsListeners (delete instanceId) in sret (Returned None)
    end.

(** *** Events of a listener *)
(* @src interfaces/kits/js/volume_manager/src/napi_module_dfs_listener.cpp 31-50 SetStringProperty *)
Definition SetStringProperty (object : list (string * JsValue)) (propertyName value : string) : M (Z * list (string * JsValue)) :=
  let! napiStatus := dfs_ask (dn_set_property propertyName) in
  if negb (napiStatus =? napi_ok) then sret (napiStatus, object)
  else sret (napi_ok, object ++ [(propertyName, JsString (c_str value))]).
(* @src interfaces/kits/js/volume_manager/src/napi_module_dfs_listener.cpp 52-68 SetInt32Property *)
Definition SetInt32Property (object : list (string * JsValue)) (propertyName : string) (value : Z) : M (Z * list (string * JsValue)) :=
  let! napiStatus := dfs_ask (dn_set_property propertyName) in
  if negb (napiStatus =? napi_ok) then sret (napiStatus, object)
  else sret (napi_ok, object ++ [(propertyName, JsInt32 value)]).
(* @src interfaces/kits/js/volume_manager/src/napi_module_dfs_listener.cpp 70-106 CreateEventDataObject *)
Definition CreateEventDataObject (eventInfo : StatusEventInfo) : M (Z * JsValue) :=
  let! (napiStatus, target) := SetStringProperty [] "networkId" (se_networkId eventInfo) in
  if negb (napiStatus =? napi_ok) then sret (napiStatus, JsObject target)
  else
    let! (napiStatus, target) := SetStringProperty target "path" (se_path eventInfo) in
    if negb (napiStatus =? napi_ok) then sret (napiStatus, JsObject target)
    else
      let! (napiStatus, target) := SetInt32Property target "type" (se_type eventInfo) in
      if negb (napiStatus =? napi_ok) then sret (napiStatus, JsObject target)
      else
        let! (napiStatus, target) := SetInt32Property target "status" (se_status eventInfo) in
        if negb (napiStatus =? napi_ok) then sret (napiStatus, JsObject target) else sret (napi_ok, JsObject target).
(* @src interfaces/kits/js/volume_manager/src/napi_module_dfs_listener.cpp 108-125 CallJsCallback *)
Definition CallJsCallback (callbackRef : option V) (eventData : JsValue) : M Z :=
  let! (napiStatus, jsCallback) := dfs_ask (dn_reference_value callbackRef) in
  if negb (napiStatus =? napi_ok) then sret napiStatus
  else
    match jsCallback with
    | None => sret napi_generic_failure
    | Some cb =>
        do! log_called cb eventData in
        dfs_ask (dn_call_function cb eventData)
    end.
(* @src interfaces/kits/js/volume_manager/src/napi_module_dfs_listener.cpp 127-152 HandleStatusEvent *)
Definition HandleStatusEvent (callbackRef : option V) (eventInfo : StatusEventInfo) : M unit :=
  let! opened := dfs_ask dn_open_scope in
  if negb opened then sret tt
  else
    let! (napiStatus, target) := CreateEventDataObject eventInfo in
    if negb (napiStatus =? napi_ok) then sret tt
    else do! CallJsCallback callbackRef target in sret tt.
(* @src interfaces/kits/js/volume_manager/src/napi_module_dfs_listener.cpp 154-173 NapiFileDfsListener::OnStatus *)
Definition OnStatus (this : NapiFileDfsListener V) (networkId : string) (status : Z) (path : string) (type : Z) : M unit :=
  if str_empty networkId || str_empty path then sret tt
  else
    let! ret := dfs_ask dn_send_event in
    if negb (ret =? napi_ok) then sret tt
    else set_dfs_events (fun l => l ++ [(this, mkStatusEventInfo networkId path type status)]).
(** The JavaScript thread takes the oldest event. *)
Definition run_event : M unit :=
  let! events := sget dfs_events in
  match events with
  | [] => sret tt
  | (listener, eventInfo) :: rest =>
      do! set_dfs_events (fun _ => rest) in
      HandleStatusEvent (callbackRef_ listener) eventInfo
  end.
End dfs.
