(* ===== verification/DfsFacts.v ===== *)
(** * Theorems about the distributed-file functions

    [on] and [off] keep a table beside the daemon's registrations. Whatever the daemon and
    the runtime answer, the table lists only what the daemon has registered, and JavaScript
    sees whole events only. *)
From stdpp Require Import relations.
From S2P Require Import Prelude CppString State JsErrors JsKit DfsService.

(** ** What the daemon has registered, read off the calls and their answers *)
Definition register_step {V} (m : gmap string (NapiFileDfsListener V)) (l : DfsLogged V) : gmap string (NapiFileDfsListener V) :=
  let '@Logged _ T c x := l in
  match c in DfsCall _ T return T -> _ with
  | DfRegisterFileDfsListener instanceId listener => fun ret => if ret =? 0 then <[instanceId := listener]> m else m
  | DfUnregisterFileDfsListener instanceId => fun ret => if ret =? 0 then delete instanceId m else m
  | _ => fun _ => m
  end x.
Definition registered {V} (log : list (DfsLogged V)) : gmap string (NapiFileDfsListener V) := foldl register_step ∅ log.
Lemma registered_snoc {V} (log : list (DfsLogged V)) l : registered (log ++ [l]) = register_step (registered log) l.
Proof. unfold registered. by rewrite foldl_app. Qed.

(** ** Events *)
Definition good_event (e : StatusEventInfo) : Prop := se_networkId e <> "" /\ se_path e <> "".
Definition event_object (e : StatusEventInfo) : JsValue :=
  JsObject [("networkId", JsString (c_str (se_networkId e))); ("path", JsString (c_str (se_path e)));
            ("type", JsInt32 (se_type e)); ("status", JsInt32 (se_status e))].

Section facts.
Context {E V A : Type} {NE : NapiEnv V A} {DE : DfsEnv E V A}.
Notation M := (State (Dfs E V)).

Definition whole_events (s : Dfs E V) : Prop :=
  Forall (fun e => good_event e.2) (dfs_events s) /\
  Forall (fun c => exists e, good_event e /\ c.2 = event_object e) (dfs_called s).
Definition listed_registered (s : Dfs E V) : Prop := dfsListeners s ⊆ registered (dfs_log s).

(** A function of the module, or what happens between two of them. *)
Inductive dfs_step : Dfs E V -> Dfs E V -> Prop :=
  | step_call (f : A -> M DfsReturn) (a : A) s :
      f ∈ [Dfs_IsSameAccountDevice; Dfs_GetDfsSwitchStatus; Dfs_UpdateDfsSwitchStatus; ConnectDfs; DisconnectDfs;
           Dfs_GetConnectedDeviceList; DeviceOnline; DeviceOffline] ->
      dfs_step s (f a s).2
  | step_status listener networkId status path type s : dfs_step s (OnStatus listener networkId status path type s).2
  | step_event s : dfs_step s (run_event s).2.
Definition dfs_start (env : E) : Dfs E V := mkDfs ∅ env [] [] [].

(** *** What leaves the table, the registrations and the events alone *)
Definition same_dfs (s s' : Dfs E V) : Prop :=
  dfsListeners s' = dfsListeners s /\ registered (dfs_log s') = registered (dfs_log s) /\
  dfs_events s' = dfs_events s /\ dfs_called s' = dfs_called s.
#[local] Instance same_dfs_preorder : PreOrder same_dfs.
Proof.
  split; [done|]. intros s1 s2 s3 (a1 & b1 & c1 & d1) (a2 & b2 & c2 & d2).
  repeat split; by etransitivity; eauto.
Qed.
Definition registers {T} (c : DfsCall V T) : bool :=
  match c with DfRegisterFileDfsListener _ _ | DfUnregisterFileDfsListener _ => true | _ => false end.
Lemma Keeps_dfs_ask {T} (f : E -> T * E) : Keeps same_dfs (dfs_ask f).
Proof. intros s. unfold dfs_ask. by destruct (f (dfs_env s)). Qed.
Lemma Keeps_daemon_call {T} (c : DfsCall V T) : registers c = false -> Keeps same_dfs (daemon_call c).
Proof.
  intros Hc. apply Keeps_bind; [apply _|apply Keeps_dfs_ask|]. intros x.
  apply Keeps_bind; [apply _| |intros; apply Keeps_ret, _]. apply Keeps_modify. intros s.
  split; [done|]. split; [|done]. cbn [dfs_log]. rewrite registered_snoc. by destruct c.
Qed.
Lemma Keeps_dfs_checked {T} (c : Check T) (work : T -> M DfsReturn) :
  (forall x, Keeps same_dfs (work x)) -> Keeps same_dfs (dfs_checked c work).
Proof. intros H. destruct c as [[]|]; [apply Keeps_ret, _..|apply H]. Qed.
Lemma Keeps_dfs_promise (call : M Z) : Keeps same_dfs call -> Keeps same_dfs (dfs_promise call).
Proof. intros H. apply Keeps_bind; [apply _|done|intros; apply Keeps_ret, _]. Qed.
Lemma Keeps_answer {T} (c : DfsCall V T) (k : T -> M DfsReturn) :
  registers c = false -> (forall x, exists r, k x = sret r) -> Keeps same_dfs (sbind (daemon_call c) k).
Proof.
  intros Hc Hk. apply Keeps_bind; [apply _|by apply Keeps_daemon_call|]. intros x.
  destruct (Hk x) as [r ->]. apply Keeps_ret, _.
Qed.
Lemma same_keeps s s' :
  same_dfs s s' -> listed_registered s /\ whole_events s -> listed_registered s' /\ whole_events s'.
Proof. unfold listed_registered, whole_events. intros (-> & -> & -> & ->). done. Qed.

Lemma queries_keep f a :
  f ∈ [Dfs_IsSameAccountDevice; Dfs_GetDfsSwitchStatus; Dfs_UpdateDfsSwitchStatus; ConnectDfs; DisconnectDfs;
       Dfs_GetConnectedDeviceList] -> Keeps same_dfs (f a).
Proof.
  intros Hf. repeat (apply elem_of_cons in Hf as [->|Hf]); [..|by apply elem_of_nil in Hf];
    apply Keeps_dfs_checked; intros ?;
    first [ apply Keeps_dfs_promise, Keeps_daemon_call; reflexivity
          | apply Keeps_answer; [reflexivity|]; intros [ret v]; destruct (_ =? _); eexists; reflexivity ].
Qed.

(** *** The listeners *)
Lemma wp_dfs_ask {T} (f : E -> T * E) (Q : T -> Dfs E V -> Prop) s :
  (forall x e, Q x (mkDfs (dfsListeners s) e (dfs_log s) (dfs_events s) (dfs_called s))) -> wp (dfs_ask f) Q s.
Proof. intros H. unfold wp, dfs_ask. destruct (f (dfs_env s)). apply H. Qed.
Lemma wp_daemon_call {T} (c : DfsCall V T) (Q : T -> Dfs E V -> Prop) s :
  (forall x e, Q x (mkDfs (dfsListeners s) e (dfs_log s ++ [Logged c x]) (dfs_events s) (dfs_called s))) ->
  wp (daemon_call c) Q s.
Proof. intros H. apply wp_bind, wp_dfs_ask. intros x e. apply wp_bind, wp_modify, wp_ret, H. Qed.
Definition listeners_kept (s : Dfs E V) (_ : DfsReturn) (s' : Dfs E V) : Prop :=
  listed_registered s' /\ dfs_events s' = dfs_events s /\ dfs_called s' = dfs_called s.
Lemma DeviceOnline_kept a s : listed_registered s -> wp (DeviceOnline a) (listeners_kept s) s.
Proof.
  intros H. unfold DeviceOnline. destruct (negb _); [done|].
  destruct (DealNapiStrValue _) as [status instanceId]. destruct (negb _); [done|].
  apply wp_bind, wp_bind, wp_dfs_ask. intros ok e. apply wp_ret, wp_bind, wp_modify, wp_bind, wp_daemon_call.
  intros ret e'. unfold listeners_kept, listed_registered in *. cbn [dfsListeners dfs_log dfs_events dfs_called].
  apply wp_bind. destruct (ret =? 0) eqn:Hret; cbn [negb].
  - apply wp_ret, wp_ret. cbn [dfsListeners dfs_log dfs_events dfs_called]. rewrite registered_snoc. cbn. rewrite Hret.
    split; [by apply insert_mono|done].
  - apply wp_modify, wp_ret. cbn [dfsListeners dfs_log dfs_events dfs_called]. rewrite registered_snoc. cbn. rewrite Hret.
    split; [|done]. rewrite delete_insert_eq. etransitivity; [apply delete_subseteq|done].
Qed.
Lemma DeviceOffline_kept a s : listed_registered s -> wp (DeviceOffline a) (listeners_kept s) s.
Proof.
  intros H. unfold DeviceOffline. destruct (negb _); [done|].
  destruct (DealNapiStrValue _) as [status instanceId]. apply wp_bind, wp_get.
  destruct (dfsListeners s !! instanceId); [|done]. apply wp_bind, wp_daemon_call. intros ret e.
  unfold listeners_kept, listed_registered in *. destruct (ret =? 0) eqn:Hret; cbn [negb].
  - apply wp_bind, wp_modify, wp_ret. cbn [dfsListeners dfs_log dfs_events dfs_called]. rewrite registered_snoc. cbn.
    rewrite Hret. split; [by apply delete_mono|done].
  - apply wp_ret. cbn [dfsListeners dfs_log dfs_events dfs_called]. rewrite registered_snoc. cbn. by rewrite Hret.
Qed.

(** *** The events *)
(** Table and registrations stay. *)
Definition same_table (s : Dfs E V) (s' : Dfs E V) : Prop :=
  dfsListeners s' = dfsListeners s /\ dfs_log s' = dfs_log s.
Lemma OnStatus_kept listener networkId status path type s :
  whole_events s -> wp (OnStatus listener networkId status path type) (fun _ s' => same_table s s' /\ whole_events s') s.
Proof.
  intros [He Hc]. unfold OnStatus. destruct (str_empty networkId || str_empty path)%bool eqn:Hempty; [done|].
  apply wp_bind, wp_dfs_ask. intros ret e. destruct (negb _); [done|]. apply wp_modify. split; [done|]. split; [|done].
  cbn [dfs_events]. apply Forall_app. split; [done|]. apply Forall_singleton. unfold good_event. cbn.
  apply orb_false_iff in Hempty as [Hn Hp]. split; intros ->; done.
Qed.
(** A property's setter appends the property or fails. *)
Lemma wp_set_property v propertyName object (Q : Z * list (string * JsValue) -> Dfs E V -> Prop) s :
  (forall st e, st <> napi_ok -> Q (st, object) (mkDfs (dfsListeners s) e (dfs_log s) (dfs_events s) (dfs_called s))) ->
  (forall e, Q (napi_ok, object ++ [(propertyName, v)]) (mkDfs (dfsListeners s) e (dfs_log s) (dfs_events s) (dfs_called s))) ->
  wp (let! napiStatus := dfs_ask (dn_set_property propertyName) in
      if negb (napiStatus =? napi_ok) then sret (napiStatus, object) else sret (napi_ok, object ++ [(propertyName, v)])) Q s.
Proof.
  intros Hf Ho. apply wp_bind, wp_dfs_ask. intros st e. destruct (Z.eqb_spec st napi_ok) as [->|Hne]; apply wp_ret; auto.
Qed.
Lemma wp_CreateEventDataObject eventInfo (Q : Z * JsValue -> Dfs E V -> Prop) s :
  (forall st v e, st <> napi_ok -> Q (st, v) (mkDfs (dfsListeners s) e (dfs_log s) (dfs_events s) (dfs_called s))) ->
  (forall e, Q (napi_ok, event_object eventInfo) (mkDfs (dfsListeners s) e (dfs_log s) (dfs_events s) (dfs_called s))) ->
  wp (CreateEventDataObject eventInfo) Q s.
Proof.
  intros Hf Ho.
  repeat (apply wp_bind, wp_set_property; [intros ? ? Hst; rewrite (proj2 (Z.eqb_neq _ _) Hst); by apply wp_ret, Hf|intros ?];
          cbn [negb Z.eqb napi_ok]).
  apply wp_ret, Ho.
Qed.
Lemma run_event_kept s : whole_events s -> wp run_event (fun _ s' => same_table s s' /\ whole_events s') s.
Proof.
  intros [He Hc]. unfold run_event. apply wp_bind, wp_get. destruct (dfs_events s) as [|[listener info] rest] eqn:Hev.
  { apply wp_ret. split; [done|]. split; [|done]. by rewrite Hev. }
  apply Forall_cons in He as [Hinfo Hrest]. apply wp_bind, wp_modify. unfold HandleStatusEvent.
  apply wp_bind, wp_dfs_ask. intros opened e. destruct (negb opened); [done|]. apply wp_bind, wp_CreateEventDataObject.
  - intros st v e' Hst. apply Z.eqb_neq in Hst. by rewrite Hst.
  - intros e'. cbn [negb Z.eqb napi_ok]. apply wp_bind. unfold CallJsCallback. apply wp_bind, wp_dfs_ask. intros [st cb] e2.
    destruct (negb _); [done|]. destruct cb as [cb|]; [|done]. apply wp_bind, wp_modify, wp_dfs_ask. intros st2 e3. apply wp_ret.
    split; [done|]. split; [done|]. cbn [dfs_called]. apply Forall_app. split; [done|]. apply Forall_singleton. by exists info.
Qed.
Lemma dfs_step_kept s s' : dfs_step s s' -> listed_registered s /\ whole_events s -> listed_registered s' /\ whole_events s'.
Proof.
  intros [f a s1 Hf|listener n st p t s1|s1] H.
  - change [Dfs_IsSameAccountDevice; Dfs_GetDfsSwitchStatus; Dfs_UpdateDfsSwitchStatus; ConnectDfs; DisconnectDfs;
       Dfs_GetConnectedDeviceList; DeviceOnline; DeviceOffline] with
     ([Dfs_IsSameAccountDevice; Dfs_GetDfsSwitchStatus; Dfs_UpdateDfsSwitchStatus; ConnectDfs; DisconnectDfs;
       Dfs_GetConnectedDeviceList] ++ [DeviceOnline; DeviceOffline] : list (A -> M DfsReturn)) in Hf.
    apply elem_of_app in Hf as [Hf|Hf]; [by apply (same_keeps s1), H; apply queries_keep|].
    assert (Hk : wp (f a) (listeners_kept s1) s1).
    { apply elem_of_cons in Hf as [->|Hf]; [exact (DeviceOnline_kept a s1 (proj1 H))|]. apply list_elem_of_singleton in Hf as ->.
      exact (DeviceOffline_kept a s1 (proj1 H)). }
    destruct Hk as (Hl & He & Hc). split; [done|]. unfold whole_events. rewrite He, Hc. apply H.
  - destruct (OnStatus_kept listener n st p t s1) as [[Hl Hg] Hw]; [by apply H|]. split; [|done].
    unfold listed_registered. rewrite Hl, Hg. by apply H.
  - destruct (run_event_kept s1) as [[Hl Hg] Hw]; [by apply H|]. split; [|done].
    unfold listed_registered. rewrite Hl, Hg. by apply H.
Qed.
Lemma dfs_steps_kept s s' :
  rtc dfs_step s s' -> listed_registered s /\ whole_events s -> listed_registered s' /\ whole_events s'.
Proof. induction 1 as [|x y z Hxy _ IH]; [done|]. intros H. by apply IH, (dfs_step_kept x). Qed.

(** ** Claims *)

(** C40: Whatever functions are called, in whatever order, with whatever answers of the daemon and
    of the runtime: between two calls every listener in the table of [on] and [off] is
    registered with the daemon under its instance, and every event a callback of the
    application got had all four members, a device and a path. *)
Theorem dfs_reachable_invariant (env : E) (s : Dfs E V) :
  rtc dfs_step (dfs_start env) s ->
  dfsListeners s ⊆ registered (dfs_log s) /\
  Forall (fun c => exists e, se_networkId e <> "" /\ se_path e <> "" /\
            c.2 = JsObject [("networkId", JsString (c_str (se_networkId e))); ("path", JsString (c_str (se_path e)));
                            ("type", JsInt32 (se_type e)); ("status", JsInt32 (se_status e))]) (dfs_called s).
Proof.
  intros Hr. assert (H : listed_registered s /\ whole_events s).
  { apply (dfs_steps_kept _ _ Hr). split; [apply map_empty_subseteq|]. by split; apply Forall_nil. }
  destruct H as [Hl [_ Hc]]. split; [done|]. eapply Forall_impl; [exact Hc|]. intros c (e & [Hn Hp] & Hv). by exists e.
Qed.
End facts.

(** *** An example: three calls against a daemon that accepts every listener but the second *)
Section example.
(** Values are strings, the arguments of a call a list; the environment counts the calls. *)
#[local] Instance dfs_demo_napi : NapiEnv string (list string) := {
  nf_init := fun lo hi a => (lo <=? List.length a)%nat && (List.length a <=? hi)%nat;
  nf_argc := @List.length string; nf_arg := fun a i => a !! i; nv_utf8 := fun v => v; nv_int32 := fun _ => None; nv_int64 := fun _ => None;
  nv_bool := fun _ => None; nv_prop := fun _ _ => None; na_is_object := fun _ => false; na_has := fun _ _ => None;
  na_get := fun _ _ => None; na_get_bool := fun _ => None }.
Definition dfs_demo_answer (T : Type) (c : DfsCall string T) (n : Z) : T * Z :=
  match c in DfsCall _ T return T * Z with
  | DfIsSameAccountDevice _ => ((0, true), n)
  | DfGetDfsSwitchStatus _ => ((0, 1), n)
  | DfUpdateDfsSwitchStatus _ | DfOpenP2PConnectionEx _ | DfCloseP2PConnectionEx _ => (0, n)
  | DfGetConnectedDeviceList => ((0, []), n)
  | DfRegisterFileDfsListener _ _ => (if n =? 1 then 5 else 0, n + 1)
  | DfUnregisterFileDfsListener _ => (0, n)
  end.
#[local] Instance dfs_demo : DfsEnv Z string (list string) := {
  dn_cb_info := fun a => (napi_ok, List.length a); dn_cb_arg := fun a i => default "" (a !! i);
  dn_utf8_size := fun v => (napi_ok, String.length v); dn_utf8 := fun v _ => (napi_ok, v); dn_int32_or := fun _ d => Some d;
  dn_create_reference := fun _ n => (true, n); dn_reference_value := fun v n => ((napi_ok, v), n);
  dn_send_event := fun n => (napi_ok, n); dn_open_scope := fun n => (true, n); dn_set_property := fun _ n => (napi_ok, n);
  dn_call_function := fun _ _ n => (napi_ok, n); df_call := dfs_demo_answer }.
Definition dfs_online (s : Dfs Z string) : Dfs Z string := (DeviceOnline ["fileAccess"; "dev1"; "cb"] s).2.
Definition dfs_demo_event : Dfs Z string :=
  (run_event (OnStatus (mkNapiFileDfsListener "cb" (Some "cb")) "net" 1 "/mnt/hmdfs" 0 (dfs_online (dfs_start 0))).2).2.

Lemma dfs_reachable_invariant_witness :
  dfsListeners dfs_demo_event !! "dev1" = Some (mkNapiFileDfsListener "cb" (Some "cb")) /\
  List.length (dfs_called dfs_demo_event) = 1%nat /\ dfsListeners dfs_demo_event ⊆ registered (dfs_log dfs_demo_event).
Proof.
  split; [reflexivity|]. split; [reflexivity|].
  apply (fun H => proj1 (dfs_reachable_invariant (A := list string) 0 dfs_demo_event H)). unfold dfs_demo_event, dfs_online.
  eapply rtc_l; [apply (step_call DeviceOnline ["fileAccess"; "dev1"; "cb"]); do 6 right; left|].
  eapply rtc_l; [apply (step_status (A := list string) (mkNapiFileDfsListener "cb" (Some "cb")) "net" 1 "/mnt/hmdfs" 0)|].
  eapply rtc_l; [apply step_event|]. reflexivity.
Defined.

(** The converse fails: an [on] for an instance that has a listener, refused by the daemon,
    takes the first listener out of the table; it stays registered, and [off] never reaches
    the daemon. *)
Lemma DeviceOnline_forgets :
  let s := dfs_online (dfs_online (dfs_start 0)) in
  registered (dfs_log s) !! "dev1" = Some (mkNapiFileDfsListener "cb" (Some "cb")) /\ dfsListeners s = ∅ /\
  dfs_log (DeviceOffline ["fileAccess"; "dev1"] s).2 = dfs_log s.
Proof. repeat split; reflexivity. Qed.
End example.
