(* ===== verification/WaitFacts.v ===== *)
(** * Waiting for the end of a partitioning

    [CreatePartition] and [DeletePartition] wait until the uevent
    thread has rediscovered the disk. First [WaitForPartitionDone] in an environment that changes the
    shared tables at each wake-up as it likes; then any number of threads that wait and
    notify, with the condition variable they share: which of them sleep, and whom
    [notify_all] wakes. *)
From stdpp Require Import relations.
From S2P Require Import Prelude CppString Types State Utils PartitionTable Json World DmQuery DmPartition.

Section wait.
Context {E St : Type} {EV : Env E} {PS : PathStore St}.
Notation W := (World E St).

(** [partitionDoneMap_[diskId]] as a check sees it. *)
Definition done_at (diskId : string) (w : W) : bool := default false (sh_partitionDone (w_sh w) !! diskId).
(** One unsuccessful check and the wake-up after it, with what other threads did. *)
Definition tick (diskId : string) (w : W) : W := (yield lk_none (partitionDone_at diskId w).2).2.

Lemma partitionDone_at_run diskId (w : W) :
  (partitionDone_at diskId w).1 = done_at diskId w /\
  (done_at diskId w = true -> (partitionDone_at diskId w).2 = w).
Proof.
  unfold partitionDone_at, done_at, get_sh, sbind, sget.
  destruct (sh_partitionDone (w_sh w) !! diskId) as [b|]; by cbn.
Qed.
Lemma wait_loop_run n diskId (w : W) :
  exists k, (k <= S n)%nat /\ (forall j, (j < k)%nat -> done_at diskId (Nat.iter j (tick diskId) w) = false) /\
    (k = S n \/ done_at diskId (Nat.iter k (tick diskId) w) = true) /\
    (wait_loop n diskId w).2 = Nat.iter k (tick diskId) w.
Proof.
  revert w. induction n as [|n IH]; intros w; pose proof (partitionDone_at_run diskId w) as [Hb Hw];
    destruct (done_at diskId w) eqn:Hd.
  1, 3: exists 0%nat; repeat split; [lia|lia|by right|]; cbn; unfold sbind;
    destruct (partitionDone_at diskId w) as [b w']; cbn in *; by rewrite Hb, Hw.
  - exists 1%nat. repeat split; [lia| |by left|].
    + intros j Hj. by replace j with 0%nat by lia.
    + cbn. unfold tick, sbind. destruct (partitionDone_at diskId w) as [b w']. cbn in *. rewrite Hb. cbn.
      by destruct (yield lk_none w') as [[] w''].
  - destruct (IH (tick diskId w)) as (k & Hk & Hj & He & Hr). exists (S k). repeat split.
    + lia.
    + intros [|j] Hlt; [done|]. rewrite Nat.iter_succ_r. apply Hj. lia.
    + rewrite Nat.iter_succ_r. destruct He as [->|He]; [by left|by right].
    + rewrite Nat.iter_succ_r, <- Hr. cbn [wait_loop]. unfold tick, sbind.
      destruct (partitionDone_at diskId w) as [b w']. cbn in Hb |- *. rewrite Hb.
      by destruct (yield lk_none w') as [[] w''].
Qed.

(** The wait, in an environment that does as it likes: the entry is set to false, [k] checks
    see no notification, then one does or the wake-ups before the deadline are used
    up, and the entry is gone. *)
Theorem WaitForPartitionDone_run (diskId : string) (w : W) :
  let start : State W Ans := do! set_partitionDone (<[diskId := false]>) in request (WaitUntil diskId) in
  let n := Z.to_nat (an_int (start w).1) in
  let seen j := done_at diskId (Nat.iter j (tick diskId) (start w).2) in
  exists k, (k <= S n)%nat /\ (forall j, (j < k)%nat -> seen j = false) /\ (k = S n \/ seen k = true) /\
    (WaitForPartitionDone diskId w).2 =
      (set_partitionDone (delete diskId) (Nat.iter k (tick diskId) (start w).2)).2.
Proof.
  intros start n seen. destruct (wait_loop_run n diskId (start w).2) as (k & Hk & Hj & He & Hr).
  exists k. split_and!; [done|done|done|].
  unfold WaitForPartitionDone, sbind. rewrite <- Hr. unfold n, start, sbind.
  destruct (set_partitionDone _ w) as [[] w1]. destruct (request (WaitUntil diskId) w1) as [a w2]. cbn [fst snd].
  by destruct (wait_loop (Z.to_nat (an_int a)) diskId w2) as [[] w3].
Qed.

(** A notification that comes before the wait began finds no entry and leaves no trace:
    the waiting thread will not see it. *)
Lemma NotifyPartitionDone_early (diskId : string) (w : W) :
  sh_partitionDone (w_sh w) !! diskId = None -> NotifyPartitionDone diskId w = (tt, w).
Proof. intros H. unfold NotifyPartitionDone, get_sh, sbind, sget. by rewrite H. Qed.
End wait.

(** ** Threads that wait, and the condition variable

    [partitionDoneMap_] and the threads inside [WaitForPartitionDone]; each step holds
    [partitionLock_]. A thread is asleep in [wait_until], or awake and about to take the
    lock for its next check, or its wait has ended. *)
Inductive Waiter : Type := Asleep | Awake | Ended.
#[export] Instance Waiter_eq_dec : EqDecision Waiter.
Proof. solve_decision. Defined.
Record CvState : Type := mkCv { cv_done : gmap string bool; cv_waits : gmap nat (string * Waiter) }.
Definition cv_initial : CvState := mkCv ∅ ∅.

(** [WaitForPartitionDone] up to its first sleep. *)
(* @src services/disk_manager/src/disk/disk_manager.cpp 1312-1318 DiskManager::WaitForPartitionDone *)
Definition cv_begin (t : nat) (diskId : string) (s : CvState) : CvState :=
  mkCv (<[diskId := false]> (cv_done s)) (<[t := (diskId, Asleep)]> (cv_waits s)).
(** The wait of an awake thread: the loop's check ([operator[]] makes an entry where there
    is none), then sleep again, or the end. *)
(* @src services/disk_manager/src/disk/disk_manager.cpp 1317-1324 DiskManager::WaitForPartitionDone *)
Definition cv_check (t : nat) (diskId : string) (s : CvState) : CvState :=
  if default false (cv_done s !! diskId)
  then mkCv (delete diskId (cv_done s)) (<[t := (diskId, Ended)]> (cv_waits s))
  else mkCv (<[diskId := false]> (cv_done s)) (<[t := (diskId, Asleep)]> (cv_waits s)).
(** [wait_until] reports a timeout: the loop ends. *)
(* @src services/disk_manager/src/disk/disk_manager.cpp 1318-1324 DiskManager::WaitForPartitionDone *)
Definition cv_timeout (t : nat) (diskId : string) (s : CvState) : CvState :=
  mkCv (delete diskId (cv_done s)) (<[t := (diskId, Ended)]> (cv_waits s)).
(** [notify_all] *)
Definition wake (w : Waiter) : Waiter := match w with Asleep => Awake | _ => w end.
Definition notify_all (ws : gmap nat (string * Waiter)) : gmap nat (string * Waiter) := (fun p => (p.1, wake p.2)) <$> ws.
(* @src services/disk_manager/src/disk/disk_manager.cpp 1302-1310 DiskManager::NotifyPartitionDone *)
Definition cv_notify (diskId : string) (s : CvState) : CvState :=
  match cv_done s !! diskId with
  | None => s
  | Some _ => mkCv (<[diskId := true]> (cv_done s)) (notify_all (cv_waits s))
  end.

(** The thread waits for the disk. *)
Definition waits (s : CvState) (t : nat) (diskId : string) : Prop :=
  exists w, cv_waits s !! t = Some (diskId, w) /\ w <> Ended.
(** Any thread may step; a wake-up may be spurious, and a timeout may be reported to a
    thread that was notified at the same time. At most one thread waits for a disk. *)
Inductive cv_step : CvState -> CvState -> Prop :=
  | step_begin t d s : cv_waits s !! t = None -> (forall t', ~ waits s t' d) -> cv_step s (cv_begin t d s)
  | step_check t d s : cv_waits s !! t = Some (d, Awake) -> cv_step s (cv_check t d s)
  | step_timeout t d s : waits s t d -> cv_step s (cv_timeout t d s)
  | step_spurious t d s : cv_waits s !! t = Some (d, Asleep) -> cv_step s (mkCv (cv_done s) (<[t := (d, Awake)]> (cv_waits s)))
  | step_notify d s : cv_step s (cv_notify d s).

(** Every thread that waits has its entry, which is not set while it sleeps. *)
Definition cv_inv (s : CvState) : Prop :=
  (forall t d, waits s t d -> is_Some (cv_done s !! d)) /\
  (forall t d, cv_waits s !! t = Some (d, Asleep) -> cv_done s !! d = Some false) /\
  (forall t t' d, waits s t d -> waits s t' d -> t = t').
(** The notification has reached the thread: it is awake with its entry set, or has ended. *)
Definition notified (t : nat) (d : string) (s : CvState) : Prop :=
  cv_waits s !! t = Some (d, Ended) \/ cv_waits s !! t = Some (d, Awake) /\ cv_done s !! d = Some true.

Lemma waits_at s t d w : cv_waits s !! t = Some (d, w) -> w <> Ended -> waits s t d.
Proof. intros. by exists w. Qed.
Lemma waits_insert s done t d w t' d' :
  waits (mkCv done (<[t := (d, w)]> (cv_waits s))) t' d' <-> (t' = t /\ d' = d /\ w <> Ended) \/ (t' <> t /\ waits s t' d').
Proof.
  unfold waits. cbn. destruct (decide (t' = t)) as [->|Hne].
  - rewrite lookup_insert_eq. naive_solver.
  - rewrite lookup_insert_ne by done. naive_solver.
Qed.
Lemma notify_lookup ws (t : nat) (d : string) w : notify_all ws !! t = Some (d, w) <-> exists w0, ws !! t = Some (d, w0) /\ w = wake w0.
Proof. unfold notify_all. rewrite lookup_fmap. destruct (ws !! t) as [[d0 w0]|]; cbn; naive_solver. Qed.
Lemma waits_notify done s t d : waits (mkCv done (notify_all (cv_waits s))) t d <-> waits s t d.
Proof.
  unfold waits. cbn. split.
  - intros (w & (w0 & Hw & ->)%notify_lookup & Hn). exists w0. split; [done|]. by destruct w0.
  - intros (w & Hw & Hn). exists (wake w). split; [apply notify_lookup; eauto|by destruct w].
Qed.

Lemma cv_begin_inv t d s :
  cv_waits s !! t = None -> (forall t', ~ waits s t' d) -> cv_inv s -> cv_inv (cv_begin t d s).
Proof.
  intros Ht Hfree (H1 & H2 & H3). unfold cv_begin. split; [|split]; cbn [cv_done cv_waits].
  - intros t' d' [(_ & -> & _)|[_ Hw]]%waits_insert; [by rewrite lookup_insert_eq|].
    rewrite lookup_insert_ne; [by eapply H1|]. intros ->. by apply (Hfree t').
  - intros t' d' [(_ & [= <-])|[Hne Hw]]%lookup_insert_Some; [by rewrite lookup_insert_eq|].
    rewrite lookup_insert_ne; [by eapply H2|]. intros ->. by eapply (Hfree t'), waits_at.
  - intros t1 t2 d' [(-> & -> & _)|[Hn1 Hw1]]%waits_insert [(-> & Hd & _)|[Hn2 Hw2]]%waits_insert;
      subst; try done; [by apply Hfree in Hw2|by apply Hfree in Hw1|by eapply H3].
Qed.
(** A waiting thread [t] ends, and takes its entry with it. *)
Lemma cv_end_inv t d s : waits s t d -> cv_inv s -> cv_inv (cv_timeout t d s).
Proof.
  intros Ht (H1 & H2 & H3). assert (Hother : forall t' d', t' <> t -> waits s t' d' -> d' <> d).
  { intros t' d' Hne Hw ->. by apply Hne, (H3 t' t d). }
  unfold cv_timeout. split; [|split]; cbn [cv_done cv_waits].
  - intros t' d' [(_ & _ & ?)|[Hne Hw]]%waits_insert; [done|]. rewrite lookup_delete_ne; [by eapply H1|]. intros ->. by eapply Hother.
  - intros t' d' [(_ & [=])|[Hne Hw]]%lookup_insert_Some. rewrite lookup_delete_ne; [by eapply H2|]. intros ->.
    eapply (Hother t'); [done|by eapply waits_at|done].
  - intros t1 t2 d' [(_ & _ & ?)|[Hn1 Hw1]]%waits_insert [(_ & _ & ?)|[Hn2 Hw2]]%waits_insert; [done..|by eapply H3].
Qed.
(** A thread that goes on waiting, awake, or asleep with its entry not set. *)
Lemma cv_again_inv t d w b s :
  waits s t d -> w <> Ended -> (w = Asleep -> b = false) -> cv_inv s -> cv_inv (mkCv (<[d := b]> (cv_done s)) (<[t := (d, w)]> (cv_waits s))).
Proof.
  intros Ht Hw0 Hb (H1 & H2 & H3). assert (Hother : forall t' d', t' <> t -> waits s t' d' -> d' <> d).
  { intros t' d' Hne Hw ->. by apply Hne, (H3 t' t d). }
  split; [|split]; cbn [cv_done cv_waits].
  - intros t' d' [(_ & -> & _)|[Hne Hw]]%waits_insert; [by rewrite lookup_insert_eq|]. rewrite lookup_insert_ne; [by eapply H1|].
    intros ->. by eapply Hother.
  - intros t' d' [(_ & [= <- ->])|[Hne Hw]]%lookup_insert_Some; [by rewrite lookup_insert_eq, Hb|].
    rewrite lookup_insert_ne; [by eapply H2|]. intros ->. eapply (Hother t'); [done|by eapply waits_at|done].
  - intros t1 t2 d' [(-> & -> & _)|[Hn1 Hw1]]%waits_insert [(-> & Hd & _)|[Hn2 Hw2]]%waits_insert; subst; [done| | |by eapply H3].
    + by apply Hother in Hw2.
    + by apply Hother in Hw1.
Qed.
Lemma cv_notify_inv d s : cv_inv s -> cv_inv (cv_notify d s).
Proof.
  intros (H1 & H2 & H3). unfold cv_notify. destruct (cv_done s !! d) as [b|] eqn:Hd; [|done]. split; [|split]; cbn [cv_done cv_waits].
  - intros t' d' Hw%waits_notify. destruct (decide (d' = d)) as [->|Hne]; [by rewrite lookup_insert_eq|].
    rewrite lookup_insert_ne by done. by eapply H1.
  - intros t' d' ([] & _ & ?)%notify_lookup; done.
  - intros t1 t2 d' Hw1%waits_notify Hw2%waits_notify. by eapply H3.
Qed.
Lemma cv_step_inv s s' : cv_step s s' -> cv_inv s -> cv_inv s'.
Proof.
  intros Hstep Hi. destruct Hstep as [t d s Ht Hf|t d s Ht|t d s Ht|t d s Ht|d s].
  - by apply cv_begin_inv.
  - assert (Hw : waits s t d) by (by eapply waits_at). unfold cv_check. destruct (default false _); [by apply cv_end_inv|].
    by apply cv_again_inv.
  - by apply cv_end_inv.
  - assert (Hw : waits s t d) by (by eapply waits_at). destruct Hi as (H1 & H2 & H3).
    pose proof (cv_again_inv t d Awake false s Hw ltac:(done) ltac:(done) (conj H1 (conj H2 H3))) as Hi.
    by rewrite insert_id in Hi by (by eapply H2).
  - by apply cv_notify_inv.
Qed.
Lemma cv_reachable_inv s : rtc cv_step cv_initial s -> cv_inv s.
Proof.
  intros Hr. apply (rtc_ind_r (R := cv_step) (fun s => cv_inv s) cv_initial); [|intros s1 s2 _ Hs Hi; by eapply cv_step_inv|exact Hr].
  split; [|split]; unfold waits; cbn; [intros t d (w & [=] & _)|intros t d [=]|intros t t' d (w & [=] & _)].
Qed.

Lemma notify_notified t d s : cv_inv s -> waits s t d -> notified t d (cv_notify d s).
Proof.
  intros (H1 & _) Hw. destruct (H1 t d Hw) as [b Hb]. unfold cv_notify. rewrite Hb. right. cbn. rewrite lookup_insert_eq.
  destruct Hw as (w & Hw & Hn). split; [|done]. apply notify_lookup. exists w. by destruct w.
Qed.
Lemma notified_step t d s s' : cv_step s s' -> cv_inv s -> notified t d s -> notified t d s'.
Proof.
  intros Hstep Hi Hn. assert (Ht : is_Some (cv_waits s !! t)) by (destruct Hn as [->|[-> _]]; eauto).
  assert (Halone : forall t' d', waits s t' d' -> t' <> t -> notified t d s -> d' <> d \/ cv_waits s !! t = Some (d, Ended)).
  { intros t' d' Hw Hne [He|[Ha _]]; [by right|left]. intros ->. apply Hne. apply (proj2 (proj2 Hi) t' t d); [done|by eapply waits_at]. }
  destruct Hstep as [t' d' s Hnone Hf|t' d' s Ht'|t' d' s Hw|t' d' s Ht'|d' s].
  - assert (Hne : t' <> t) by (intros ->; rewrite Hnone in Ht; by destruct Ht). unfold cv_begin, notified. cbn.
    rewrite lookup_insert_ne by done. destruct Hn as [He|[Ha Hd]]; [by left|right]. split; [done|].
    rewrite lookup_insert_ne; [done|]. intros ->. apply (Hf t). by eapply waits_at.
  - destruct (decide (t' = t)) as [->|Hne].
    + destruct Hn as [He|[Ha Hd]]; [congruence|]. assert (d' = d) as -> by congruence. unfold cv_check. rewrite Hd. left. cbn.
      by rewrite lookup_insert_eq.
    + destruct (Halone t' d' (waits_at _ _ _ _ Ht' ltac:(done)) Hne Hn) as [Hdd|He].
      * unfold cv_check, notified. destruct (default false _); cbn; rewrite lookup_insert_ne by done; destruct Hn as [He|[Ha Hd]];
          [by left|right|by left|right]; by rewrite ?lookup_delete_ne, ?lookup_insert_ne.
      * left. unfold cv_check. by destruct (default false _); cbn; rewrite lookup_insert_ne.
  - destruct (decide (t' = t)) as [->|Hne].
    + destruct Hw as (w & Hw & _). left. cbn. assert (d' = d) as -> by (destruct Hn as [He|[Ha _]]; congruence). by rewrite lookup_insert_eq.
    + destruct (Halone t' d' Hw Hne Hn) as [Hdd|He]; unfold cv_timeout, notified; cbn; rewrite lookup_insert_ne by done; [|by left].
      destruct Hn as [He|[Ha Hd]]; [by left|right]. by rewrite lookup_delete_ne.
  - assert (Hne : t' <> t) by (intros ->; destruct Hn as [He|[Ha _]]; congruence). unfold notified. cbn. by rewrite lookup_insert_ne.
  - unfold cv_notify. destruct (cv_done s !! d') as [b|] eqn:Hb; [|done]. unfold notified. cbn.
    destruct Hn as [He|[Ha Hd]]; [left|right].
    + apply notify_lookup. by exists Ended.
    + split; [apply notify_lookup; by exists Awake|]. destruct (decide (d' = d)) as [->|Hne]; [by rewrite lookup_insert_eq|].
      by rewrite lookup_insert_ne.
Qed.

(** The map is the one of the service: [NotifyPartitionDone] changes it as [cv_notify] does. *)
Lemma cv_notify_refines {E St : Type} {EV : Env E} {PS : PathStore St} (d : string) (w : World E St) ws :
  sh_partitionDone (w_sh (NotifyPartitionDone d w).2) = cv_done (cv_notify d (mkCv (sh_partitionDone (w_sh w)) ws)).
Proof.
  unfold NotifyPartitionDone, cv_notify, get_sh, sbind, sget. cbn. by destruct (sh_partitionDone (w_sh w) !! d).
Qed.

(** So do the check of [wait_loop] and the removal of the entry after it. *)
Lemma cv_check_refines {E St : Type} {EV : Env E} {PS : PathStore St} t (d : string) (w : World E St) ws :
  let (b, w') := partitionDone_at d w in
  sh_partitionDone (w_sh (if b then (set_partitionDone (delete d) w').2 else w')) =
  cv_done (cv_check t d (mkCv (sh_partitionDone (w_sh w)) ws)).
Proof.
  unfold partitionDone_at, cv_check, get_sh, set_partitionDone, sbind, sget, sret. cbn.
  destruct (sh_partitionDone (w_sh w) !! d) as [[]|] eqn:Hd; cbn; [done| |done]. by rewrite insert_id.
Qed.

(** * Properties *)

(** C18: No notification is lost. Any number of threads wait, each for a disk of its own,
    and notify, in any order, with spurious wake-ups and timeouts at any time: a thread that
    sleeps has an entry, and it is not set; and when [NotifyPartitionDone] comes for the disk of a waiting
    thread, from then on, whatever the threads do, that thread does not sleep again: it is awake with its entry set, so
    that its next check ends the wait, or its wait has ended. (A notification that comes
    before the wait has begun finds no entry and is dropped, and two threads that wait
    for one disk share its entry: the second then misses the notification.) *)
Theorem notification_not_lost (s : CvState) (t : nat) (d : string) :
  rtc cv_step cv_initial s -> waits s t d ->
  (cv_waits s !! t = Some (d, Asleep) -> cv_done s !! d = Some false) /\
  forall s', rtc cv_step (cv_notify d s) s' ->
    cv_waits s' !! t = Some (d, Ended) \/
    cv_waits s' !! t = Some (d, Awake) /\ cv_done s' !! d = Some true /\ cv_waits (cv_check t d s') !! t = Some (d, Ended).
Proof.
  intros Hr Hw. assert (Hi := cv_reachable_inv s Hr). split; [by apply Hi|]. intros s' Hr'.
  assert (Hn : notified t d s').
  { assert (H : cv_inv s' /\ notified t d s'); [|by apply H].
    apply (rtc_ind_r (R := cv_step) (fun s => cv_inv s /\ notified t d s) (cv_notify d s)); [|intros s1 s2 _ Hs [H1 H2]|exact Hr'].
    - split; [by apply cv_notify_inv|by apply notify_notified].
    - split; [by eapply cv_step_inv|by eapply notified_step]. }
  destruct Hn as [He|[Ha Hd]]; [by left|right]. split; [done|]. split; [done|]. unfold cv_check. rewrite Hd. cbn. apply lookup_insert_eq.
Qed.

(** Two threads wait for different disks; one is notified, the other wakes up for nothing. *)
Definition ex_waiting : CvState := cv_begin 1 "disk-8-16" (cv_begin 0 "disk-8-0" cv_initial).
Definition ex_notified : CvState := cv_check 1 "disk-8-16" (cv_notify "disk-8-0" ex_waiting).
Lemma ex_waiting_steps : rtc cv_step cv_initial ex_waiting.
Proof.
  eapply rtc_l; [apply (step_begin 0 "disk-8-0"); [done|intros t (w & [=] & _)]|].
  apply rtc_once, step_begin; [done|]. intros t (w & Hw & _). cbn in Hw.
  by apply lookup_insert_Some in Hw as [[_ [=]]|[_ Hw]].
Qed.
Lemma notification_not_lost_witness :
  cv_waits ex_waiting !! 0%nat = Some ("disk-8-0", Asleep) /\ cv_waits ex_notified !! 1%nat = Some ("disk-8-16", Asleep) /\
  (cv_waits ex_notified !! 0%nat = Some ("disk-8-0", Ended) \/
   cv_waits ex_notified !! 0%nat = Some ("disk-8-0", Awake) /\ cv_done ex_notified !! "disk-8-0" = Some true /\
   cv_waits (cv_check 0 "disk-8-0" ex_notified) !! 0%nat = Some ("disk-8-0", Ended)).
Proof.
  split; [reflexivity|]. split; [vm_compute; reflexivity|].
  destruct (notification_not_lost ex_waiting 0 "disk-8-0" ex_waiting_steps) as [_ H].
  - exists Asleep. split; [reflexivity|discriminate].
  - apply H. apply rtc_once, step_check. vm_compute. reflexivity.
Defined.

(** Two threads that wait for one disk, which [cv_step] excludes and the code does not: both
    are woken, the first check takes the entry away, and the second thread sleeps again. *)
Example second_waiter_misses :
  let s := cv_notify "disk-8-0" (cv_begin 1 "disk-8-0" (cv_begin 0 "disk-8-0" cv_initial)) in
  cv_waits s !! 1%nat = Some ("disk-8-0", Awake) /\
  cv_waits (cv_check 1 "disk-8-0" (cv_check 0 "disk-8-0" s)) !! 1%nat = Some ("disk-8-0", Asleep).
Proof. split; vm_compute; reflexivity. Qed.
