(* ===== verification/Dfx.v ===== *)
(** * [services/disk_manager/src/dfx/disk_manager_dfx_types.cpp]

    What the service says about an operation in its fault reports and audit records: the
    report of a volume, the diagnosis text storage_daemon sends, and why a volume was not
    mounted automatically. *)
From S2P Require Import Prelude CppString Types Json.

(** ** Data *)
(* @src services/disk_manager/include/dfx/disk_manager_dfx_types.h 25-46 DFX_STAGE *)
Inductive DfxStage : Set :=
  | DFX_STAGE_MOUNT | DFX_STAGE_UNMOUNT | DFX_STAGE_FORMAT | DFX_STAGE_SET_VOLUME_DESCRIPTION | DFX_STAGE_UEVENT_PARSE
  | DFX_STAGE_GET_PARTITION_TABLE | DFX_STAGE_CREATE_PARTITION | DFX_STAGE_DELETE_PARTITION | DFX_STAGE_FORMAT_PARTITION
  | DFX_STAGE_BIND_BLOCK_LOOP_DEV | DFX_STAGE_CREATE_DM_CRYPT_VOLUME | DFX_STAGE_DESTROY_DM_CRYPT_VOLUME
  | DFX_STAGE_UNBIND_BLOCK_LOOP_DEV | DFX_STAGE_MOUNT_VOL_BY_PATH | DFX_STAGE_UMOUNT_VOL_BY_PATH
  | DFX_STAGE_NOTIFY_MTP_MOUNTED | DFX_STAGE_NOTIFY_MTP_UNMOUNTED | DFX_STAGE_ERASE | DFX_STAGE_EJECT | DFX_STAGE_BURN
  | DFX_STAGE_CREATE_ISO_IMAGE | DFX_STAGE_CDROM_DISCOVER.
Definition DfxStage_val (s : DfxStage) : Z :=
  match s with
  | DFX_STAGE_MOUNT => 41 | DFX_STAGE_UNMOUNT => 42 | DFX_STAGE_FORMAT => 43 | DFX_STAGE_SET_VOLUME_DESCRIPTION => 44
  | DFX_STAGE_UEVENT_PARSE => 45 | DFX_STAGE_GET_PARTITION_TABLE => 46 | DFX_STAGE_CREATE_PARTITION => 47
  | DFX_STAGE_DELETE_PARTITION => 48 | DFX_STAGE_FORMAT_PARTITION => 49 | DFX_STAGE_BIND_BLOCK_LOOP_DEV => 50
  | DFX_STAGE_CREATE_DM_CRYPT_VOLUME => 51 | DFX_STAGE_DESTROY_DM_CRYPT_VOLUME => 52
  | DFX_STAGE_UNBIND_BLOCK_LOOP_DEV => 53 | DFX_STAGE_MOUNT_VOL_BY_PATH => 54 | DFX_STAGE_UMOUNT_VOL_BY_PATH => 55
  | DFX_STAGE_NOTIFY_MTP_MOUNTED => 56 | DFX_STAGE_NOTIFY_MTP_UNMOUNTED => 57 | DFX_STAGE_ERASE => 60
  | DFX_STAGE_EJECT => 61 | DFX_STAGE_BURN => 62 | DFX_STAGE_CREATE_ISO_IMAGE => 63 | DFX_STAGE_CDROM_DISCOVER => 64
  end.
Coercion DfxStage_val : DfxStage >-> Z.
Definition DFX_TRUNCATE_MAX_LEN : nat := 2048.

(* @src services/disk_manager/include/dfx/disk_manager_dfx_types.h 51-73 VolumeOpType *)
Inductive VolumeOpType : Set :=
  | OP_MOUNT | OP_UNMOUNT | OP_FORMAT | OP_SET_VOLUME_DESCRIPTION | OP_OTHER | OP_GET_PARTITION_TABLE
  | OP_CREATE_PARTITION | OP_DELETE_PARTITION | OP_FORMAT_PARTITION | OP_BIND_BLOCK_LOOP_DEV | OP_CREATE_DM_CRYPT_VOLUME
  | OP_DESTROY_DM_CRYPT_VOLUME | OP_UNBIND_BLOCK_LOOP_DEV | OP_MOUNT_VOL_BY_PATH | OP_UMOUNT_VOL_BY_PATH
  | OP_NOTIFY_MTP_MOUNTED | OP_NOTIFY_MTP_UNMOUNTED | OP_ERASE | OP_EJECT | OP_BURN | OP_CREATE_ISO_IMAGE.
Definition VolumeOpType_val (t : VolumeOpType) : Z :=
  match t with
  | OP_MOUNT => 0 | OP_UNMOUNT => 1 | OP_FORMAT => 2 | OP_SET_VOLUME_DESCRIPTION => 3 | OP_OTHER => 4
  | OP_GET_PARTITION_TABLE => 5 | OP_CREATE_PARTITION => 6 | OP_DELETE_PARTITION => 7 | OP_FORMAT_PARTITION => 8
  | OP_BIND_BLOCK_LOOP_DEV => 9 | OP_CREATE_DM_CRYPT_VOLUME => 10 | OP_DESTROY_DM_CRYPT_VOLUME => 11
  | OP_UNBIND_BLOCK_LOOP_DEV => 12 | OP_MOUNT_VOL_BY_PATH => 13 | OP_UMOUNT_VOL_BY_PATH => 14
  | OP_NOTIFY_MTP_MOUNTED => 15 | OP_NOTIFY_MTP_UNMOUNTED => 16 | OP_ERASE => 20 | OP_EJECT => 21 | OP_BURN => 22
  | OP_CREATE_ISO_IMAGE => 23
  end.
Coercion VolumeOpType_val : VolumeOpType >-> Z.

(* @src services/disk_manager/include/dfx/disk_manager_dfx_types.h 75-80 AutoMountSkipReason *)
Inductive AutoMountSkipReason : Set := AUTO_MOUNT_DISABLED | MISSING_FS_TYPE | MISSING_UUID | MISSING_FS_TYPE_AND_UUID.
(* @src services/disk_manager/include/dfx/disk_manager_dfx_types.h 86-93 AutoMountSkipContext *)
Record AutoMountSkipContext : Type := mkAutoMountSkipContext {
  sk_volId : string;
  sk_diskId : string;
  sk_volDevPath : string;
  sk_type : string;
  sk_uuid : string;
  sk_autoMountEnabled : bool;
}.
(* @src services/disk_manager/include/dfx/disk_manager_dfx_types.h 95-109 VolumeReportInfo *)
Record VolumeReportInfo : Type := mkVolumeReportInfo {
  ri_volumeId : string;
  ri_diskId : string;
  ri_devPath : string;
  ri_fsType : string;
  ri_fsUuid : string;
  ri_extra : string;
}.
#[export] Instance VolumeReportInfo_eq_dec : EqDecision VolumeReportInfo.
Proof. solve_decision. Defined.
Definition VolumeReportInfo_default : VolumeReportInfo := mkVolumeReportInfo "" "" "" "" "" "".
Definition set_extra (e : string) (i : VolumeReportInfo) : VolumeReportInfo :=
  mkVolumeReportInfo (ri_volumeId i) (ri_diskId i) (ri_devPath i) (ri_fsType i) (ri_fsUuid i) e.
Definition set_fsUuid (u : string) (i : VolumeReportInfo) : VolumeReportInfo :=
  mkVolumeReportInfo (ri_volumeId i) (ri_diskId i) (ri_devPath i) (ri_fsType i) u (ri_extra i).
(** [opType] is an [int32_t] cast to the enumeration: any value can come. *)
(* @src services/disk_manager/include/dfx/disk_manager_dfx_types.h 113-120 OpDiagReport *)
Record OpDiagReport : Type := mkOpDiagReport {
  od_valid : bool;
  od_ret : Z;
  od_funcName : string;
  od_bizStage : Z;
  od_opType : Z;
  od_info : VolumeReportInfo;
}.
Definition OpDiagReport_default : OpDiagReport := mkOpDiagReport false 0 "" 0 OP_OTHER VolumeReportInfo_default.

(** ** Setters *)
(* @src services/disk_manager/src/dfx/disk_manager_dfx_types.cpp 23-27 VolumeReportInfo::WithVolumeId *)
Definition WithVolumeId (id : string) (i : VolumeReportInfo) : VolumeReportInfo :=
  mkVolumeReportInfo id (ri_diskId i) (ri_devPath i) (ri_fsType i) (ri_fsUuid i) (ri_extra i).
(* @src services/disk_manager/src/dfx/disk_manager_dfx_types.cpp 29-33 VolumeReportInfo::WithDiskId *)
Definition WithDiskId (id : string) (i : VolumeReportInfo) : VolumeReportInfo :=
  mkVolumeReportInfo (ri_volumeId i) id (ri_devPath i) (ri_fsType i) (ri_fsUuid i) (ri_extra i).
(* @src services/disk_manager/src/dfx/disk_manager_dfx_types.cpp 35-39 VolumeReportInfo::WithDevPath *)
Definition WithDevPath (path : string) (i : VolumeReportInfo) : VolumeReportInfo :=
  mkVolumeReportInfo (ri_volumeId i) (ri_diskId i) path (ri_fsType i) (ri_fsUuid i) (ri_extra i).
(* @src services/disk_manager/src/dfx/disk_manager_dfx_types.cpp 41-45 VolumeReportInfo::WithFsType *)
Definition WithFsType (type : string) (i : VolumeReportInfo) : VolumeReportInfo :=
  mkVolumeReportInfo (ri_volumeId i) (ri_diskId i) (ri_devPath i) type (ri_fsUuid i) (ri_extra i).
(* @src services/disk_manager/src/dfx/disk_manager_dfx_types.cpp 47-67 VolumeReportInfo::MergeFrom *)
Definition MergeFrom (other i : VolumeReportInfo) : VolumeReportInfo :=
  let pick new old := if negb (str_empty new) then new else old in
  mkVolumeReportInfo
    (pick (ri_volumeId other) (ri_volumeId i)) (pick (ri_diskId other) (ri_diskId i))
    (pick (ri_devPath other) (ri_devPath i)) (pick (ri_fsType other) (ri_fsType i)) (pick (ri_fsUuid other) (ri_fsUuid i))
    (if negb (str_empty (ri_extra other)) then
       if str_empty (ri_extra i) then ri_extra other else ri_extra i +:+ ";" +:+ ri_extra other
     else ri_extra i).

(* @src services/disk_manager/src/dfx/disk_manager_dfx_types.cpp 93-99 DfxTruncate *)
Definition DfxTruncate (text : string) (maxLen : nat) : string :=
  if (String.length text <=? maxLen)%nat then text else substr 0 maxLen text.

(** ** A volume that was not mounted automatically *)
(* @src services/disk_manager/src/dfx/disk_manager_dfx_types.cpp 122-137 ResolveAutoMountSkipReason *)
Definition ResolveAutoMountSkipReason (autoMountEnabled : bool) (type uuid : string) : AutoMountSkipReason :=
  if negb autoMountEnabled then AUTO_MOUNT_DISABLED
  else if str_empty type && str_empty uuid then MISSING_FS_TYPE_AND_UUID
  else if str_empty type then MISSING_FS_TYPE
  else MISSING_UUID.
(* @src services/disk_manager/src/dfx/disk_manager_dfx_types.cpp 139-153 AutoMountSkipReasonToString *)
Definition AutoMountSkipReasonToString (reason : AutoMountSkipReason) : string :=
  match reason with
  | AUTO_MOUNT_DISABLED => "autoMountDisabled"
  | MISSING_FS_TYPE => "missingFsType"
  | MISSING_UUID => "missingUuid"
  | MISSING_FS_TYPE_AND_UUID => "missingFsTypeAndUuid"
  end.
(* @src services/disk_manager/src/dfx/disk_manager_dfx_types.cpp 155-166 BuildAutoMountSkipReportInfo *)
Definition BuildAutoMountSkipReportInfo (ctx : AutoMountSkipContext) : VolumeReportInfo :=
  let info := WithDevPath (sk_volDevPath ctx) (WithDiskId (sk_diskId ctx) (WithVolumeId (sk_volId ctx) VolumeReportInfo_default)) in
  let info := if negb (str_empty (sk_type ctx)) then WithFsType (sk_type ctx) info else info in
  if negb (str_empty (sk_uuid ctx)) then set_fsUuid (sk_uuid ctx) info else info.

Section json.
Context {JT : JsonText}.

(** A member that is left out when empty; a [json] without members is null. *)
Definition put_text (key v : string) (l : list (string * json)) : list (string * json) :=
  if negb (str_empty v) then members_set key (JStr v) l else l.
Definition extra_members (i : VolumeReportInfo) : list (string * json) :=
  put_text "extra" (ri_extra i) (put_text "fsUuid" (ri_fsUuid i) (put_text "fsType" (ri_fsType i)
    (put_text "devPath" (ri_devPath i) (put_text "diskId" (ri_diskId i) (put_text "volumeId" (ri_volumeId i) []))))).
(* @src services/disk_manager/src/dfx/disk_manager_dfx_types.cpp 69-91 VolumeReportInfo::ToExtraData *)
Definition ToExtraData (i : VolumeReportInfo) : string :=
  match extra_members i with [] => "" | l => json_dump (JObj l) end.

(** The text of a member: there and a string. *)
Definition text_member (key : string) (js : json) : option string :=
  match json_member key js with Some (JStr s) => Some s | _ => None end.
(** [get<int32_t>] of an integer member. *)
Definition int_member (key : string) (js : json) : option Z :=
  match json_member key js with Some (JUInt n) | Some (JInt n) => Some (i32 n) | _ => None end.
(* @src services/disk_manager/src/dfx/disk_manager_dfx_types.cpp 101-120 FillReportInfoFromJson *)
Definition FillReportInfoFromJson (js : json) (info : VolumeReportInfo) : VolumeReportInfo :=
  mkVolumeReportInfo
    (default (ri_volumeId info) (text_member "volumeId" js))
    (default (ri_diskId info) (text_member "diskId" js))
    (default (ri_devPath info) (text_member "devPath" js))
    (default (ri_fsType info) (text_member "fsType" js))
    (ri_fsUuid info)
    (match text_member "extra" js with
     | Some s => s
     | None =>
         match json_member "tools" js with
         | Some tools => DfxTruncate (json_dump tools) DFX_TRUNCATE_MAX_LEN
         | None => ri_extra info
         end
     end).
(** [parse] without exceptions; only an object is used. *)
Definition parse_object (text : string) : option json :=
  match json_parse text with Some js => if json_is_object js then Some js else None | None => None end.
(* @src services/disk_manager/src/dfx/disk_manager_dfx_types.cpp 168-181 ParseOpDiagText *)
Definition ParseOpDiagText (opDiag : string) : VolumeReportInfo :=
  if str_empty opDiag then VolumeReportInfo_default
  else
    match parse_object opDiag with
    | None => set_extra (DfxTruncate opDiag DFX_TRUNCATE_MAX_LEN) VolumeReportInfo_default
    | Some js => FillReportInfoFromJson js VolumeReportInfo_default
    end.
(* @src services/disk_manager/src/dfx/disk_manager_dfx_types.cpp 183-210 ParseOpDiagReport *)
Definition ParseOpDiagReport (opDiag : string) : OpDiagReport :=
  if str_empty opDiag then OpDiagReport_default
  else
    match parse_object opDiag with
    | None => OpDiagReport_default
    | Some js =>
        match int_member "ret" js with
        | None => OpDiagReport_default
        | Some ret =>
            match text_member "funcName" js with
            | None => OpDiagReport_default
            | Some funcName =>
                mkOpDiagReport true ret funcName (default 0 (int_member "bizStage" js))
                  (default (OP_OTHER : Z) (int_member "opType" js)) (FillReportInfoFromJson js VolumeReportInfo_default)
            end
        end
    end.
End json.
