(* ===== verification/HiAudit.v ===== *)
(** * [services/disk_manager/src/dfx/hi_audit.cpp]

    The audit log: one record per line in [disk_manager_audit.csv]; a full file is renamed
    after the time and the oldest of too many renamed files is removed. The directory is a
    map from names to files; whether a system call succeeds, how much a write writes, the
    clock and the order in which [readdir] lists a directory are the class [AuditEnv].
    [mutex_] covers every operation, so each is one step. No other process writes there. *)
From S2P Require Import Prelude CppString State.

(* @src services/disk_manager/src/dfx/hi_audit.cpp 31-37 HiAuditConfig *)
Record HiAuditConfig : Type := mkHiAuditConfig {
  hc_logPath : string;
  hc_logName : string;
  hc_logSize : Z;
  hc_fileSize : Z;
  hc_fileCount : Z;
}.
(* @src services/disk_manager/src/dfx/hi_audit.cpp 39-40 HIAUDIT_CONFIG *)
Definition HIAUDIT_CONFIG : HiAuditConfig :=
  mkHiAuditConfig "/data/log/hiaudit/disk_manager/" "disk_manager" (2 * 1024) (3 * 1024 * 1024) 10.
Definition SEC_TO_MILLISEC : Z := 1000.
Definition MILLISECONDS_LENGTH : nat := 3.
(** File names are relative to [logPath]. *)
(* @src services/disk_manager/src/dfx/hi_audit.cpp 44-44 HIAUDIT_LOG_NAME *)
Definition HIAUDIT_LOG_NAME : string := hc_logName HIAUDIT_CONFIG +:+ "_audit.csv".

(* @src services/disk_manager/include/dfx/hi_audit.h 30-37 AuditLog *)
Record AuditLog : Type := mkAuditLog {
  al_isUserBehavior : bool;
  al_operationCount : Z;
  al_cause : string;
  al_operationType : string;
  al_operationScenario : string;
  al_operationStatus : string;
  al_extend : string;
}.
(* @src services/disk_manager/include/dfx/hi_audit.h 39-43 AuditLog::TitleString *)
Definition TitleString : string :=
  "happenTime, packageName, isForeground, cause, isUserBehavior, operationType, operationScenario, operationStatus, operationCount, extend"
  +:+ schar NL.
(* @src services/disk_manager/include/dfx/hi_audit.h 45-49 AuditLog::ToString *)
Definition AuditLog_ToString (a : AuditLog) : string :=
  al_cause a +:+ ", " +:+ to_string (Z.b2z (al_isUserBehavior a)) +:+ ", " +:+ al_operationType a +:+ ", " +:+
  al_operationScenario a +:+ ", " +:+ al_operationStatus a +:+ ", " +:+ to_string (al_operationCount a) +:+ ", " +:+
  al_extend a.

(** ** The directory and the system calls *)
Record AuditFile : Type := mkAuditFile { af_text : string; af_mtime : Z }.
Inductive AuditSys : Type :=
  | SysAccess | SysMkdir | SysOpen (trunc : bool) | SysStat (name : string) | SysRename (to : string) | SysOpendir
  | SysRemove (name : string).
(** [au_write n] is what [write] of [n] bytes returns; [au_clock] is in milliseconds;
    [au_date] is [localtime_r] and [strftime] with "%Y%m%d%H%M%S". *)
Class AuditEnv (E : Type) : Type := {
  au_ok : AuditSys -> E -> bool * E;
  au_write : nat -> E -> Z * E;
  au_clock : E -> Z * E;
  au_date : Z -> string;
  au_order : list string -> E -> list string * E;
}.

(** [writeFd_] is open or -1: when it is open it is the file [HIAUDIT_LOG_NAME]. *)
(* @src services/disk_manager/include/dfx/hi_audit.h 70-72 HiAudit *)
Record HiAudit (E : Type) : Type := mkHiAudit {
  writeFd_ : bool;
  writeLogSize_ : Z;
  ha_dir : gmap string AuditFile;
  ha_env : E;
}.
Arguments mkHiAudit {E}. Arguments writeFd_ {E}. Arguments writeLogSize_ {E}. Arguments ha_dir {E}. Arguments ha_env {E}.

Section audit.
Context {E : Type} {AE : AuditEnv E}.
Notation M := (State (HiAudit E)).

(** *** Access to the state *)
Definition audit_ask {A} (f : E -> A * E) : M A := fun s =>
  let (a, e) := f (ha_env s) in (a, mkHiAudit (writeFd_ s) (writeLogSize_ s) (ha_dir s) e).
Definition set_writeFd (b : bool) : M unit := smodify (fun s => mkHiAudit b (writeLogSize_ s) (ha_dir s) (ha_env s)).
Definition set_writeLogSize (n : Z) : M unit := smodify (fun s => mkHiAudit (writeFd_ s) n (ha_dir s) (ha_env s)).
Definition set_dir (f : gmap string AuditFile -> gmap string AuditFile) : M unit :=
  smodify (fun s => mkHiAudit (writeFd_ s) (writeLogSize_ s) (f (ha_dir s)) (ha_env s)).

(** *** System calls on the directory *)
(** [open] with O_CREAT, of the log: with O_TRUNC, otherwise with O_APPEND. *)
Definition open_log (trunc : bool) : M bool :=
  let! ok := audit_ask (au_ok (SysOpen trunc)) in
  if negb ok then sret false
  else
    let! now := audit_ask au_clock in
    let fresh := mkAuditFile "" (now / SEC_TO_MILLISEC) in
    do! set_dir (fun d => <[HIAUDIT_LOG_NAME := if trunc then fresh else default fresh (d !! HIAUDIT_LOG_NAME)]> d) in
    sret true.
Definition stat_file (name : string) : M (option AuditFile) :=
  let! ok := audit_ask (au_ok (SysStat name)) in
  let! file := sget (fun s => ha_dir s !! name) in
  sret (if ok : bool then file else None).
(** [write] to the log, with its return value. *)
Definition write_log (content : string) : M Z :=
  let! ret := audit_ask (au_write (String.length content)) in
  let! now := audit_ask au_clock in
  do! (if 0 <? ret then
         set_dir (fun d => <[HIAUDIT_LOG_NAME :=
           mkAuditFile (default "" (af_text <$> d !! HIAUDIT_LOG_NAME) +:+ stake (Z.to_nat ret) content)
                       (now / SEC_TO_MILLISEC)]> d)
       else sret tt) in
  sret ret.
Definition rename_log (to : string) : M bool :=
  let! ok := audit_ask (au_ok (SysRename to)) in
  if negb ok then sret false
  else
    let! file := sget (fun s => ha_dir s !! HIAUDIT_LOG_NAME) in
    match file with
    | None => sret false
    | Some f => do! set_dir (fun d => <[to := f]> (delete HIAUDIT_LOG_NAME d)) in sret true
    end.
Definition remove_file (name : string) : M bool :=
  let! ok := audit_ask (au_ok (SysRemove name)) in
  if negb ok then sret false else do! set_dir (delete name) in sret true.

(** *** The time *)
(* @src services/disk_manager/src/dfx/hi_audit.cpp 87-92 HiAudit::GetMilliseconds *)
Definition GetMilliseconds : M Z := audit_ask au_clock.
(* @src services/disk_manager/src/dfx/hi_audit.cpp 94-103 HiAudit::GetFormattedTimestamp *)
Definition GetFormattedTimestamp (timeStamp : Z) : string := au_date (Z.quot timeStamp SEC_TO_MILLISEC).
(** [std::setfill('0') << std::setw(n)] *)
Definition pad_zero (n : nat) (s : string) : string :=
  (fix zeros k acc := match k with O => acc | S k => String "0" (zeros k acc) end) (n - String.length s)%nat s.
(* @src services/disk_manager/src/dfx/hi_audit.cpp 105-114 HiAudit::GetFormattedTimestampEndWithMilli *)
Definition GetFormattedTimestampEndWithMilli : M string :=
  let! milliSeconds := GetMilliseconds in
  sret (GetFormattedTimestamp milliSeconds +:+
        pad_zero MILLISECONDS_LENGTH (to_string (milliSeconds mod SEC_TO_MILLISEC))).

(** *** The log *)
(* @src services/disk_manager/src/dfx/hi_audit.cpp 66-85 HiAudit::Init *)
Definition HiAudit_Init : M unit :=
  let! there := audit_ask (au_ok SysAccess) in
  do! (if negb there then let! _ := audit_ask (au_ok SysMkdir) in sret tt else sret tt) in
  let! ok := open_log false in
  do! set_writeFd ok in
  let! st := stat_file HIAUDIT_LOG_NAME in
  set_writeLogSize (match st with None => 0 | Some f => u32 (Z.of_nat (String.length (af_text f))) end).
(* @src services/disk_manager/src/dfx/hi_audit.cpp 153-160 HiAudit::RotateAuditLog *)
Definition RotateAuditLog : M unit :=
  let! now := GetFormattedTimestampEndWithMilli in
  let! _ := rename_log (hc_logName HIAUDIT_CONFIG +:+ "_audit_" +:+ now +:+ ".csv") in
  sret tt.
(** The names [CleanOldAuditFile] counts. *)
(* @src services/disk_manager/src/dfx/hi_audit.cpp 175-179 HiAudit::CleanOldAuditFile *)
Definition is_rotated (subName : string) : bool :=
  negb (negb (starts_with (hc_logName HIAUDIT_CONFIG) subName) || (subName =s HIAUDIT_LOG_NAME) ||
        (String.length subName <? 4)%nat || (sdrop (String.length subName - 4) subName <>s ".csv")).
(** One round of its loop: the number of files and the oldest so far. *)
(* @src services/disk_manager/src/dfx/hi_audit.cpp 173-194 HiAudit::CleanOldAuditFile *)
Definition clean_round (acc : Z * option string) (subName : string) : M (Z * option string) :=
  let (rotateFileCount, oldestAuditFile) := acc in
  if negb (is_rotated subName) then sret acc
  else
    let rotateFileCount := u32 (rotateFileCount + 1) in
    match oldestAuditFile with
    | None => sret (rotateFileCount, Some subName)
    | Some oldest =>
        let! st := stat_file subName in
        match st with
        | None => sret (rotateFileCount, Some oldest)
        | Some st =>
            let! oldestSt := stat_file oldest in
            match oldestSt with
            | None => sret (rotateFileCount, Some oldest)
            | Some oldestSt =>
                sret (rotateFileCount, Some (if af_mtime st <? af_mtime oldestSt then subName else oldest))
            end
        end
    end.
Fixpoint clean_rounds (names : list string) (acc : Z * option string) : M (Z * option string) :=
  match names with
  | [] => sret acc
  | n :: names => let! acc := clean_round acc n in clean_rounds names acc
  end.
(* @src services/disk_manager/src/dfx/hi_audit.cpp 162-202 HiAudit::CleanOldAuditFile *)
Definition CleanOldAuditFile : M unit :=
  let! ok := audit_ask (au_ok SysOpendir) in
  if negb ok then sret tt
  else
    let! d := sget ha_dir in
    let! names := audit_ask (au_order (map fst (map_to_list d))) in
    let! (rotateFileCount, oldestAuditFile) := clean_rounds names (0, None) in
    match oldestAuditFile with
    | None => sret tt
    | Some oldest =>
        if hc_fileCount HIAUDIT_CONFIG <? rotateFileCount then let! _ := remove_file oldest in sret tt else sret tt
    end.
(* @src services/disk_manager/src/dfx/hi_audit.cpp 132-151 HiAudit::GetWriteFilePath *)
Definition GetWriteFilePath : M unit :=
  let! size := sget writeLogSize_ in
  if size <? hc_fileSize HIAUDIT_CONFIG then sret tt
  else
    let! fd := sget writeFd_ in
    do! (if fd : bool then set_writeFd false else sret tt) in
    do! RotateAuditLog in
    do! CleanOldAuditFile in
    let! ok := open_log true in
    do! set_writeFd ok in
    set_writeLogSize 0.
(* @src services/disk_manager/src/dfx/hi_audit.cpp 204-217 HiAudit::WriteToFile *)
Definition WriteToFile (content : string) : M unit :=
  do! GetWriteFilePath in
  let! fd := sget writeFd_ in
  if negb fd then sret tt
  else
    let! ret := write_log content in
    let written := if 0 <? ret then ret else 0 in
    let! size := sget writeLogSize_ in
    set_writeLogSize (u32 (size + written)).
(** One record of the log as it is written. *)
Definition audit_line (now : string) (auditLog : AuditLog) : string :=
  let writeLog := now +:+ ", " +:+ hc_logName HIAUDIT_CONFIG +:+ ", NO, " +:+ AuditLog_ToString auditLog in
  (if hc_logSize HIAUDIT_CONFIG <? Z.of_nat (String.length writeLog)
   then substr 0 (Z.to_nat (hc_logSize HIAUDIT_CONFIG)) writeLog else writeLog) +:+ schar NL.
(* @src services/disk_manager/src/dfx/hi_audit.cpp 116-130 HiAudit::Write *)
Definition HiAudit_Write (auditLog : AuditLog) : M unit :=
  let! size := sget writeLogSize_ in
  do! (if size =? 0 then WriteToFile TitleString else sret tt) in
  let! now := GetFormattedTimestampEndWithMilli in
  WriteToFile (audit_line now auditLog).
(* @src services/disk_manager/src/dfx/hi_audit.cpp 52-58 HiAudit::~HiAudit *)
Definition HiAudit_delete : M unit :=
  let! fd := sget writeFd_ in
  if fd : bool then set_writeFd false else sret tt.
End audit.
