(* ===== verification/AuditFacts.v ===== *)
(** * Theorems about the audit log

    How much of the disk the log can take, which file is removed when there are too many,
    and what the first line of a file is. *)
From stdpp Require Import relations.
From S2P Require Import Prelude CppString State HiAudit.

(** What the kernel promises of [write] and [readdir]: no more bytes than asked for are
    written, and a listing has every name once. *)
Class AuditLaws (E : Type) {AE : AuditEnv E} : Prop := {
  au_write_le n e : (au_write n e).1 <= Z.of_nat n;
  au_order_perm l e : (au_order l e).1 ≡ₚ l;
}.

(** The renamed files of a directory, and the largest size of a file of the log. *)
Definition rotated (d : gmap string AuditFile) : gmap string AuditFile := filter (fun kv => is_rotated kv.1 = true) d.
Definition AUDIT_FILE_LIMIT : Z := hc_fileSize HIAUDIT_CONFIG + hc_logSize HIAUDIT_CONFIG + 1.
Definition file_len (f : AuditFile) : Z := Z.of_nat (String.length (af_text f)).
Definition small_files (d : gmap string AuditFile) : Prop :=
  map_Forall (fun name f => is_rotated name = true \/ name = HIAUDIT_LOG_NAME -> file_len f < AUDIT_FILE_LIMIT) d.
Lemma log_not_rotated : is_rotated HIAUDIT_LOG_NAME = false.
Proof. reflexivity. Qed.

(** ** Directories *)
Lemma rotated_insert_log d f : rotated (<[HIAUDIT_LOG_NAME := f]> d) = rotated d.
Proof. unfold rotated. by rewrite map_filter_insert_not. Qed.
Lemma rotated_insert_le d name f : (size (rotated (<[name := f]> d)) <= S (size (rotated d)))%nat.
Proof.
  unfold rotated. destruct (is_rotated name) eqn:Hr.
  - rewrite map_filter_insert_True by done. rewrite map_size_insert. case_match; unfold id; lia.
  - rewrite map_filter_insert_not by (intros; cbn; congruence). lia.
Qed.
Lemma rotated_delete_log d : rotated (delete HIAUDIT_LOG_NAME d) = rotated d.
Proof. unfold rotated. by apply map_filter_delete_not. Qed.
Lemma rotated_delete d name : rotated (delete name d) = delete name (rotated d).
Proof. apply map_filter_delete. Qed.
Lemma small_insert d name f :
  small_files d -> (is_rotated name = true \/ name = HIAUDIT_LOG_NAME -> file_len f < AUDIT_FILE_LIMIT) ->
  small_files (<[name := f]> d).
Proof. intros. by apply map_Forall_insert_2. Qed.
Lemma small_delete d name : small_files d -> small_files (delete name d).
Proof. apply map_Forall_delete. Qed.

(** The names of a listing that are counted. *)
Definition counted (names : list string) : list string := filter (fun n => is_rotated n = true) names.
Lemma counted_listing (d : gmap string AuditFile) names :
  names ≡ₚ map fst (map_to_list d) -> List.length (counted names) = size (rotated d).
Proof.
  intros Hp. unfold counted. rewrite Hp. clear Hp. unfold rotated.
  induction d as [|k v d Hk IH] using map_ind.
  - by rewrite map_to_list_empty, map_filter_empty, map_size_empty.
  - rewrite map_to_list_insert by done. cbn [map fst]. rewrite filter_cons. case_decide as Hr.
    + rewrite map_filter_insert_True by done. rewrite map_size_insert_None by (apply map_lookup_filter_None; by left).
      cbn. by f_equal.
    + by rewrite map_filter_insert_not by (intros; done).
Qed.
Lemma listing_elem (d : gmap string AuditFile) names x :
  names ≡ₚ map fst (map_to_list d) -> x ∈ names <-> is_Some (d !! x).
Proof.
  intros ->. rewrite list_elem_of_In, in_map_iff. split.
  - intros ([k v] & <- & H). apply list_elem_of_In, elem_of_map_to_list in H. by exists v.
  - intros [v H]. exists (x, v). split; [done|]. by apply list_elem_of_In, elem_of_map_to_list.
Qed.

Section audit.
Context {E : Type} {AE : AuditEnv E} {AL : AuditLaws E}.
Notation M := (State (HiAudit E)).

(** ** The system calls *)
Lemma wp_audit_ask {A} (f : E -> A * E) (Q : A -> HiAudit E -> Prop) s :
  Q (f (ha_env s)).1 (mkHiAudit (writeFd_ s) (writeLogSize_ s) (ha_dir s) (f (ha_env s)).2) -> wp (audit_ask f) Q s.
Proof. unfold wp, audit_ask. by destruct (f (ha_env s)). Qed.
(** Only the environment moves on. *)
Definition same_files (s s' : HiAudit E) : Prop :=
  writeFd_ s' = writeFd_ s /\ writeLogSize_ s' = writeLogSize_ s /\ ha_dir s' = ha_dir s.
Lemma wp_stat_file name (Q : option AuditFile -> HiAudit E -> Prop) s :
  (forall r s', same_files s s' -> r = None \/ r = ha_dir s !! name ->
     ((forall e, (au_ok (SysStat name) e).1 = true) -> r = ha_dir s !! name) -> Q r s') ->
  wp (stat_file name) Q s.
Proof.
  intros H. apply wp_bind, wp_audit_ask, wp_bind, wp_get, wp_ret. cbn [ha_dir]. apply H; [done| |].
  - destruct (au_ok _ _).1; auto.
  - intros Hok. by rewrite Hok.
Qed.

(** *** The loop of [CleanOldAuditFile] *)
Definition stats_ok : Prop := forall name e, (au_ok (SysStat name) e).1 = true.
(** The candidate after a round: one of the files seen, and when [stat] works the oldest. *)
Definition candidate (d : gmap string AuditFile) (seen : list string) (o : option string) : Prop :=
  match o with
  | None => seen = []
  | Some x =>
      x ∈ seen /\
      (stats_ok -> forall y fx fy, y ∈ seen -> d !! x = Some fx -> d !! y = Some fy -> af_mtime fx <= af_mtime fy)
  end.
Lemma clean_round_spec n o seen name s :
  (forall x, x ∈ seen ++ [name] -> is_Some (ha_dir s !! x)) -> candidate (ha_dir s) (counted seen) o ->
  wp (clean_round (n, o) name)
     (fun r s' => same_files s s' /\ candidate (ha_dir s) (counted (seen ++ [name])) r.2 /\
                  r.1 = if is_rotated name then u32 (n + 1) else n) s.
Proof.
  intros Hd Hc. unfold clean_round, counted. rewrite filter_app, filter_cons, filter_nil.
  fold (counted seen). destruct (is_rotated name) eqn:Hr; cbn [negb].
  2: { apply wp_ret. rewrite decide_False by congruence. rewrite app_nil_r. done. }
  rewrite decide_True by done.
  assert (Hname : is_Some (ha_dir s !! name)) by (apply Hd; set_solver).
  destruct o as [x|].
  2: { apply wp_ret. cbn in Hc. rewrite Hc. split; [done|]. split; [|done]. cbn. split; [set_solver|].
       intros _ y fx fy Hy. apply list_elem_of_singleton in Hy as ->. intros -> [= ->]. lia. }
  destruct Hc as [Hx Hmin]. apply wp_bind, wp_stat_file. intros st s1 (F1 & S1 & D1) Hst Hstok.
  assert (Hkeep : (stats_ok -> forall fx fy, ha_dir s !! x = Some fx -> ha_dir s !! name = Some fy -> af_mtime fx <= af_mtime fy) ->
                  candidate (ha_dir s) (counted seen ++ [name]) (Some x)).
  { intros H. split; [set_solver|]. intros Hok y fx fy Hy Hfx Hfy. apply elem_of_app in Hy as [Hy|Hy]; [by eapply Hmin|].
    apply list_elem_of_singleton in Hy as ->. by eapply H. }
  destruct st as [st|].
  2: { apply wp_ret. split; [done|]. split; [|done]. apply Hkeep. intros Hok. exfalso.
       rewrite <- Hstok in Hname by apply Hok. by destruct Hname. }
  destruct Hst as [Hst|Hst]; [done|]. apply wp_bind, wp_stat_file. intros old s2 (F2 & S2 & D2) Hold Holdok.
  rewrite D1 in *. assert (Hsame : same_files s s2) by (unfold same_files; by rewrite F2, S2, D2).
  destruct old as [old|].
  2: { apply wp_ret. split; [done|]. split; [|done]. apply Hkeep. intros Hok. exfalso.
       assert (Hs : is_Some (ha_dir s !! x)) by (apply Hd, elem_of_app; left; by apply list_elem_of_filter in Hx as [_ ?]).
       rewrite <- Holdok in Hs by apply Hok. by destruct Hs. }
  destruct Hold as [Hold|Hold]; [done|]. apply wp_ret. split; [done|]. split; [|done]. cbn [snd].
  destruct (Z.ltb_spec (af_mtime st) (af_mtime old)) as [Hlt|Hge].
  - split; [set_solver|]. intros Hok y fx fy Hy Hfx Hfy. rewrite <- Hst in Hfx. injection Hfx as <-.
    apply elem_of_app in Hy as [Hy|Hy].
    + pose proof (Hmin Hok y old fy Hy (eq_sym Hold) Hfy). lia.
    + apply list_elem_of_singleton in Hy as ->. rewrite <- Hst in Hfy. injection Hfy as <-. lia.
  - apply Hkeep. intros _ fx fy Hfx Hfy. rewrite <- Hold in Hfx. rewrite <- Hst in Hfy.
    injection Hfx as <-. injection Hfy as <-. done.
Qed.
Lemma clean_rounds_spec names : forall n o seen s,
  (forall x, x ∈ seen ++ names -> is_Some (ha_dir s !! x)) -> candidate (ha_dir s) (counted seen) o ->
  0 <= n -> n + Z.of_nat (List.length (counted names)) <= UINT32_MAX ->
  wp (clean_rounds names (n, o))
     (fun r s' => same_files s s' /\ candidate (ha_dir s) (counted (seen ++ names)) r.2 /\
                  r.1 = n + Z.of_nat (List.length (counted names))) s.
Proof.
  induction names as [|name names IH]; intros n o seen s Hd Hc Hn Hmax.
  - apply wp_ret. rewrite app_nil_r. cbn. split; [done|]. split; [done|]. lia.
  - assert (Hcount : Z.of_nat (List.length (counted (name :: names))) =
                     (if is_rotated name then 1 else 0) + Z.of_nat (List.length (counted names))).
    { unfold counted. rewrite filter_cons. destruct (is_rotated name); [rewrite decide_True by done|rewrite decide_False by done]; cbn; lia. }
    rewrite Hcount in *. apply wp_bind. eapply wp_mono; [|apply (clean_round_spec n o seen name); [|done]].
    2: { intros x Hx. apply Hd. set_solver. }
    intros [n1 o1] s1 ((F & S' & D) & Hc1 & Hn1). cbn [fst snd] in *.
    assert (Hn1' : n1 = n + if is_rotated name then 1 else 0).
    { rewrite Hn1. destruct (is_rotated name); [rewrite u32_id; [done|]; unfold_ints; lia|lia]. }
    eapply wp_mono; [|apply (IH n1 o1 (seen ++ [name]))].
    + intros [n2 o2] s2 ((F2 & S2 & D2) & Hc2 & Hn2). unfold same_files. rewrite F2, S2, D2, D in *. rewrite F, S'.
      split; [done|]. split; [|cbn in *; lia]. by rewrite <- app_assoc in Hc2.
    + intros x Hx. rewrite D. apply Hd. set_solver.
    + by rewrite D.
    + destruct (is_rotated name); lia.
    + destruct (is_rotated name); lia.
Qed.

(** *** Rotation *)
Definition opens_ok : Prop := forall e, (au_ok SysOpendir e).1 = true.
Definition removes_ok : Prop := forall name e, (au_ok (SysRemove name) e).1 = true.
(** Nothing was removed, or one counted file. *)
Definition removed (d d' : gmap string AuditFile) (o : option string) : Prop :=
  match o with None => d' = d | Some x => is_rotated x = true /\ is_Some (d !! x) /\ d' = delete x d end.
Lemma counted_elem names x : x ∈ counted names <-> is_rotated x = true /\ x ∈ names.
Proof. unfold counted. by rewrite list_elem_of_filter. Qed.
Lemma remove_file_wp x (Q : unit -> HiAudit E -> Prop) s :
  (forall s', writeFd_ s' = writeFd_ s -> writeLogSize_ s' = writeLogSize_ s ->
     ha_dir s' = ha_dir s \/ ha_dir s' = delete x (ha_dir s) -> (removes_ok -> ha_dir s' = delete x (ha_dir s)) -> Q tt s') ->
  wp (let! _ := remove_file x in sret tt) Q s.
Proof.
  intros H. apply wp_bind, wp_bind, wp_audit_ask. destruct (au_ok (SysRemove x) (ha_env s)).1 eqn:Hok; cbn [negb].
  - apply wp_bind, wp_modify, wp_ret, wp_ret, H; auto.
  - apply wp_ret, wp_ret, H; auto. intros Hr. by rewrite Hr in Hok.
Qed.
Lemma CleanOldAuditFile_wp (Q : unit -> HiAudit E -> Prop) s :
  Z.of_nat (size (rotated (ha_dir s))) <= UINT32_MAX ->
  (forall s' o, writeFd_ s' = writeFd_ s -> writeLogSize_ s' = writeLogSize_ s -> removed (ha_dir s) (ha_dir s') o ->
     (opens_ok -> removes_ok -> o = None -> Z.of_nat (size (rotated (ha_dir s))) <= hc_fileCount HIAUDIT_CONFIG) ->
     (forall x, o = Some x -> hc_fileCount HIAUDIT_CONFIG < Z.of_nat (size (rotated (ha_dir s))) /\
        (stats_ok -> forall y fx fy, is_rotated y = true -> ha_dir s !! x = Some fx -> ha_dir s !! y = Some fy -> af_mtime fx <= af_mtime fy)) ->
     Q tt s') ->
  wp CleanOldAuditFile Q s.
Proof.
  intros Hmax H. apply wp_bind, wp_audit_ask. destruct (au_ok SysOpendir (ha_env s)).1 eqn:Hopen; cbn [negb].
  2: { apply wp_ret, (H _ None); try done. intros Ho. by rewrite Ho in Hopen. }
  apply wp_bind, wp_get, wp_bind, wp_audit_ask. cbn [ha_dir ha_env writeFd_ writeLogSize_].
  set (names := (au_order _ _).1).
  assert (Hperm : names ≡ₚ map fst (map_to_list (ha_dir s))) by apply au_order_perm.
  pose proof (counted_listing _ _ Hperm) as Hcount.
  apply wp_bind. eapply wp_mono; [|apply (clean_rounds_spec names 0 None []); [|done|lia|by rewrite Hcount]].
  2: { intros x Hx. cbn [ha_dir]. by apply (listing_elem _ _ _ Hperm). }
  intros [n o] s1 ((F & S' & D) & Hc & Hn). cbn [fst snd ha_dir writeFd_ writeLogSize_ app] in *. rewrite Hcount in Hn.
  destruct o as [x|].
  2: { apply wp_ret, (H _ None); try done. intros _ _ _. cbn in Hc. rewrite <- Hcount, Hc. done. }
  destruct Hc as [Hx Hmin]. apply counted_elem in Hx as [Hr Hx]. apply (listing_elem _ _ _ Hperm) in Hx as Hd.
  destruct (Z.ltb_spec (hc_fileCount HIAUDIT_CONFIG) n) as [Hlt|Hge].
  2: { apply wp_ret, (H _ None); try done. intros; lia. }
  apply remove_file_wp. intros s' F' S'' D' Hok. destruct D' as [D'|D'].
  - apply (H _ None); [congruence|congruence|cbn; congruence| |done]. intros _ Hrem _. exfalso.
    rewrite (Hok Hrem), D in D'. destruct Hd as [f Hf]. by rewrite <- D', lookup_delete_eq in Hf.
  - apply (H _ (Some x)); [congruence|congruence|rewrite D'; cbn; by rewrite D|done|].
    + intros y [= <-]. split; [lia|]. intros Hst y' fx fy Hy Hfx Hfy. eapply Hmin; [done| |done..].
      apply counted_elem. split; [done|]. apply (listing_elem _ _ _ Hperm). by exists fy.
Qed.
Lemma RotateAuditLog_wp (Q : unit -> HiAudit E -> Prop) s :
  (forall s', writeFd_ s' = writeFd_ s -> writeLogSize_ s' = writeLogSize_ s ->
     (ha_dir s' = ha_dir s \/
      exists name f, ha_dir s !! HIAUDIT_LOG_NAME = Some f /\ ha_dir s' = <[name := f]> (delete HIAUDIT_LOG_NAME (ha_dir s))) ->
     Q tt s') ->
  wp RotateAuditLog Q s.
Proof.
  intros H. apply wp_bind, wp_bind, wp_audit_ask, wp_ret, wp_bind, wp_bind, wp_audit_ask.
  match goal with |- context [negb ?b] => destruct b end; cbn [negb]; [|apply wp_ret, wp_ret, H; auto].
  apply wp_bind, wp_get. cbn [ha_dir]. destruct (ha_dir s !! HIAUDIT_LOG_NAME) as [f|] eqn:Hf; [|apply wp_ret, wp_ret, H; auto].
  apply wp_bind, wp_modify, wp_ret, wp_ret, H; eauto.
Qed.

(** ** The sizes of the files *)
Lemma clean_rounds_same names : forall acc s, wp (clean_rounds names acc) (fun _ s' => same_files s s') s.
Proof.
  induction names as [|x names IH]; intros [n o] s; [by apply wp_ret|]. apply wp_bind.
  assert (Hround : wp (clean_round (n, o) x) (fun _ s' => same_files s s') s).
  { unfold clean_round. destruct (negb _); [by apply wp_ret|]. destruct o as [y|]; [|by apply wp_ret].
    apply wp_bind, wp_stat_file. intros st s1 H1 _ _. destruct st; [|by apply wp_ret].
    apply wp_bind, wp_stat_file. intros old s2 H2 _ _. assert (H : same_files s s2) by (unfold same_files in *; intuition congruence).
    by destruct old; apply wp_ret. }
  eapply wp_mono; [|exact Hround]. intros acc s1 H1. eapply wp_mono; [|apply IH].
  intros r s2 H2. unfold same_files in *. intuition congruence.
Qed.
Definition kept (s s' : HiAudit E) : Prop :=
  writeFd_ s' = writeFd_ s /\ writeLogSize_ s' = writeLogSize_ s /\ (small_files (ha_dir s) -> small_files (ha_dir s')).
Lemma CleanOldAuditFile_kept s : wp CleanOldAuditFile (fun _ s' => kept s s') s.
Proof.
  apply wp_bind, wp_audit_ask. destruct (au_ok SysOpendir (ha_env s)).1; cbn [negb]; [|by apply wp_ret].
  apply wp_bind, wp_get, wp_bind, wp_audit_ask, wp_bind. eapply wp_mono; [|apply clean_rounds_same].
  intros [n o] s1 (F & S' & D). cbn [ha_dir writeFd_ writeLogSize_] in *.
  assert (Hk : kept s s1) by (unfold kept; by rewrite F, S', D).
  destruct o as [x|]; [|by apply wp_ret]. destruct (_ <? n); [|by apply wp_ret].
  apply remove_file_wp. intros s2 F2 S2 D2 _. destruct Hk as (F1 & S1 & Hs). unfold kept.
  rewrite F2, S2. split; [done|]. split; [done|]. intros Hsm.
  destruct D2 as [-> | ->]; [by apply Hs|]. by apply small_delete, Hs.
Qed.
Lemma RotateAuditLog_kept s : wp RotateAuditLog (fun _ s' => kept s s') s.
Proof.
  apply RotateAuditLog_wp. intros s' F S' D. split; [done|]. split; [done|]. intros Hs.
  destruct D as [-> | (name & f & Hf & ->)]; [done|]. apply small_insert; [by apply small_delete|].
  intros _. apply (Hs _ _ Hf). by right.
Qed.
(** The size the object keeps is that of the file it has open, and the file may grow. *)
Definition tracked (s : HiAudit E) : Prop :=
  writeFd_ s = true -> exists f, ha_dir s !! HIAUDIT_LOG_NAME = Some f /\ file_len f = writeLogSize_ s.
Definition sized (s : HiAudit E) : Prop := small_files (ha_dir s) /\ tracked s.
Lemma GetWriteFilePath_sized s :
  sized s -> wp GetWriteFilePath (fun _ s' => sized s' /\ (writeFd_ s' = true -> writeLogSize_ s' < hc_fileSize HIAUDIT_CONFIG)) s.
Proof.
  intros [Hsm Htr]. unfold GetWriteFilePath. apply wp_bind, wp_get.
  destruct (Z.ltb_spec (writeLogSize_ s) (hc_fileSize HIAUDIT_CONFIG)) as [Hlt|_]; [by apply wp_ret|].
  apply wp_bind, wp_get, wp_bind.
  assert (Hclose : wp (if writeFd_ s then set_writeFd false else sret tt) (fun _ s' => ha_dir s' = ha_dir s) s)
    by (by destruct (writeFd_ s)).
  eapply wp_mono; [|exact Hclose]. clear Hclose. intros [] s1 D1. apply wp_bind. eapply wp_mono; [|apply RotateAuditLog_kept].
  intros [] s2 (_ & _ & K2). apply wp_bind. eapply wp_mono; [|apply CleanOldAuditFile_kept]. intros [] s3 (_ & _ & K3).
  assert (Hs3 : small_files (ha_dir s3)) by (apply K3, K2; by rewrite D1).
  apply wp_bind, wp_bind, wp_audit_ask. destruct (au_ok (SysOpen true) (ha_env s3)).1; cbn [negb].
  - apply wp_bind, wp_audit_ask, wp_bind, wp_modify, wp_ret, wp_bind, wp_modify, wp_modify.
    split; [|done]. split; cbn [ha_dir writeFd_ writeLogSize_].
    + apply small_insert; [done|]. intros _. done.
    + intros _. cbn [ha_dir writeLogSize_]. eexists. rewrite lookup_insert_eq. split; done.
  - apply wp_ret, wp_bind, wp_modify, wp_modify. by split.
Qed.
Lemma write_log_wp content (Q : Z -> HiAudit E -> Prop) s f :
  ha_dir s !! HIAUDIT_LOG_NAME = Some f ->
  (forall ret s' f', ret <= Z.of_nat (String.length content) -> writeFd_ s' = writeFd_ s -> writeLogSize_ s' = writeLogSize_ s ->
     ha_dir s' = <[HIAUDIT_LOG_NAME := f']> (ha_dir s) -> file_len f' = file_len f + (if 0 <? ret then ret else 0) -> Q ret s') ->
  wp (write_log content) Q s.
Proof.
  intros Hf H. apply wp_bind, wp_audit_ask, wp_bind, wp_audit_ask, wp_bind. set (ret := (au_write _ _).1).
  assert (Hret : ret <= Z.of_nat (String.length content)) by apply au_write_le.
  destruct (Z.ltb_spec 0 ret) as [Hlt|Hge].
  - apply wp_modify, wp_ret. cbn [ha_dir]. rewrite Hf. eapply H; [done|done|done|reflexivity|].
    unfold file_len. cbn. rewrite slen_app, stake_length by lia. rewrite (proj2 (Z.ltb_lt _ _) Hlt). lia.
  - apply wp_ret, wp_ret, (H ret _ f); [done|done|done| |].
    + cbn. by rewrite insert_id.
    + rewrite (proj2 (Z.ltb_ge _ _) Hge). lia.
Qed.
Lemma WriteToFile_sized content s :
  Z.of_nat (String.length content) <= hc_logSize HIAUDIT_CONFIG + 1 -> sized s -> wp (WriteToFile content) (fun _ => sized) s.
Proof.
  intros Hlen Hs. apply wp_bind. eapply wp_mono; [|by apply GetWriteFilePath_sized]. intros [] s1 [[Hsm Htr] Hsz].
  apply wp_bind, wp_get. destruct (writeFd_ s1) eqn:Hfd; cbn [negb]; [|by apply wp_ret].
  destruct (Htr Hfd) as (f & Hf & Hlf). apply wp_bind, (write_log_wp _ _ _ f Hf). intros ret s2 f' Hret F2 S2 D2 Hlf'.
  apply wp_bind, wp_get, wp_modify. rewrite S2. unfold sized, tracked. cbn [ha_dir writeFd_ writeLogSize_]. rewrite D2.
  specialize (Hsz eq_refl). set (w := if 0 <? ret then ret else 0) in *.
  assert (Hw : 0 <= w <= hc_logSize HIAUDIT_CONFIG + 1) by (subst w; case_match eqn:Hb; bsimp; cbn in *; lia).
  assert (Hf0 : 0 <= file_len f) by (unfold file_len; lia).
  split.
  - apply small_insert; [done|]. intros _. rewrite Hlf', Hlf. unfold AUDIT_FILE_LIMIT. lia.
  - intros _. exists f'. rewrite lookup_insert_eq. split; [done|]. rewrite Hlf', Hlf, u32_id; [done|].
    unfold_ints. cbn in *. lia.
Qed.
Lemma audit_line_length now a : Z.of_nat (String.length (audit_line now a)) <= hc_logSize HIAUDIT_CONFIG + 1.
Proof.
  unfold audit_line. rewrite slen_app. cbn [String.length schar]. set (l := now +:+ _).
  destruct (Z.ltb_spec (hc_logSize HIAUDIT_CONFIG) (Z.of_nat (String.length l))) as [H|H]; [|lia].
  unfold substr. cbn [sdrop]. rewrite stake_length; [|cbn in *; lia]. cbn. lia.
Qed.
Lemma HiAudit_Write_sized a s : sized s -> wp (HiAudit_Write a) (fun _ => sized) s.
Proof.
  intros Hs. apply wp_bind, wp_get, wp_bind.
  assert (Ht : wp (if writeLogSize_ s =? 0 then WriteToFile TitleString else sret tt) (fun _ => sized) s).
  { destruct (_ =? 0); [|done]. apply WriteToFile_sized; [by vm_compute|done]. }
  eapply wp_mono; [|exact Ht]. intros [] s1 Hs1. apply wp_bind, wp_bind, wp_audit_ask, wp_ret.
  apply WriteToFile_sized; [apply audit_line_length|done].
Qed.

(** ** The number of files *)
Section count.
Context (HO : opens_ok) (HR : removes_ok).
Definition few (s : HiAudit E) : Prop := Z.of_nat (size (rotated (ha_dir s))) <= hc_fileCount HIAUDIT_CONFIG.
Lemma few_same s s' : rotated (ha_dir s') = rotated (ha_dir s) -> few s -> few s'.
Proof. unfold few. by intros ->. Qed.
Lemma GetWriteFilePath_few s : few s -> wp GetWriteFilePath (fun _ => few) s.
Proof.
  intros Hs. unfold GetWriteFilePath. apply wp_bind, wp_get. destruct (_ <? _); [by apply wp_ret|].
  apply wp_bind, wp_get, wp_bind.
  assert (Hclose : wp (if writeFd_ s then set_writeFd false else sret tt) (fun _ => few) s) by (by destruct (writeFd_ s)).
  eapply wp_mono; [|exact Hclose]. clear Hclose. intros [] s1 Hs1. apply wp_bind, RotateAuditLog_wp. intros s2 _ _ D2.
  assert (H2 : Z.of_nat (size (rotated (ha_dir s2))) <= hc_fileCount HIAUDIT_CONFIG + 1).
  { unfold few in Hs1. destruct D2 as [-> | (name & f & _ & ->)]; [lia|].
    pose proof (rotated_insert_le (delete HIAUDIT_LOG_NAME (ha_dir s1)) name f) as H. rewrite rotated_delete_log in H. lia. }
  apply wp_bind, CleanOldAuditFile_wp; [cbn in *; unfold_ints; lia|].
  intros s3 o _ _ Hrem Hnone _.
  assert (H3 : few s3).
  { unfold few. destruct o as [x|].
    - destruct Hrem as (Hr & Hx & ->). rewrite rotated_delete, map_size_delete_Some; [change (hc_fileCount HIAUDIT_CONFIG) with 10 in *; lia|].
      destruct Hx as [f Hf]. exists f. by apply map_lookup_filter_Some.
    - rewrite Hrem. by apply Hnone. }
  apply wp_bind, wp_bind, wp_audit_ask. destruct (au_ok (SysOpen true) (ha_env s3)).1; cbn [negb].
  - apply wp_bind, wp_audit_ask, wp_bind, wp_modify, wp_ret, wp_bind, wp_modify, wp_modify.
    eapply few_same; [|exact H3]. apply rotated_insert_log.
  - apply wp_ret, wp_bind, wp_modify, wp_modify. done.
Qed.
Lemma WriteToFile_few content s : few s -> wp (WriteToFile content) (fun _ => few) s.
Proof.
  intros Hs. apply wp_bind. eapply wp_mono; [|by apply GetWriteFilePath_few]. intros [] s1 H1.
  apply wp_bind, wp_get. destruct (negb _); [by apply wp_ret|]. apply wp_bind, wp_bind, wp_audit_ask, wp_bind, wp_audit_ask, wp_bind.
  destruct (0 <? _).
  - apply wp_modify, wp_ret, wp_bind, wp_get, wp_modify. eapply few_same; [|exact H1]. apply rotated_insert_log.
  - apply wp_ret, wp_ret, wp_bind, wp_get, wp_modify. done.
Qed.
Lemma HiAudit_Write_few a s : few s -> wp (HiAudit_Write a) (fun _ => few) s.
Proof.
  intros Hs. apply wp_bind, wp_get, wp_bind.
  assert (Ht : wp (if writeLogSize_ s =? 0 then WriteToFile TitleString else sret tt) (fun _ => few) s).
  { destruct (_ =? 0); [by apply WriteToFile_few|done]. }
  eapply wp_mono; [|exact Ht]. intros [] s1 Hs1. apply wp_bind, wp_bind, wp_audit_ask, wp_ret. by apply WriteToFile_few.
Qed.
End count.

(** ** A run: the object is made and writes records *)
Definition audit_new (d : gmap string AuditFile) (e : E) : HiAudit E := (HiAudit_Init (mkHiAudit false 0 d e)).2.
Definition audit_writes (records : list AuditLog) (s : HiAudit E) : HiAudit E :=
  foldl (fun s a => (HiAudit_Write a s).2) s records.
Lemma audit_new_wp (Q : HiAudit E -> Prop) d e :
  (forall s, ha_dir s = d -> writeFd_ s = false -> Q s) ->
  (forall s f, ha_dir s = <[HIAUDIT_LOG_NAME := f]> d -> (d !! HIAUDIT_LOG_NAME = Some f \/ af_text f = "") ->
     ((forall e, (au_ok (SysStat HIAUDIT_LOG_NAME) e).1 = true) -> writeLogSize_ s = u32 (file_len f)) -> Q s) ->
  Q (audit_new d e).
Proof.
  intros Hclosed Hopen. change (wp HiAudit_Init (fun _ => Q) (mkHiAudit false 0 d e)).
  apply wp_bind, wp_audit_ask, wp_bind.
  assert (Hmk : forall s, wp (if negb (au_ok SysAccess e).1 then let! _ := audit_ask (au_ok SysMkdir) in sret tt else sret tt)
                  (fun _ s' => same_files s s') s).
  { intros s. destruct (negb _); [|by apply wp_ret]. by apply wp_bind, wp_audit_ask, wp_ret. }
  eapply wp_mono; [|apply Hmk]. intros [] s1 (F1 & S1 & D1). cbn [ha_dir writeFd_ writeLogSize_] in *.
  apply wp_bind, wp_bind, wp_audit_ask. destruct (au_ok (SysOpen false) (ha_env s1)).1; cbn [negb].
  - apply wp_bind, wp_audit_ask, wp_bind, wp_modify, wp_ret, wp_bind, wp_modify, wp_bind, wp_stat_file.
    intros r s2 (F2 & S2 & D2) _ Hr. apply wp_modify. cbn [ha_dir writeFd_ writeLogSize_ ha_env] in *. rewrite D1 in *.
    eapply Hopen; [cbn [ha_dir]; exact D2| |].
    + destruct (d !! HIAUDIT_LOG_NAME); [by left|by right].
    + intros Hok. rewrite (Hr Hok), lookup_insert_eq. done.
  - apply wp_ret, wp_bind, wp_modify, wp_bind, wp_stat_file. intros r s2 (F2 & S2 & D2) _ _. apply wp_modify.
    cbn [ha_dir writeFd_] in *. apply Hclosed; cbn; congruence.
Qed.

(** ** Claims *)

(** C19: The audit log is bounded, if [stat] of the log succeeds whenever it is asked; whatever
    else the file system answers, and however much is written: when no file of the log has
    more than 3 MiB and one record at the start, none ever
    has; and when moreover old files can be listed and removed, there are never more than ten
    renamed files, if there were no more at the start. (With a failing [stat] the size of
    an existing log is taken for 0, and the log can grow beyond the limit.) *)
Theorem audit_bounded (d : gmap string AuditFile) (e : E) (records : list AuditLog) :
  (forall e, (au_ok (SysStat HIAUDIT_LOG_NAME) e).1 = true) -> small_files d ->
  let s := audit_writes records (audit_new d e) in
  small_files (ha_dir s) /\
  (opens_ok -> removes_ok -> Z.of_nat (size (rotated d)) <= hc_fileCount HIAUDIT_CONFIG ->
   Z.of_nat (size (rotated (ha_dir s))) <= hc_fileCount HIAUDIT_CONFIG).
Proof.
  intros Hstat Hd s. split.
  - assert (H : sized (audit_new d e)).
    { apply audit_new_wp.
      - intros s0 HD HF. split; [by rewrite HD|]. intros H. congruence.
      - intros s0 f HD Hf HS. assert (Hlen : file_len f < AUDIT_FILE_LIMIT).
        { destruct Hf as [Hf|Hf]; [by apply (Hd _ _ Hf); right|]. unfold file_len. by rewrite Hf. }
        split; [rewrite HD; by apply small_insert|]. intros _. exists f. rewrite HD, lookup_insert_eq, (HS Hstat).
        split; [done|]. rewrite u32_id; [done|]. unfold AUDIT_FILE_LIMIT, file_len in *. cbn in *. unfold_ints. lia. }
    subst s. revert H. generalize (audit_new d e) as s0. induction records as [|a records IH]; intros s0 H0; [apply H0|].
    cbn. apply IH. by apply HiAudit_Write_sized.
  - intros HO HR Hfew. assert (H : few (audit_new d e)).
    { apply audit_new_wp; [intros s0 HD _; unfold few; by rewrite HD|]. intros s0 f HD _ _. unfold few. by rewrite HD, rotated_insert_log. }
    subst s. revert H. generalize (audit_new d e) as s0. induction records as [|a records IH]; intros s0 H0; [apply H0|].
    cbn. apply IH. by apply HiAudit_Write_few.
Qed.

(** When the directory can be read and files removed, [CleanOldAuditFile] keeps ten renamed
    files or fewer as they are; of more it removes exactly one, the one changed longest
    ago, and no other file. *)
Theorem CleanOldAuditFile_spec (s : HiAudit E) :
  opens_ok -> removes_ok -> stats_ok -> Z.of_nat (size (rotated (ha_dir s))) <= UINT32_MAX ->
  let d := ha_dir s in
  let d' := ha_dir (CleanOldAuditFile s).2 in
  (Z.of_nat (size (rotated d)) <= hc_fileCount HIAUDIT_CONFIG /\ d' = d) \/
  (hc_fileCount HIAUDIT_CONFIG < Z.of_nat (size (rotated d)) /\
   exists oldest f, rotated d !! oldest = Some f /\ d' = delete oldest d /\
     forall name g, rotated d !! name = Some g -> af_mtime f <= af_mtime g).
Proof.
  intros HO HR HS Hmax. change (wp CleanOldAuditFile (fun _ s' => 
    (Z.of_nat (size (rotated (ha_dir s))) <= hc_fileCount HIAUDIT_CONFIG /\ ha_dir s' = ha_dir s) \/
    (hc_fileCount HIAUDIT_CONFIG < Z.of_nat (size (rotated (ha_dir s))) /\
     exists oldest f, rotated (ha_dir s) !! oldest = Some f /\ ha_dir s' = delete oldest (ha_dir s) /\
       forall name g, rotated (ha_dir s) !! name = Some g -> af_mtime f <= af_mtime g)) s).
  apply CleanOldAuditFile_wp; [done|]. intros s' o _ _ Hrem Hnone Hsome. destruct o as [x|].
  - right. destruct Hrem as (Hr & [f Hf] & D). destruct (Hsome x eq_refl) as [Hlt Hmin]. split; [done|].
    exists x, f. split; [by apply map_lookup_filter_Some|]. split; [done|].
    intros name g [Hg Hname]%map_lookup_filter_Some. by apply (Hmin HS name).
  - left. split; [by apply Hnone|done].
Qed.
End audit.

(** ** Examples *)
Section example.
(** Every call succeeds and every write is complete; the environment is the clock. *)
Definition audit_demo_date (n : Z) : string := "2026" +:+ to_string n.
#[local] Instance audit_demo : AuditEnv Z := {
  au_ok := fun _ n => (true, n); au_write := fun len n => (Z.of_nat len, n); au_clock := fun n => (n, n + 5000);
  au_date := audit_demo_date; au_order := fun l n => (l, n) }.
#[local] Instance audit_demo_laws : AuditLaws Z.
Proof. split; intros; cbn; [lia|done]. Qed.
Definition demo_record (op : string) : AuditLog := mkAuditLog false 1 "diskManager" op "bizStage:41" "START" "".
Definition demo_old (n : Z) : string * AuditFile :=
  (hc_logName HIAUDIT_CONFIG +:+ "_audit_" +:+ to_string n +:+ ".csv", mkAuditFile "" (Z.abs (n - 4))).
Definition demo_dir : gmap string AuditFile := list_to_map (map demo_old [1; 2; 3; 4; 5; 6; 7; 8; 9; 10; 11]).

Lemma audit_bounded_witness :
  af_text <$> ha_dir (audit_writes [demo_record "Mount"] (audit_new ∅ 0)) !! HIAUDIT_LOG_NAME =
    Some (TitleString +:+ audit_line (audit_demo_date 10 +:+ "000") (demo_record "Mount")) /\
  small_files (ha_dir (audit_writes [demo_record "Mount"] (audit_new ∅ 0))).
Proof.
  split; [vm_compute; reflexivity|].
  apply (fun H1 H2 => proj1 (audit_bounded ∅ 0 [demo_record "Mount"] H1 H2)); [done|apply map_Forall_empty].
Defined.
Definition demo_full : HiAudit Z := mkHiAudit true 7 demo_dir 0.
Lemma CleanOldAuditFile_spec_witness :
  size (rotated (ha_dir demo_full)) = 11%nat /\
  let d := ha_dir demo_full in
  let d' := ha_dir (CleanOldAuditFile demo_full).2 in
  (Z.of_nat (size (rotated d)) <= hc_fileCount HIAUDIT_CONFIG /\ d' = d) \/
  (hc_fileCount HIAUDIT_CONFIG < Z.of_nat (size (rotated d)) /\
   exists oldest f, rotated d !! oldest = Some f /\ d' = delete oldest d /\
     forall name g, rotated d !! name = Some g -> af_mtime f <= af_mtime g).
Proof.
  assert (Hsize : size (rotated (ha_dir demo_full)) = 11%nat) by (vm_compute; reflexivity). split; [exact Hsize|].
  assert (Hmax : Z.of_nat (size (rotated (ha_dir demo_full))) <= UINT32_MAX) by by rewrite Hsize.
  exact (CleanOldAuditFile_spec demo_full (fun _ => eq_refl) (fun _ _ => eq_refl) (fun _ _ => eq_refl) Hmax).
Defined.

(** A file that a rotation starts has no title: [Write] looks at the size before
    [WriteToFile] rotates. *)
Lemma rotation_loses_title :
  let s := mkHiAudit true (hc_fileSize HIAUDIT_CONFIG) {[HIAUDIT_LOG_NAME := mkAuditFile "full" 0]} 0 in
  af_text <$> ha_dir (HiAudit_Write (demo_record "Mount") s).2 !! HIAUDIT_LOG_NAME =
    Some (audit_line (audit_demo_date 0 +:+ "000") (demo_record "Mount")).
Proof. vm_compute. reflexivity. Qed.
End example.

(** A log that could not be opened at the start is never opened again. *)
Section closed.
Context {E : Type} {AE : AuditEnv E}.
Lemma closed_log_stays_closed (a : AuditLog) (s : HiAudit E) :
  writeFd_ s = false -> writeLogSize_ s < hc_fileSize HIAUDIT_CONFIG ->
  let s' := (HiAudit_Write a s).2 in
  ha_dir s' = ha_dir s /\ writeFd_ s' = false /\ writeLogSize_ s' = writeLogSize_ s.
Proof.
  intros Hf Hs.
  assert (Hw : forall c s, writeFd_ s = false -> writeLogSize_ s < hc_fileSize HIAUDIT_CONFIG -> WriteToFile c s = (tt, s)).
  { intros c s0 H0 H1. unfold WriteToFile, GetWriteFilePath, sbind, sget. rewrite (proj2 (Z.ltb_lt _ _) H1). cbn. by rewrite H0. }
  assert (H : exists e, HiAudit_Write a s = (tt, mkHiAudit (writeFd_ s) (writeLogSize_ s) (ha_dir s) e)).
  { unfold HiAudit_Write, GetFormattedTimestampEndWithMilli, GetMilliseconds, audit_ask, sbind, sget, sret.
    destruct (writeLogSize_ s =? 0); [rewrite (Hw _ s Hf Hs)|];
      (destruct (au_clock (ha_env s)) as [t e]; exists e; by rewrite Hw). }
  destruct H as [e ->]. cbn. auto.
Qed.
End closed.
