(* ===== verification/Radar.v ===== *)
(** * [services/disk_manager/src/dfx/disk_manager_radar.cpp] and [include/dfx/disk_manager_dfx.h]

    The reports of the service: behaviour events (an operation starts and ends) and fault
    events, each also a record of the audit log, and the scope object that reports the
    start and the end of an operation. [OH_HiSysEvent_Write], the process id and the
    calendar are the class [RadarEnv]; the requests of [World] do not include reports,
    which change neither the tables nor the answers of the service. *)
From S2P Require Import Prelude CppString Types State Json Dfx HiAudit.

Definition DEFAULT_ORG_PKG : string := "diskManager".
Definition DEFAULT_TO_CALL_PKG : string := "storage_daemon".
Definition DEFAULT_KEY_ELX_LEVEL : string := "NA".
Definition DEFAULT_USER_ID : Z := 100.
(* @src services/disk_manager/include/dfx/disk_manager_radar.h 34-36 BizScene *)
Inductive BizScene : Set := EXTERNAL_VOLUME_MANAGER.
Definition BizScene_val (_ : BizScene) : Z := 4.
(* @src services/disk_manager/include/dfx/disk_manager_radar.h 38-48 RadarParameter *)
Record RadarParameter : Type := mkRadarParameter {
  rp_orgPkg : string;
  rp_userId : Z;
  rp_funcName : string;
  rp_bizScene : BizScene;
  rp_bizStage : Z;
  rp_keyElxLevel : string;
  rp_toCallPkg : string;
  rp_fileStatus : string;
  rp_errorCode : Z;
}.

(** ** System events *)
Inductive SysParam : Type := SysString (s : string) | SysInt32 (n : Z).
Inductive SysEventType : Set := HISYSEVENT_BEHAVIOR | HISYSEVENT_FAULT.
Record SysEvent : Type := mkSysEvent {
  sv_name : string;
  sv_type : SysEventType;
  sv_params : list (string * SysParam);
}.
Class RadarEnv (E : Type) : Type := {
  rd_write : SysEvent -> E -> Z * E;
  rd_pid : E -> Z;
  rd_localtime : Z -> option string;
}.

(** The audit log, with the environment, and the events written so far. *)
Record Radar (E : Type) : Type := mkRadar { rd_audit : HiAudit E; rd_events : list SysEvent }.
Arguments mkRadar {E}. Arguments rd_audit {E}. Arguments rd_events {E}.

(** The parameters of the two kinds of event; strings are passed as [const char *]. *)
(* @src services/disk_manager/src/dfx/disk_manager_radar.cpp 58-78 DiskManagerRadar::WriteBehaviorEvent *)
Definition behavior_event (funcName bundleName : string) (pid : Z) (time : string) : SysEvent :=
  mkSysEvent "FILE_BACKUP_EVENTS" HISYSEVENT_BEHAVIOR
    [("PROC_NAME", SysString (c_str funcName)); ("BUNDLENAME", SysString (c_str bundleName)); ("PID", SysInt32 pid);
     ("TIME", SysString (c_str time))].
(* @src services/disk_manager/src/dfx/disk_manager_radar.cpp 123-151 DiskManagerRadar::RecordFault *)
Definition fault_event (param : RadarParameter) : SysEvent :=
  mkSysEvent "FILE_STORAGE_FAULT" HISYSEVENT_FAULT
    [("ORG_PKG", SysString (c_str (rp_orgPkg param))); ("USER_ID", SysInt32 (rp_userId param));
     ("FUNC", SysString (c_str (rp_funcName param))); ("BIZ_SCENE", SysInt32 (BizScene_val (rp_bizScene param)));
     ("BIZ_STAGE", SysInt32 (rp_bizStage param)); ("KEY_ELX_LEVEL", SysString (c_str (rp_keyElxLevel param)));
     ("TO_CALL_PKG", SysString (c_str (rp_toCallPkg param))); ("FILE_STATUS", SysString (c_str (rp_fileStatus param)));
     ("ERROR_CODE", SysInt32 (rp_errorCode param))].

Section radar.
Context {E : Type} {AE : AuditEnv E} {RE : RadarEnv E} {JT : JsonText}.
Notation M := (State (Radar E)).

Definition audit {A} (m : State (HiAudit E) A) : M A := szoom rd_audit (fun a r => mkRadar a (rd_events r)) m.
Definition OH_HiSysEvent_Write (ev : SysEvent) : M Z :=
  do! smodify (fun r => mkRadar (rd_audit r) (rd_events r ++ [ev])) in
  audit (audit_ask (rd_write ev)).

(* @src services/disk_manager/src/dfx/disk_manager_radar.cpp 37-49 GetCurrentTime *)
Definition GetCurrentTime : M string :=
  let! now := audit (audit_ask au_clock) in
  sret (match rd_localtime (now / SEC_TO_MILLISEC) with
        | None => ""
        | Some text => text +:+ pad_zero MILLISECONDS_LENGTH (to_string (now mod SEC_TO_MILLISEC))
        end).
(* @src services/disk_manager/src/dfx/disk_manager_radar.cpp 80-93 DiskManagerRadar::WriteAuditForBehavior *)
Definition WriteAuditForBehavior (funcName : string) (stage : Z) (status : string) (info : VolumeReportInfo) (ret : Z) : M unit :=
  audit (HiAudit_Write
    (mkAuditLog false 1 DEFAULT_ORG_PKG funcName ("bizStage:" +:+ to_string stage) status
       ("userId:" +:+ to_string DEFAULT_USER_ID +:+ ",ret:" +:+ to_string ret +:+ ",extra:" +:+ ToExtraData info))).
(* @src services/disk_manager/src/dfx/disk_manager_radar.cpp 95-105 DiskManagerRadar::ReportBehavior *)
Definition ReportBehavior (funcName : string) (stage : Z) (status : string) (info : VolumeReportInfo) (ret : Z) : M unit :=
  let extra := ToExtraData info in
  let! now := GetCurrentTime in
  let time := now +:+ "|" +:+ status in
  let time := if negb (str_empty extra) then time +:+ "|" +:+ extra else time in
  let! pid := sget (fun r => rd_pid (ha_env (rd_audit r))) in
  let! _ := OH_HiSysEvent_Write (behavior_event funcName DEFAULT_ORG_PKG (i32 pid) time) in
  WriteAuditForBehavior funcName stage status info ret.
(* @src services/disk_manager/src/dfx/disk_manager_radar.cpp 107-121 DiskManagerRadar::WriteAuditForFault *)
Definition WriteAuditForFault (param : RadarParameter) : M unit :=
  audit (HiAudit_Write
    (mkAuditLog false 1 (rp_orgPkg param) (rp_funcName param)
       ("bizScene:" +:+ to_string (BizScene_val (rp_bizScene param)) +:+ ",bizStage:" +:+ to_string (rp_bizStage param)) "fail"
       ("userId:" +:+ to_string (rp_userId param) +:+ ",keyElxLevel:" +:+ rp_keyElxLevel param +:+ ",toCallPkg:" +:+
        rp_toCallPkg param +:+ ",fileStatus:" +:+ rp_fileStatus param +:+ ",errorCode:" +:+ to_string (rp_errorCode param)))).
(* @src services/disk_manager/src/dfx/disk_manager_radar.cpp 123-151 DiskManagerRadar::RecordFault *)
Definition RecordFault (param : RadarParameter) : M bool :=
  let! res := OH_HiSysEvent_Write (fault_event param) in
  do! WriteAuditForFault param in
  sret (if negb (res =? E_OK) then false else true).
(* @src services/disk_manager/src/dfx/disk_manager_radar.cpp 153-163 DiskManagerRadar::ReportVolumeFault *)
Definition ReportVolumeFault (funcName : string) (stage : Z) (_ : Z) (err : Z) (info : VolumeReportInfo) : M unit :=
  let! _ := RecordFault (mkRadarParameter DEFAULT_ORG_PKG DEFAULT_USER_ID funcName EXTERNAL_VOLUME_MANAGER stage
                           DEFAULT_KEY_ELX_LEVEL DEFAULT_TO_CALL_PKG (ToExtraData info) err) in
  sret tt.
(* @src services/disk_manager/src/dfx/disk_manager_radar.cpp 165-168 DiskManagerRadar::ReportMetadataFault *)
Definition ReportMetadataFault (funcName : string) (err : Z) (info : VolumeReportInfo) : M unit :=
  ReportVolumeFault funcName DFX_STAGE_MOUNT OP_OTHER err info.
(** Before an operation of the adapter returns the answer of storage_daemon. *)
(* @src services/disk_manager/src/adapter/storage_daemon_adapter.cpp 33-40 FinishDaemonOp *)
Definition FinishDaemonOp (funcName : string) (stage opType ret : Z) (info : VolumeReportInfo) : M Z :=
  do! (if negb (ret =? E_OK) then ReportVolumeFault funcName stage opType ret info else sret tt) in sret ret.
(* @src services/disk_manager/src/adapter/storage_daemon_adapter.cpp 42-48 FinishMetadataOp *)
Definition FinishMetadataOp (funcName : string) (ret : Z) (info : VolumeReportInfo) : M Z :=
  do! (if negb (ret =? E_OK) then ReportMetadataFault funcName ret info else sret tt) in sret ret.
(* @src services/disk_manager/src/dfx/disk_manager_radar.cpp 170-174 DiskManagerRadar::ReportUeventParseFault *)
Definition ReportUeventParseFault (info : VolumeReportInfo) : M unit :=
  ReportVolumeFault "UeventBootstrap::OnBlockDiskUevent" DFX_STAGE_UEVENT_PARSE OP_OTHER E_UEVENT_PARSE_FAILED info.
(* @src services/disk_manager/src/dfx/disk_manager_radar.cpp 176-185 DiskManagerRadar::ReportAutoMountMetadataFault *)
Definition ReportAutoMountMetadataFault (info : VolumeReportInfo) (reason : AutoMountSkipReason) : M unit :=
  let extra :=
    "reason=" +:+ AutoMountSkipReasonToString reason +:+ ",typeEmpty=" +:+ to_string (Z.b2z (str_empty (ri_fsType info))) +:+
    ",uuidEmpty=" +:+ to_string (Z.b2z (str_empty (ri_fsUuid info))) in
  ReportVolumeFault "UeventBootstrap::DiscoverSinglePartitionVolume" DFX_STAGE_MOUNT OP_MOUNT E_PARAMS_INVALID (set_extra extra info).
(* @src services/disk_manager/src/dfx/disk_manager_radar.cpp 187-195 DiskManagerRadar::ReportDiscoverAutoMountSkipFault *)
Definition ReportDiscoverAutoMountSkipFault (ctx : AutoMountSkipContext) : M unit :=
  let reason := ResolveAutoMountSkipReason (sk_autoMountEnabled ctx) (sk_type ctx) (sk_uuid ctx) in
  ReportAutoMountMetadataFault (BuildAutoMountSkipReportInfo ctx) reason.

(** *** Diagnoses of storage_daemon *)
(* @src services/disk_manager/src/ipc/disk_manager_provider.cpp 111-119 ApplyVolumeOpDiagReport *)
Definition ApplyVolumeOpDiagReport (report : OpDiagReport) : M unit :=
  if contains "ReadMetadata" (od_funcName report) then ReportMetadataFault (od_funcName report) (od_ret report) (od_info report)
  else ReportVolumeFault (od_funcName report) (od_bizStage report) (od_opType report) (od_ret report) (od_info report).
(** What [DiskManagerProvider::ReportVolumeOpDiag] does with a diagnosis it accepts, the
    request [ReportDiag] of [World]. *)
(* @src services/disk_manager/src/ipc/disk_manager_provider.cpp 629-632 DiskManagerProvider::ReportVolumeOpDiag *)
Definition report_diag (opDiag : string) : M unit :=
  let report := ParseOpDiagReport opDiag in
  if od_valid report && negb (od_ret report =? E_OK) then ApplyVolumeOpDiagReport report else sret tt.

(** *** The scope of an operation

    The object lives on the stack of the operation: it is made, used, and destroyed when
    the operation returns. *)
(* @src services/disk_manager/include/dfx/disk_manager_dfx.h 67-71 IpcDfxScope *)
Record IpcDfxScope : Type := mkIpcDfxScope {
  sc_funcName : string;
  sc_stage : Z;
  sc_opType : Z;
  sc_info : VolumeReportInfo;
  sc_finished : bool;
}.
(* @src services/disk_manager/include/dfx/disk_manager_dfx.h 31-36 IpcDfxScope::IpcDfxScope *)
Definition new_IpcDfxScope (funcName : string) (stage opType : Z) (info : VolumeReportInfo) : M IpcDfxScope :=
  do! ReportBehavior funcName stage "START" info E_OK in
  sret (mkIpcDfxScope funcName stage opType info false).
(* @src services/disk_manager/include/dfx/disk_manager_dfx.h 43-46 IpcDfxScope::MergeFrom *)
Definition Scope_MergeFrom (other : VolumeReportInfo) (sc : IpcDfxScope) : IpcDfxScope :=
  mkIpcDfxScope (sc_funcName sc) (sc_stage sc) (sc_opType sc) (MergeFrom other (sc_info sc)) (sc_finished sc).
(* @src services/disk_manager/include/dfx/disk_manager_dfx.h 48-57 IpcDfxScope::Finish *)
Definition Finish (ret : Z) (sc : IpcDfxScope) : M (Z * IpcDfxScope) :=
  if sc_finished sc then sret (ret, sc)
  else
    let status := if ret =? E_OK then "SUCCESS" else "FAIL" in
    do! ReportBehavior (sc_funcName sc) (sc_stage sc) status (sc_info sc) ret in
    sret (ret, mkIpcDfxScope (sc_funcName sc) (sc_stage sc) (sc_opType sc) (sc_info sc) true).
(* @src services/disk_manager/include/dfx/disk_manager_dfx.h 59-64 IpcDfxScope::~IpcDfxScope *)
Definition delete_IpcDfxScope (sc : IpcDfxScope) : M unit :=
  if negb (sc_finished sc) then let! _ := Finish DISK_MGR_ERR sc in sret tt else sret tt.
(* @src services/disk_manager/src/ipc/disk_manager_provider.cpp 106-109 IpcDfxRet *)
Definition IpcDfxRet (dfx : IpcDfxScope) (ret : Z) : M (Z * IpcDfxScope) := Finish ret dfx.
End radar.
