(* ===== verification/RadarFacts.v ===== *)
(** * Theorems about the reports

    An operation is reported once at its start and once at its end, with the result it
    returned; a diagnosis of storage_daemon becomes a fault event exactly when it says that
    an operation failed; the report of a volume survives its text form. *)
From S2P Require Import Prelude CppString Types State Json Dfx HiAudit Radar.

Section radar.
Context {E : Type} {AE : AuditEnv E} {RE : RadarEnv E} {JT : JsonText}.
Notation M := (State (Radar E)).

(** ** The events a computation adds *)
Definition adds {A} (m : M A) (P : A -> list SysEvent -> Prop) : Prop :=
  forall s, exists new, rd_events (m s).2 = rd_events s ++ new /\ P (m s).1 new.
Lemma adds_ret {A} (a : A) (P : A -> list SysEvent -> Prop) : P a [] -> adds (sret a) P.
Proof. intros H s. exists []. by rewrite app_nil_r. Qed.
Lemma adds_bind {A B} (m : M A) (f : A -> M B) (P : A -> list SysEvent -> Prop) Q :
  adds m P -> (forall a new, P a new -> adds (f a) (fun b new' => Q b (new ++ new'))) -> adds (sbind m f) Q.
Proof.
  intros Hm Hf s. destruct (Hm s) as (n1 & H1 & P1). unfold sbind. destruct (m s) as [a s1]. cbn in *.
  destruct (Hf a n1 P1 s1) as (n2 & H2 & Q2). exists (n1 ++ n2). by rewrite H2, H1, app_assoc.
Qed.
Lemma adds_mono {A} (m : M A) (P Q : A -> list SysEvent -> Prop) : adds m P -> (forall a new, P a new -> Q a new) -> adds m Q.
Proof. intros Hm H s. destruct (Hm s) as (new & Hn & Hp). exists new. auto. Qed.
Notation none := (fun _ new => new = []).
Notation one ev := (fun _ new => new = [ev]).
Lemma adds_audit {A} (m : State (HiAudit E) A) : adds (audit m) none.
Proof. intros s. exists []. unfold audit, szoom. destruct (m (rd_audit s)). by rewrite app_nil_r. Qed.
Lemma adds_get {A} (f : Radar E -> A) : adds (sget f) none.
Proof. intros s. exists []. by rewrite app_nil_r. Qed.
Lemma adds_write ev : adds (OH_HiSysEvent_Write ev) (one ev).
Proof.
  intros s. exists [ev]. unfold OH_HiSysEvent_Write, sbind, smodify.
  destruct (adds_audit (audit_ask (rd_write ev)) (mkRadar (rd_audit s) (rd_events s ++ [ev]))) as (n & -> & ->).
  by rewrite app_nil_r.
Qed.

(** ** Behaviour *)
(** An event that says that [funcName] is at [status]. *)
Definition says (funcName status : string) (info : VolumeReportInfo) (ev : SysEvent) : Prop :=
  exists pid now,
    ev = behavior_event funcName DEFAULT_ORG_PKG pid
           (let time := now +:+ "|" +:+ status in
            if negb (str_empty (ToExtraData info)) then time +:+ "|" +:+ ToExtraData info else time).
Lemma adds_ReportBehavior funcName stage status info ret :
  adds (ReportBehavior funcName stage status info ret) (fun _ new => exists ev, new = [ev] /\ says funcName status info ev).
Proof.
  apply (adds_bind _ _ none).
  { eapply adds_bind; [apply adds_audit|]. intros t n ->. by apply adds_ret. }
  intros now n ->.
  eapply adds_bind; [apply adds_get|]. intros pid n ->. eapply adds_bind; [apply adds_write|]. intros res n ->.
  eapply adds_mono; [apply adds_audit|]. intros _ n ->. eexists. split; [reflexivity|]. by exists (i32 pid), now.
Qed.

(** The uses of a scope between its construction and its destruction. *)
Inductive ScopeOp : Type := ScopeMerge (other : VolumeReportInfo) | ScopeFinish (ret : Z).
Fixpoint scope_uses (ops : list ScopeOp) (sc : IpcDfxScope) : M IpcDfxScope :=
  match ops with
  | [] => sret sc
  | ScopeMerge other :: ops => scope_uses ops (Scope_MergeFrom other sc)
  | ScopeFinish ret :: ops => let! r := Finish ret sc in scope_uses ops r.2
  end.
Definition scoped (funcName : string) (stage opType : Z) (info : VolumeReportInfo) (ops : list ScopeOp) : M unit :=
  let! sc := new_IpcDfxScope funcName stage opType info in
  let! sc := scope_uses ops sc in
  delete_IpcDfxScope sc.
(** What is reported at the end: the first result, with what was merged before it. *)
Fixpoint scope_end (info : VolumeReportInfo) (ops : list ScopeOp) : VolumeReportInfo * Z :=
  match ops with
  | [] => (info, DISK_MGR_ERR : Z)
  | ScopeMerge other :: ops => scope_end (MergeFrom other info) ops
  | ScopeFinish ret :: _ => (info, ret)
  end.
Definition end_status (ret : Z) : string := if ret =? E_OK then "SUCCESS" else "FAIL".

Lemma adds_finished ops : forall sc, sc_finished sc = true -> adds (let! sc := scope_uses ops sc in delete_IpcDfxScope sc) none.
Proof.
  induction ops as [|[other|ret] ops IH]; intros sc Hf; cbn [scope_uses].
  - intros s. exists []. unfold sbind, sret, delete_IpcDfxScope. rewrite Hf. by rewrite app_nil_r.
  - by apply IH.
  - intros s. unfold Finish. rewrite Hf. by apply IH.
Qed.
Lemma adds_scope_end ops : forall sc, sc_finished sc = false ->
  adds (let! sc := scope_uses ops sc in delete_IpcDfxScope sc)
    (fun _ new => exists ev, new = [ev] /\
       says (sc_funcName sc) (end_status (scope_end (sc_info sc) ops).2) (scope_end (sc_info sc) ops).1 ev).
Proof.
  induction ops as [|[other|ret] ops IH]; intros sc Hf; cbn [scope_uses scope_end].
  - eapply adds_bind; [by apply (adds_ret sc (fun sc' new => sc' = sc /\ new = []))|]. intros ? ? [-> ->].
    unfold delete_IpcDfxScope, Finish. rewrite Hf. cbn [negb].
    set (Q := fun new => exists ev, new = [ev] /\ says (sc_funcName sc) (end_status DISK_MGR_ERR) (sc_info sc) ev).
    apply (adds_bind _ _ (fun _ => Q)).
    + eapply adds_bind; [apply adds_ReportBehavior|]. intros [] n H. apply adds_ret. rewrite app_nil_r. exact H.
    + intros r n H. apply adds_ret. rewrite app_nil_r. exact H.
  - apply (IH (Scope_MergeFrom other sc) Hf).
  - unfold Finish. rewrite Hf. intros s.
    set (sc' := mkIpcDfxScope (sc_funcName sc) (sc_stage sc) (sc_opType sc) (sc_info sc) true).
    destruct (adds_ReportBehavior (sc_funcName sc) (sc_stage sc) (end_status ret) (sc_info sc) ret s) as (n & Hn & Hs).
    unfold sbind at 1 2 3. unfold end_status in Hn, Hs.
    destruct (ReportBehavior _ _ _ _ _ s) as [[] s1]. cbn [fst snd sret] in *.
    destruct (adds_finished ops sc' eq_refl s1) as (n' & Hn' & ->). rewrite app_nil_r in Hn'.
    unfold sbind in Hn'. exists n. split; [|exact Hs]. by rewrite Hn', Hn.
Qed.

(** ** Faults *)
Definition fault_of (funcName : string) (stage err : Z) (info : VolumeReportInfo) : SysEvent :=
  fault_event (mkRadarParameter DEFAULT_ORG_PKG DEFAULT_USER_ID funcName EXTERNAL_VOLUME_MANAGER stage
                 DEFAULT_KEY_ELX_LEVEL DEFAULT_TO_CALL_PKG (ToExtraData info) err).
Lemma adds_ReportVolumeFault funcName stage op err info :
  adds (ReportVolumeFault funcName stage op err info) (one (fault_of funcName stage err info)).
Proof.
  apply (adds_bind _ _ (one (fault_of funcName stage err info))); [|intros b n ->; by apply adds_ret].
  eapply adds_bind; [apply adds_write|]. intros res n ->.
  eapply adds_bind; [apply adds_audit|]. intros [] n ->. by apply adds_ret.
Qed.

(** ** Claims *)

(** C20: Every operation that is reported is reported exactly twice, whatever it does with its
    scope: START with what was known first, then one end, which is SUCCESS exactly when
    the first result it finished with is [E_OK]; an operation that returns without
    finishing is reported as failed. *)
Theorem scope_reports (funcName : string) (stage opType : Z) (info : VolumeReportInfo) (ops : list ScopeOp) (s : Radar E) :
  exists first last,
    rd_events (scoped funcName stage opType info ops s).2 = rd_events s ++ [first; last] /\
    says funcName "START" info first /\
    says funcName (if (scope_end info ops).2 =? E_OK then "SUCCESS" else "FAIL") (scope_end info ops).1 last.
Proof.
  assert (H : adds (scoped funcName stage opType info ops)
    (fun _ new => exists first last, new = [first; last] /\ says funcName "START" info first /\
       says funcName (end_status (scope_end info ops).2) (scope_end info ops).1 last)).
  { unfold scoped, new_IpcDfxScope. set (sc := mkIpcDfxScope funcName stage opType info false).
    apply (adds_bind _ _ (fun sc' new => sc' = sc /\ exists ev, new = [ev] /\ says funcName "START" info ev)).
    - eapply adds_bind; [apply adds_ReportBehavior|]. intros [] n H. apply adds_ret. by rewrite app_nil_r.
    - intros sc' n [-> (first & -> & Hfirst)]. eapply adds_mono; [by apply adds_scope_end|].
      intros [] n (last & -> & Hlast). by exists first, last. }
  destruct (H s) as (new & Hn & first & last & -> & H1 & H2). by exists first, last.
Qed.

(** C39: A diagnosis of storage_daemon is a fault of the operation it names, with the code it
    gives, exactly when it is a JSON object with a [ret] that is not 0 and a [funcName];
    any other text, however broken, is ignored. *)
Theorem diag_reported (opDiag : string) (s : Radar E) :
  let js := if str_empty opDiag then None else parse_object opDiag in
  rd_events (report_diag opDiag s).2 = rd_events s ++
    match ret ← js ≫= int_member "ret"; funcName ← js ≫= text_member "funcName"; Some (ret, funcName) with
    | Some (ret, funcName) =>
        if ret =? E_OK then []
        else [fault_of funcName
                (if contains "ReadMetadata" funcName then DFX_STAGE_MOUNT : Z else default 0 (js ≫= int_member "bizStage")) ret
                (default VolumeReportInfo_default ((fun j => FillReportInfoFromJson j VolumeReportInfo_default) <$> js))]
    | None => []
    end.
Proof.
  cbv zeta. unfold report_diag, ParseOpDiagReport.
  destruct (str_empty opDiag); cbn; [by rewrite app_nil_r|].
  destruct (parse_object opDiag) as [js|]; cbn; [|by rewrite app_nil_r].
  destruct (int_member "ret" js) as [ret|]; cbn; [|by rewrite app_nil_r].
  destruct (text_member "funcName" js) as [funcName|]; cbn; [|by rewrite app_nil_r].
  destruct (ret =? 0); cbn; [by rewrite app_nil_r|].
  unfold ApplyVolumeOpDiagReport, ReportMetadataFault. cbn [od_funcName od_ret od_info od_bizStage od_opType].
  destruct (contains "ReadMetadata" funcName).
  - by destruct (adds_ReportVolumeFault funcName DFX_STAGE_MOUNT OP_OTHER ret (FillReportInfoFromJson js VolumeReportInfo_default) s)
      as (n & -> & ->).
  - destruct (adds_ReportVolumeFault funcName (default 0 (int_member "bizStage" js)) (default (OP_OTHER : Z) (int_member "opType" js))
      ret (FillReportInfoFromJson js VolumeReportInfo_default) s) as (n & H & ->). exact H.
Qed.
End radar.

(** ** The text of a report *)
Section text.
Context {JT : JsonText}.
Definition plain_info (i : VolumeReportInfo) : bool :=
  forallb (sforall is_ascii7) [ri_volumeId i; ri_diskId i; ri_devPath i; ri_fsType i; ri_fsUuid i; ri_extra i].

(** Members that are plain texts. *)
Definition text_entry (kv : string * json) : Prop :=
  sforall is_ascii7 kv.1 = true /\ exists s, kv.2 = JStr s /\ sforall is_ascii7 s = true.
Lemma members_set_Forall (P : string * json -> Prop) key v l : P (key, v) -> Forall P l -> Forall P (members_set key v l).
Proof.
  intros Hp Hl. induction Hl as [|[k x] l Hx Hl IH]; cbn; [by constructor|].
  destruct (key =s k); [by constructor|]. destruct (str_leb key k); repeat constructor; auto.
Qed.
Lemma put_text_entries key v l :
  sforall is_ascii7 key = true -> sforall is_ascii7 v = true -> Forall text_entry l -> Forall text_entry (put_text key v l).
Proof.
  intros Hk Hv Hl. unfold put_text. destruct (negb _); [|done]. apply members_set_Forall; [|done]. split; [done|]. by exists v.
Qed.
Lemma extra_members_entries i : plain_info i = true -> Forall text_entry (extra_members i).
Proof.
  intros H. unfold plain_info in H. rewrite forallb_forall in H.
  assert (Hp : forall x, x ∈ [ri_volumeId i; ri_diskId i; ri_devPath i; ri_fsType i; ri_fsUuid i; ri_extra i] -> sforall is_ascii7 x = true)
    by (intros x Hx; apply H; by apply list_elem_of_In).
  unfold extra_members. repeat (apply put_text_entries; [done|apply Hp; set_solver|]). by constructor.
Qed.
Lemma entries_plain l : Forall text_entry l -> json_plain (JObj l) = true /\ json_norm (JObj l) = JObj l.
Proof.
  intros H. unfold json_plain. cbn. split.
  - apply andb_true_intro. split; apply forallb_forall; intros [k v] Hin; apply list_elem_of_In in Hin;
      rewrite Forall_forall in H; destruct (H _ Hin) as [Hk (s & Hs & Hv)]; cbn in *; subst v; cbn; [|done]. by rewrite Hk.
  - f_equal. induction H as [|[k v] l [_ (s & Hs & _)] _ IH]; cbn in *; [done|]. subst v. by rewrite IH.
Qed.
Lemma text_member_put key key' v l :
  text_member key (JObj (put_text key' v l)) =
  if (key =s key') && negb (str_empty v) then Some v else text_member key (JObj l).
Proof.
  unfold put_text, text_member. destruct (str_empty v); cbn [negb]; [by rewrite andb_false_r|]. rewrite andb_true_r.
  change (JObj (members_set key' (JStr v) l)) with (json_set key' (JStr v) (JObj l)).
  destruct (str_eqb_spec key key') as [->|Hne]; [by rewrite json_member_set|]. by rewrite json_member_set_ne by congruence.
Qed.
Lemma member_put key key' v l : key <> key' -> json_member key (JObj (put_text key' v l)) = json_member key (JObj l).
Proof.
  intros Hne. unfold put_text. destruct (negb _); [|done].
  change (JObj (members_set key' (JStr v) l)) with (json_set key' (JStr v) (JObj l)). apply json_member_set_ne. congruence.
Qed.

(** The text of a report parses back to the report, except for the uuid of the file system:
    [ToExtraData] writes it, [FillReportInfoFromJson] does not read it. *)
Theorem report_text_roundtrip (i : VolumeReportInfo) :
  plain_info i = true -> ParseOpDiagText (ToExtraData i) = set_fsUuid "" i.
Proof.
  intros Hp. destruct (entries_plain _ (extra_members_entries i Hp)) as [Hplain Hnorm].
  assert (Hfill : FillReportInfoFromJson (JObj (extra_members i)) VolumeReportInfo_default = set_fsUuid "" i).
  { unfold FillReportInfoFromJson, set_fsUuid. unfold extra_members. rewrite !text_member_put, !member_put by done.
    destruct i as [v d p t u e]; cbn.
    destruct v, d, p, t, e; reflexivity. }
  unfold ToExtraData, ParseOpDiagText, parse_object. destruct (extra_members i) as [|kv l] eqn:Hl; [exact Hfill|].
  destruct (str_empty (json_dump (JObj (kv :: l)))) eqn:He; [exfalso; apply str_empty_true in He; by apply json_dump_nonempty in He|].
  rewrite json_parse_dump by done. rewrite Hnorm. cbn [json_is_object]. exact Hfill.
Qed.
End text.

(** *** An example *)
Definition ex_report : VolumeReportInfo :=
  mkVolumeReportInfo "vol-8-1" "disk-8-0" "/mnt/data/external/1" "vfat" "1234-ABCD" "flags=0".
Lemma report_text_roundtrip_witness :
  plain_info ex_report = true /\ ParseOpDiagText (JT := coded_json) (ToExtraData (JT := coded_json) ex_report) = set_fsUuid "" ex_report.
Proof. split; [reflexivity|]. exact (report_text_roundtrip (JT := coded_json) ex_report eq_refl). Defined.
