(* ===== verification/FormatAuth.v ===== *)
(** * The administrator's consent

    The callback that the account service reports the consent to, and the wait of
    [CheckAdminAuthorization] for it: what [Provider] has as the answer to
    [WaitAuthorization] is computed here from the callbacks that arrive. *)
From S2P Require Import Prelude CppString Types State Utils Json Voldata VoldataStore World DmQuery Provider Scenario.

(** [AccountSA::AUTHORIZATION_SUCCESS] is the account service's; the code reads a result
    as a success when it is this value, and an error of the callback is stored in the same
    place: the two are told apart because the value is no error. *)
Class AuthCodes : Type := {
  AUTHORIZATION_SUCCESS : Z;
  auth_success_no_error : AUTHORIZATION_SUCCESS = ERR_OK;
}.

(* @src services/disk_manager/src/ipc/disk_manager_provider.cpp 67-72 AuthState *)
Record AuthState : Type := mkAuthState { as_resultCode : Z; as_completed : bool }.
Definition AuthState_new : AuthState := mkAuthState 0 false.
(** A report of the account service: its code and the one in the result. *)
Record AuthReport : Type := mkAuthReport { ar_code : Z; ar_resultCode : Z }.
(* @src services/disk_manager/src/ipc/disk_manager_provider.cpp 79-91 FormatAuthCallback::OnResult *)
Definition FormatAuth_OnResult (r : AuthReport) : State AuthState Z :=
  let! s := sget id in
  do! (if negb (as_completed s)
       then smodify (fun _ => mkAuthState (if negb (ar_code r =? ERR_OK) then ar_code r else ar_resultCode r) true)
       else sret tt) in
  sret ERR_OK.
(* @src services/disk_manager/src/ipc/disk_manager_provider.cpp 93-99 FormatAuthCallback::OnConnectAbility *)
Definition FormatAuth_OnConnectAbility : State AuthState Z := sret ERR_OK.

(** [wait_for] with its predicate: [rounds] are the reports that arrive before each
    check of the predicate but the first; the last check is the one at the deadline. *)
Fixpoint reports (rs : list AuthReport) (s : AuthState) : AuthState :=
  match rs with [] => s | r :: rs => reports rs (FormatAuth_OnResult r s).2 end.
(* @src services/disk_manager/src/ipc/disk_manager_provider.cpp 349-351 DiskManagerProvider::CheckAdminAuthorization *)
Fixpoint auth_wait_for (rounds : list (list AuthReport)) (s : AuthState) : bool * AuthState :=
  if as_completed s then (true, s)
  else match rounds with [] => (false, s) | rs :: rounds => auth_wait_for rounds (reports rs s) end.
(** What [CheckAdminAuthorization] reads after it. *)
Definition wait_answer `{AuthCodes} (rounds : list (list AuthReport)) : Ans :=
  let (notified, s) := auth_wait_for rounds AuthState_new in
  mkAns 0 (as_resultCode s - AUTHORIZATION_SUCCESS) 0 0 notified "" "" "" [].

Lemma reports_completed rs s : as_completed s = true -> reports rs s = s.
Proof.
  revert s. induction rs as [|r rs IH]; intros s Hs; [done|]. cbn. unfold FormatAuth_OnResult, sbind, sget, sret. cbn.
  rewrite Hs. cbn. by apply IH.
Qed.
Definition first_report (rs : list AuthReport) : AuthState :=
  match rs with [] => AuthState_new | r :: _ => (FormatAuth_OnResult r AuthState_new).2 end.
Lemma reports_first rs : reports rs AuthState_new = first_report rs.
Proof. destruct rs as [|r rs]; [done|]. cbn. by apply reports_completed. Qed.
(** However the reports fall between the checks, the first one of all decides. *)
Lemma auth_wait_for_first rounds :
  auth_wait_for rounds AuthState_new = (as_completed (first_report (List.concat rounds)), first_report (List.concat rounds)).
Proof.
  induction rounds as [|rs rounds IH]; [done|]. cbn [auth_wait_for as_completed AuthState_new]. rewrite reports_first.
  destruct rs as [|r rs]; [exact IH|]. cbn [List.concat app first_report].
  by destruct rounds.
Qed.
Lemma consent_iff `{AuthCodes} rounds :
  an_bool (wait_answer rounds) = true /\ an_int (wait_answer rounds) = 0 <->
  exists rest, List.concat rounds = mkAuthReport ERR_OK AUTHORIZATION_SUCCESS :: rest.
Proof.
  unfold wait_answer. rewrite auth_wait_for_first. destruct (List.concat rounds) as [|[code res] rest]; cbn.
  - split; [by intros []|by intros []].
  - destruct (Z.eqb_spec code ERR_OK) as [->|Hne]; cbn; split.
    + intros [_ Hr]. exists rest. do 2 f_equal. lia.
    + intros [rest' [= -> _]]. split; [done|lia].
    + intros [_ Hc]. destruct Hne. rewrite <- auth_success_no_error. lia.
    + intros [rest' [= Hc _ _]]. destruct (Hne Hc).
Qed.

(** The environment answers the wait by the reports of the account service. *)
Class AuthReports (E : Type) {EV : Env E} {AC : AuthCodes} : Type := {
  auth_rounds : E -> list (list AuthReport);
  auth_wait_answer e : (env_answer e WaitAuthorization).1 = wait_answer (auth_rounds e);
}.

(** C24: A data disk is formatted with the administrator's consent, and the consent is the
    first report of the account service: when the request was accepted and the
    first report to arrive before the deadline says success, whatever follows; a
    refusal cannot be turned into a consent by a later report, and no report in time is a refusal. *)
Theorem consent_is_first_report {E St : Type} {EV : Env E} {PS : PathStore St} {AC : AuthCodes} {AR : AuthReports E} (w : World E St) :
  let acquired := call lk_none (AcquireAuthorization FORMAT_DATA_DISK_PRIVILEGE) w in
  (CheckAdminAuthorization w).1 = E_OK <->
  an_ret acquired.1 = ERR_OK /\
  exists rest, List.concat (auth_rounds (w_env acquired.2)) = mkAuthReport ERR_OK AUTHORIZATION_SUCCESS :: rest.
Proof.
  cbv zeta. unfold CheckAdminAuthorization. unfold sbind at 1.
  destruct (call lk_none (AcquireAuthorization FORMAT_DATA_DISK_PRIVILEGE) w) as [a w1]. cbn [fst snd].
  rewrite <- consent_iff, <- auth_wait_answer. destruct (Z.eqb_spec (an_ret a) ERR_OK) as [Ha|Ha]; cbn [negb].
  2:{ split; [done|]. intros [H _]. destruct (Ha H). }
  unfold call, request, sbind. destruct (env_answer (w_env w1) WaitAuthorization) as [b e2]. cbn [fst snd].
  destruct (yield lk_none _) as [[] w2]. unfold sret. cbn [fst snd].
  destruct (an_bool b); cbn [negb]; [|by split; [|intros (_ & ? & _)]].
  destruct (Z.eqb_spec (an_int b) 0) as [Hb|Hb]; cbn [negb]; [done|]. split; [done|]. intros (_ & _ & H). destruct (Hb H).
Qed.

(** *** An example: a refusal, then a success *)
Definition two_reports : list (list AuthReport) := [[]; [mkAuthReport 0 1]; [mkAuthReport 0 0]].
#[local] Instance ex_auth_codes : AuthCodes := { AUTHORIZATION_SUCCESS := 0; auth_success_no_error := eq_refl }.
Record Clerk : Type := mkClerk { ck_rounds : list (list AuthReport) }.
#[export] Instance clerk : Env Clerk := {|
  env_answer k r := (match r with WaitAuthorization => wait_answer (ck_rounds k) | _ => usb_answers r end, k);
  env_others k := (fun sh => sh, k);
  env_ERR_INVALID_DATA := 5;
|}.
#[export] Instance clerk_reports : AuthReports Clerk := {| auth_rounds := ck_rounds; auth_wait_answer k := eq_refl |}.
Definition ex_refused : World Clerk (VState unit) := World_initial ex_store (mkClerk two_reports).
Definition ex_consented : World Clerk (VState unit) := World_initial ex_store (mkClerk [[]; [mkAuthReport 0 0; mkAuthReport 7 7]]).
Lemma consent_is_first_report_witness :
  (CheckAdminAuthorization ex_refused).1 = E_PERMISSION_DENIED /\ (CheckAdminAuthorization ex_consented).1 = E_OK.
Proof.
  split; [vm_compute; reflexivity|].
  apply (proj2 (consent_is_first_report (AC := ex_auth_codes) (AR := clerk_reports) ex_consented)). split; [reflexivity|]. by exists [mkAuthReport 7 7].
Defined.
