(* ===== verification/EndToEnd.v ===== *)
(** * From the application to storage_daemon

    The parts put together: applications in processes of their own, each with a kit on top
    of a client library, one service, and the kernel and other processes around it. The
    class [SaMgr] the client library was verified against is discharged by the service:
    a call of the proxy runs the service's method. What the system ability manager and the
    IPC layer do besides (connecting, losing the service) stays a parameter: it is a
    [SaMgr] whose own [sm_call] is not used. *)
From stdpp Require Import relations.
From S2P Require Import Prelude CppString Types State Utils Json BlockInfo Voldata World Adapters DmQuery Events.
From S2P Require Import DmMount DmPartition DmOptical Bootstrap Provider Safety Seq MountFacts.
From S2P Require Import JsErrors Client ClientFacts Taihe TaiheFacts JsKit JsKitFacts.
From S2P Require Import VoldataStore Scenario Service.

(** The call of the service a call of the interface stands for. *)
Definition svc_call {A} (c : DmCall A) : ServiceCall :=
  match c with
  | DmMount volumeId mountParam => CMount volumeId mountParam
  | DmUnmount volumeId => CUnmount volumeId
  | DmFormat volumeId fsType => CFormat volumeId fsType
  | DmSetVolumeDescription fsUuid description => CSetVolumeDescription fsUuid description
  | DmGetAllVolumes => CGetAllVolumes
  | DmGetVolumeByUuid uuid => CGetVolumeByUuid uuid
  | DmGetVolumeById volumeId => CGetVolumeById volumeId
  | DmGetFreeSizeOfVolume volumeUuid => CGetFreeSizeOfVolume volumeUuid
  | DmGetTotalSizeOfVolume volumeUuid => CGetTotalSizeOfVolume volumeUuid
  | DmPartition diskId _ => CPartition diskId
  | DmGetAllDisks => CGetAllDisks
  | DmGetDiskById diskId => CGetDiskById diskId
  | DmGetExternalDiskInfos => CGetExternalDiskInfos
  | DmGetExternalVolumeInfos => CGetExternalVolumeInfos
  | DmErase volumeId => CErase volumeId
  | DmEject diskId => CEject diskId
  | DmCreateIsoImage volumeId filePath => CCreateIsoImage volumeId filePath
  | DmBurn volumeId burnOptions => CBurn volumeId burnOptions
  | DmGetVolumeOpProcess volumeId => CGetVolumeOpProcess volumeId 0
  | DmTryToFix volumeId => CTryToFix volumeId
  | DmQueryUsbIsInUse diskPath => CQueryUsbIsInUse diskPath
  | DmOnBlockDiskUevent rawUeventMsg => COnBlockDiskUevent rawUeventMsg
  | DmReportVolumeOpDiag opDiag => CReportVolumeOpDiag opDiag
  | DmNotifyMtpMounted id path desc uuid fsType => CNotifyMtpMounted id path desc uuid fsType
  | DmNotifyMtpUnmounted id isBadRemove => CNotifyMtpUnmounted id isBadRemove
  | DmGetPartitionTable diskId => CGetPartitionTable diskId
  | DmCreatePartition diskId params => CCreatePartition diskId params
  | DmDeletePartition diskId partitionNum => CDeletePartition diskId partitionNum
  | DmFormatPartition diskId partitionNum params => CFormatPartition diskId partitionNum params
  | DmBindBlockLoopDev sysPath offset sizeLimit => CBindBlockLoopDev sysPath offset sizeLimit
  | DmCreateDmCryptVolume param loopPath mapperName => CCreateDmCryptVolume param loopPath mapperName
  | DmDestroyDmCryptVolume mapperName => CDestroyDmCryptVolume mapperName
  | DmUnbindBlockLoopDev loopPath => CUnbindBlockLoopDev loopPath
  | DmMountVolumeByPath diskId volPath mountParam => CMountVolumeByPath diskId volPath mountParam
  | DmUmountVolumeByPath diskId volPath => CUmountVolumeByPath diskId volPath
  end.

Section system.
Context {E St : Type} {EV : Env E} {PS : PathStore St} {JT : JsonText}.
Context {X O Pr : Type} {SM : SaMgr X O Pr} {AT : AccessToken X}.
Context (PC_MANAGER : bool).
Notation W := (World E St).

(** ** The service behind the proxy

    An out parameter the method leaves alone keeps the stub's initial value. *)
Definition with_out {A} (dflt : A) (m : State W (Z * option A)) : State W (Z * A) :=
  let! r := m in sret (r.1, default dflt r.2).
Definition serve {A} (c : DmCall A) : State W A :=
  match c in DmCall A return State W A with
  | DmMount volumeId mountParam => Provider_Mount volumeId mountParam
  | DmUnmount volumeId => Provider_Unmount volumeId
  | DmFormat volumeId fsType => Provider_Format volumeId fsType
  | DmSetVolumeDescription fsUuid description => Provider_SetVolumeDescription fsUuid description
  | DmGetAllVolumes => with_out [] Provider_GetAllVolumes
  | DmGetVolumeByUuid uuid => with_out VolumeExternal_default (Provider_GetVolumeByUuid uuid)
  | DmGetVolumeById volumeId => with_out VolumeExternal_default (Provider_GetVolumeById volumeId)
  | DmGetFreeSizeOfVolume volumeUuid => with_out 0 (Provider_GetFreeSizeOfVolume volumeUuid)
  | DmGetTotalSizeOfVolume volumeUuid => with_out 0 (Provider_GetTotalSizeOfVolume volumeUuid)
  | DmPartition diskId _ => Provider_Partition diskId
  | DmGetAllDisks => with_out [] Provider_GetAllDisks
  | DmGetDiskById diskId => with_out Disk_default (Provider_GetDiskById diskId)
  | DmGetExternalDiskInfos => with_out [] Provider_GetExternalDiskInfos
  | DmGetExternalVolumeInfos => with_out [] Provider_GetExternalVolumeInfos
  | DmErase volumeId => Provider_Erase volumeId
  | DmEject diskId => Provider_Eject diskId
  | DmCreateIsoImage volumeId filePath => Provider_CreateIsoImage volumeId filePath
  | DmBurn volumeId burnOptions => Provider_Burn volumeId burnOptions
  | DmGetVolumeOpProcess volumeId => Provider_GetVolumeOpProcess volumeId 0
  | DmTryToFix volumeId => Provider_TryToFix volumeId
  | DmQueryUsbIsInUse diskPath => with_out false (Provider_QueryUsbIsInUse diskPath)
  | DmOnBlockDiskUevent rawUeventMsg => Provider_OnBlockDiskUevent rawUeventMsg
  | DmReportVolumeOpDiag opDiag => Provider_ReportVolumeOpDiag opDiag
  | DmNotifyMtpMounted id path desc uuid fsType => Provider_NotifyMtpMounted id path desc uuid fsType
  | DmNotifyMtpUnmounted id isBadRemove => Provider_NotifyMtpUnmounted id isBadRemove
  | DmGetPartitionTable diskId => with_out PartitionTableInfo_default (Provider_GetPartitionTable diskId)
  | DmCreatePartition diskId params => Provider_CreatePartition diskId params
  | DmDeletePartition diskId partitionNum => Provider_DeletePartition diskId partitionNum
  | DmFormatPartition diskId partitionNum params => Provider_FormatPartition diskId partitionNum params
  | DmBindBlockLoopDev sysPath offset sizeLimit => with_out "" (Provider_BindBlockLoopDev PC_MANAGER sysPath offset sizeLimit)
  | DmCreateDmCryptVolume param loopPath mapperName => Provider_CreateDmCryptVolume PC_MANAGER param loopPath mapperName
  | DmDestroyDmCryptVolume mapperName => Provider_DestroyDmCryptVolume PC_MANAGER mapperName
  | DmUnbindBlockLoopDev loopPath => Provider_UnbindBlockLoopDev PC_MANAGER loopPath
  | DmMountVolumeByPath diskId volPath mountParam => Provider_MountVolumeByPath PC_MANAGER diskId volPath mountParam
  | DmUmountVolumeByPath diskId volPath => Provider_UmountVolumeByPath PC_MANAGER diskId volPath
  end.
Lemma serve_step {A} (c : DmCall A) (w : W) : (serve c w).2 = (Service.run_call PC_MANAGER (svc_call c) w).2.
Proof.
  assert (Hout : forall B C D (m : State W B) (f : B -> C) (g : B -> D),
    ((let! x := m in sret (f x)) w).2 = ((let! x := m in sret (g x)) w).2) by (intros; unfold sbind; by destruct (m w)).
  assert (Hret : forall B D (m : State W B) (g : B -> D), (m w).2 = ((let! x := m in sret (g x)) w).2)
    by (intros; unfold sbind; by destruct (m w)).
  destruct c; cbn [serve svc_call Service.run_call]; first [apply Hret | apply Hout].
Qed.

(** The platform an application sees: the service and everything else. *)
Definition lift {A} (f : X -> A * X) (p : W * X) : A * (W * X) := let (a, x) := f p.2 in (a, (p.1, x)).
#[export] Instance service_samgr : SaMgr (W * X) O Pr := {
  sm_present := lift sm_present;
  sm_check := fun id => lift (sm_check id);
  sm_load := fun id => lift (sm_load id);
  sm_wait := fun timeoutMs => lift (sm_wait timeoutMs);
  sm_events := lift sm_events;
  sm_alloc := lift sm_alloc;
  sm_cast := fun o => lift (sm_cast o);
  sm_object := sm_object;
  sm_call := fun A _ c p => let (a, w) := serve c p.1 in (a, (w, p.2));
  sm_died := lift sm_died;
}.
#[export] Instance service_tokens : AccessToken (W * X) := {
  at_system_app := fun p => at_system_app p.2;
  at_granted := fun permission p => at_granted permission p.2;
}.
Notation C := (DiskManagerClient (W * X) O Pr).
Notation M := (State C).

(** *** A call of the client library on this platform *)
Definition service_of (c : C) : W := (cl_env c).1.
Definition same_service (c c' : C) : Prop := service_of c' = service_of c.
#[local] Instance same_service_preorder : PreOrder same_service.
Proof. split; [done|]. intros a b c Hab Hbc. unfold same_service in *. congruence. Qed.
Lemma Keeps_lift {A} (f : X -> A * X) : Keeps same_service (platform (lift f)).
Proof. intros c. unfold platform, lift, same_service, service_of. destruct c as [p r n [w x] ops]. cbn. by destruct (f x). Qed.
Lemma Keeps_set_service (f : C -> C) : (forall c, cl_env (f c) = cl_env c) -> Keeps same_service (smodify f).
Proof. intros H c. unfold same_service, service_of. cbn. by rewrite H. Qed.
Ltac service_tac :=
  repeat first
    [ keeps_step | apply Keeps_lift | apply Keeps_set_service; done
    | progress unfold log_op, CheckSystemAbility, LoadSystemAbility, WaitResult, late_events, new_recipient, set_proxy, set_recipient ].
Lemma InitProxyLocked_service object : Keeps same_service (InitProxyLocked object).
Proof. unfold InitProxyLocked. service_tac. Qed.
Lemma ConnectIfPresent_service : Keeps same_service ConnectIfPresent.
Proof. unfold ConnectIfPresent. repeat first [apply InitProxyLocked_service | service_tac]. Qed.
Lemma Connect_service : Keeps same_service Client_Connect.
Proof. unfold Client_Connect, load_service. repeat first [apply InitProxyLocked_service | service_tac]. Qed.
Lemma death_reports_service : Keeps same_service death_reports.
Proof. unfold death_reports, ResetProxy. service_tac. Qed.

(** The call runs the service's method, or it does not and the result is a refusal. *)
Definition served {A} (c : DmCall A) (old : A) (s : C) (r : A) (s' : C) : Prop :=
  serve c (service_of s) = (r, service_of s') \/
  (service_of s' = service_of s /\ exists err, connect_error err /\ refusal_of err A c old r).
Lemma forward_by_service conn {A} (fail : Z -> A) (c : DmCall A) s :
  Keeps same_service conn -> (forall s, wp conn (connected_or connect_error) s) ->
  wp (forward_by conn fail c) (fun r s' => serve c (service_of s) = (r, service_of s') \/
    (service_of s' = service_of s /\ exists err, connect_error err /\ r = fail err)) s.
Proof.
  intros Hk Hr. unfold forward_by, wp, sbind.
  assert (H1 := death_reports_service s). destruct (death_reports s) as [[] s1]. cbn in H1.
  assert (H2 := Hk s1). specialize (Hr s1). unfold wp in Hr. destruct (conn s1) as [r s2]. cbn in H2, Hr.
  assert (H3 := death_reports_service s2). destruct (death_reports s2) as [[] s3]. cbn in H3.
  assert (H : same_service s s3) by (do 2 (etransitivity; [eassumption|]); exact H3).
  destruct r as [err|p].
  - right. split; [exact H|]. by exists err.
  - left. unfold same_service, service_of in *. rewrite <- H.
    unfold call_proxy, log_op, platform, sbind, smodify. destruct s3 as [p3 r3 n3 [w x] ops3]. cbn.
    by destruct (serve c w).
Qed.
Lemma forward_by_served conn {A} (fail : Z -> A) (c : DmCall A) old s :
  Keeps same_service conn -> (forall s, wp conn (connected_or connect_error) s) ->
  (forall err, refusal_of err A c old (fail err)) -> wp (forward_by conn fail c) (served c old s) s.
Proof.
  intros Hk Hr Hf. eapply wp_mono; [|by apply forward_by_service].
  intros r s' [H|(H & err & He & ->)]; [by left|right]. split; [exact H|]. by exists err.
Qed.
Lemma run_call_served {A} (c : DmCall A) old s : wp (Client.run_call c old) (served c old s) s.
Proof.
  destruct c; cbn [Client.run_call];
    first [ apply (forward_by_served Client_Connect); [apply Connect_service|apply Connect_result|]
          | apply (forward_by_served ConnectIfPresent); [apply ConnectIfPresent_service|apply ConnectIfPresent_result|] ];
    intros err;
    first [apply refusal_of_plain | by apply refusal_of_out | apply refusal_of_inout
          | by apply refusal_of_list | by apply refusal_of_lookup].
Qed.
Lemma served_steps {A} (c : DmCall A) old s r s' :
  served c old s r s' -> rtc (service_step PC_MANAGER) (service_of s) (service_of s').
Proof.
  intros [H|[-> _]]; [|apply rtc_refl]. apply rtc_once.
  assert (Hw : service_of s' = (serve c (service_of s)).2) by (by rewrite H). rewrite Hw, serve_step. constructor.
Qed.

(** ** The system

    Every application is a client with what it sees of the platform; the service is one. *)
Context {V Ar : Type} {NE : NapiEnv V Ar} {DT Want R : Type} {TE : TaiheEnv (W * X) DT Want R} {LN : LibN} `{!EqDecision O}.
Notation App := (DiskManagerClient X O Pr).
Record System : Type := mkSystem { sys_service : W; sys_apps : list App }.
Definition attach (w : W) (c : App) : C :=
  mkClient (diskManager_ c) (deathRecipient_ c) (cl_next c) (w, cl_env c) (cl_ops c).
Definition detach (c : C) : App :=
  mkClient (diskManager_ c) (deathRecipient_ c) (cl_next c) (cl_env c).2 (cl_ops c).

(** What an application does: a call of the library, a function of one of the kits, or it
    learns that the service died. *)
Inductive AppWork : (C -> C) -> Prop :=
  | app_call A (c : DmCall A) (old : A) : AppWork (fun s => (Client.run_call c old s).2)
  | app_js (f : JsFn) (a : Ar) : AppWork (fun s => (js_run f a s).2)
  | app_taihe A (f : KitFn DT Want A) errors : AppWork (fun s => kit_client (kit_run f (mkKit s errors)).2)
  | app_died : AppWork (fun s => (ResetProxy s).2).
(** A step of the system: of an application, or of the service on behalf of a caller that
    uses neither library nor kit (storage_daemon, the kernel's events, its own timer). *)
Inductive sys_step : System -> System -> Prop :=
  | sys_app i c work w apps :
      apps !! i = Some c -> AppWork work ->
      let c' := work (attach w c) in sys_step (mkSystem w apps) (mkSystem (service_of c') (<[i := detach c']> apps))
  | sys_call call w apps : sys_step (mkSystem w apps) (mkSystem (Service.run_call PC_MANAGER call w).2 apps).

(** Each application either leaves the service alone or has it run one of its methods, and
    keeps the invariant of its connection. *)
Lemma app_work_ok work (c : C) : AppWork work ->
  rtc (service_step PC_MANAGER) (service_of c) (service_of (work c)) /\ (client_inv c -> client_inv (work c)).
Proof.
  assert (Hcall : forall A (call : DmCall A) old c,
    rtc (service_step PC_MANAGER) (service_of c) (service_of (Client.run_call call old c).2) /\
    (client_inv c -> client_inv (Client.run_call call old c).2)).
  { intros A call old c0. split; [|apply client_call_inv].
    assert (H := run_call_served call old c0). unfold wp in H. by eapply served_steps. }
  destruct 1 as [A call old|f a|A f errors|].
  - apply Hcall.
  - destruct (js_run_outcome f a c) as [(r & -> & _)|(B & call & old & _ & _ & H)]; [by split; [apply rtc_refl|]|].
    specialize (Hcall B call old c). destruct (Client.run_call call old c) as [r c1]. by rewrite H.
  - assert (H := kit_run_outcome f (mkKit c errors)). unfold wp in H.
    destruct H as [(code & _ & ->)|(B & call & old & _ & H)]; [by split; [apply rtc_refl|]|].
    cbn in H. specialize (Hcall B call old c). destruct (Client.run_call call old c) as [r c1]. by rewrite H.
  - split; [|apply ResetProxy_inv]. assert (H : Keeps same_service ResetProxy) by (unfold ResetProxy; service_tac).
    specialize (H c). unfold same_service in H. rewrite H. apply rtc_refl.
Qed.
Lemma sys_step_ok s s' : sys_step s s' ->
  rtc (service_step PC_MANAGER) (sys_service s) (sys_service s') /\
  (Forall client_inv (sys_apps s) -> Forall client_inv (sys_apps s')).
Proof.
  destruct 1 as [i c work w apps Hi Hw c'|call w apps]; cbn.
  - destruct (app_work_ok work (attach w c) Hw) as [Hs Hc]. split; [exact Hs|]. intros HF.
    apply Forall_insert; [exact HF|]. apply Hc. by apply (Forall_lookup_1 _ _ i c) in HF.
  - split; [apply rtc_once; constructor|done].
Qed.
Lemma sys_steps_ok s s' : rtc sys_step s s' ->
  rtc (service_step PC_MANAGER) (sys_service s) (sys_service s') /\
  (Forall client_inv (sys_apps s) -> Forall client_inv (sys_apps s')).
Proof.
  induction 1 as [s|s1 s2 s3 H12 _ [Hr Hc]]; [by split; [apply rtc_refl|]|]. apply sys_step_ok in H12 as [Hr1 Hc1].
  split; [by transitivity (sys_service s2)|auto].
Qed.
Lemma sys_calls cs w apps : rtc sys_step (mkSystem w apps) (mkSystem (run_calls PC_MANAGER cs w) apps).
Proof. revert w. induction cs as [|c cs IH]; intros w; [apply rtc_refl|]. eapply rtc_l; [apply (sys_call c)|apply IH]. Qed.
Definition sys_initial (st : St) (e : E) (envs : list X) : System := mkSystem (World_initial st e) (map fresh_client envs).

(** ** A call of the kit, to its end *)
Lemma js_run_served (f : JsFn) (a : Ar) (c : C) :
  let (out, c') := js_run f a c in
  (exists refusal, out = JsRefused refusal /\ c' = c) \/
  (exists B (call : DmCall B) (old r : B),
     js_call f a B call /\ js_allowed f (cl_env c) = true /\ served call old c r c' /\
     out = JsSettled (js_callback f a)
             (if ret_code call r =? NativeErr.E_OK then inr (js_value call r) else inl (js_error f (ret_code call r)))).
Proof.
  destruct (js_run_outcome f a c) as [(r & -> & _)|(B & call & old & Hc & Ha & H)]; [left; by exists r|].
  assert (Hs := run_call_served call old c). unfold wp in Hs. destruct (Client.run_call call old c) as [r c1]. rewrite H.
  right. by exists B, call, old, r.
Qed.

(** A call is determined by what it was read off to be. *)
Lemma call_is {B D} (c : DmCall B) (d : DmCall D) (G : forall B, DmCall B -> Prop) : existT B c = existT D d -> G D d -> G B c.
Proof. intros H Hd. change (G (projT1 (existT B c)) (projT2 (existT B c))). by rewrite H. Qed.

(** What a kit that settles with a value knows of the service. *)
Definition js_settles_served {B} (call : DmCall B) (c c' : C) (value : JsValue) : Prop :=
  exists r, serve call (service_of c) = (r, service_of c') /\ ret_code call r = NativeErr.E_OK /\ value = js_value call r.
Lemma connect_error_not_ok err : connect_error err -> err <> NativeErr.E_OK.
Proof. by intros [->|[->| ->]]. Qed.
Lemma forwarded_served conn {B} (call : DmCall B) (fail : Z -> B) (c : C) :
  Keeps same_service conn -> (forall s, wp conn (connected_or connect_error) s) ->
  (forall err, connect_error err -> ret_code call (fail err) <> NativeErr.E_OK) ->
  let (r, c') := forward_by conn fail call c in
  ret_code call r = NativeErr.E_OK -> js_settles_served call c c' (js_value call r).
Proof.
  intros Hk Hc Hf. assert (H := forward_by_service conn fail call c Hk Hc). unfold wp in H.
  destruct (forward_by conn fail call c) as [r c']. intros Hr.
  destruct H as [H|(_ & err & He & Hq)]; cbn [fst snd] in *; [by exists r|]. subst r. by apply Hf in Hr.
Qed.
(** A call that is not a query of a list succeeds only when the service answered it. *)
Lemma run_call_ok_served {B} (call : DmCall B) old (c : C) :
  manner call <> ListQuery ->
  let (r, c') := Client.run_call call old c in
  ret_code call r = NativeErr.E_OK -> js_settles_served call c c' (js_value call r).
Proof.
  intros Hm. destruct call; try by destruct Hm.
  all: first [ apply (forwarded_served Client_Connect); [apply Connect_service|apply Connect_result|]
             | apply (forwarded_served ConnectIfPresent); [apply ConnectIfPresent_service|apply ConnectIfPresent_result|] ].
  all: intros err He; try exact (connect_error_not_ok err He).
  all: cbn [ret_code fst]; destruct (err =? NativeErr.E_SERVICE_IS_NULLPTR); [done|by apply connect_error_not_ok].
Qed.
Definition list_query (f : JsFn) : bool :=
  match f with JGetAllVolumes | JGetAllDisks | JGetExternalDiskInfos | JGetExternalVolumeInfos => true | _ => false end.
Lemma js_call_manner f a B (call : DmCall B) : js_call (A := Ar) f a B call -> list_query f = false -> manner call <> ListQuery.
Proof.
  intros Hc Hf.
  destruct f; try discriminate Hf; cbn in Hc;
    repeat match type of Hc with ex _ => destruct Hc as [? Hc] | _ /\ _ => destruct Hc as [_ Hc] end;
    by apply (call_is _ _ (fun _ call => manner call <> ListQuery) Hc).
Qed.
Lemma js_resolves f (a : Ar) (c c' : C) cb value :
  list_query f = false -> js_run f a c = (JsSettled cb (inr value), c') ->
  exists B (call : DmCall B), js_call f a B call /\ js_allowed f (cl_env c) = true /\ js_settles_served call c c' value.
Proof.
  intros Hf Hrun. destruct (js_run_outcome f a c) as [(r & H & _)|(B & call & old & Hc & Ha & H)].
  - rewrite Hrun in H. discriminate H.
  - assert (Hs := run_call_ok_served call old c (js_call_manner f a B call Hc Hf)).
    destruct (Client.run_call call old c) as [r c1]. rewrite Hrun in H. exists B, call. split; [done|]. split; [done|].
    destruct (Z.eqb_spec (ret_code call r) NativeErr.E_OK) as [Hok|]; [|discriminate H].
    injection H as _ -> ->. by apply Hs.
Qed.

Section sequential.
Context {SQ : Sequential E}.

(** *** Mounting *)
Definition mount_done (id : string) (p : MountParam) (w w' : W) : Prop :=
  exists v, sh_vols (w_sh w) !! id = Some v /\ mountable_state (vol_state v) = true /\ touches id (w_sh w) (w_sh w') /\
    ((w_sh w' = w_sh w /\ grows is_local (w_trace w) (w_trace w') /\ taken_over p v (w_sh w) (w_trace w) (w_trace w')) \/
     exists v', sh_vols (w_sh w') !! id = Some v' /\ mounted_as v v' (w_trace w) (w_trace w')).
Lemma auth_manager_local p : local_op (E := E) (St := St) (auth_manager p).
Proof. local_tac. Qed.
(** A local check leaves everything but the trace alone. *)
Lemma local_run {A} (m : State W A) (w : W) : local_op m -> w_sh (m w).2 = w_sh w /\ grows is_local (w_trace w) (w_trace (m w).2).
Proof.
  intros Hm. apply (runs_run m (fun _ sh' _ tr' => sh' = w_sh w /\ grows is_local (w_trace w) tr')). apply Hm. by intros.
Qed.
Lemma Provider_Mount_done id p (w : W) :
  starts_with "vol-crypt-" id = false -> (forall v, sh_vols (w_sh w) !! id = Some v -> vol_id v = id) ->
  (Provider_Mount id p w).1 = E_OK -> mount_done id p w (Provider_Mount id p w).2.
Proof.
  intros Hcrypt Hid. unfold Provider_Mount, guarded, sbind.
  destruct (local_run (auth_manager PERMISSION_MOUNT_MANAGER) w (auth_manager_local _)) as [Hs Hg].
  destruct (auth_manager PERMISSION_MOUNT_MANAGER w) as [err w1]. cbn [fst snd] in *.
  destruct (negb (err =? E_OK)) eqn:He; bsimp; [by intros|]. destruct (negb (IsVolumeIdValid id)); [done|].
  intros Hok. assert (H := Mount_outcome_holds id p w1 Hcrypt). rewrite Hs in H. specialize (H Hid). rewrite Hok in H.
  unfold mount_outcome in H. rewrite Hs in H. unfold mount_done. destruct (sh_vols (w_sh w) !! id) as [v|]; [|by destruct H].
  exists v. destruct (mountable_state (vol_state v)); [|by destruct H as [[?|?] _]].
  destruct H as [Ht H]. split; [done|]. split; [done|]. split; [done|].
  destruct (H eq_refl) as [(Hsame & Hg' & Ho)|(v' & Hv' & Hm)]; [left|right].
  - split; [done|]. split; [by transitivity (w_trace w1)|]. by eapply taken_over_before.
  - exists v'. split; [done|]. by eapply mounted_as_before.
Qed.

(** *** Looking a volume up *)
Lemma Provider_GetVolumeById_found id (w : W) :
  let (r, w') := serve (DmGetVolumeById id) w in
  r.1 = NativeErr.E_OK -> sh_vols (w_sh w) !! id = Some r.2 /\ w_sh w' = w_sh w.
Proof.
  cbn [serve]. unfold with_out, Provider_GetVolumeById, guarded, sbind.
  destruct (local_run (auth_manager PERMISSION_STORAGE_MANAGER) w (auth_manager_local _)) as [Hs _].
  destruct (auth_manager PERMISSION_STORAGE_MANAGER w) as [err w1]. cbn [fst snd] in *.
  destruct (negb (err =? E_OK)) eqn:He; cbn; bsimp; [by intros|]. destruct (negb (IsVolumeIdValid id)); [done|].
  unfold GetVolumeById, get_vols, get_sh, sget, sbind, sret. cbn. rewrite Hs.
  by destruct (sh_vols (w_sh w) !! id) as [v|].
Qed.
End sequential.

(** * Properties *)

(** C14: An application calls a function of the JavaScript kit, and the call goes all the
    way: through the kit, the client library and the service. Either the kit refuses
    it and nothing happens, or the caller may use the function and exactly the call read
    off its arguments is served: the service runs the one method it stands for, with
    these arguments and nothing else, and the promise or callback settles with its answer; or
    the service could not be reached, is unchanged, and the application gets the
    connection's error, or what a query answers then. *)
Theorem js_call_end_to_end (f : JsFn) (a : Ar) (c : C) :
  let (out, c') := js_run f a c in
  (exists refusal, out = JsRefused refusal /\ c' = c) \/
  (exists B (call : DmCall B) (old r : B),
     js_call f a B call /\ js_allowed f (cl_env c) = true /\
     (serve call (service_of c) = (r, service_of c') \/
      (service_of c' = service_of c /\ exists err, connect_error err /\ refusal_of err B call old r)) /\
     out = JsSettled (js_callback f a)
             (if ret_code call r =? NativeErr.E_OK then inr (js_value call r) else inl (js_error f (ret_code call r)))).
Proof. exact (js_run_served f a c). Qed.

(** C5: When [mount] of the JavaScript kit resolves, the caller is a system application,
    and, for a volume whose id does not start with ["vol-crypt-"] and while no other thread of the
    service runs in between, the volume is mounted: it was known to the service and in a
    state a mount starts from, and now either storage_daemon has mounted its device, during this
    call, at the path that its entry, in state [MOUNTED], records; or device management
    took the mount over, its service having been told about the volume during
    this call and having answered yes, and nothing has changed. No other volume's entry has changed.
    The tables are well formed at the start, as they are in every reachable state. *)
Theorem js_mount_resolves {SQ : Sequential E} (a : Ar) (c c' : C) cb value :
  SharedInv (w_sh (service_of c)) -> js_run JMount a c = (JsSettled cb (inr value), c') ->
  exists id, utf8 (nf_arg a 0) = Some id /\ IsSystemApp (cl_env c) = true /\
    (starts_with "vol-crypt-" id = false -> mount_done id MountParam_default (service_of c) (service_of c')).
Proof.
  intros (_ & Hv & _) Hrun. destruct (js_resolves JMount a c c' cb value eq_refl Hrun) as (B & call & (id & Hid & Hc) & Ha & Hs).
  exists id. split; [done|]. split; [done|]. intros Hcrypt. revert Hs.
  apply (call_is _ _ (fun _ call => js_settles_served call c c' value -> mount_done id MountParam_default (service_of c) (service_of c')) Hc).
  intros (r & Hr & Hok & _). cbn in Hr, Hok. subst r. destruct (Provider_Mount_done id MountParam_default (service_of c) Hcrypt) as (v & H).
  - intros v H. by apply (Hv id v).
  - by rewrite Hr.
  - exists v. by rewrite Hr in H.
Qed.

(** When [getVolumeById] of the JavaScript kit resolves, it is with the volume as the
    service's table has it, and the tables are as before. *)
Theorem js_getVolumeById_resolves {SQ : Sequential E} (a : Ar) (c c' : C) cb value :
  js_run JGetVolumeById a c = (JsSettled cb (inr value), c') ->
  exists id v, utf8 (nf_arg a 0) = Some id /\ sh_vols (w_sh (service_of c)) !! id = Some v /\
    value = FillVolumeJSObject v /\ w_sh (service_of c') = w_sh (service_of c).
Proof.
  intros Hrun. destruct (js_resolves JGetVolumeById a c c' cb value eq_refl Hrun) as (B & call & (id & Hid & Hc) & _ & Hs).
  exists id. revert Hs. apply (call_is _ _ (fun _ call => js_settles_served call c c' value -> exists v, _) Hc).
  intros (r & Hr & Hok & ->). assert (H := Provider_GetVolumeById_found id (service_of c)). rewrite Hr in H.
  destruct (H Hok) as [Hv Hsame]. by exists r.2.
Qed.

(** C4: Whatever any number of applications do, in any order, through the client library or
    either kit, and whatever the kernel, storage_daemon and other processes do in
    between: every request the root daemon got satisfies [req_safe], the tables of the
    service are well formed, and each application holds a proxy exactly when it
    holds its registration for the service's death. *)
Theorem system_safe {PL : PathStoreLaws St} {RL : Rely E} (st : St) (e : E) (envs : list X) (s : System) :
  ps_inv st -> rtc sys_step (sys_initial st e envs) s ->
  (forall r ret, AReq r ret ∈ w_trace (sys_service s) -> req_safe r) /\
  SharedInv (w_sh (sys_service s)) /\ Forall client_inv (sys_apps s).
Proof.
  intros Hst Hr. apply sys_steps_ok in Hr as [Hr Hc]. cbn in Hr.
  destruct (service_steps_inv _ _ _ (WInv_initial st e Hst) Hr) as (Hsh & _ & Ht).
  split; [|split; [exact Hsh|]].
  - intros r ret Hin. rewrite Forall_forall in Ht. exact (Ht _ Hin).
  - apply Hc. cbn. apply Forall_fmap, Forall_true. intros env. apply fresh_client_inv.
Qed.
End system.

(** ** An example: one application, and a stick that is plugged in

    The service of [Scenario]; values of the application are strings and the arguments of a
    call a list. The service runs from the start, and every caller is a system application. *)
Section example.
#[local] Instance ex_samgr : SaMgr unit unit unit := {
  sm_present x := (true, x); sm_check _ x := (Some tt, x); sm_load _ x := (0, x); sm_wait _ x := ([], x);
  sm_events x := ([], x); sm_alloc x := (true, x); sm_cast _ x := (Some tt, x); sm_object _ := Some tt;
  sm_call A _ c x := (demo_answer c, x); sm_died x := (false, x) }.
#[local] Hint Extern 0 (SaMgr (World Answers (VState unit) * unit) unit unit) => exact (service_samgr true) : typeclass_instances.
#[local] Instance ex_tokens : AccessToken unit := { at_system_app _ := true; at_granted _ _ := true }.
#[local] Instance ex_napi : NapiEnv string (list string) := {
  nf_init := fun lo hi a => (lo <=? List.length a)%nat && (List.length a <=? hi)%nat;
  nf_argc := @List.length string; nf_arg := fun a i => a !! i; nv_utf8 := fun v => v; nv_int32 := fun _ => None; nv_int64 := fun _ => None;
  nv_bool := fun _ => None; nv_prop := fun _ _ => None; na_is_object := fun _ => false; na_has := fun _ _ => None;
  na_get := fun _ _ => None; na_get_bool := fun _ => None }.
#[local] Instance ex_taihe : TaiheEnv (ExWorld * unit) Z unit unit := {
  te_disk_type := id; te_has_env _ := true; te_parameters _ := None; te_json_class _ := true; te_stringify_method _ := true;
  te_stringify _ := None }.
#[local] Instance ex_libn : LibN := { UNKROWN_ERR := 0; uv_err_name _ := None; uvCode2ErrCodeTable _ := None }.

Definition ex_plugged : list ServiceCall := [COnBlockDiskUevent usb_uevent; CUnmount "vol-8-1"].
Definition ex_world : ExWorld := run_calls true ex_plugged (World_initial ex_store usb_answers).
Definition ex_app : DiskManagerClient unit unit unit := fresh_client tt.
Notation ex_run f := (js_run (O := unit) (Pr := unit) f ["vol-8-1"] (attach ex_world ex_app)).
Lemma ex_world_inv : SharedInv (w_sh ex_world).
Proof. apply (service_steps_inv true _ _ (WInv_initial ex_store usb_answers ex_store_inv)), run_calls_steps. Qed.
Lemma ex_run_settles f value : (ex_run f).1 = JsSettled None (inr value) -> ex_run f = (JsSettled None (inr value), (ex_run f).2).
Proof. intros H. rewrite <- H. apply surjective_pairing. Qed.

Lemma js_mount_resolves_witness :
  (ex_run JMount).1 = JsSettled None (inr JsUndefined) /\
  is_mounted (service_of (ex_run JMount).2) "vol-8-1" = Some (VolumeState_val MOUNTED, "/mnt/data/external/1234-ABCD") /\
  exists id, utf8 (nf_arg ["vol-8-1"] 0) = Some id /\ IsSystemApp (cl_env (attach ex_world ex_app)) = true /\
    (starts_with "vol-crypt-" id = false -> mount_done id MountParam_default (service_of (attach ex_world ex_app)) (service_of (ex_run JMount).2)).
Proof.
  assert (H : (ex_run JMount).1 = JsSettled None (inr JsUndefined)) by (vm_compute; reflexivity).
  split; [exact H|]. split; [vm_compute; reflexivity|].
  exact (js_mount_resolves true ["vol-8-1"] (attach ex_world ex_app) (ex_run JMount).2 None JsUndefined ex_world_inv (ex_run_settles JMount JsUndefined H)).
Defined.
Lemma js_getVolumeById_resolves_witness :
  exists value, (ex_run JGetVolumeById).1 = JsSettled None (inr value) /\
    exists id v, utf8 (nf_arg ["vol-8-1"] 0) = Some id /\ sh_vols (w_sh (service_of (attach ex_world ex_app))) !! id = Some v /\
      value = FillVolumeJSObject v /\ w_sh (service_of (ex_run JGetVolumeById).2) = w_sh (service_of (attach ex_world ex_app)).
Proof.
  set (value := match (ex_run JGetVolumeById).1 with JsSettled _ (inr v) => v | _ => JsUndefined end). exists value.
  assert (H : (ex_run JGetVolumeById).1 = JsSettled None (inr value)) by (vm_compute; reflexivity). split; [exact H|].
  exact (js_getVolumeById_resolves true ["vol-8-1"] (attach ex_world ex_app) (ex_run JGetVolumeById).2 None value (ex_run_settles JGetVolumeById value H)).
Defined.

(** The stick is plugged in and its volume unmounted; then the application mounts it. *)
Definition ex_start := sys_initial (O := unit) (Pr := unit) ex_store usb_answers [tt].
Definition ex_end :=
  let c' := (ex_run JMount).2 in mkSystem (service_of c') (<[0%nat := detach c']> [ex_app]).
Lemma ex_sys_steps : rtc (sys_step true) ex_start ex_end.
Proof.
  transitivity (mkSystem ex_world [ex_app]); [exact (sys_calls true ex_plugged (World_initial ex_store usb_answers) [ex_app])|].
  apply rtc_once. exact (sys_app true 0 ex_app _ ex_world [ex_app] eq_refl (app_js true JMount ["vol-8-1"])).
Qed.
Lemma system_safe_witness :
  AReq ex_mount 0 ∈ w_trace (sys_service ex_end) /\ req_safe ex_mount /\ Forall client_inv (sys_apps ex_end).
Proof.
  assert (H : AReq ex_mount 0 ∈ w_trace (sys_service ex_end)).
  { apply list_elem_of_In. vm_compute. tauto. }
  destruct (system_safe true ex_store usb_answers [tt] ex_end ex_store_inv ex_sys_steps) as (Hs & _ & Hc).
  split; [exact H|]. split; [exact (Hs _ _ H)|exact Hc].
Defined.
End example.
